(** * SRT subtitle processor: a shallow embedding and its properties

    The development follows the Python sources of [srt_processor]:
    - [models/subtitle.py]   (TimeCode, SubtitleBlock, SRTDocument, ProcessingConfig)
    - [core/parser.py]       (SRTParser)
    - [core/language_detector.py] (LanguageDetector)
    - [core/processor.py]    (SRTProcessor)
    - [processors/chinese.py], [english.py], [korean.py] (line engines)

    Python values are modelled as follows.
    - A [str] is the list of its Unicode code points ([N]).
    - An [int] is a [Z]; a [timedelta] is its total number of microseconds.
    - A [float] is idealised as an exact rational ([Q]) where the
      sources use floats for scores, ratios and reading speeds; the
      [float] of [total_seconds], whose rounding shows in a written
      time, is a double with the rounding of the division.
    - Exceptions are the [Err] results of the type [result].
    - The only object that is mutated and shared with the caller is the
      [ProcessingConfig]; it is threaded through the pipeline as state.

    The embedding of the sources comes first, then the inputs and the
    predicates that the properties are stated with, then the properties
    and their proofs. *)

From Stdlib Require Import String Ascii.
From Stdlib Require Import List ZArith NArith QArith Bool Lia Arith Zpow_facts.
From Stdlib Require Import Lqa Sorted Permutation.
From Equations Require Import Equations.
Import ListNotations.

Set Implicit Arguments.
Open Scope N_scope.

(** ** Code points and strings *)

Definition char := N.
Definition str := list char.

(** An ASCII literal as a Python string. *)
Definition lit (s : string) : str :=
  map N_of_ascii (list_ascii_of_string s).

Definition str_eqb (a b : str) : bool :=
  if list_eq_dec N.eq_dec a b then true else false.

Definition in_range (lo hi c : N) : bool := (lo <=? c) && (c <=? hi).

Definition char_in (c : char) (set : str) : bool := existsb (N.eqb c) set.

(** Named code points that the sources spell out. *)
Definition NL : char := 10.          (* "\n" *)
Definition SPACE : char := 32.       (* " " *)
Definition DASH : char := 45.        (* "-" *)
Definition MUSIC_NOTE : char := 9834.     (* U+266A, the eighth note *)
Definition MUSICAL_NOTE : char := 127925. (* U+1F3B5 *)
Definition MULTIPLE_NOTES : char := 127926. (* U+1F3B6 *)

(** ** The built-in string operations of Python used by the sources *)

Module Py.

(** [str.isspace] on one code point (Unicode 14, CPython 3.11):
    bidirectional class WS, B or S, or general category Zs. *)
Definition isspace (c : char) : bool :=
  in_range 9 13 c || in_range 28 32 c || (c =? 133) || (c =? 160)
  || (c =? 5760) || in_range 8192 8202 c || in_range 8232 8233 c
  || (c =? 8239) || (c =? 8287) || (c =? 12288).

(** The code points of the digit zero of every decimal-digit block
    (general category Nd); each is followed by the digits one to nine. *)
Definition decimal_zeros : list N :=
  [48; 1632; 1776; 1984; 2406; 2534; 2662; 2790; 2918; 3046; 3174; 3302;
   3430; 3558; 3664; 3792; 3872; 4160; 4240; 6112; 6160; 6470; 6608; 6784;
   6800; 6992; 7088; 7232; 7248; 42528; 43216; 43264; 43472; 43504; 43600;
   44016; 65296; 66720; 68912; 69734; 69872; 69942; 70096; 70384; 70736;
   70864; 71248; 71360; 71472; 71904; 72016; 72784; 73040; 73120; 92768;
   92864; 93008; 120782; 120792; 120802; 120812; 120822; 123200; 123632;
   125264; 130032].

Fixpoint decimal_lookup (zs : list N) (c : char) : option N :=
  match zs with
  | [] => None
  | z :: zs' =>
      if (z <=? c) && (c <? z + 10) then Some (c - z)
      else decimal_lookup zs' c
  end.

(** The decimal value of a code point of category Nd
    ([unicodedata.decimal], [Py_UNICODE_TODECIMAL]). *)
Definition decimal_value (c : char) : option N :=
  decimal_lookup decimal_zeros c.

(** What the regular expression class [\d] matches, and [str.isdecimal]. *)
Definition isdecimal (c : char) : bool :=
  match decimal_value c with Some _ => true | None => false end.

(** Code points with Numeric_Type=Digit that are not decimal
    (superscripts, circled digits and the like). *)
Definition other_digit_ranges : list (N * N) :=
  [(178, 179); (185, 185); (4969, 4977); (6618, 6618); (8304, 8304);
   (8308, 8313); (8320, 8329); (9312, 9320); (9332, 9340); (9352, 9360);
   (9450, 9450); (9461, 9469); (9471, 9471); (10102, 10110);
   (10112, 10120); (10122, 10130); (68160, 68163); (69216, 69224);
   (69714, 69722); (127232, 127242)].

(** [str.isdigit] on one code point. *)
Definition isdigit_char (c : char) : bool :=
  isdecimal c || existsb (fun r => in_range (fst r) (snd r) c) other_digit_ranges.

(** [s.isdigit()]: every character is a digit and there is at least one. *)
Definition isdigit (s : str) : bool :=
  match s with
  | [] => false
  | _ => forallb isdigit_char s
  end.

Fixpoint dropwhile (p : char -> bool) (s : str) : str :=
  match s with
  | [] => []
  | c :: t => if p c then dropwhile p t else s
  end.

(** [s.lstrip()], [s.rstrip()] and [s.strip()] without arguments. *)
Definition lstrip (s : str) : str := dropwhile isspace s.
Definition rstrip (s : str) : str := rev (dropwhile isspace (rev s)).
Definition strip (s : str) : str := lstrip (rstrip s).

(** [s.strip(chars)]. *)
Definition strip_chars (chars s : str) : str :=
  dropwhile (fun c => char_in c chars)
    (rev (dropwhile (fun c => char_in c chars) (rev s))).

Fixpoint startswith (s p : str) : bool :=
  match p, s with
  | [], _ => true
  | _ :: _, [] => false
  | a :: p', b :: s' => (a =? b) && startswith s' p'
  end.

Definition endswith (s p : str) : bool := startswith (rev s) (rev p).

(** [sep.join(parts)]. *)
Fixpoint join (sep : str) (parts : list str) : str :=
  match parts with
  | [] => []
  | [p] => p
  | p :: rest => p ++ sep ++ join sep rest
  end.

(** [s.split(sep)] for a non-empty separator: leftmost, non-overlapping
    occurrences.  [skip] counts the characters of a separator that has
    just been recognised and are still to be passed over; [cur] holds the
    current piece in reverse. *)
Fixpoint split_go (sep s : str) (skip : nat) (cur : str) : list str :=
  match s with
  | [] => [rev cur]
  | c :: t =>
      match skip with
      | S k => split_go sep t k cur
      | O =>
          if startswith s sep
          then rev cur :: split_go sep t (length sep - 1) []
          else split_go sep t 0 (c :: cur)
      end
  end.

Definition split (sep s : str) : list str := split_go sep s 0 [].

(** [s.split()] without arguments: maximal runs of non-space characters. *)
Fixpoint split_ws_go (s : str) (cur : str) : list str :=
  match s with
  | [] => match cur with [] => [] | _ => [rev cur] end
  | c :: t =>
      if isspace c
      then match cur with
           | [] => split_ws_go t []
           | _ => rev cur :: split_ws_go t []
           end
      else split_ws_go t (c :: cur)
  end.

Definition split_ws (s : str) : list str := split_ws_go s [].

(** [s.replace(" ", "")] and the like: delete every occurrence of one
    character. *)
Definition remove_char (c : char) (s : str) : str :=
  filter (fun x => negb (x =? c)) s.

(** [s.find(sub)]: the lowest index where [sub] occurs, or [-1]. *)
Fixpoint find_go (s sub : str) (i : Z) : Z :=
  if startswith s sub then i
  else match s with
       | [] => (-1)%Z
       | _ :: t => find_go t sub (i + 1)%Z
       end.

Definition find (s sub : str) : Z := find_go s sub 0%Z.

(** Slices [s[:i]] and [s[i:]] with Python's treatment of negative and
    out-of-range bounds. *)
Definition slice_index (s : str) (i : Z) : nat :=
  if (i <? 0)%Z then Z.to_nat (Z.max 0 (Z.of_nat (length s) + i))
  else Z.to_nat i.

Definition slice_to (s : str) (i : Z) : str := firstn (slice_index s i) s.
Definition slice_from (s : str) (i : Z) : str := skipn (slice_index s i) s.

(** [len(s)] as a Python int. *)
Definition len (s : str) : Z := Z.of_nat (length s).

(** *** [str(n)] and zero-padded formatting *)

Fixpoint digits_of (fuel : nat) (n : N) (acc : str) : str :=
  match fuel with
  | O => acc
  | S f =>
      let acc' := (48 + n mod 10) :: acc in
      if n <? 10 then acc' else digits_of f (n / 10) acc'
  end.

(** The decimal digits of a natural number; the number of binary digits
    bounds the number of decimal ones. *)
Definition str_of_N (n : N) : str := digits_of (S (N.size_nat n)) n [].

(** [str(z)]. *)
Definition str_of_Z (z : Z) : str :=
  match z with
  | Zneg p => DASH :: str_of_N (Npos p)
  | _ => str_of_N (Z.to_N z)
  end.

(** [f"{z:0wd}"]: sign first, then zeros up to the width [w]. *)
Definition zero_pad (w : nat) (z : Z) : str :=
  let ds := str_of_N (Z.abs_N z) in
  match z with
  | Zneg _ => DASH :: repeat 48 (w - 1 - length ds) ++ ds
  | _ => repeat 48 (w - length ds) ++ ds
  end.

(** *** [int(s)] *)

(** [_PyUnicode_TransformDecimalAndSpaceToASCII]: code points below 127
    stay, other white space becomes a space, other decimal digits become
    ASCII digits, and anything else makes the conversion fail. *)
Definition to_ascii_char (c : char) : option char :=
  if c <? 127 then Some c
  else if isspace c then Some SPACE
  else match decimal_value c with
       | Some d => Some (48 + d)
       | None => None
       end.

Fixpoint to_ascii_decimal (s : str) : option str :=
  match s with
  | [] => Some []
  | c :: t =>
      match to_ascii_char c, to_ascii_decimal t with
      | Some x, Some t' => Some (x :: t')
      | _, _ => None
      end
  end.

(** [Py_ISSPACE]: the white space of the C locale. *)
Definition c_isspace (c : char) : bool := in_range 9 13 c || (c =? 32).

Inductive int_state := IntStart | IntAfterDigit | IntAfterUnderscore.

(** The digits of a base-10 literal: single underscores are allowed
    between digits only.  Returns the value and what follows. *)
Fixpoint int_body (s : str) (acc : Z) (st : int_state) : option (Z * str) :=
  match s with
  | [] => match st with IntAfterDigit => Some (acc, []) | _ => None end
  | c :: t =>
      if in_range 48 57 c
      then int_body t (10 * acc + Z.of_N (c - 48))%Z IntAfterDigit
      else if c =? 95
      then match st with
           | IntAfterDigit => int_body t acc IntAfterUnderscore
           | _ => None
           end
      else match st with
           | IntAfterDigit => Some (acc, s)
           | _ => None
           end
  end.

(** [int(s)] in base 10; [None] stands for [ValueError]. *)
Definition int (s : str) : option Z :=
  match to_ascii_decimal s with
  | None => None
  | Some a =>
      let a1 := dropwhile c_isspace a in
      let '(sign, a2) :=
        match a1 with
        | c :: r =>
            if c =? 43 then (1%Z, r)
            else if c =? 45 then ((-1)%Z, r)
            else (1%Z, a1)
        | [] => (1%Z, a1)
        end in
      match int_body a2 0%Z IntStart with
      | Some (v, rest) =>
          match dropwhile c_isspace rest with
          | [] => Some (sign * v)%Z
          | _ => None
          end
      | None => None
      end
  end.

(** *** [str(Path(p))]

    On POSIX.  The slashes at the start make the root: one slash, or
    two when there are just two of them.  The parts between slashes that
    are neither empty nor a lone dot follow, joined by slashes; two dots
    are kept.  When nothing is left the text is a dot. *)
Definition Path_str (p : str) : str :=
  let rel := dropwhile (N.eqb 47) p in
  let slashes := (length p - length rel)%nat in
  let root :=
    if (slashes =? 0)%nat then []
    else if (slashes =? 2)%nat then [47; 47] else [47] in
  let parts :=
    filter (fun x => negb (str_eqb x []) && negb (str_eqb x [46]))
      (split [47] rel) in
  match root ++ join [47] parts with
  | [] => [46]
  | s => s
  end.

End Py.

(** ** The fragment of Python's [re] that the sources use

    A backtracking matcher in continuation-passing style.  Quantifiers
    are applied to character classes only, which is all the patterns of
    the sources need.  A match is reported by its end position and the
    text of its groups, in the order in which the groups close. *)

Module Re.

Inductive regex :=
| Eps
| Cls (p : char -> bool)        (* one character of a class *)
| Seq (a b : regex)
| Alt (a b : regex)
| Star (p : char -> bool)       (* class, starred, greedy *)
| StarLazy (p : char -> bool)   (* class, starred, lazy *)
| Bol                           (* start of the text *)
| Eol                           (* end of the text, or before a final newline *)
| Group (r : regex).

Definition matched := (nat * list str)%type.

Fixpoint star_greedy (p : char -> bool) (pos : nat) (s : str)
    (k : nat -> str -> option matched) : option matched :=
  match s with
  | c :: t =>
      if p c
      then match star_greedy p (S pos) t k with
           | Some r => Some r
           | None => k pos s
           end
      else k pos s
  | [] => k pos s
  end.

Fixpoint star_lazy (p : char -> bool) (pos : nat) (s : str)
    (k : nat -> str -> option matched) : option matched :=
  match k pos s with
  | Some r => Some r
  | None =>
      match s with
      | c :: t => if p c then star_lazy p (S pos) t k else None
      | [] => None
      end
  end.

Fixpoint run (r : regex) (pos : nat) (s : str) (caps : list str)
    (k : nat -> str -> list str -> option matched) : option matched :=
  match r with
  | Eps => k pos s caps
  | Cls p =>
      match s with
      | c :: t => if p c then k (S pos) t caps else None
      | [] => None
      end
  | Seq a b => run a pos s caps (fun pos' s' caps' => run b pos' s' caps' k)
  | Alt a b =>
      match run a pos s caps k with
      | Some m => Some m
      | None => run b pos s caps k
      end
  | Star p => star_greedy p pos s (fun pos' s' => k pos' s' caps)
  | StarLazy p => star_lazy p pos s (fun pos' s' => k pos' s' caps)
  | Bol => match pos with O => k pos s caps | S _ => None end
  | Eol =>
      match s with
      | [] => k pos s caps
      | [c] => if c =? NL then k pos s caps else None
      | _ => None
      end
  | Group g =>
      run g pos s caps
        (fun pos' s' caps' => k pos' s' (caps' ++ [firstn (pos' - pos) s]))
  end.

(** A match of [r] that starts at position [pos], where [s] is the text
    from that position on. *)
Definition match_at (r : regex) (pos : nat) (s : str) : option matched :=
  run r pos s [] (fun pos' _ caps => Some (pos', caps)).

(** [re.match(r, s)]: anchored at the start of [s]. *)
Definition match_ (r : regex) (s : str) : option matched := match_at r 0 s.

Definition matches (r : regex) (s : str) : bool :=
  match match_ r s with Some _ => true | None => false end.

(** [re.sub(r, repl, s)] with a constant replacement.  [skip] counts the
    characters of the last match that are still to be passed over. *)
Fixpoint sub_go (r : regex) (repl : str) (s : str) (pos skip : nat) : str :=
  match skip with
  | S k =>
      match s with
      | [] => []
      | _ :: t => sub_go r repl t (S pos) k
      end
  | O =>
      match match_at r pos s, s with
      | Some (e, _), [] => repl
      | None, [] => []
      | Some (e, _), c :: t =>
          if (pos <? e)%nat
          then repl ++ sub_go r repl t (S pos) (e - pos - 1)
          else repl ++ c :: sub_go r repl t (S pos) 0
      | None, c :: t => c :: sub_go r repl t (S pos) 0
      end
  end.

Definition sub (r : regex) (repl s : str) : str := sub_go r repl s 0 0.

(** Pattern construction. *)
Definition chr (c : char) : regex := Cls (N.eqb c).
Definition not_chr (c : char) : regex := Cls (fun x => negb (x =? c)).
Definition any : char -> bool := fun c => negb (c =? NL).   (* the dot *)
Definition plus (p : char -> bool) : regex := Seq (Cls p) (Star p).
Fixpoint seqs (rs : list regex) : regex :=
  match rs with
  | [] => Eps
  | [r] => r
  | r :: rest => Seq r (seqs rest)
  end.
Definition text (s : str) : regex := seqs (map chr s).
Definition digit : regex := Cls Py.isdecimal.                (* a decimal digit *)
Definition spaces : regex := Star Py.isspace.                (* white space, starred *)

End Re.

(** ** Errors *)

Inductive failure :=
| ExpectedSubtitleIndex (got : str)   (* "Expected subtitle index, got: ..." *)
| UnexpectedEndAfterIndex             (* "Unexpected end of file after index" *)
| InvalidTimeFormat (got : str)       (* "Invalid time format: ..." *)
| NoSubtitleTextFound.                (* "No subtitle text found" *)

(** What can be raised while one block is parsed. *)
Inductive exn :=
| ValueError
| OverflowError
| ParseFailure (why : failure).       (* SRTParseError without a line number *)

(** The [SRTParseError] that [_parse_content] raises: the number of the
    line at which the failing block starts, and the wrapped exception. *)
Inductive SRTParseError := ParseErrorAt (line_number : nat) (cause : exn).

Inductive result (E A : Type) :=
| Ok (a : A)
| Err (e : E).
Arguments Ok {E A} a.
Arguments Err {E A} e.

Definition bind {E A B} (r : result E A) (f : A -> result E B) : result E B :=
  match r with
  | Ok a => f a
  | Err e => Err e
  end.

Notation "x <- r ;; k" := (bind r (fun x => k))
  (at level 61, r at next level, right associativity).
Notation "' p <- r ;; k" := (bind r (fun x => let 'p := x in k))
  (at level 61, p pattern, r at next level, right associativity).

Definition of_option {A} (o : option A) (e : exn) : result exn A :=
  match o with
  | Some a => Ok a
  | None => Err e
  end.

(** ** models/subtitle.py *)

Inductive Language := AUTO | CHINESE | ENGLISH | KOREAN | JAPANESE.
Inductive ContentType := ADULT | CHILDREN.

Definition Language_eqb (a b : Language) : bool :=
  match a, b with
  | AUTO, AUTO | CHINESE, CHINESE | ENGLISH, ENGLISH
  | KOREAN, KOREAN | JAPANESE, JAPANESE => true
  | _, _ => false
  end.

(** *** TimeCode *)

(** A [timedelta] is its total number of microseconds. *)
Definition timedelta := Z.

Definition MAX_DAYS : Z := 999999999.
Definition US_PER_DAY : Z := 86400 * 1000000.

(** [timedelta(hours=h, minutes=m, seconds=s, milliseconds=ms)]; the
    number of days must stay within nine digits. *)
Definition mk_timedelta (h m s ms : Z) : result exn timedelta :=
  let us := ((((h * 60 + m) * 60 + s) * 1000 + ms) * 1000)%Z in
  if ((- MAX_DAYS * US_PER_DAY <=? us) && (us <? (MAX_DAYS + 1) * US_PER_DAY))%Z
  then Ok us
  else Err OverflowError.

Record TimeCode := { start : timedelta; end_ : timedelta }.

(** The four integers that [_parse_time] reads. *)
Definition _parse_fields (time_str : str) : result exn (Z * Z * Z * Z) :=
  match Py.split (lit ":") time_str with
  | [hours; minutes; seconds_ms] =>
      match Py.split (lit ",") seconds_ms with
      | [seconds; milliseconds] =>
          h <- of_option (Py.int hours) ValueError ;;
          m <- of_option (Py.int minutes) ValueError ;;
          s <- of_option (Py.int seconds) ValueError ;;
          ms <- of_option (Py.int milliseconds) ValueError ;;
          Ok (h, m, s, ms)
      | _ => Err ValueError
      end
  | _ => Err ValueError
  end.

Definition _parse_time (time_str : str) : result exn timedelta :=
  '(h, m, s, ms) <- _parse_fields time_str ;;
  mk_timedelta h m s ms.

Definition from_srt_time (time_str : str) : result exn TimeCode :=
  match Py.split (lit " --> ") time_str with
  | [start_str; end_str] =>
      st <- _parse_time start_str ;;
      en <- _parse_time end_str ;;
      Ok {| start := st; end_ := en |}
  | _ => Err ValueError
  end.

(** A finite [float] is [mantissa * 2 ** exponent], the exponent of
    either sign. *)
Record float := { mantissa : Z; exponent : Z }.

(** [2 ** n] when [n] is positive, and 1 otherwise. *)
Definition pow2 (n : Z) : Z := (2 ^ Z.max 0 n)%Z.

(** The integer nearest to [n / d], the even one when two are as near. *)
Definition round_half_even (n d : Z) : Z :=
  let q := (n / d)%Z in
  let r := (n mod d)%Z in
  if (2 * r <? d)%Z then q
  else if (d <? 2 * r)%Z then (q + 1)%Z
  else if Z.even q then q else (q + 1)%Z.

(** [a / b] on two ints, [a] not negative and [b] positive: the double
    nearest to the quotient.  The quotient is from [2 ** l] to below
    [2 ** (l + 1)], and the mantissa has 53 bits.  (The quotients of
    [total_seconds] are zero or from a millionth to some [2 ** 47]:
    there is no overflow and no subnormal number to take care of.) *)
Definition true_divide (a b : Z) : float :=
  let k := (Z.log2 a - Z.log2 b)%Z in
  let l := if (b * pow2 k <=? a * pow2 (- k))%Z then k else (k - 1)%Z in
  let e := (l - 52)%Z in
  {| mantissa := round_half_even (a * pow2 (- e)) (b * pow2 e);
     exponent := e |}.

(** [td.total_seconds()] with its rounding: the number of microseconds
    divided by [10**6], a division of ints with a [float] for its
    result. *)
Definition total_seconds_float (td : timedelta) : float :=
  let f := true_divide (Z.abs td) 1000000 in
  {| mantissa := (Z.sgn td * mantissa f)%Z; exponent := exponent f |}.

(** [int(f)]: what is after the point is dropped. *)
Definition int_of_float (f : float) : Z :=
  Z.quot (mantissa f * pow2 (exponent f)) (pow2 (- exponent f)).

(** [td.microseconds] is the normalised field, between 0 and 999999. *)
Definition _format_time (td : timedelta) : str :=
  let total_seconds := int_of_float (total_seconds_float td) in
  let hours := (total_seconds / 3600)%Z in
  let minutes := ((total_seconds mod 3600) / 60)%Z in
  let seconds := (total_seconds mod 60)%Z in
  let milliseconds := ((td mod 1000000) / 1000)%Z in
  Py.zero_pad 2 hours ++ lit ":" ++ Py.zero_pad 2 minutes ++ lit ":"
  ++ Py.zero_pad 2 seconds ++ lit "," ++ Py.zero_pad 3 milliseconds.

Definition TimeCode_to_srt_format (tc : TimeCode) : str :=
  _format_time (start tc) ++ lit " --> " ++ _format_time (end_ tc).

Definition duration (tc : TimeCode) : timedelta := (end_ tc - start tc)%Z.

(** *** SubtitleBlock *)

Record SubtitleBlock := {
  index : Z;
  time_code : TimeCode;
  lines : list str;
  language : option Language;
  is_sdh : bool
}.

Definition text (b : SubtitleBlock) : str := Py.join [NL] (lines b).

Definition character_count (b : SubtitleBlock) : Z :=
  fold_right (fun line acc => (Py.len line + acc)%Z) 0%Z (lines b).

Definition is_blank (line : str) : bool :=
  match Py.strip line with [] => true | _ => false end.

(** The patterns of [is_sdh_only_block]. *)
Definition all_of (c : char) : Re.regex :=                (* anchored run of one glyph *)
  Re.seqs [Re.Bol; Re.plus (N.eqb c); Re.Eol].

Definition music_patterns : list Re.regex :=
  [all_of MUSIC_NOTE; all_of MUSICAL_NOTE; all_of MULTIPLE_NOTES].

Definition enclosed (open close : char) : Re.regex :=     (* a whole text in one bracket pair *)
  Re.seqs [Re.Bol; Re.chr open; Re.spaces; Re.StarLazy Re.any; Re.spaces;
           Re.chr close; Re.Eol].

Definition audio_description_patterns : list Re.regex :=
  [enclosed 91 93; enclosed 40 41; enclosed 65288 65289;
   enclosed 12304 12305; enclosed 12298 12299; enclosed 65339 65341;
   enclosed 12308 12309; enclosed 12296 12297].

Definition span_lazy (open close : char) : Re.regex :=    (* bracket, lazy anything, bracket *)
  Re.seqs [Re.chr open; Re.StarLazy Re.any; Re.chr close].

Definition music_runs : Re.regex :=                       (* three runs, alternated *)
  Re.Alt (Re.plus (N.eqb MUSIC_NOTE))
    (Re.Alt (Re.plus (N.eqb MUSICAL_NOTE)) (Re.plus (N.eqb MULTIPLE_NOTES))).

Definition audio_spans : Re.regex :=
  Re.Alt (span_lazy 91 93)
    (Re.Alt (span_lazy 40 41)
       (Re.Alt (span_lazy 12304 12305) (span_lazy 12298 12299))).

Definition dash_prefix : Re.regex :=                      (* a leading dash and the spaces after it *)
  Re.seqs [Re.Bol; Re.chr DASH; Re.spaces].

(** What is left of a stripped line once music, audio descriptions and the
    dialogue dash are taken out. *)
Definition sdh_residue (line : str) : str :=
  let temp_line := Re.sub music_runs [] line in
  let temp_line := Re.sub audio_spans [] temp_line in
  Py.strip (Re.sub dash_prefix [] temp_line).

Definition is_sdh_only_block (b : SubtitleBlock) : bool :=
  match lines b with
  | [] => false
  | _ =>
      let full_text := Py.strip (text b) in
      match full_text with
      | [] => false
      | _ =>
          if existsb (fun p => Re.matches p full_text) music_patterns then true
          else if existsb (fun p => Re.matches p full_text)
                    audio_description_patterns then true
          else forallb
                 (fun line =>
                    let line := Py.strip line in
                    match line with
                    | [] => true
                    | _ => match sdh_residue line with
                           | [] => true
                           | _ => false
                           end
                    end)
                 (lines b)
      end
  end.

Definition span_class (open close : char) : Re.regex :=   (* bracket, anything but the closer, bracket *)
  Re.seqs [Re.chr open; Re.spaces; Re.Star (fun c => negb (c =? close));
           Re.spaces; Re.chr close].

Definition sdh_patterns : list Re.regex :=
  [span_class 91 93; span_class 40 41; span_class 65288 65289;
   span_class 12304 12305; span_class 12298 12299;
   Re.plus (N.eqb MUSIC_NOTE); Re.plus (N.eqb MUSICAL_NOTE);
   Re.plus (N.eqb MULTIPLE_NOTES);
   span_class 65339 65341; span_class 12308 12309; span_class 12296 12297;
   span_class 12300 12301].

Definition _clean_whitespace (t : str) : str :=
  let cleaned := Re.sub (Re.plus Py.isspace) [SPACE] t in
  let cleaned := Re.sub dash_prefix (lit "- ") cleaned in
  let cleaned :=
    Re.sub (Re.seqs [Re.Bol; Re.chr DASH; Re.spaces; Re.chr DASH; Re.spaces])
      (lit "- ") cleaned in
  let cleaned := Py.strip cleaned in
  if str_eqb cleaned (lit "-") then [] else cleaned.

Definition _remove_sdh_from_line (line : str) : str :=
  _clean_whitespace
    (fold_left (fun cleaned pattern => Re.sub pattern [] cleaned)
       sdh_patterns line).

Definition clean_sdh_markers (b : SubtitleBlock) : SubtitleBlock :=
  let cleaned_lines :=
    flat_map
      (fun line =>
         let original_line := Py.strip line in
         match original_line with
         | [] => []
         | _ =>
             let cleaned_line := _remove_sdh_from_line original_line in
             if is_blank cleaned_line then [] else [cleaned_line]
         end)
      (lines b) in
  {| index := index b; time_code := time_code b; lines := cleaned_lines;
     language := language b; is_sdh := is_sdh b |}.

(** [td.total_seconds()] as an exact number. *)
Definition total_seconds (td : timedelta) : Q := Qmake td 1000000.

Definition get_reading_speed (b : SubtitleBlock) : Q :=
  let duration_seconds := total_seconds (duration (time_code b)) in
  if Qle_bool duration_seconds 0 then 0%Q
  else (inject_Z (character_count b) / duration_seconds)%Q.

(** *** SRTDocument *)

Record SRTDocument := {
  blocks : list SubtitleBlock;
  source_file : option str;
  detected_language : option Language;
  encoding : str
}.

Definition utf_8 : str := lit "utf-8".

(** [SRTDocument(blocks=bs)] with the defaults of the other fields. *)
Definition new_document (bs : list SubtitleBlock) : SRTDocument :=
  {| blocks := bs; source_file := None; detected_language := None;
     encoding := utf_8 |}.

Definition set_index (b : SubtitleBlock) (i : Z) : SubtitleBlock :=
  {| index := i; time_code := time_code b; lines := lines b;
     language := language b; is_sdh := is_sdh b |}.

(** [for i, block in enumerate(bs): block.index = i + 1], from [i] on. *)
Fixpoint reindex (i : Z) (bs : list SubtitleBlock) : list SubtitleBlock :=
  match bs with
  | [] => []
  | b :: rest => set_index b (i + 1) :: reindex (i + 1) rest
  end.

(** The blocks that survive the SDH pass, before they are renumbered.
    The cleaned blocks are new objects, so that renumbering them does not
    touch the blocks of the input document. *)
Definition sdh_survivors (bs : list SubtitleBlock) : list SubtitleBlock :=
  flat_map
    (fun block =>
       if is_sdh_only_block block then []
       else
         let cleaned_block := clean_sdh_markers block in
         match lines cleaned_block with
         | [] => []
         | _ =>
             if existsb (fun line => negb (is_blank line)) (lines cleaned_block)
             then [cleaned_block] else []
         end)
    bs.

Definition remove_sdh_blocks_and_clean_content (d : SRTDocument) : SRTDocument :=
  {| blocks := reindex 0 (sdh_survivors (blocks d));
     source_file := source_file d;
     detected_language := detected_language d;
     encoding := encoding d |}.

(** [remove_sdh_only_blocks] keeps the block objects of the document it
    is called on and assigns to their field [index].  For this method
    the block objects live in a store, a block is known by its address
    there, and a document object holds the addresses of its blocks. *)
Definition store := list SubtitleBlock.

Record SRTDocument_object := {
  block_addresses : list nat;
  object_source_file : option str;
  object_detected_language : option Language;
  object_encoding : str
}.

(** [block.index = i] on the object at [address]. *)
Fixpoint assign_index (s : store) (address : nat) (i : Z) : store :=
  match s, address with
  | [], _ => []
  | b :: s', O => set_index b i :: s'
  | b :: s', S address' => b :: assign_index s' address' i
  end.

(** [for i, block in enumerate(filtered_blocks): block.index = i + 1],
    from [i] on. *)
Fixpoint renumber (s : store) (i : Z) (filtered_blocks : list nat) : store :=
  match filtered_blocks with
  | [] => s
  | block :: rest => renumber (assign_index s block (i + 1)) (i + 1) rest
  end.

(** [remove_sdh_only_blocks]: the store after the call and the document
    object that is returned. *)
Definition remove_sdh_only_blocks (s : store) (d : SRTDocument_object)
  : store * SRTDocument_object :=
  let filtered_blocks :=
    filter
      (fun block =>
         match nth_error s block with
         | Some b => negb (is_sdh_only_block b)
         | None => false
         end)
      (block_addresses d) in
  (renumber s 0 filtered_blocks,
   {| block_addresses := filtered_blocks;
      object_source_file := object_source_file d;
      object_detected_language := object_detected_language d;
      object_encoding := object_encoding d |}).

Definition block_to_srt_lines (b : SubtitleBlock) : list str :=
  Py.str_of_Z (index b) :: TimeCode_to_srt_format (time_code b)
  :: lines b ++ [[]].

Definition to_srt_format (d : SRTDocument) : str :=
  Py.join [NL] (flat_map block_to_srt_lines (blocks d)).

(** *** ProcessingConfig *)

Record ProcessingConfig := {
  config_language : Language;
  content_type : ContentType;
  sdh_mode : bool;
  force_encoding : option str;
  no_speed_check : bool;
  no_punct_fix : bool;
  batch_mode : bool;
  batch_directory : option str;
  check_only : bool;
  output_violation : option str;
  remove_sdh : bool
}.

(** [ProcessingConfig()] with every default. *)
Definition default_config : ProcessingConfig :=
  {| config_language := AUTO; content_type := ADULT; sdh_mode := false;
     force_encoding := None; no_speed_check := false; no_punct_fix := false;
     batch_mode := false; batch_directory := None; check_only := false;
     output_violation := None; remove_sdh := true |}.

(** [dataclasses.replace(config, language=l)]: a new object. *)
Definition replace_language (c : ProcessingConfig) (l : Language) : ProcessingConfig :=
  {| config_language := l; content_type := content_type c;
     sdh_mode := sdh_mode c; force_encoding := force_encoding c;
     no_speed_check := no_speed_check c; no_punct_fix := no_punct_fix c;
     batch_mode := batch_mode c; batch_directory := batch_directory c;
     check_only := check_only c; output_violation := output_violation c;
     remove_sdh := remove_sdh c |}.

Definition get_character_limit (c : ProcessingConfig) (l : Language) : Z :=
  match l with
  | CHINESE => if sdh_mode c then 18 else 16
  | ENGLISH => 42
  | KOREAN => 16
  | JAPANESE => if sdh_mode c then 16 else 13
  | AUTO => 42
  end%Z.

Definition get_reading_speed_limit (c : ProcessingConfig) (l : Language) : Q :=
  match content_type c with
  | ADULT =>
      match l with
      | CHINESE => 9
      | ENGLISH => 20
      | KOREAN => 12
      | JAPANESE => if sdh_mode c then 7 else 4
      | AUTO => 20
      end
  | CHILDREN =>
      match l with
      | CHINESE => 7
      | ENGLISH => 17
      | KOREAN => 9
      | JAPANESE => if sdh_mode c then 7 else 4
      | AUTO => 20
      end
  end%Q.

(** ** core/parser.py *)

Definition time_stamp : Re.regex :=          (* dd:dd:dd,ddd *)
  Re.seqs [Re.digit; Re.digit; Re.chr 58; Re.digit; Re.digit; Re.chr 58;
           Re.digit; Re.digit; Re.chr 44; Re.digit; Re.digit; Re.digit].

Definition time_pattern : Re.regex :=
  Re.seqs [Re.Group time_stamp; Re.spaces; Re.text (lit "-->"); Re.spaces;
           Re.Group time_stamp].

(** [while current_line < len(lines) and not lines[current_line].strip()],
    where [rest] is [lines[current_line:]]. *)
Fixpoint skip_empty_lines (rest : list str) (current_line : nat) : nat :=
  match rest with
  | line :: rest' =>
      if is_blank line then skip_empty_lines rest' (S current_line)
      else current_line
  | [] => current_line
  end.

(** Does [lines[current_line:]] start with what looks like the next
    index line followed by a time stamp? *)
Definition at_next_block (rest : list str) : bool :=
  match rest with
  | line :: next :: _ =>
      Py.isdigit (Py.strip line) && Re.matches time_pattern (Py.strip next)
  | _ => false
  end.

(** The loop that collects the text lines, where [rest] is
    [lines[current_line:]]. *)
Fixpoint collect_text_lines (rest : list str) (current_line : nat)
    (text_lines : list str) : list str * nat :=
  match rest with
  | [] => (text_lines, current_line)
  | line :: rest' =>
      if at_next_block rest then (text_lines, current_line)
      else collect_text_lines rest' (S current_line)
             (text_lines ++ [Py.rstrip line])
  end.

(** [while text_lines and not text_lines[-1].strip(): text_lines.pop()]. *)
Definition pop_trailing_empty (text_lines : list str) : list str :=
  rev ((fix drop (l : list str) : list str :=
          match l with
          | line :: l' => if is_blank line then drop l' else l
          | [] => []
          end) (rev text_lines)).

Definition new_block (i : Z) (tc : TimeCode) (ls : list str) : SubtitleBlock :=
  {| index := i; time_code := tc; lines := ls; language := None;
     is_sdh := false |}.

(** The time-code step of [_parse_block]: the pattern is tried at the
    start of the stripped line, and the line is then handed to
    [TimeCode.from_srt_time]. *)
Definition parse_time_line (time_line : str) : result exn TimeCode :=
  if negb (Re.matches time_pattern time_line)
  then Err (ParseFailure (InvalidTimeFormat time_line))
  else from_srt_time time_line.

Definition _parse_block (lines : list str) (start_line : nat)
  : result exn (option SubtitleBlock * nat) :=
  let current_line := skip_empty_lines (skipn start_line lines) start_line in
  match nth_error lines current_line with
  | None => Ok (None, current_line)
  | Some l =>
      let index_line := Py.strip l in
      if negb (Py.isdigit index_line)
      then Err (ParseFailure (ExpectedSubtitleIndex index_line))
      else
        index <- of_option (Py.int index_line) ValueError ;;
        let current_line := S current_line in
        match nth_error lines current_line with
        | None => Err (ParseFailure UnexpectedEndAfterIndex)
        | Some l =>
            let time_line := Py.strip l in
            time_code <- parse_time_line time_line ;;
            let current_line := S current_line in
            let '(text_lines, current_line) :=
              collect_text_lines (skipn current_line lines) current_line [] in
            let text_lines := pop_trailing_empty text_lines in
            match text_lines with
            | [] => Err (ParseFailure NoSubtitleTextFound)
            | _ => Ok (Some (new_block index time_code text_lines), current_line)
            end
        end
  end.

(** The loop of [_parse_content]; [None] only when the fuel runs out. *)
Fixpoint parse_loop (fuel : nat) (lines : list str) (current_line : nat)
    (blocks : list SubtitleBlock)
  : option (result SRTParseError (list SubtitleBlock)) :=
  if (current_line <? length lines)%nat then
    match fuel with
    | O => None
    | S fuel' =>
        match _parse_block lines current_line with
        | Err e => Some (Err (ParseErrorAt (current_line + 1) e))
        | Ok (block, next_line) =>
            parse_loop fuel' lines next_line
              (match block with
               | Some b => blocks ++ [b]
               | None => blocks
               end)
        end
    end
  else Some (Ok blocks).

Definition _parse_content (content : str)
  : option (result SRTParseError (list SubtitleBlock)) :=
  let lines := Py.split [NL] (Py.strip content) in
  parse_loop (length lines) lines 0 [].

Definition parse_content (content : str)
  : option (result SRTParseError SRTDocument) :=
  match _parse_content content with
  | Some (Ok bs) => Some (Ok (new_document bs))
  | Some (Err e) => Some (Err e)
  | None => None
  end.

(** The issues that [validate_srt_format] reports; each stands for its
    message, which starts with the line number. *)
Inductive format_issue :=
| ExpectedIndexGot (line_number : nat) (index_line : str)
| ExpectedIndexNumber (line_number : nat) (expected_index index : Z)
| MissingTimeCodeAfterIndex (line_number : nat)
| InvalidTimeFormatAt (line_number : nat) (time_line : str)
| NoSubtitleTextAt (line_number : nat).

(** The loop that counts the text lines, where [rest] is
    [lines[current_line:]]: it stops at a blank line and at a line of
    digits. *)
Fixpoint count_text_lines (rest : list str) (current_line : nat)
    (text_line_count : nat) : nat * nat :=
  match rest with
  | line :: rest' =>
      if negb (is_blank line) && negb (Py.isdigit (Py.strip line))
      then count_text_lines rest' (S current_line) (S text_line_count)
      else (text_line_count, current_line)
  | [] => (text_line_count, current_line)
  end.

(** The loop of [validate_srt_format]; [None] only when the fuel runs
    out.  [int] is called without a handler, so that its [ValueError]
    leaves the function. *)
Fixpoint validate_loop (fuel : nat) (lines : list str) (current_line : nat)
    (expected_index : Z) (issues : list format_issue)
  : option (result exn (list format_issue)) :=
  if (current_line <? length lines)%nat then
    match fuel with
    | O => None
    | S fuel' =>
        let current_line :=
          skip_empty_lines (skipn current_line lines) current_line in
        match nth_error lines current_line with
        | None => Some (Ok issues)
        | Some l =>
            let index_line := Py.strip l in
            if negb (Py.isdigit index_line)
            then validate_loop fuel' lines (S current_line) expected_index
                   (issues ++ [ExpectedIndexGot (current_line + 1) index_line])
            else
              match Py.int index_line with
              | None => Some (Err ValueError)
              | Some index =>
                  let issues :=
                    if (index =? expected_index)%Z then issues
                    else issues ++ [ExpectedIndexNumber (current_line + 1)
                                      expected_index index] in
                  let current_line := S current_line in
                  let expected_index := (expected_index + 1)%Z in
                  match nth_error lines current_line with
                  | None =>
                      Some (Ok (issues ++ [MissingTimeCodeAfterIndex current_line]))
                  | Some l =>
                      let time_line := Py.strip l in
                      let issues :=
                        if Re.matches time_pattern time_line then issues
                        else issues ++ [InvalidTimeFormatAt (current_line + 1)
                                          time_line] in
                      let current_line := S current_line in
                      let '(text_line_count, current_line) :=
                        count_text_lines (skipn current_line lines)
                          current_line 0 in
                      let issues :=
                        if (text_line_count =? 0)%nat
                        then issues ++ [NoSubtitleTextAt current_line]
                        else issues in
                      validate_loop fuel' lines current_line expected_index issues
                  end
              end
        end
    end
  else Some (Ok issues).

Definition validate_srt_format (content : str)
  : option (result exn (list format_issue)) :=
  let lines := Py.split [NL] (Py.strip content) in
  validate_loop (length lines) lines 0 1 [].

Definition T1 : str := lit "00:00:01,000 --> 00:00:02,000".
Definition T2 : str := lit "00:00:03,000 --> 00:00:04,500".
Definition tc1 : TimeCode := {| start := 1000000%Z; end_ := 2000000%Z |}.
Definition tc2 : TimeCode := {| start := 3000000%Z; end_ := 4500000%Z |}.

(** ** core/language_detector.py *)

Definition Qlt_bool (a b : Q) : bool := negb (Qle_bool b a).

Module LanguageDetector.

Definition chinese_pattern (c : char) : bool := in_range 19968 40959 c.
Definition korean_pattern (c : char) : bool := in_range 44032 55215 c.
Definition hiragana_pattern (c : char) : bool := in_range 12352 12447 c.
Definition katakana_pattern (c : char) : bool := in_range 12448 12543 c.
Definition ascii_pattern (c : char) : bool :=
  in_range 97 122 c || in_range 65 90 c.

Definition chinese_punct (c : char) : bool :=
  char_in c [12290; 65281; 65311; 65292; 65306; 65288; 65289; 12304; 12305;
             12298; 12299].
Definition korean_punct (c : char) : bool :=
  char_in c [12290; 65281; 65311; 65292; 65306; 65288; 65289; 12304; 12305;
             12298; 12299].
Definition japanese_punct (c : char) : bool :=
  char_in c [12290; 65281; 65311; 12289; 65306; 65288; 65289; 12304; 12305;
             12298; 12299; 12296; 12297].

Record char_counts := {
  n_chinese : Z;
  n_korean : Z;
  n_hiragana : Z;
  n_katakana : Z;
  n_ascii : Z;
  n_chinese_punct : Z;
  n_korean_punct : Z;
  n_japanese_punct : Z;
  total_chars : Z
}.

(** [len(pattern.findall(text))] for a pattern of one character class. *)
Definition count (p : char -> bool) (t : str) : Z := Py.len (filter p t).

Definition _count_characters (t : str) : char_counts :=
  {| n_chinese := count chinese_pattern t;
     n_korean := count korean_pattern t;
     n_hiragana := count hiragana_pattern t;
     n_katakana := count katakana_pattern t;
     n_ascii := count ascii_pattern t;
     n_chinese_punct := count chinese_punct t;
     n_korean_punct := count korean_punct t;
     n_japanese_punct := count japanese_punct t;
     total_chars := Py.len (Py.remove_char SPACE t) |}.

Definition _analyze_character_distribution (bs : list SubtitleBlock) : char_counts :=
  _count_characters (Py.join [SPACE] (map text bs)).

Definition floor_score (s : Q) : Q :=
  if Qlt_bool s (1 # 100) then 0%Q else s.

(** The scores, as the dictionary holds them: in the order in which the
    languages were inserted. *)
Definition _calculate_language_scores (cc : char_counts) : list (Language * Q) :=
  let total := inject_Z (Z.max (total_chars cc) 1) in
  let chinese_ratio := (inject_Z (n_chinese cc) / total)%Q in
  let chinese_punct_ratio := (inject_Z (n_chinese_punct cc) / total)%Q in
  let chinese_score := (chinese_ratio * 10 + chinese_punct_ratio * 2)%Q in
  let ascii_ratio := (inject_Z (n_ascii cc) / total)%Q in
  let cjk_total :=
    (n_chinese cc + n_korean cc + n_hiragana cc + n_katakana cc)%Z in
  let cjk_ratio := (inject_Z cjk_total / total)%Q in
  let english_score :=
    if Qlt_bool cjk_ratio (1 # 10) then (ascii_ratio * 10)%Q
    else (ascii_ratio * 2)%Q in
  let korean_ratio := (inject_Z (n_korean cc) / total)%Q in
  let korean_punct_ratio := (inject_Z (n_korean_punct cc) / total)%Q in
  let korean_score := (korean_ratio * 10 + korean_punct_ratio * 2)%Q in
  let hiragana_ratio := (inject_Z (n_hiragana cc) / total)%Q in
  let katakana_ratio := (inject_Z (n_katakana cc) / total)%Q in
  let japanese_punct_ratio := (inject_Z (n_japanese_punct cc) / total)%Q in
  let japanese_script_ratio := (hiragana_ratio + katakana_ratio)%Q in
  let japanese_with_kanji_ratio :=
    (japanese_script_ratio + chinese_ratio * (1 # 2))%Q in
  let japanese_score :=
    (japanese_with_kanji_ratio * 10 + japanese_punct_ratio * 2)%Q in
  [(CHINESE, floor_score chinese_score);
   (ENGLISH, floor_score english_score);
   (KOREAN, floor_score korean_score);
   (JAPANESE, floor_score japanese_score)].

(** [max(scores.keys(), key=...)]: the first key whose score is maximal. *)
Definition best_language (scores : list (Language * Q)) : Language :=
  match scores with
  | [] => ENGLISH
  | first :: rest =>
      fst (fold_left
             (fun best x => if Qlt_bool (snd best) (snd x) then x else best)
             rest first)
  end.

Definition detect_language (d : SRTDocument) : Language :=
  match blocks d with
  | [] => ENGLISH
  | _ =>
      best_language
        (_calculate_language_scores (_analyze_character_distribution (blocks d)))
  end.

Definition _detect_block_language (b : SubtitleBlock) : Language :=
  if is_blank (text b) then ENGLISH
  else best_language (_calculate_language_scores (_count_characters (text b))).

Definition detect_line_language (line : str) : Language :=
  if is_blank line then ENGLISH
  else best_language (_calculate_language_scores (_count_characters line)).

Definition set_language (b : SubtitleBlock) (l : option Language) : SubtitleBlock :=
  {| index := index b; time_code := time_code b; lines := lines b;
     language := l; is_sdh := is_sdh b |}.

(** [detect_block_languages] assigns in place; the document is the one the
    parser has just built, so the new document stands for the old one. *)
Definition detect_block_languages (d : SRTDocument) : SRTDocument :=
  {| blocks := map (fun b => set_language b (Some (_detect_block_language b)))
                 (blocks d);
     source_file := source_file d;
     detected_language := detected_language d;
     encoding := encoding d |}.

(** [languages.add(lang)] on a set of languages, kept in the order in
    which the languages came in. *)
Definition add_to_set (l : Language) (seen : list Language) : list Language :=
  if existsb (Language_eqb l) seen then seen else seen ++ [l].

(** [set(block_languages)]. *)
Definition language_set (ls : list Language) : list Language :=
  fold_left (fun seen l => add_to_set l seen) ls [].

(** [counts[l] += 1] on a [Counter]: the keys stay in the order of their
    first occurrence. *)
Fixpoint counter_add (l : Language) (counts : list (Language * Z))
  : list (Language * Z) :=
  match counts with
  | [] => [(l, 1%Z)]
  | (k, n) :: rest =>
      if Language_eqb k l then (k, (n + 1)%Z) :: rest
      else (k, n) :: counter_add l rest
  end.

(** [Counter(block_languages)]. *)
Definition Counter (ls : list Language) : list (Language * Z) :=
  fold_left (fun counts l => counter_add l counts) ls [].

(** The dictionary that [get_language_statistics] returns; the keys of
    the two inner dictionaries are the languages instead of their
    names. *)
Record language_statistics := {
  stats_detected_language : Language;
  confidence_scores : list (Language * Q);
  character_counts : char_counts;
  block_count : Z;
  language_distribution : list (Language * Z);
  mixed_language : bool
}.

Definition get_language_statistics (d : SRTDocument) : language_statistics :=
  let char_counts := _analyze_character_distribution (blocks d) in
  let scores := _calculate_language_scores char_counts in
  let detected_language := best_language scores in
  let block_languages := map _detect_block_language (blocks d) in
  let language_distribution := Counter block_languages in
  {| stats_detected_language := detected_language;
     confidence_scores := scores;
     character_counts := char_counts;
     block_count := Z.of_nat (length (blocks d));
     language_distribution := language_distribution;
     mixed_language := (1 <? length (language_set block_languages))%nat |}.

(** The loop of [is_mixed_language_document], with the set of languages
    so far. *)
Fixpoint mixed_scan (bs : list SubtitleBlock) (languages : list Language)
  : bool :=
  match bs with
  | [] => false
  | block :: rest =>
      let languages := add_to_set (_detect_block_language block) languages in
      if (1 <? length languages)%nat then true
      else mixed_scan rest languages
  end.

Definition is_mixed_language_document (d : SRTDocument) : bool :=
  if (length (blocks d) <? 2)%nat then false
  else mixed_scan (blocks d) [].

End LanguageDetector.

(** ** The line engines: what the three processors share *)

Definition last_char (s : str) : option char :=
  match rev s with
  | c :: _ => Some c
  | [] => None
  end.

Definition ends_in (s set : str) : bool :=
  match last_char s with
  | Some c => char_in c set
  | None => false
  end.

Definition in_set (w : str) (set : list str) : bool := existsb (str_eqb w) set.

(** [line[i]] for an index that is not negative. *)
Definition char_at (line : str) (i : Z) : option char :=
  if (i <? 0)%Z then None else nth_error line (Z.to_nat i).

(** [for i in range(hi, lo, -1)]: the first [i] for which [f] returns. *)
Fixpoint range_down_go (n : nat) (i : Z) (f : Z -> option Z) : option Z :=
  match n with
  | O => None
  | S n' =>
      match f i with
      | Some r => Some r
      | None => range_down_go n' (i - 1)%Z f
      end
  end.

Definition range_down (hi lo : Z) (f : Z -> option Z) : option Z :=
  range_down_go (Z.to_nat (hi - lo)) hi f.

(** A chain of searches, the first that finds a position wins; [-1] when
    none does. *)
Fixpoint first_found (searches : list (option Z)) : Z :=
  match searches with
  | [] => (-1)%Z
  | Some r :: _ => r
  | None :: rest => first_found rest
  end.

Definition dialogue_pattern : Re.regex :=
  Re.seqs [Re.Bol; Re.chr DASH; Re.spaces; Re.Group (Re.Star Re.any); Re.Eol].

(** [_process_dialogue_format]: the same in the three processors. *)
Definition process_dialogue_format (lines : list str) : list str :=
  flat_map
    (fun line =>
       let line := Py.strip line in
       match line with
       | [] => []
       | _ =>
           match Re.match_ dialogue_pattern line with
           | Some (_, content :: _) => [lit "- " ++ Py.strip content]
           | _ => [line]
           end
       end)
    lines.

(** The state of the merging loops: the lines already closed and the line
    being accumulated. *)
Definition merge_state := (list str * str)%type.

Definition merge_finish (st : merge_state) : list str :=
  match snd st with
  | [] => fst st
  | current_line => fst st ++ [current_line]
  end.

Definition inspect {A : Type} (a : A) : {b : A | a = b} := exist _ a eq_refl.

(** What a call of [_break_line_intelligently] does before it recurses:
    [None] when the line is returned whole, else the two parts. *)
Definition cut := option (str * str).

(** The argument of the recursive call, when one is made:
    [if second_part and len(second_part) < len(line)]. *)
Definition recursive_call (c : cut) (line : str) : option str :=
  match c with
  | Some (_, second_part) =>
      match second_part with
      | [] => None
      | _ => if (length second_part <? length line)%nat
             then Some second_part else None
      end
  | None => None
  end.

Lemma recursive_call_shorter (c : cut) (line l : str) :
  recursive_call c line = Some l -> (length l < length line)%nat.
Proof.
  destruct c as [[fp sp]|]; simpl; [|discriminate].
  destruct sp as [|x sp]; [discriminate|].
  destruct (Nat.ltb_spec (length (x :: sp)) (length line)); [|discriminate].
  intros E; injection E as <-. assumption.
Qed.

(** [validate_reading_speed]: the same in the three processors. *)
Definition processor_validate_reading_speed (config : ProcessingConfig)
    (b : SubtitleBlock) : bool :=
  if no_speed_check config then true
  else Qle_bool (get_reading_speed b)
         (get_reading_speed_limit config (config_language config)).

(** The loop of [merge_short_lines] of the Chinese and the Korean
    processor, on [lines[i:]].  The two differ in the length below which
    a line is short and in what joins the two lines.  [endswith] is given
    the tuple of the endings, each of one character. *)
Fixpoint short_lines_loop (short : Z) (joint sentence_endings : str)
    (char_limit : Z) (lines : list str) : list str :=
  match lines with
  | [] => []
  | line :: rest =>
      let current_line := Py.strip line in
      match current_line with
      | [] => short_lines_loop short joint sentence_endings char_limit rest
      | _ :: _ =>
          match rest with
          | next :: rest' =>
              if (Py.len current_line <? short)%Z
                 && negb (ends_in current_line sentence_endings)
              then
                let next_line := Py.strip next in
                let merged := current_line ++ joint ++ next_line in
                if (Py.len merged <=? char_limit)%Z
                then merged
                     :: short_lines_loop short joint sentence_endings
                          char_limit rest'
                else current_line
                     :: short_lines_loop short joint sentence_endings
                          char_limit rest
              else current_line
                   :: short_lines_loop short joint sentence_endings
                        char_limit rest
          | [] => [current_line]
          end
      end
  end.

(** ** processors/chinese.py *)

Module ChineseProcessor.

Definition punctuation : str :=
  [12290; 65281; 65311; 65292; 65306; 65307; 39; 39; 65288; 65289; 12304;
   12305; 12298; 12299].

Definition helper_words : list str :=
  [[30340]; [22320]; [24471]; [20102]; [21543]; [21602]; [21834]; [21734];
   [21999]; [21568]; [21703]; [21527]; [22043]].

Definition sentence_endings : str := [12290; 65281; 65311].

Definition _process_dialogue_format := process_dialogue_format.

Definition _should_merge_with_current (config : ProcessingConfig)
    (current next_line : str) : bool :=
  match current with
  | [] => false
  | _ =>
      if ends_in current sentence_endings then false
      else
        let current_is_dialogue := Py.startswith current (lit "- ") in
        let next_is_dialogue := Py.startswith next_line (lit "- ") in
        if negb (Bool.eqb current_is_dialogue next_is_dialogue) then false
        else
          let merged_length := (Py.len current + Py.len next_line)%Z in
          let char_limit := get_character_limit config (config_language config) in
          (merged_length <=? char_limit)%Z
  end.

(** One turn of the loop of [_smart_merge_lines]. *)
Definition merge_step (config : ProcessingConfig) (st : merge_state)
    (line : str) : merge_state :=
  let '(merged_lines, current_line) := st in
  let line := Py.strip line in
  match line with
  | [] => st
  | _ =>
      if _should_merge_with_current config current_line line
      then match current_line with
           | [] => (merged_lines, line)
           | _ => (merged_lines, current_line ++ line)
           end
      else match current_line with
           | [] => (merged_lines, line)
           | _ => (merged_lines ++ [current_line], line)
           end
  end.

Definition _smart_merge_lines (config : ProcessingConfig) (lines : list str)
  : list str :=
  if (length lines <=? 1)%nat then lines
  else merge_finish (fold_left (merge_step config) lines ([], [])).

Definition _find_best_break_position (line : str) (limit : Z) : Z :=
  let search_start := Z.max 0 (limit - 10) in
  let search_end := Z.min (Py.len line) (limit + 3) in
  first_found
    [ (* 1. helper words *)
      range_down (search_end - 1) (search_start - 1)
        (fun i =>
           match char_at line i with
           | Some c =>
               if in_set [c] helper_words && (i + 1 <=? limit)%Z
               then Some (i + 1)%Z else None
           | None => None
           end);
      (* 2. punctuation marks *)
      range_down (search_end - 1) (search_start - 1)
        (fun i =>
           match char_at line i with
           | Some c =>
               if char_in c punctuation && (i + 1 <=? limit)%Z
               then Some (i + 1)%Z else None
           | None => None
           end);
      (* 3. spaces *)
      range_down (search_end - 1) (search_start - 1)
        (fun i =>
           match char_at line i with
           | Some c =>
               if (c =? SPACE) && (i <=? limit)%Z then Some i else None
           | None => None
           end) ].

(** [_break_line_intelligently] up to its recursive call. *)
Definition split_line (config : ProcessingConfig) (line : str) : cut :=
  let char_limit := get_character_limit config (config_language config) in
  if (Py.len line <=? char_limit)%Z then None
  else
    let remaining_chars := (Py.len line - char_limit)%Z in
    if (remaining_chars <? 3)%Z then None
    else
      let break_pos := _find_best_break_position line char_limit in
      let break_pos := if (break_pos =? -1)%Z then char_limit else break_pos in
      let first_part := Py.rstrip (Py.slice_to line break_pos) in
      let second_part := Py.lstrip (Py.slice_from line break_pos) in
      if (Py.len second_part <? 5)%Z then None
      else Some (first_part, second_part).

Equations _break_line_intelligently (config : ProcessingConfig) (line : str)
  : list str by wf (length line) lt :=
  _break_line_intelligently config line
    with inspect (split_line config line) := {
    | exist _ None _ := [line]
    | exist _ (Some (first_part, second_part)) _
        with inspect (recursive_call (Some (first_part, second_part)) line) := {
        | exist _ (Some l) H :=
            first_part :: _break_line_intelligently config l
        | exist _ None _ := [first_part] } }.
Next Obligation.
  apply recursive_call_shorter with (c := Some (first_part, second_part)).
  exact H.
Qed.

Definition _apply_line_breaking (config : ProcessingConfig) (lines : list str)
  : list str :=
  flat_map
    (fun line =>
       if is_blank line then [] else _break_line_intelligently config line)
    lines.

Definition continuation_indicators : list str :=
  [[65292]; [12289]; [21644]; [25110]; [20294]; [32780]; [22240; 20026];
   [25152; 20197]; [22914; 26524]; [37027; 20040]].

Definition _is_line_continuation (line : str) : bool :=
  let line := Py.strip line in
  match line with
  | [] => false
  | _ =>
      if ends_in line [65292; 12289] then true
      else
        let words := Py.split_ws line in
        if match rev words with
           | w :: _ => in_set w continuation_indicators
           | [] => false
           end
        then true
        else (Py.len line <? 8)%Z
  end.

Definition _add_missing_punctuation (lines : list str) : list str :=
  match rev lines with
  | [] => lines
  | last :: before =>
      let last_line := Py.strip last in
      if negb (is_blank last)
         && negb (ends_in last_line punctuation)
         && negb (Py.endswith last_line (lit "..."))
         && negb (Py.startswith last_line [MUSIC_NOTE])
         && negb (Py.endswith last_line [65292])
         && negb (_is_line_continuation last_line)
      then rev before ++ [last_line ++ [12290]]
      else lines
  end.

Definition process_block (config : ProcessingConfig) (block : SubtitleBlock)
  : SubtitleBlock :=
  match lines block with
  | [] => block
  | _ =>
      let processed_lines := _process_dialogue_format (lines block) in
      let processed_lines :=
        if (1 <? length processed_lines)%nat
        then _smart_merge_lines config processed_lines
        else processed_lines in
      let processed_lines := _apply_line_breaking config processed_lines in
      let processed_lines :=
        if negb (no_punct_fix config)
        then _add_missing_punctuation processed_lines
        else processed_lines in
      {| index := index block; time_code := time_code block;
         lines := processed_lines; language := language block;
         is_sdh := is_sdh block |}
  end.

Definition validate_reading_speed := processor_validate_reading_speed.

(** [merge_short_lines]: a line of fewer than six characters is joined
    to the next one. *)
Definition merge_short_lines (config : ProcessingConfig) (lines : list str)
  : list str :=
  if (length lines <=? 1)%nat then lines
  else short_lines_loop 6 [] sentence_endings
         (get_character_limit config (config_language config)) lines.

End ChineseProcessor.

(** ** processors/korean.py *)

Module KoreanProcessor.

Definition punctuation : str :=
  [12290; 65281; 65311; 65292; 65306; 65307; 39; 39; 65288; 65289; 12304;
   12305; 12298; 12299].

Definition helper_particles : list str :=
  [[51008]; [45716]; [51060]; [44032]; [51012]; [47484]; [50640];
   [50640; 49436]; [47196]; [51004; 47196]; [50752]; [44284]; [51032];
   [46020]; [47564]; [44620; 51648]; [48512; 53552]; [48372; 45796];
   [52376; 47100]; [45796]; [50836]; [51424]; [45348]; [51648]; [45768];
   [44620]; [50556]; [50500]; [50612]; [44256]; [49436]; [47732];
   [47140; 44256]; [54616; 44256]; [46412; 47928; 50640];
   [44032; 51648; 44256]].

Definition sentence_endings : str := [12290; 65281; 65311].

Definition _process_dialogue_format := process_dialogue_format.

Definition _should_merge_with_current (config : ProcessingConfig)
    (current next_line : str) : bool :=
  match current with
  | [] => false
  | _ =>
      if ends_in current sentence_endings then false
      else
        let current_is_dialogue := Py.startswith current (lit "- ") in
        let next_is_dialogue := Py.startswith next_line (lit "- ") in
        if negb (Bool.eqb current_is_dialogue next_is_dialogue) then false
        else
          let merged_length := (Py.len current + 1 + Py.len next_line)%Z in
          let char_limit := get_character_limit config (config_language config) in
          (merged_length <=? char_limit)%Z
  end.

Definition merge_step (config : ProcessingConfig) (st : merge_state)
    (line : str) : merge_state :=
  let '(merged_lines, current_line) := st in
  let line := Py.strip line in
  match line with
  | [] => st
  | _ =>
      if _should_merge_with_current config current_line line
      then match current_line with
           | [] => (merged_lines, line)
           | _ => (merged_lines, current_line ++ [SPACE] ++ line)
           end
      else match current_line with
           | [] => (merged_lines, line)
           | _ => (merged_lines ++ [current_line], line)
           end
  end.

Definition _smart_merge_lines (config : ProcessingConfig) (lines : list str)
  : list str :=
  if (length lines <=? 1)%nat then lines
  else merge_finish (fold_left (merge_step config) lines ([], [])).

Definition _find_best_break_position (line : str) (limit : Z) : Z :=
  let search_start := Z.max 0 (limit - 8) in
  let search_end := Z.min (Py.len line) (limit + 3) in
  first_found
    [ (* 1. spaces *)
      range_down (search_end - 1) (search_start - 1)
        (fun i =>
           match char_at line i with
           | Some c =>
               if (c =? SPACE) && (i <=? limit)%Z then Some i else None
           | None => None
           end);
      (* 2. particles of two characters *)
      range_down (search_end - 2) (search_start - 1)
        (fun i =>
           if (0 <=? i)%Z && (i + 2 <=? Py.len line)%Z
           then
             let two_char := firstn 2 (skipn (Z.to_nat i) line) in
             if in_set two_char helper_particles && (i + 2 <=? limit)%Z
             then Some (i + 2)%Z else None
           else None);
      (* 3. particles of one character *)
      range_down (search_end - 1) (search_start - 1)
        (fun i =>
           match char_at line i with
           | Some c =>
               if in_set [c] helper_particles && (i + 1 <=? limit)%Z
               then Some (i + 1)%Z else None
           | None => None
           end);
      (* 4. punctuation marks *)
      range_down (search_end - 1) (search_start - 1)
        (fun i =>
           match char_at line i with
           | Some c =>
               if char_in c punctuation && (i + 1 <=? limit)%Z
               then Some (i + 1)%Z else None
           | None => None
           end) ].

(** [_break_line_intelligently] up to its recursive call. *)
Definition split_line (config : ProcessingConfig) (line : str) : cut :=
  let char_limit := get_character_limit config (config_language config) in
  if (Py.len line <=? char_limit)%Z then None
  else
    let remaining_chars := (Py.len line - char_limit)%Z in
    if (remaining_chars <? 3)%Z then None
    else
      let break_pos := _find_best_break_position line char_limit in
      let break_pos := if (break_pos =? -1)%Z then char_limit else break_pos in
      let first_part := Py.rstrip (Py.slice_to line break_pos) in
      let second_part := Py.lstrip (Py.slice_from line break_pos) in
      if (Py.len second_part <? 4)%Z then None
      else Some (first_part, second_part).

Equations _break_line_intelligently (config : ProcessingConfig) (line : str)
  : list str by wf (length line) lt :=
  _break_line_intelligently config line
    with inspect (split_line config line) := {
    | exist _ None _ := [line]
    | exist _ (Some (first_part, second_part)) _
        with inspect (recursive_call (Some (first_part, second_part)) line) := {
        | exist _ (Some l) H :=
            first_part :: _break_line_intelligently config l
        | exist _ None _ := [first_part] } }.
Next Obligation.
  apply recursive_call_shorter with (c := Some (first_part, second_part)).
  exact H.
Qed.

Definition _apply_line_breaking (config : ProcessingConfig) (lines : list str)
  : list str :=
  flat_map
    (fun line =>
       if is_blank line then [] else _break_line_intelligently config line)
    lines.

Definition continuation_endings : list str :=
  [[44256]; [49436]; [47732]; [47728]; [45716; 45936]; [51648; 47564];
   [54616; 44256]; [44032; 51648; 44256]; [46412; 47928; 50640];
   [54616; 47732; 49436]; [45796; 44032]; [51004; 47732; 49436];
   [51004; 45768; 44620]; [45768; 44620]; [54616; 50668]; [54644; 49436];
   [50640; 49436]; [51004; 47196]; [47196]; [50752]; [44284]].

Definition _is_line_continuation (line : str) : bool :=
  let line := Py.strip line in
  match line with
  | [] => false
  | _ =>
      if existsb (Py.endswith line) continuation_endings then true
      else (Py.len line <? 6)%Z
  end.

(** The connectors after which no full stop is added. *)
Definition connectors : list str :=
  [[44256]; [49436]; [47732]; [47728]; [45716; 45936]; [51648; 47564];
   [54616; 44256]].

Definition _add_missing_punctuation (lines : list str) : list str :=
  match rev lines with
  | [] => lines
  | last :: before =>
      let last_line := Py.strip last in
      if negb (is_blank last)
         && negb (ends_in last_line punctuation)
         && negb (Py.endswith last_line (lit "..."))
         && negb (Py.startswith last_line [MUSIC_NOTE])
         && negb (existsb (Py.endswith last_line) connectors)
         && negb (_is_line_continuation last_line)
      then rev before ++ [last_line ++ lit "."]
      else lines
  end.

Definition process_block (config : ProcessingConfig) (block : SubtitleBlock)
  : SubtitleBlock :=
  match lines block with
  | [] => block
  | _ =>
      let processed_lines := _process_dialogue_format (lines block) in
      let processed_lines :=
        if (1 <? length processed_lines)%nat
        then _smart_merge_lines config processed_lines
        else processed_lines in
      let processed_lines := _apply_line_breaking config processed_lines in
      let processed_lines :=
        if negb (no_punct_fix config)
        then _add_missing_punctuation processed_lines
        else processed_lines in
      {| index := index block; time_code := time_code block;
         lines := processed_lines; language := language block;
         is_sdh := is_sdh block |}
  end.

Definition validate_reading_speed := processor_validate_reading_speed.

(** [merge_short_lines]: a line of fewer than five characters is joined
    to the next one, with a space between the two. *)
Definition merge_short_lines (config : ProcessingConfig) (lines : list str)
  : list str :=
  if (length lines <=? 1)%nat then lines
  else short_lines_loop 5 [SPACE] sentence_endings
         (get_character_limit config (config_language config)) lines.

End KoreanProcessor.

(** ** processors/english.py *)

Module EnglishProcessor.

Section WithLower.

(** [str.lower]: the case mapping of the Unicode database is taken as a
    parameter. *)
Variable lower : str -> str.

Definition conjunctions : list str :=
  [lit "and"; lit "but"; lit "or"; lit "nor"; lit "for"; lit "so"; lit "yet";
   lit "because"; lit "since"; lit "although"; lit "though"; lit "while";
   lit "whereas"; lit "however"; lit "therefore"; lit "moreover";
   lit "furthermore"; lit "nevertheless"; lit "nonetheless"].

Definition prepositions : list str :=
  [lit "in"; lit "on"; lit "at"; lit "by"; lit "for"; lit "with"; lit "from";
   lit "to"; lit "of"; lit "about"; lit "under"; lit "over"; lit "through";
   lit "between"; lit "among"; lit "during"; lit "before"; lit "after";
   lit "above"; lit "below"; lit "across"; lit "around"; lit "behind";
   lit "beside"].

Definition sentence_endings : str := lit ".!?".

Definition punctuation : str :=
  [46; 44; 33; 63; 59; 58; 34; 92; 39; 40; 41; 91; 93; 123; 125; 8212; 8211; 45].

Definition connecting_words : list str :=
  [lit "a"; lit "an"; lit "the"; lit "of"; lit "in"; lit "on"; lit "at";
   lit "to"; lit "for"; lit "with"; lit "by"; lit "and"; lit "or"; lit "but"].

Definition _process_dialogue_format := process_dialogue_format.

Definition _should_merge_with_current (config : ProcessingConfig)
    (current next_line : str) : bool :=
  match current with
  | [] => false
  | _ =>
      if ends_in current sentence_endings then false
      else
        let current_is_dialogue := Py.startswith current (lit "- ") in
        let next_is_dialogue := Py.startswith next_line (lit "- ") in
        if current_is_dialogue && next_is_dialogue then false
        else
          let current_length := Py.len (Py.strip current) in
          let next_length := Py.len (Py.strip next_line) in
          let fits :=
            let merged_length := (Py.len current + 1 + Py.len next_line)%Z in
            let char_limit :=
              get_character_limit config (config_language config) in
            (merged_length <=? char_limit)%Z in
          if (current_length <? 25)%Z || (next_length <? 25)%Z then fits
          else if Py.endswith (Py.rstrip current) (lit ".")
                  && (next_length <? 20)%Z then fits
          else if match rev (Py.split_ws (Py.strip current)) with
                  | w :: _ => in_set (lower w) connecting_words
                  | [] => false
                  end then fits
          else fits
  end.

Definition merge_step (config : ProcessingConfig) (st : merge_state)
    (line : str) : merge_state :=
  let '(merged_lines, current_line) := st in
  let line := Py.strip line in
  match line with
  | [] => st
  | _ =>
      if _should_merge_with_current config current_line line
      then match current_line with
           | [] => (merged_lines, line)
           | _ =>
               let cur_dialogue := Py.startswith current_line (lit "- ") in
               let line_dialogue := Py.startswith line (lit "- ") in
               if cur_dialogue && line_dialogue
               then (merged_lines ++ [current_line], line)
               else if cur_dialogue && negb line_dialogue
               then (merged_lines, current_line ++ [SPACE] ++ line)
               else if negb cur_dialogue && line_dialogue
               then (merged_lines ++ [current_line], line)
               else (merged_lines, current_line ++ [SPACE] ++ line)
           end
      else match current_line with
           | [] => (merged_lines, line)
           | _ => (merged_lines ++ [current_line], line)
           end
  end.

Definition _smart_merge_lines (config : ProcessingConfig) (lines : list str)
  : list str :=
  if (length lines <=? 1)%nat then lines
  else merge_finish (fold_left (merge_step config) lines ([], [])).

(** The first word of [words] that, lowered and stripped of punctuation,
    is in [set] and is found within the search window. *)
Fixpoint find_word (line : str) (set : list str) (search_start search_end : Z)
    (words : list str) : option Z :=
  match words with
  | [] => None
  | word :: rest =>
      let clean_word := Py.strip_chars punctuation (lower word) in
      let word_pos := Py.find (lower line) clean_word in
      if in_set clean_word set
         && (search_start <=? word_pos)%Z && (word_pos <=? search_end)%Z
      then Some word_pos
      else find_word line set search_start search_end rest
  end.

Definition _find_best_break_position (line : str) (limit : Z) : Z :=
  let search_start := Z.max 0 (limit - 20) in
  let search_end := Z.min (Py.len line) limit in
  let words_before_limit := Py.split_ws (Py.slice_to line limit) in
  first_found
    [ (* 1. punctuation marks *)
      range_down (search_end - 1) (search_start - 1)
        (fun i =>
           match char_at line i with
           | Some c => if char_in c (lit ".,!?;:") then Some (i + 1)%Z else None
           | None => None
           end);
      (* 2. conjunctions *)
      find_word line conjunctions search_start search_end words_before_limit;
      (* 3. prepositions *)
      find_word line prepositions search_start search_end words_before_limit ].

Definition _find_word_boundary_break (line : str) (limit : Z) : Z :=
  let search_start := Z.max 0 (limit - 15) in
  let search_end := Z.min (Py.len line) (limit + 5) in
  first_found
    [ range_down (search_end - 1) (search_start - 1)
        (fun i =>
           match char_at line i with
           | Some c => if c =? SPACE then Some i else None
           | None => None
           end) ].

Definition _should_break_line (line : str) (char_limit : Z) : bool :=
  if (Py.len line <=? char_limit)%Z then false
  else
    let remaining_text := Py.strip (Py.slice_from line char_limit) in
    match remaining_text with
    | [] => false
    | _ =>
        let remaining_words := Py.split_ws remaining_text in
        if (length remaining_words <? 4)%nat then false
        else
          let break_pos := _find_best_break_position line char_limit in
          if (0 <? break_pos)%Z
          then
            let second_part := Py.strip (Py.slice_from line break_pos) in
            if (Py.len second_part <? 20)%Z then false
            else if (length (Py.split_ws second_part) <? 3)%nat then false
            else true
          else false
    end.

(** [_break_line_intelligently] up to its recursive call. *)
Definition split_line (config : ProcessingConfig) (line : str) : cut :=
  let char_limit := get_character_limit config (config_language config) in
  if (Py.len line <=? char_limit)%Z then None
  else if negb (_should_break_line line char_limit) then None
  else
    let break_pos := _find_best_break_position line char_limit in
    let break_pos :=
      if (break_pos =? -1)%Z then _find_word_boundary_break line char_limit
      else break_pos in
    let break_pos := if (break_pos =? -1)%Z then char_limit else break_pos in
    let first_part := Py.rstrip (Py.slice_to line break_pos) in
    let second_part := Py.lstrip (Py.slice_from line break_pos) in
    Some (first_part, second_part).

Equations _break_line_intelligently (config : ProcessingConfig) (line : str)
  : list str by wf (length line) lt :=
  _break_line_intelligently config line
    with inspect (split_line config line) := {
    | exist _ None _ := [line]
    | exist _ (Some (first_part, second_part)) _
        with inspect (recursive_call (Some (first_part, second_part)) line) := {
        | exist _ (Some l) H :=
            first_part :: _break_line_intelligently config l
        | exist _ None _ := [first_part] } }.
Next Obligation.
  apply recursive_call_shorter with (c := Some (first_part, second_part)).
  exact H.
Qed.

Definition _apply_line_breaking (config : ProcessingConfig) (lines : list str)
  : list str :=
  flat_map
    (fun line =>
       if is_blank line then [] else _break_line_intelligently config line)
    lines.

(** The merged line that [_merge_short_lines] appends in place of
    [lines[i]] and [lines[i + 1]], if it merges them. *)
Definition merged_pair (config : ProcessingConfig) (current_line next_line : str)
  : option str :=
  let current_is_dialogue := Py.startswith current_line (lit "- ") in
  let next_is_dialogue := Py.startswith next_line (lit "- ") in
  let should_merge :=
    if (Py.len next_line <? 20)%Z then true
    else if (Py.len current_line <? 25)%Z then true
    else false in
  let should_merge :=
    if current_is_dialogue && next_is_dialogue then false else should_merge in
  if should_merge then
    let merged :=
      if current_is_dialogue && negb next_is_dialogue
      then Some (lit "- " ++ Py.strip (Py.slice_from current_line 2)
                 ++ [SPACE] ++ next_line)
      else if negb current_is_dialogue && next_is_dialogue then None
      else Some (current_line ++ [SPACE] ++ next_line) in
    let char_limit := get_character_limit config (config_language config) in
    match merged with
    | Some ((_ :: _) as m) => if (Py.len m <=? char_limit)%Z then Some m else None
    | _ => None
    end
  else None.

(** The loop of [_merge_short_lines], on [lines[i:]]. *)
Fixpoint merge_short_loop (config : ProcessingConfig) (lines : list str)
  : list str :=
  match lines with
  | [] => []
  | l :: rest =>
      if is_blank l then l :: merge_short_loop config rest
      else
        match rest with
        | next :: rest' =>
            if negb (is_blank next)
            then match merged_pair config (Py.strip l) (Py.strip next) with
                 | Some merged => merged :: merge_short_loop config rest'
                 | None => l :: merge_short_loop config rest
                 end
            else l :: merge_short_loop config rest
        | [] => l :: merge_short_loop config rest
        end
  end.

Definition _merge_short_lines (config : ProcessingConfig) (lines : list str)
  : list str :=
  if (length lines <=? 1)%nat then lines else merge_short_loop config lines.

Definition process_block (config : ProcessingConfig) (block : SubtitleBlock)
  : SubtitleBlock :=
  match lines block with
  | [] => block
  | _ =>
      let processed_lines := _process_dialogue_format (lines block) in
      let processed_lines :=
        if (1 <? length processed_lines)%nat
        then _smart_merge_lines config processed_lines
        else processed_lines in
      let processed_lines := _apply_line_breaking config processed_lines in
      let processed_lines := _merge_short_lines config processed_lines in
      {| index := index block; time_code := time_code block;
         lines := processed_lines; language := language block;
         is_sdh := is_sdh block |}
  end.

End WithLower.

Definition validate_reading_speed := processor_validate_reading_speed.

End EnglishProcessor.

(** [str.lower] on texts that have no cased character outside ASCII. *)
Definition ascii_lower (s : str) : str :=
  map (fun c => if in_range 65 90 c then c + 32 else c) s.

(** ** core/processor.py *)

(** What the processor classes have in common. *)
Record Processor := {
  process_block : ProcessingConfig -> SubtitleBlock -> SubtitleBlock;
  validate_reading_speed : ProcessingConfig -> SubtitleBlock -> bool
}.

(** What the validator records.  A warning is kept as its parts instead
    of the formatted message; the message starts with the index of the
    block and names the kind of the violation. *)
Inductive warning :=
| ExceedsCharacterLimit (block_index : Z) (line_number : Z)
    (line_char_count char_limit : Z) (line_language : Language)
| ReadingSpeedTooFast (block_index : Z) (actual_speed speed_limit : Q).

Definition warning_block (w : warning) : Z :=
  match w with
  | ExceedsCharacterLimit i _ _ _ _ => i
  | ReadingSpeedTooFast i _ _ => i
  end.

Definition is_character_warning (w : warning) : bool :=
  match w with ExceedsCharacterLimit _ _ _ _ _ => true | _ => false end.

Definition is_speed_warning (w : warning) : bool :=
  match w with ReadingSpeedTooFast _ _ _ => true | _ => false end.

Record statistics := {
  stat_total_blocks : Z;
  warning_count : Z;
  error_count : Z;
  stat_detected_language : option Language
}.

Record validation_results := {
  valid : bool;
  warnings : list warning;
  errors : list str;
  stats : statistics
}.

Record check_results := {
  validation : validation_results;
  character_warnings : list warning;
  speed_warnings : list warning;
  compliance_rate : Q;
  compliant_blocks : Z;
  original_document : SRTDocument
}.

(** What the decoder hands to the parser for one input path: the path
    as the caller wrote it, the decoded text of the file and the
    encoding that was detected. *)
Record input_file := {
  path : str;
  content : str;
  detected_encoding : str
}.

(** The inner loop of [_process_bilingual_block]: from [lines[j:]], the
    lines that join the run and the lines from the first line of another
    language on.  Blank lines are passed over. *)
Definition run_test (line_language : Language) (next_line : str) : option bool :=
  if is_blank next_line then None
  else Some (Language_eqb (LanguageDetector.detect_line_language next_line)
               line_language).

Fixpoint take_run (line_language : Language) (rest : list str)
  : list str * list str :=
  match rest with
  | [] => ([], [])
  | next_line :: rest' =>
      match run_test line_language next_line with
      | None => take_run line_language rest'
      | Some true =>
          let '(m, r) := take_run line_language rest' in (next_line :: m, r)
      | Some false => ([], rest)
      end
  end.

Lemma take_run_length (l : Language) (rest : list str) :
  forall more remaining,
    take_run l rest = (more, remaining) ->
    (length remaining <= length rest)%nat.
Proof.
  induction rest as [|x rest IH]; intros more remaining E; simpl in E.
  - injection E as <- <-. simpl. lia.
  - destruct (run_test l x) as [[|]|].
    + destruct (take_run l rest) as [m r].
      injection E as <- <-. specialize (IH _ _ eq_refl). simpl. lia.
    + injection E as <- <-. simpl. lia.
    + specialize (IH _ _ E). simpl. lia.
Qed.

Module SRTProcessor.

Section WithLower.

Variable lower : str -> str.

Definition chinese : Processor :=
  {| process_block := ChineseProcessor.process_block;
     validate_reading_speed := ChineseProcessor.validate_reading_speed |}.
Definition english : Processor :=
  {| process_block := EnglishProcessor.process_block lower;
     validate_reading_speed := EnglishProcessor.validate_reading_speed |}.
Definition korean : Processor :=
  {| process_block := KoreanProcessor.process_block;
     validate_reading_speed := KoreanProcessor.validate_reading_speed |}.

(** [self.processors.get(language)]: there is no Japanese processor. *)
Definition processors (l : Language) : option Processor :=
  match l with
  | CHINESE => Some chinese
  | ENGLISH => Some english
  | KOREAN => Some korean
  | JAPANESE | AUTO => None
  end.

(** [block.language or document.detected_language or Language.ENGLISH]. *)
Definition block_language_of (d : SRTDocument) (b : SubtitleBlock) : Language :=
  match language b with
  | Some l => l
  | None => match detected_language d with
            | Some l => l
            | None => ENGLISH
            end
  end.

Definition add_language (l : Language) (seen : list Language) : list Language :=
  if existsb (Language_eqb l) seen then seen else seen ++ [l].

(** The loop of [_is_bilingual_block], with the set of languages so far. *)
Fixpoint bilingual_scan (ls : list str) (languages : list Language) : bool :=
  match ls with
  | [] => false
  | line :: rest =>
      if is_blank line then bilingual_scan rest languages
      else
        let languages :=
          add_language (LanguageDetector.detect_line_language line) languages in
        if (1 <? length languages)%nat then true
        else bilingual_scan rest languages
  end.

Definition _is_bilingual_block (block : SubtitleBlock) : bool :=
  if (length (lines block) <? 2)%nat then false
  else bilingual_scan (lines block) [].

(** The lines that one run of one language becomes. *)
Definition process_run (config : ProcessingConfig) (block : SubtitleBlock)
    (line_language : Language) (consecutive_lines : list str) : list str :=
  match processors line_language with
  | Some processor =>
      let temp_block :=
        {| index := index block; time_code := time_code block;
           lines := consecutive_lines; language := Some line_language;
           is_sdh := is_sdh block |} in
      let temp_config := replace_language config line_language in
      lines (process_block processor temp_config temp_block)
  | None => consecutive_lines
  end.

(** The outer loop of [_process_bilingual_block], on [lines[i:]]. *)
Equations bilingual_loop (config : ProcessingConfig) (block : SubtitleBlock)
    (rest : list str) : list str by wf (length rest) lt :=
  bilingual_loop config block [] := [];
  bilingual_loop config block (line :: rest')
    with inspect (is_blank line) := {
    | exist _ true _ := line :: bilingual_loop config block rest'
    | exist _ false _
        with inspect (take_run (LanguageDetector.detect_line_language line) rest') := {
        | exist _ (more, remaining) H :=
            process_run config block
              (LanguageDetector.detect_line_language line) (line :: more)
            ++ bilingual_loop config block remaining } }.
Next Obligation.
  apply take_run_length in H. simpl. lia.
Qed.

Definition _process_bilingual_block (config : ProcessingConfig)
    (block : SubtitleBlock) : SubtitleBlock :=
  {| index := index block; time_code := time_code block;
     lines := bilingual_loop config block (lines block);
     language := language block; is_sdh := is_sdh block |}.

Definition _process_document (config : ProcessingConfig) (d : SRTDocument)
  : SRTDocument :=
  {| blocks :=
       map (fun block =>
              if _is_bilingual_block block
              then _process_bilingual_block config block
              else match processors (block_language_of d block) with
                   | Some processor => process_block processor config block
                   | None => block
                   end)
         (blocks d);
     source_file := source_file d;
     detected_language := detected_language d;
     encoding := encoding d |}.

(** The character-limit warnings of the lines of one block, from the line
    with the index [line_idx] on. *)
Fixpoint line_warnings (config : ProcessingConfig) (block_index : Z)
    (line_idx : Z) (ls : list str) : list warning :=
  match ls with
  | [] => []
  | line :: rest =>
      let here :=
        if is_blank line then []
        else
          let line_language := LanguageDetector.detect_line_language line in
          let char_limit := get_character_limit config line_language in
          let line_char_count := Py.len line in
          if (char_limit <? line_char_count)%Z
          then [ExceedsCharacterLimit block_index (line_idx + 1)
                  line_char_count char_limit line_language]
          else [] in
      here ++ line_warnings config block_index (line_idx + 1) rest
  end.

(** The warnings that [validate_document] appends for one block. *)
Definition block_warnings (config : ProcessingConfig) (d : SRTDocument)
    (block : SubtitleBlock) : list warning :=
  let block_language := block_language_of d block in
  match processors block_language with
  | Some processor =>
      line_warnings config (index block) 0 (lines block)
      ++ (if negb (no_speed_check config)
          then if negb (validate_reading_speed processor config block)
               then [ReadingSpeedTooFast (index block) (get_reading_speed block)
                       (get_reading_speed_limit config block_language)]
               else []
          else [])
  | None => []
  end.

Definition validate_document (config : ProcessingConfig) (d : SRTDocument)
  : validation_results :=
  let ws := flat_map (block_warnings config d) (blocks d) in
  {| valid := true;
     warnings := ws;
     errors := [];
     stats := {| stat_total_blocks := Z.of_nat (length (blocks d));
                 warning_count := Z.of_nat (length ws);
                 error_count := 0;
                 stat_detected_language := detected_language d |} |}.

(** [parser.parse_file]: the file has been read and decoded.  The
    document names [str(Path(file_path))] as its source. *)
Definition parse_file (f : input_file) (encoding : option str)
  : option (result SRTParseError SRTDocument) :=
  let encoding :=
    match encoding with Some e => e | None => detected_encoding f end in
  match _parse_content (content f) with
  | Some (Ok bs) =>
      Some (Ok {| blocks := bs; source_file := Some (Py.Path_str (path f));
                  detected_language := None; encoding := encoding |})
  | Some (Err e) => Some (Err e)
  | None => None
  end.

Definition set_detected_language (d : SRTDocument) (l : Language) : SRTDocument :=
  {| blocks := blocks d; source_file := source_file d;
     detected_language := Some l; encoding := encoding d |}.

(** The methods that assign to [self.config] run in a state monad over
    the configuration object that the caller handed to the processor. *)
Definition M (A : Type) : Type := ProcessingConfig -> A * ProcessingConfig.

Definition ret {A} (a : A) : M A := fun c => (a, c).
Definition mbind {A B} (m : M A) (f : A -> M B) : M B :=
  fun c => let '(a, c') := m c in f a c'.
Definition get_config : M ProcessingConfig := fun c => (c, c).
(** [self.config.language = l] *)
Definition assign_language (l : Language) : M unit :=
  fun c => (tt, replace_language c l).

(** The steps that [process_file] and [check_file_only] share: language
    detection, block languages and the SDH pass. *)
Definition prepare (document : SRTDocument) : M SRTDocument :=
  mbind get_config (fun config =>
  mbind
    (match config_language config with
     | AUTO =>
         let detected := LanguageDetector.detect_language document in
         mbind (assign_language detected) (fun _ =>
         ret (set_detected_language document detected))
     | l => ret (set_detected_language document l)
     end) (fun document =>
  let document := LanguageDetector.detect_block_languages document in
  mbind get_config (fun config =>
  ret (if remove_sdh config
       then remove_sdh_blocks_and_clean_content document
       else document)))).

(** [process_file]: the processed document and the text that is written
    to the output path. *)
Definition process_file (f : input_file)
  : M (option (result SRTParseError (SRTDocument * str))) :=
  mbind get_config (fun config =>
  match parse_file f (force_encoding config) with
  | None => ret None
  | Some (Err e) => ret (Some (Err e))
  | Some (Ok document) =>
      mbind (prepare document) (fun document =>
      mbind get_config (fun config =>
      let processed_document := _process_document config document in
      ret (Some (Ok (processed_document, to_srt_format processed_document)))))
  end).

Definition check_file_only (f : input_file)
  : M (option (result SRTParseError check_results)) :=
  mbind get_config (fun config =>
  match parse_file f (force_encoding config) with
  | None => ret None
  | Some (Err e) => ret (Some (Err e))
  | Some (Ok document) =>
      mbind (prepare document) (fun document =>
      mbind get_config (fun config =>
      let results := validate_document config document in
      let total_blocks := stat_total_blocks (stats results) in
      let warning_blocks :=
        Z.of_nat (length (nodup Z.eq_dec (map warning_block (warnings results)))) in
      let compliant := (total_blocks - warning_blocks)%Z in
      ret (Some (Ok
        {| validation := results;
           character_warnings := filter is_character_warning (warnings results);
           speed_warnings :=
             filter (fun w => negb (is_character_warning w) && is_speed_warning w)
               (warnings results);
           compliance_rate :=
             if (0 <? total_blocks)%Z
             then (inject_Z compliant / inject_Z total_blocks * 100)%Q
             else 0%Q;
           compliant_blocks := compliant;
           original_document := document |}))))
  end).

(** The kinds of violation that [_categorize_violation_types] names. *)
Inductive violation_type := character_limit | reading_speed.

(** [_categorize_violation_types]: the kinds of the warnings of one
    block.  The source returns [list(set(...))], whose order is not
    specified; the kinds are listed here in one fixed order, and only
    membership is meant. *)
Definition _categorize_violation_types (warnings : list warning)
  : list violation_type :=
  (if existsb is_character_warning warnings then [character_limit] else [])
  ++ (if existsb (fun w => negb (is_character_warning w) && is_speed_warning w)
           warnings
      then [reading_speed] else []).

(** [block_violations[block_idx].append(warning)]: the keys of the
    dictionary stay in the order of their first occurrence. *)
Fixpoint group_add (block_idx : Z) (w : warning)
    (groups : list (Z * list warning)) : list (Z * list warning) :=
  match groups with
  | [] => [(block_idx, [w])]
  | (k, ws) :: rest =>
      if (k =? block_idx)%Z then (k, ws ++ [w]) :: rest
      else (k, ws) :: group_add block_idx w rest
  end.

(** The warnings by block index.  The pattern of the source reads the
    index as a run of digits after the word Block, so the warning of a
    block with a negative index does not match and is passed over. *)
Definition block_violations (warnings : list warning)
  : list (Z * list warning) :=
  fold_left
    (fun groups w =>
       if (0 <=? warning_block w)%Z
       then group_add (warning_block w) w groups
       else groups)
    warnings [].

(** One entry of the list that [_extract_violation_blocks] returns. *)
Record violation_block := {
  vb_block : SubtitleBlock;
  vb_violations : list warning;
  vb_violation_types : list violation_type
}.

(** [violation_blocks.sort(key=lambda x: x["block"].index)]: the sort of
    the source is stable, and so is this insertion sort. *)
Fixpoint insert_by_index (v : violation_block) (sorted : list violation_block)
  : list violation_block :=
  match sorted with
  | [] => [v]
  | x :: rest =>
      if (index (vb_block v) <=? index (vb_block x))%Z then v :: sorted
      else x :: insert_by_index v rest
  end.

Definition sort_by_index (vs : list violation_block) : list violation_block :=
  fold_right insert_by_index [] vs.

Definition _extract_violation_blocks (document : SRTDocument)
    (warnings : list warning) : list violation_block :=
  let violation_blocks :=
    flat_map
      (fun group : Z * list warning =>
         let '(block_idx, block_warnings) := group in
         match find (fun doc_block => (index doc_block =? block_idx)%Z)
                 (blocks document) with
         | Some block =>
             [{| vb_block := block;
                 vb_violations := block_warnings;
                 vb_violation_types :=
                   _categorize_violation_types block_warnings |}]
         | None => []
         end)
      (block_violations warnings) in
  sort_by_index violation_blocks.

(** The entry [violation_blocks] of the dictionary that [check_file_only]
    returns. *)
Definition violation_blocks_of (r : check_results) : list violation_block :=
  _extract_violation_blocks (original_document r) (warnings (validation r)).

End WithLower.

End SRTProcessor.

(** * Concrete inputs *)

(** Twenty hiragana letters. *)
Definition hiragana_line : str := repeat 12354 20.

Definition japanese_file : input_file :=
  {| path := lit "ja.srt";
     content := Py.join [NL] [lit "1"; T1; hiragana_line; []];
     detected_encoding := utf_8 |}.

Definition japanese_block : SubtitleBlock :=
  {| index := 1%Z; time_code := tc1; lines := [hiragana_line];
     language := Some JAPANESE; is_sdh := false |}.

Definition japanese_document : SRTDocument :=
  {| blocks := [japanese_block]; source_file := Some (lit "ja.srt");
     detected_language := Some JAPANESE; encoding := utf_8 |}.

(** A block whose only line is fifty spaces, shown for ten seconds. *)
Definition spaces_block : SubtitleBlock :=
  new_block 1%Z {| start := 0%Z; end_ := 10000000%Z |} [repeat SPACE 50].

(** A block whose only line is one space. *)
Definition blank_block : SubtitleBlock := new_block 1%Z tc1 [[SPACE]].

(** Forty letters shown for two seconds. *)
Definition forty_in_two_seconds : SubtitleBlock :=
  {| index := 1%Z;
     time_code := {| start := 1000000%Z; end_ := 3000000%Z |};
     lines := [repeat 97 40]; language := Some ENGLISH; is_sdh := false |}.

Definition english_config : ProcessingConfig :=
  replace_language default_config ENGLISH.

(** * The vocabulary of the properties

    Predicates, specification functions and sample documents.  None of
    them is part of the sources; each is introduced again, with what is
    proved about it, in the section of the properties that uses it. *)

(** The recursion of the three engines has one shape: the line is
    returned whole, or the first part is followed by the result of the
    recursive call on the second part, if the call is made. *)
Definition follows_recursion (split_line : str -> cut)
    (break : str -> list str) (line : str) : Prop :=
  break line
  = match split_line line with
    | None => [line]
    | Some (first_part, second_part) =>
        first_part
        :: match recursive_call (Some (first_part, second_part)) line with
           | Some l => break l
           | None => []
           end
    end.

(** Every recursive call is on a strictly shorter line. *)
Definition call_is_shorter (split_line : str -> cut) (line : str) : Prop :=
  match recursive_call (split_line line) line with
  | Some l => (length l < length line)%nat
  | None => True
  end.

Definition nonempty (s : str) : bool :=
  match s with [] => false | _ => true end.

(** The stripped, non-empty input lines, in order. *)
Definition stripped_lines (lines : list str) : list str :=
  filter nonempty (map Py.strip lines).

Definition english_file : input_file :=
  {| path := lit "en.srt";
     content := Py.join [NL] [lit "1"; T1; lit "Hello there"; []];
     detected_encoding := utf_8 |}.

(** The configuration after [prepare]: in auto mode the language field
    holds the detected language, otherwise nothing has changed. *)
Definition config_after (config : ProcessingConfig) (document : SRTDocument)
  : ProcessingConfig :=
  match config_language config with
  | AUTO => replace_language config (LanguageDetector.detect_language document)
  | _ => config
  end.

(** The integers [from], [from + 1], ... ([n] of them). *)
Fixpoint Z_range (from : Z) (n : nat) : list Z :=
  match n with
  | O => []
  | S n' => from :: Z_range (from + 1) n'
  end.

(** A line whose only content is a run of the music glyph, possibly
    surrounded by white space; a blank line is the run of length 0. *)
Definition music_line (l : str) : Prop :=
  exists n, Py.strip l = repeat MUSIC_NOTE n.

(** A block whose only content across all its lines is music glyphs. *)
Definition music_only (b : SubtitleBlock) : Prop :=
  Forall music_line (lines b) /\ exists l, In l (lines b) /\ Py.strip l <> [].

Definition with_blocks (d : SRTDocument) (bs : list SubtitleBlock) : SRTDocument :=
  {| blocks := bs; source_file := source_file d;
     detected_language := detected_language d; encoding := encoding d |}.

Definition hello_music_world : SRTDocument :=
  new_document
    [new_block 1%Z tc1 [lit "Hello"];
     new_block 2%Z tc1 [[MUSIC_NOTE; MUSIC_NOTE]];
     new_block 3%Z tc2 [lit "World"]].

(** The words of a pattern.  The anchors are read as the empty word:
    what they require of the text around the word is left out. *)
Fixpoint lang (r : Re.regex) (w : str) : Prop :=
  match r with
  | Re.Eps => w = []
  | Re.Cls p => exists c, w = [c] /\ p c = true
  | Re.Seq a b => exists u v, w = u ++ v /\ lang a u /\ lang b v
  | Re.Alt a b => lang a w \/ lang b w
  | Re.Star p | Re.StarLazy p => forallb p w = true
  | Re.Bol | Re.Eol => w = []
  | Re.Group g => lang g w
  end.

(** A time stamp [dd:dd:dd,ddd] of decimal digits. *)
Inductive stamp : str -> Prop :=
| stamp_intro (h1 h2 m1 m2 s1 s2 f1 f2 f3 : char) :
    Py.isdecimal h1 = true -> Py.isdecimal h2 = true ->
    Py.isdecimal m1 = true -> Py.isdecimal m2 = true ->
    Py.isdecimal s1 = true -> Py.isdecimal s2 = true ->
    Py.isdecimal f1 = true -> Py.isdecimal f2 = true ->
    Py.isdecimal f3 = true ->
    stamp [h1; h2; 58; m1; m2; 58; s1; s2; 44; f1; f2; f3].

Definition ARROW : str := [45; 45; 62].    (* "-->" *)

Definition ten : list N := [0; 1; 2; 3; 4; 5; 6; 7; 8; 9].

(** A property of characters that holds of every decimal digit, checked
    on the table. *)
Definition holds_of_decimals (P : char -> bool) : bool :=
  forallb (fun z => forallb (fun k => P (z + k)) ten) Py.decimal_zeros.

Definition ascii_digit (a : char) : bool := in_range 48 57 a.

(** What is used of a decimal digit: [int] reads it as an ASCII digit,
    and it is none of the characters around which the time code is cut. *)
Definition digit_like (c : char) : bool :=
  match Py.to_ascii_char c with
  | Some a => ascii_digit a
  | None => false
  end
  && negb (Py.isspace c)
  && negb (char_in c [58; 44; 45; 32; 95; 43; 10]).

(** The white space that [int] meets after the conversion to ASCII:
    the white space of C, and the four separators that only Unicode
    counts as white space. *)
Definition spaceish (a : char) : bool := Py.c_isspace a || in_range 28 31 a.

(** What may follow the digits of a field: nothing, or a character that
    is neither a digit nor an underscore. *)
Definition ends_digits (r : str) : Prop :=
  match r with
  | [] => True
  | c :: _ => ascii_digit c = false /\ (c =? 95) = false
  end.

Definition SEP : str := [32; 45; 45; 62; 32].    (* " --> " *)

Definition not_dash_next (t : str) : Prop :=
  match t with
  | c :: _ => c <> 45
  | [] => True
  end.

(** The bounds that hold of the fields of one accepted time. *)
Definition two_digit_fields (h m s ms : Z) : Prop :=
  (0 <= h <= 99 /\ 0 <= m <= 99 /\ 0 <= s <= 99 /\ 0 <= ms)%Z.

(** The value of a string of ASCII digits, read from the left. *)
Fixpoint value_of (ds : str) (acc : Z) : Z :=
  match ds with
  | [] => acc
  | c :: t => value_of t (10 * acc + Z.of_N (c - 48))%Z
  end.

Definition without (c0 : char) (s : str) : bool :=
  forallb (fun c => negb (c =? c0)) s.

(** What [zero_pad] has to deliver for a field of a time stamp. *)
Definition pad_ok (w : nat) (v : Z) : bool :=
  let s := Py.zero_pad w v in
  (length s =? w)%nat && forallb ascii_digit s
  && match Py.int s with Some x => (x =? v)%Z | None => false end.

Definition valid_time (td : timedelta) : bool :=
  ((0 <=? td) && (td <? 360000000000) && (td mod 1000 =? 0))%Z.

(** The seconds of the time are below [2 ** 34], some 544 years: up to
    there [int(td.total_seconds())] is the number of whole seconds. *)
Definition exact_seconds (td : timedelta) : Prop :=
  (Z.abs td < 17179869184000000)%Z.

(** The four fields that [_format_time] writes for such a time. *)
Definition hours_of (td : timedelta) : Z := (Z.quot td 1000000 / 3600)%Z.

Definition minutes_of (td : timedelta) : Z := ((Z.quot td 1000000 mod 3600) / 60)%Z.

Definition seconds_of (td : timedelta) : Z := (Z.quot td 1000000 mod 60)%Z.

Definition milliseconds_of (td : timedelta) : Z := ((td mod 1000000) / 1000)%Z.

(** A line as the parser stores it: no line break inside and no white
    space at its end. *)
Definition plain_line (l : str) : bool :=
  without NL l && str_eqb (Py.rstrip l) l.

(** No line of [ls] is a bare integer with a time-code line after it. *)
Fixpoint no_block_start (ls : list str) : bool :=
  match ls with
  | [] => true
  | _ :: rest => negb (at_next_block ls) && no_block_start rest
  end.

(** There is a last line and it is not blank. *)
Definition ends_visibly (ls : list str) : bool :=
  match rev ls with
  | l :: _ => negb (is_blank l)
  | [] => false
  end.

(** The blocks that the parser can deliver. *)
Definition canonical_block (b : SubtitleBlock) : bool :=
  (0 <=? index b)%Z
  && valid_time (start (time_code b)) && valid_time (end_ (time_code b))
  && forallb plain_line (lines b) && ends_visibly (lines b)
  && no_block_start (lines b)
  && match language b with None => true | Some _ => false end
  && negb (is_sdh b).

Definition canonical_document (d : SRTDocument) : bool :=
  forallb canonical_block (blocks d)
  && match source_file d with None => true | Some _ => false end
  && match detected_language d with None => true | Some _ => false end
  && str_eqb (encoding d) utf_8.

(** The lines of the serialized text of the blocks [b :: rest], without
    the empty line at its very end. *)
Fixpoint body_lines (b : SubtitleBlock) (rest : list SubtitleBlock) : list str :=
  Py.str_of_Z (index b) :: TimeCode_to_srt_format (time_code b)
  :: lines b
     ++ match rest with
        | [] => []
        | b' :: rest' => [] :: body_lines b' rest'
        end.

Definition hello_world : SRTDocument :=
  new_document [new_block 1%Z tc1 [lit "Hello"]; new_block 2%Z tc2 [lit "World"]].

Definition hello_trailing_space : SRTDocument :=
  new_document [new_block 1%Z tc1 [lit "Hello "]].

(** The characters of a text that are not white space, in order. *)
Definition visible (s : str) : str := filter (fun c => negb (Py.isspace c)) s.

(** The visible characters of a list of lines. *)
Definition visible_text (ls : list str) : str := visible (concat ls).

(** The character limit that the processors read from their
    configuration. *)
Definition limit_of (config : ProcessingConfig) : Z :=
  get_character_limit config (config_language config).

(** What the cut of a line has to satisfy for the pieces of
    [_break_line_intelligently] to be read off it. *)
Definition good_cut (limit : Z) (split_line : str -> cut) : Prop :=
  forall line first_part second_part,
    split_line line = Some (first_part, second_part) ->
    visible first_part ++ visible second_part = visible line
    /\ (Py.len first_part <= limit)%Z
    /\ (length second_part < length line)%nat.

(** All the pieces but the last are within the limit, and the last is
    within the limit or a line that is not cut. *)
Definition pieces_fit (limit : Z) (split_line : str -> cut)
    (pieces : list str) : Prop :=
  exists init last,
    pieces = init ++ [last]
    /\ Forall (fun p => (Py.len p <= limit)%Z) init
    /\ ((Py.len last <= limit)%Z \/ split_line last = None).

(** The visible characters that a state of a merging loop holds. *)
Definition visible_state (st : merge_state) : str :=
  visible_text (fst st) ++ visible (snd st).

(** A line of the output of a merging loop is acceptable when it is
    within the limit or is one of the input lines, stripped. *)
Definition fits_or_given (limit : Z) (given : list str) (l : str) : Prop :=
  (Py.len l <= limit)%Z \/ In l (map Py.strip given).

Definition state_fits (limit : Z) (given : list str) (st : merge_state) : Prop :=
  Forall (fits_or_given limit given) (fst st)
  /\ (snd st = [] \/ fits_or_given limit given (snd st)).

(** The visible characters of [after] are those of [before], with the
    mark [stop] at the end if the punctuation pass added it. *)
Definition same_up_to_stop (config : ProcessingConfig) (stop : char)
    (before after : list str) : Prop :=
  visible_text after = visible_text before
  \/ (no_punct_fix config = false
      /\ visible_text after = visible_text before ++ [stop]).

(** Two blocks differ in their lines at most. *)
Definition same_but_lines (a b : SubtitleBlock) : Prop :=
  index a = index b /\ time_code a = time_code b
  /\ language a = language b /\ is_sdh a = is_sdh b.

(** Two documents differ in the lines of their blocks at most. *)
Definition same_but_text (a b : SRTDocument) : Prop :=
  Forall2 same_but_lines (blocks a) (blocks b)
  /\ source_file a = source_file b
  /\ detected_language a = detected_language b
  /\ encoding a = encoding b.

(** The languages that detection can answer. *)
Definition detectable (l : Language) : Prop :=
  l = CHINESE \/ l = ENGLISH \/ l = KOREAN \/ l = JAPANESE.

(** What a warning of the validator says about the document: a
    character warning names a line of a block, by its position from 1,
    that is not blank and is longer than the limit of its own language;
    a speed warning names a block that the engine of its language found
    too fast, and there is none when the speed check is disabled. *)
Definition justified (lower : str -> str) (config : ProcessingConfig)
    (d : SRTDocument) (w : warning) : Prop :=
  exists b processor,
    In b (blocks d) /\ warning_block w = index b
    /\ SRTProcessor.processors lower (SRTProcessor.block_language_of d b)
       = Some processor
    /\ match w with
       | ExceedsCharacterLimit _ line_number line_char_count char_limit line_language =>
           exists line,
             (1 <= line_number)%Z
             /\ nth_error (lines b) (Z.to_nat (line_number - 1)) = Some line
             /\ is_blank line = false
             /\ line_language = LanguageDetector.detect_line_language line
             /\ line_char_count = Py.len line
             /\ char_limit = get_character_limit config line_language
             /\ (char_limit < line_char_count)%Z
       | ReadingSpeedTooFast _ actual_speed speed_limit =>
           no_speed_check config = false
           /\ validate_reading_speed processor config b = false
           /\ actual_speed = get_reading_speed b
           /\ speed_limit
              = get_reading_speed_limit config (SRTProcessor.block_language_of d b)
       end.

(** The block carries a language mark, and it is one that detection can
    answer. *)
Definition marked (b : SubtitleBlock) : Prop :=
  exists l, language b = Some l /\ detectable l.

(** A time that is not negative and below [2 ** 34] seconds. *)
Definition exactly_written (td : timedelta) : Prop :=
  (0 <= td)%Z /\ exact_seconds td.

(** A time just beyond: [2 ** 34] seconds and 999999 microseconds. *)
Definition beyond_exact : timedelta := 17179869184999999%Z.

(** Three hundred million days and 999 milliseconds. *)
Definition late_milliseconds : timedelta :=
  (300000000 * US_PER_DAY + 999000)%Z.

(** The time without what is below a millisecond. *)
Definition whole_milliseconds (td : timedelta) : timedelta :=
  (td - td mod 1000)%Z.

(** From a hundred hours to a millisecond and a half later. *)
Definition hundred_hours : TimeCode :=
  {| start := 360000000000%Z; end_ := 360000001500%Z |}.

(** The code points from the first to the last of a range. *)
Definition points (r : N * N) : list N :=
  map (fun k => fst r + N.of_nat k) (seq 0 (N.to_nat (snd r + 1 - fst r))).

(** A block as the parser builds it: the conditions of
    [canonical_block], but for the bound of a hundred hours on the two
    times. *)
Definition parsed_block (b : SubtitleBlock) : Prop :=
  (0 <= index b)%Z
  /\ (0 <= start (time_code b))%Z /\ (start (time_code b) mod 1000 = 0)%Z
  /\ (0 <= end_ (time_code b))%Z /\ (end_ (time_code b) mod 1000 = 0)%Z
  /\ forallb plain_line (lines b) = true
  /\ ends_visibly (lines b) = true
  /\ no_block_start (lines b) = true
  /\ language b = None /\ is_sdh b = false.

(** The lines that the parser works on. *)
Definition input_lines (content : str) : list str :=
  Py.split [NL] (Py.strip content).

(** Both times of the block are below a hundred hours. *)
Definition below_hundred_hours (b : SubtitleBlock) : Prop :=
  (start (time_code b) < 360000000000)%Z /\ (end_ (time_code b) < 360000000000)%Z.

Definition hello_there : SRTDocument :=
  new_document [new_block 1%Z tc1 [lit "Hello there"]].

(** A line as the SDH pass leaves it: without white space around it, not
    blank, and not a lone dialogue dash. *)
Definition clean_line (l : str) : Prop :=
  Py.strip l = l /\ is_blank l = false /\ l <> lit "-".

(** [kept] is what the SDH pass makes of the block [b]: the cleaned
    block, under a new index. *)
Definition cleaned_from (b kept : SubtitleBlock) : Prop :=
  kept = set_index (clean_sdh_markers b) (index kept).

(** Hiragana or katakana. *)
Definition kana (c : char) : bool :=
  LanguageDetector.hiragana_pattern c || LanguageDetector.katakana_pattern c.

(** The scripts that tell a language, each with its language. *)
Definition scripts : list ((char -> bool) * Language) :=
  [(LanguageDetector.chinese_pattern, CHINESE);
   (LanguageDetector.ascii_pattern, ENGLISH);
   (LanguageDetector.korean_pattern, KOREAN);
   (kana, JAPANESE)].

(** A line that is not blank and holds nothing but characters of the
    script [p] and spaces. *)
Definition script_line (p : char -> bool) (l : str) : Prop :=
  is_blank l = false /\ forall c, In c l -> p c = true \/ c = SPACE.

(** A block with at least one line, all of them lines of the script. *)
Definition script_block (p : char -> bool) (b : SubtitleBlock) : Prop :=
  lines b <> [] /\ Forall (script_line p) (lines b).

(** A document with at least one block, all of them blocks of the script. *)
Definition script_document (p : char -> bool) (d : SRTDocument) : Prop :=
  blocks d <> [] /\ Forall (script_block p) (blocks d).

(** A text of characters of the script [p], spaces and line breaks, with
    fewer line breaks than characters of the script. *)
Definition script_text (p : char -> bool) (t : str) : Prop :=
  (forall c, In c t -> p c = true \/ c = SPACE \/ c = NL)
  /\ (LanguageDetector.count (N.eqb NL) t < LanguageDetector.count p t)%Z.

(** The count that a [Counter] holds for a language: zero when the
    language is not a key. *)
Definition count_of (counts : list (Language * Z)) (l : Language) : Z :=
  match find (fun entry => Language_eqb (fst entry) l) counts with
  | Some entry => snd entry
  | None => 0%Z
  end.

(** The number of blocks of a document that are detected as [l]. *)
Definition blocks_detected_as (d : SRTDocument) (l : Language) : Z :=
  Z.of_nat
    (length (filter (fun b => Language_eqb (LanguageDetector._detect_block_language b) l)
               (blocks d))).

(** The warnings that a dictionary of groups holds for a block index:
    none when the index is not a key. *)
Definition group_of (groups : list (Z * list warning)) (k : Z) : list warning :=
  match find (fun entry => (fst entry =? k)%Z) groups with
  | Some entry => snd entry
  | None => []
  end.

(** The warnings of [ws] that name the block index [k], in order. *)
Definition warnings_of_block (ws : list warning) (k : Z) : list warning :=
  filter (fun w => (warning_block w =? k)%Z) ws.

(** The index of the block of an entry. *)
Definition vb_index (v : SRTProcessor.violation_block) : Z :=
  index (SRTProcessor.vb_block v).

(** What an entry of the list of violation blocks says about the
    document and the warnings it was made from: its block is the first
    block of the document with its index, its warnings are the warnings
    that name this index, in their order, and its kinds are the kinds of
    these warnings, each listed once. *)
Definition reports (d : SRTDocument) (ws : list warning)
    (v : SRTProcessor.violation_block) : Prop :=
  find (fun doc_block => (index doc_block =? vb_index v)%Z) (blocks d)
  = Some (SRTProcessor.vb_block v)
  /\ (0 <= vb_index v)%Z
  /\ SRTProcessor.vb_violations v = warnings_of_block ws (vb_index v)
  /\ SRTProcessor.vb_violations v <> []
  /\ NoDup (SRTProcessor.vb_violation_types v)
  /\ (In SRTProcessor.character_limit (SRTProcessor.vb_violation_types v)
      <-> exists w, In w (SRTProcessor.vb_violations v)
                    /\ is_character_warning w = true)
  /\ (In SRTProcessor.reading_speed (SRTProcessor.vb_violation_types v)
      <-> exists w, In w (SRTProcessor.vb_violations v)
                    /\ is_speed_warning w = true).

(** The entry that the source makes for the group of a block index, if
    the document has a block with that index. *)
Definition entry_of (d : SRTDocument) (group : Z * list warning)
  : list SRTProcessor.violation_block :=
  match find (fun doc_block => (index doc_block =? fst group)%Z) (blocks d) with
  | Some block =>
      [{| SRTProcessor.vb_block := block;
          SRTProcessor.vb_violations := snd group;
          SRTProcessor.vb_violation_types :=
            SRTProcessor._categorize_violation_types (snd group) |}]
  | None => []
  end.

(** A file of two blocks, numbered 7 and 2, each with one line of sixty
    letters that is shown for half a second. *)
Definition crowded_file : input_file :=
  {| path := lit "crowded.srt";
     content :=
       Py.join [NL]
         [lit "7"; lit "00:00:03,000 --> 00:00:03,500"; repeat 97 60; [];
          lit "2"; lit "00:00:01,000 --> 00:00:01,500"; repeat 97 60; []];
     detected_encoding := utf_8 |}.

(** A line that the validator takes for a line of text: it holds no line
    break, it does not end with white space, it is not blank and it is
    not a run of digits. *)
Definition text_line (l : str) : bool :=
  plain_line l && negb (is_blank l) && negb (Py.isdigit (Py.strip l)).

(** A block with an index that is not negative, two times that the
    serializer writes with two digits for the hours, and at least one
    line, all of them lines of text. *)
Definition regular_block (b : SubtitleBlock) : bool :=
  (0 <=? index b)%Z
  && valid_time (start (time_code b)) && valid_time (end_ (time_code b))
  && match lines b with [] => false | _ :: _ => true end
  && forallb text_line (lines b).

(** The issues of the blocks whose index is not their position: the
    index line of the first block is line [line_number] and its index
    should be [expected_index]; a block takes its index line, its time
    line, its lines of text and one empty line. *)
Fixpoint index_issues (line_number : nat) (expected_index : Z)
    (bs : list SubtitleBlock) : list format_issue :=
  match bs with
  | [] => []
  | b :: rest =>
      (if (index b =? expected_index)%Z then []
       else [ExpectedIndexNumber line_number expected_index (index b)])
      ++ index_issues (line_number + 3 + length (lines b))
           (expected_index + 1) rest
  end.

(** A block with the index, the times and the lines of [b], and nothing
    else set. *)
Definition bare (b : SubtitleBlock) : SubtitleBlock :=
  new_block (index b) (time_code b) (lines b).

(** Two blocks, numbered 1 and 3. *)
Definition hello_gap : SRTDocument :=
  new_document [new_block 1%Z tc1 [lit "Hello"]; new_block 3%Z tc2 [lit "World"]].



(** The line number at the start of the message of an issue. *)
Definition issue_line (i : format_issue) : nat :=
  match i with
  | ExpectedIndexGot n _ => n
  | ExpectedIndexNumber n _ _ => n
  | MissingTimeCodeAfterIndex n => n
  | InvalidTimeFormatAt n _ => n
  | NoSubtitleTextAt n => n
  end.

(** What the loop of the validator has added to the issues when it
    returns them, and what has made it raise otherwise: the new issues
    name lines after [current_line], in the order of the lines. *)
Definition loop_outcome (lines : list str) (current_line : nat)
    (issues : list format_issue) (r : result exn (list format_issue)) : Prop :=
  match r with
  | Ok out =>
      exists more,
        out = issues ++ more
        /\ Forall (fun i => (current_line < issue_line i <= length lines)%nat) more
        /\ StronglySorted le (map issue_line more)
  | Err e =>
      e = ValueError
      /\ exists l, In l lines /\ Py.isdigit (Py.strip l) = true
                   /\ Py.int (Py.strip l) = None
  end.

(** The blocks that a list of addresses stands for in a store. *)
Definition blocks_at (s : store) (addresses : list nat) : list SubtitleBlock :=
  flat_map
    (fun a => match nth_error s a with Some b => [b] | None => [] end)
    addresses.

(** The document that a document object stands for in a store. *)
Definition document_at (s : store) (d : SRTDocument_object) : SRTDocument :=
  {| blocks := blocks_at s (block_addresses d);
     source_file := object_source_file d;
     detected_language := object_detected_language d;
     encoding := object_encoding d |}.

(** The blocks of a document object are distinct objects of the store. *)
Definition distinct_blocks (s : store) (d : SRTDocument_object) : Prop :=
  NoDup (block_addresses d)
  /\ Forall (fun a => (a < length s)%nat) (block_addresses d).

(** The blocks [bs] after every block that is not an SDH-only block has
    been given its number among these, from [i + 1] on; the SDH-only
    blocks are as they were. *)
Fixpoint numbered_in_place (i : Z) (bs : list SubtitleBlock)
  : list SubtitleBlock :=
  match bs with
  | [] => []
  | b :: rest =>
      if is_sdh_only_block b then b :: numbered_in_place i rest
      else set_index b (i + 1) :: numbered_in_place (i + 1) rest
  end.

(** A store of a block of music, numbered 1, and two blocks of speech,
    numbered 2 and 3, and the document object of the three. *)
Definition music_store : store :=
  [new_block 1%Z tc1 [[9834; 9834]]; new_block 2%Z tc2 [lit "Hello"];
   new_block 3%Z tc2 [lit "World"]].

Definition music_document : SRTDocument_object :=
  {| block_addresses := [0; 1; 2]%nat; object_source_file := None;
     object_detected_language := None; object_encoding := utf_8 |}.

(** The two public passes that join short lines, each with the length
    below which a line is short and with what it puts between the two
    lines that it joins. *)
Definition short_line_passes
  : list ((ProcessingConfig -> list str -> list str) * Z * str) :=
  [(ChineseProcessor.merge_short_lines, 6%Z, []);
   (KoreanProcessor.merge_short_lines, 5%Z, [SPACE])].

(** A line that a pass over [lines] may return: a line of the input,
    stripped, or a short line of the input, stripped, joined with
    another one, stripped, within the limit. *)
Definition stripped_or_joined (short : Z) (joint : str) (limit : Z)
    (lines : list str) (l : str) : Prop :=
  l <> []
  /\ ((exists x, In x lines /\ l = Py.strip x)
      \/ (exists x y,
            In x lines /\ In y lines
            /\ l = Py.strip x ++ joint ++ Py.strip y
            /\ (Py.len (Py.strip x) < short)%Z
            /\ (Py.len l <= limit)%Z)).

(** [after] is [before] with full stops put in: the ideographic full
    stop of the Chinese engine or the full stop of the Korean one. *)
Inductive stops_added : str -> str -> Prop :=
| stops_added_nil : stops_added [] []
| stops_added_keep (c : char) (before after : str) :
    stops_added before after -> stops_added (c :: before) (c :: after)
| stops_added_stop (c : char) (before after : str) :
    c = 12290 \/ c = 46 ->
    stops_added before after -> stops_added before (c :: after).

(** The visible characters of the lines [after] are those of the lines
    [before]: the same when the punctuation pass is off, and with full
    stops put in at most when it is on. *)
Definition text_kept (config : ProcessingConfig) (before after : list str)
  : Prop :=
  if no_punct_fix config then visible_text after = visible_text before
  else stops_added (visible_text before) (visible_text after).

(** The character warning that the line with the number [n], from 0, of
    the block [b] earns when it is too long. *)
Definition character_warning_of (config : ProcessingConfig)
    (b : SubtitleBlock) (n : nat) (line : str) : warning :=
  ExceedsCharacterLimit (index b) (Z.of_nat n + 1) (Py.len line)
    (get_character_limit config (LanguageDetector.detect_line_language line))
    (LanguageDetector.detect_line_language line).

(** The speed warning of the block [b] of the document [d]. *)
Definition speed_warning_of (config : ProcessingConfig) (d : SRTDocument)
    (b : SubtitleBlock) : warning :=
  ReadingSpeedTooFast (index b) (get_reading_speed b)
    (get_reading_speed_limit config (SRTProcessor.block_language_of d b)).

(** A block of one line of sixty letters that is shown for half a
    second, and the document of this block. *)
Definition crowded_block : SubtitleBlock :=
  {| index := 7%Z;
     time_code := {| start := 3000000%Z; end_ := 3500000%Z |};
     lines := [repeat 97 60]; language := Some ENGLISH; is_sdh := false |}.

Definition crowded_document : SRTDocument := new_document [crowded_block].

(** * Properties *)

(** ** The embedding on small inputs *)

Example py_int_ex1 : Py.int (lit " +1_0 ") = Some 10%Z.
Proof. reflexivity. Qed.

Example py_int_ex2 : Py.int (lit "12_") = None.
Proof. reflexivity. Qed.

Example py_int_ex3 : Py.int [1635; 1636] = Some 34%Z.
Proof. reflexivity. Qed.

Example py_int_ex4 : Py.int (28 :: lit "12") = None.
Proof. reflexivity. Qed.

Example py_split_ex1 :
  Py.split (lit " --> ") (lit "x -->  --> z") = [lit "x"; []; lit "z"].
Proof. reflexivity. Qed.

Example py_split_ex2 : Py.split [NL] [] = [[]].
Proof. reflexivity. Qed.

Example py_str_ex : Py.str_of_Z 1203 = lit "1203" /\ Py.zero_pad 2 5 = lit "05"
  /\ Py.zero_pad 3 (-5) = lit "-05" /\ Py.zero_pad 2 100 = lit "100".
Proof. repeat split; reflexivity. Qed.

Example re_sub_ex1 :
  Re.sub (Re.Star (N.eqb 120)) (lit "-") (lit "abxd") = lit "-a-b--d-".
Proof. reflexivity. Qed.

Example parse_ex1 :
  _parse_content
    (Py.join [NL] [lit "1"; T1; lit "Hello"; []; lit "2"; T2; lit "World"; []])
  = Some (Ok [new_block 1%Z tc1 [lit "Hello"]; new_block 2%Z tc2 [lit "World"]]).
Proof. vm_compute. reflexivity. Qed.

Example format_ex1 :
  to_srt_format (new_document [new_block 1%Z tc1 [lit "Hello"]; new_block 2%Z tc2 [lit "World"]])
  = Py.join [NL] [lit "1"; T1; lit "Hello"; []; lit "2"; T2; lit "World"; []].
Proof. vm_compute. reflexivity. Qed.

(** ** The language classifier on blank input *)

Lemma detect_line_language_blank (line : str) :
  is_blank line = true -> LanguageDetector.detect_line_language line = ENGLISH.
Proof.
  intros H. unfold LanguageDetector.detect_line_language. now rewrite H.
Qed.

Lemma _detect_block_language_blank (b : SubtitleBlock) :
  is_blank (text b) = true -> LanguageDetector._detect_block_language b = ENGLISH.
Proof.
  intros H. unfold LanguageDetector._detect_block_language. now rewrite H.
Qed.

Lemma detect_language_no_blocks (d : SRTDocument) :
  blocks d = [] -> LanguageDetector.detect_language d = ENGLISH.
Proof.
  intros H. unfold LanguageDetector.detect_language. now rewrite H.
Qed.

(** C5: on blank input the classifier answers English for a line and for
    a block, and for a document without blocks; but for the document
    whose only block holds one line made of one space, every score is
    zero and [detect_language] answers with the first language of the
    dictionary, Chinese. *)
Theorem C5_blank_document_detected_as_chinese :
  LanguageDetector.detect_language (new_document [blank_block]) = CHINESE
  /\ is_blank (text blank_block) = true
  /\ LanguageDetector._detect_block_language blank_block = ENGLISH
  /\ LanguageDetector.detect_line_language [SPACE] = ENGLISH
  /\ LanguageDetector.detect_language (new_document []) = ENGLISH.
Proof. repeat split; vm_compute; reflexivity. Qed.

(** ** The validator *)

Lemma line_warnings_sound (config : ProcessingConfig) (i : Z) (ls : list str) :
  forall k line,
    In line ls -> is_blank line = false ->
    (get_character_limit config (LanguageDetector.detect_line_language line)
       < Py.len line)%Z ->
    exists w, In w (SRTProcessor.line_warnings config i k ls) /\ warning_block w = i.
Proof.
  induction ls as [|l ls IH]; intros k line Hin Hb Hlt; [destruct Hin|].
  simpl. destruct Hin as [->|Hin].
  - rewrite Hb. apply Z.ltb_lt in Hlt. rewrite Hlt.
    eexists. split; [left; reflexivity|reflexivity].
  - destruct (IH (k + 1)%Z line Hin Hb Hlt) as [w [Hw Hi]].
    exists w. split; [apply in_or_app; right; exact Hw|exact Hi].
Qed.

Lemma line_warnings_kind (config : ProcessingConfig) (i : Z) (ls : list str) :
  forall k w, In w (SRTProcessor.line_warnings config i k ls) ->
    is_speed_warning w = false /\ warning_block w = i.
Proof.
  induction ls as [|l ls IH]; intros k w Hin; [destruct Hin|].
  simpl in Hin. apply in_app_or in Hin. destruct Hin as [Hin|Hin].
  - destruct (is_blank l); [destruct Hin|].
    destruct (Z.ltb _ _); [|destruct Hin].
    destruct Hin as [<-|[]]. split; reflexivity.
  - eapply IH; eassumption.
Qed.

(** C1, as the code has it: in a block whose language has a processor and
    for which the validator records no warning, every line that is not
    blank is within the character limit of its own language. *)
Theorem C1_compliant_block_within_limit
    (lower : str -> str) (config : ProcessingConfig) (d : SRTDocument)
    (block : SubtitleBlock) :
  In block (blocks d) ->
  SRTProcessor.processors lower (SRTProcessor.block_language_of d block) <> None ->
  (forall w, In w (warnings (SRTProcessor.validate_document lower config d)) ->
             warning_block w <> index block) ->
  forall line, In line (lines block) -> is_blank line = false ->
    (Py.len line
       <= get_character_limit config (LanguageDetector.detect_line_language line))%Z.
Proof.
  intros Hb Hp Hnone line Hl Hnb.
  destruct (Z.le_gt_cases (Py.len line)
              (get_character_limit config
                 (LanguageDetector.detect_line_language line))) as [H|H];
    [exact H|exfalso].
  destruct (line_warnings_sound config (index block) (lines block) 0%Z line
              Hl Hnb H) as [w [Hw Hi]].
  apply (Hnone w); [|exact Hi].
  simpl. apply in_flat_map. exists block. split; [exact Hb|].
  unfold SRTProcessor.block_warnings.
  destruct (SRTProcessor.processors lower (SRTProcessor.block_language_of d block));
    [|congruence].
  apply in_or_app. left. exact Hw.
Qed.

Lemma C1_compliant_block_within_limit_witness :
  (Py.len (lit "Hello there")
     <= get_character_limit english_config
          (LanguageDetector.detect_line_language (lit "Hello there")))%Z.
Proof.
  apply (@C1_compliant_block_within_limit ascii_lower english_config
           (new_document [new_block 1%Z tc1 [lit "Hello there"]])
           (new_block 1%Z tc1 [lit "Hello there"])).
  - left; reflexivity.
  - discriminate.
  - intros w Hw. vm_compute in Hw. destruct Hw.
  - left; reflexivity.
  - vm_compute. reflexivity.
Defined.

(** C1 fails as stated.  The file with one block of twenty hiragana
    letters is checked without any warning and its block is counted as
    compliant, although the limit for Japanese is 13; and a document
    whose block holds a line of fifty spaces is validated without any
    warning, although the line is not empty and the limit is 42. *)
Lemma C1_counterexample :
  (exists r,
      fst (SRTProcessor.check_file_only ascii_lower japanese_file default_config)
        = Some (Ok r)
      /\ original_document r = japanese_document
      /\ warnings (validation r) = []
      /\ compliant_blocks r = 1%Z
      /\ In hiragana_line (lines japanese_block)
      /\ hiragana_line <> []
      /\ LanguageDetector.detect_line_language hiragana_line = JAPANESE
      /\ get_character_limit default_config JAPANESE = 13%Z
      /\ Py.len hiragana_line = 20%Z)
  /\ (warnings (SRTProcessor.validate_document ascii_lower default_config
                  (new_document [spaces_block])) = []
      /\ repeat SPACE 50 <> []
      /\ get_character_limit default_config
           (LanguageDetector.detect_line_language (repeat SPACE 50)) = 42%Z
      /\ Py.len (repeat SPACE 50) = 50%Z).
Proof.
  split.
  - eexists. split; [vm_compute; reflexivity|].
    repeat split; try (vm_compute; reflexivity).
    + left; reflexivity.
    + intros H; vm_compute in H; discriminate.
  - repeat split; try (vm_compute; reflexivity).
    intros H; vm_compute in H; discriminate.
Qed.

(** ** Reading speed *)

Lemma get_reading_speed_nonpositive (b : SubtitleBlock) :
  (duration (time_code b) <= 0)%Z -> get_reading_speed b == 0.
Proof.
  intros H. unfold get_reading_speed.
  destruct (Qle_bool (total_seconds (duration (time_code b))) 0) eqn:E;
    [reflexivity|].
  exfalso. apply Bool.not_true_iff_false in E. apply E.
  apply Qle_bool_iff. unfold total_seconds, Qle. simpl. lia.
Qed.

Lemma get_reading_speed_positive (b : SubtitleBlock) :
  (0 < duration (time_code b))%Z ->
  get_reading_speed b
  == inject_Z (character_count b) / total_seconds (duration (time_code b)).
Proof.
  intros H. unfold get_reading_speed.
  destruct (Qle_bool (total_seconds (duration (time_code b))) 0) eqn:E;
    [|reflexivity].
  exfalso. apply Qle_bool_iff in E. unfold total_seconds, Qle in E.
  simpl in E. lia.
Qed.

(** What [validate_document] decides about the speed of one block: with a
    processor for the language of the block and the speed check enabled,
    a violation is recorded exactly when the speed exceeds the limit of
    the language that the configuration names. *)
Lemma speed_violation_iff
    (lower : str -> str) (config : ProcessingConfig) (d : SRTDocument)
    (block : SubtitleBlock) :
  SRTProcessor.processors lower (SRTProcessor.block_language_of d block) <> None ->
  no_speed_check config = false ->
  (exists w, In w (SRTProcessor.block_warnings lower config d block)
             /\ is_speed_warning w = true)
  <-> (get_reading_speed_limit config (config_language config)
       < get_reading_speed block)%Q.
Proof.
  intros Hp Hs. unfold SRTProcessor.block_warnings.
  assert (Hv : forall p,
             SRTProcessor.processors lower
               (SRTProcessor.block_language_of d block) = Some p ->
             validate_reading_speed p config block
             = Qle_bool (get_reading_speed block)
                 (get_reading_speed_limit config (config_language config))).
  { intros p E.
    destruct (SRTProcessor.block_language_of d block); simpl in E;
      try discriminate; injection E as <-; simpl;
      unfold ChineseProcessor.validate_reading_speed,
        EnglishProcessor.validate_reading_speed,
        KoreanProcessor.validate_reading_speed,
        processor_validate_reading_speed; now rewrite Hs. }
  destruct (SRTProcessor.processors lower
              (SRTProcessor.block_language_of d block)) as [p|];
    [|congruence].
  rewrite Hs, (Hv p eq_refl). simpl.
  destruct (Qle_bool (get_reading_speed block)
              (get_reading_speed_limit config (config_language config))) eqn:E.
  - simpl. rewrite app_nil_r. split.
    + intros [w [Hw Hk]]. apply line_warnings_kind in Hw. destruct Hw. congruence.
    + intros Hlt. apply Qle_bool_iff in E. exfalso.
      exact (Qlt_not_le _ _ Hlt E).
  - simpl. split.
    + intros _. apply Qnot_le_lt. intros Hle. apply Qle_bool_iff in Hle.
      congruence.
    + intros _. eexists. split; [apply in_or_app; right; left; reflexivity|].
      reflexivity.
Qed.

(** C6, as the code has it: for a block whose language has a processor
    and is the language of the configuration, with the speed check
    enabled, the validator records a reading-speed violation if and only
    if the reading speed strictly exceeds the limit of that language and
    of the content type.  The speed is the character count divided by
    the duration in seconds, and 0 when the duration is not positive.
    Forty characters in two seconds are 20 characters per second, which
    the English adult limit of 20 admits. *)
Theorem C6_reading_speed_violation
    (lower : str -> str) (config : ProcessingConfig) (d : SRTDocument)
    (block : SubtitleBlock) :
  SRTProcessor.processors lower (SRTProcessor.block_language_of d block) <> None ->
  no_speed_check config = false ->
  config_language config = SRTProcessor.block_language_of d block ->
  ((exists w, In w (SRTProcessor.block_warnings lower config d block)
              /\ is_speed_warning w = true)
   <-> (get_reading_speed_limit config (SRTProcessor.block_language_of d block)
        < get_reading_speed block)%Q)
  /\ ((duration (time_code block) <= 0)%Z -> get_reading_speed block == 0)
  /\ ((0 < duration (time_code block))%Z ->
      get_reading_speed block
      == inject_Z (character_count block)
         / total_seconds (duration (time_code block)))
  /\ (get_reading_speed forty_in_two_seconds == 20
      /\ get_reading_speed_limit english_config ENGLISH == 20
      /\ SRTProcessor.block_warnings lower english_config
           (new_document [forty_in_two_seconds]) forty_in_two_seconds = []).
Proof.
  intros Hp Hs Hl. split; [|split; [|split]].
  - rewrite <- Hl. apply speed_violation_iff; assumption.
  - apply get_reading_speed_nonpositive.
  - apply get_reading_speed_positive.
  - repeat split; vm_compute; reflexivity.
Qed.

Lemma C6_reading_speed_violation_witness :
  ((exists w, In w (SRTProcessor.block_warnings ascii_lower english_config
                      (new_document [forty_in_two_seconds]) forty_in_two_seconds)
              /\ is_speed_warning w = true)
   <-> (get_reading_speed_limit english_config
          (SRTProcessor.block_language_of (new_document [forty_in_two_seconds])
             forty_in_two_seconds)
        < get_reading_speed forty_in_two_seconds)%Q)
  /\ ((duration (time_code forty_in_two_seconds) <= 0)%Z ->
      get_reading_speed forty_in_two_seconds == 0)
  /\ ((0 < duration (time_code forty_in_two_seconds))%Z ->
      get_reading_speed forty_in_two_seconds
      == inject_Z (character_count forty_in_two_seconds)
         / total_seconds (duration (time_code forty_in_two_seconds)))
  /\ (get_reading_speed forty_in_two_seconds == 20
      /\ get_reading_speed_limit english_config ENGLISH == 20
      /\ SRTProcessor.block_warnings ascii_lower english_config
           (new_document [forty_in_two_seconds]) forty_in_two_seconds = []).
Proof.
  apply (@C6_reading_speed_violation ascii_lower english_config
           (new_document [forty_in_two_seconds]) forty_in_two_seconds).
  - discriminate.
  - reflexivity.
  - reflexivity.
Defined.

(** C6 fails as stated.  The Japanese block shows twenty characters for
    one second, which is 20 characters per second against a limit of 4,
    and the validator records nothing, because there is no processor for
    Japanese. *)
Lemma C6_counterexample :
  get_reading_speed japanese_block == 20
  /\ get_reading_speed_limit default_config
       (SRTProcessor.block_language_of japanese_document japanese_block) == 4
  /\ no_speed_check default_config = false
  /\ SRTProcessor.block_warnings ascii_lower default_config japanese_document
       japanese_block = []
  /\ warnings (SRTProcessor.validate_document ascii_lower default_config
                 japanese_document) = [].
Proof. repeat split; vm_compute; reflexivity. Qed.

(** ** Termination of [_break_line_intelligently] *)

Lemma call_is_shorter_holds (split_line : str -> cut) (line : str) :
  call_is_shorter split_line line.
Proof.
  unfold call_is_shorter.
  destruct (recursive_call (split_line line) line) eqn:E; [|exact I].
  eapply recursive_call_shorter; eassumption.
Qed.

(** After [funelim], each case carries the equation of [split_line] and,
    when the line was cut, the outcome of [recursive_call]. *)
Ltac close_break_case first_part second_part line :=
  try reflexivity;
  match goal with
  | H : _ = Some ?l |- _ :: _ = _ =>
      change (recursive_call (Some (first_part, second_part)) line = Some l) in H;
      rewrite H; reflexivity
  | H : _ = None |- _ :: _ = _ =>
      change (recursive_call (Some (first_part, second_part)) line = None) in H;
      rewrite H; reflexivity
  end.

Lemma chinese_break_equation (config : ProcessingConfig) (line : str) :
  follows_recursion (ChineseProcessor.split_line config)
    (ChineseProcessor._break_line_intelligently config) line.
Proof.
  unfold follows_recursion.
  funelim (ChineseProcessor._break_line_intelligently config line);
    match goal with E : ChineseProcessor.split_line _ _ = _ |- _ => rewrite E end;
    close_break_case first_part second_part line.
Qed.

Lemma korean_break_equation (config : ProcessingConfig) (line : str) :
  follows_recursion (KoreanProcessor.split_line config)
    (KoreanProcessor._break_line_intelligently config) line.
Proof.
  unfold follows_recursion.
  funelim (KoreanProcessor._break_line_intelligently config line);
    match goal with E : KoreanProcessor.split_line _ _ = _ |- _ => rewrite E end;
    close_break_case first_part second_part line.
Qed.

Lemma english_break_equation (lower : str -> str) (config : ProcessingConfig)
    (line : str) :
  follows_recursion (EnglishProcessor.split_line lower config)
    (EnglishProcessor._break_line_intelligently lower config) line.
Proof.
  unfold follows_recursion.
  funelim (EnglishProcessor._break_line_intelligently lower config line);
    match goal with E : EnglishProcessor.split_line _ _ _ = _ |- _ => rewrite E end;
    close_break_case first_part second_part line.
Qed.

(** A function that follows the recursion returns at most one line for
    every character of its input, and one more: the depth of the
    recursion is bounded by the length of the line. *)
Lemma recursion_depth_bounded (split_line : str -> cut) (break : str -> list str) :
  (forall line, follows_recursion split_line break line) ->
  forall line, (length (break line) <= S (length line))%nat.
Proof.
  intros Heq line.
  induction line as [line IH] using (induction_ltof1 _ (@length char)).
  unfold ltof in IH. rewrite (Heq line).
  destruct (split_line line) as [[fp sp]|]; [|simpl; lia].
  destruct (recursive_call (Some (fp, sp)) line) as [l|] eqn:E; [|simpl; lia].
  pose proof (recursive_call_shorter _ _ E) as Hl.
  specialize (IH l Hl). simpl. lia.
Qed.

(** C7: for every line and every engine, [_break_line_intelligently] is
    a total function that follows the recursion of the source; each
    recursive call is made on a strictly shorter line than the line of
    its caller, and the number of lines returned is bounded by the length
    of the input. *)
Theorem C7_break_line_terminates
    (lower : str -> str) (config : ProcessingConfig) (line : str) :
  (follows_recursion (ChineseProcessor.split_line config)
     (ChineseProcessor._break_line_intelligently config) line
   /\ call_is_shorter (ChineseProcessor.split_line config) line
   /\ (length (ChineseProcessor._break_line_intelligently config line)
       <= S (length line))%nat)
  /\ (follows_recursion (EnglishProcessor.split_line lower config)
        (EnglishProcessor._break_line_intelligently lower config) line
      /\ call_is_shorter (EnglishProcessor.split_line lower config) line
      /\ (length (EnglishProcessor._break_line_intelligently lower config line)
          <= S (length line))%nat)
  /\ (follows_recursion (KoreanProcessor.split_line config)
        (KoreanProcessor._break_line_intelligently config) line
      /\ call_is_shorter (KoreanProcessor.split_line config) line
      /\ (length (KoreanProcessor._break_line_intelligently config line)
          <= S (length line))%nat).
Proof.
  repeat split;
    try apply call_is_shorter_holds;
    try apply chinese_break_equation;
    try apply english_break_equation;
    try apply korean_break_equation.
  - apply recursion_depth_bounded with (split_line := ChineseProcessor.split_line config).
    intros l. apply chinese_break_equation.
  - apply recursion_depth_bounded with (split_line := EnglishProcessor.split_line lower config).
    intros l. apply english_break_equation.
  - apply recursion_depth_bounded with (split_line := KoreanProcessor.split_line config).
    intros l. apply korean_break_equation.
Qed.

(** ** Chinese smart merge *)

Lemma chinese_merge_step_concat (config : ProcessingConfig) (st : merge_state)
    (line : str) :
  concat (fst (ChineseProcessor.merge_step config st line))
  ++ snd (ChineseProcessor.merge_step config st line)
  = (concat (fst st) ++ snd st) ++ concat (stripped_lines [line]).
Proof.
  destruct st as [merged current].
  unfold ChineseProcessor.merge_step, stripped_lines. simpl.
  destruct (Py.strip line) as [|c l] eqn:E; simpl.
  - rewrite app_nil_r; reflexivity.
  - rewrite app_nil_r.
    destruct (ChineseProcessor._should_merge_with_current config current (c :: l));
      destruct current as [|x current]; simpl;
      rewrite ?app_nil_r, ?concat_app; simpl;
      rewrite ?app_nil_r, <- ?app_assoc; reflexivity.
Qed.

Lemma stripped_lines_cons (line : str) (ls : list str) :
  concat (stripped_lines (line :: ls))
  = concat (stripped_lines [line]) ++ concat (stripped_lines ls).
Proof.
  unfold stripped_lines. simpl.
  destruct (nonempty (Py.strip line)); simpl; rewrite ?app_nil_r; reflexivity.
Qed.

Lemma chinese_merge_fold_concat (config : ProcessingConfig) (ls : list str) :
  forall st,
    concat (fst (fold_left (ChineseProcessor.merge_step config) ls st))
    ++ snd (fold_left (ChineseProcessor.merge_step config) ls st)
    = (concat (fst st) ++ snd st) ++ concat (stripped_lines ls).
Proof.
  induction ls as [|line ls IH]; intros st; simpl.
  - rewrite app_nil_r; reflexivity.
  - rewrite IH, chinese_merge_step_concat, (stripped_lines_cons line ls).
    rewrite <- !app_assoc; reflexivity.
Qed.

Lemma merge_finish_concat (st : merge_state) :
  concat (merge_finish st) = concat (fst st) ++ snd st.
Proof.
  destruct st as [merged [|c current]]; unfold merge_finish; simpl.
  - rewrite app_nil_r; reflexivity.
  - rewrite concat_app. simpl. rewrite app_nil_r; reflexivity.
Qed.

Lemma stripped_lines_fixed (ls : list str) :
  Forall (fun l => Py.strip l = l) ls -> concat (stripped_lines ls) = concat ls.
Proof.
  induction 1 as [|l ls Hl _ IH]; [reflexivity|].
  rewrite stripped_lines_cons, IH. unfold stripped_lines. simpl.
  rewrite Hl. destruct l; simpl; rewrite ?app_nil_r; reflexivity.
Qed.

(** C10, as the code has it: for a list of at least two lines, or a list
    whose lines carry no surrounding white space, the concatenation of
    the lines that [_smart_merge_lines] returns is the concatenation of
    the stripped, non-empty input lines.  (A list of at most one line is
    returned as it is.) *)
Theorem C10_chinese_merge_preserves_text
    (config : ProcessingConfig) (lines : list str) :
  (1 < length lines)%nat \/ Forall (fun l => Py.strip l = l) lines ->
  concat (ChineseProcessor._smart_merge_lines config lines)
  = concat (stripped_lines lines).
Proof.
  intros H. unfold ChineseProcessor._smart_merge_lines.
  destruct (Nat.leb_spec (length lines) 1) as [Hle|Hgt].
  - destruct H as [H|H]; [lia|]. symmetry. now apply stripped_lines_fixed.
  - rewrite merge_finish_concat, chinese_merge_fold_concat. reflexivity.
Qed.

Lemma C10_chinese_merge_preserves_text_witness :
  concat (ChineseProcessor._smart_merge_lines english_config
            [lit " ab "; []; lit "cd"])
  = concat (stripped_lines [lit " ab "; []; lit "cd"]).
Proof.
  apply C10_chinese_merge_preserves_text. left. simpl. lia.
Defined.

(** C10 fails as stated: a list of one line is returned untouched, with
    its surrounding white space. *)
Lemma C10_counterexample :
  concat (ChineseProcessor._smart_merge_lines english_config [lit " a"])
  = lit " a"
  /\ concat (stripped_lines [lit " a"]) = lit "a"
  /\ lit " a" <> lit "a".
Proof. repeat split; try reflexivity. discriminate. Qed.

(** ** What the pipeline does to the configuration of the caller *)

Lemma prepare_config (config : ProcessingConfig) (document : SRTDocument) :
  snd (SRTProcessor.prepare document config) = config_after config document.
Proof.
  unfold SRTProcessor.prepare, SRTProcessor.mbind, SRTProcessor.get_config,
    SRTProcessor.ret, SRTProcessor.assign_language, config_after.
  destruct (config_language config); reflexivity.
Qed.

Lemma process_file_config (lower : str -> str) (f : input_file)
    (config : ProcessingConfig) :
  snd (SRTProcessor.process_file lower f config)
  = match SRTProcessor.parse_file f (force_encoding config) with
    | Some (Ok document) => config_after config document
    | _ => config
    end.
Proof.
  unfold SRTProcessor.process_file, SRTProcessor.mbind, SRTProcessor.get_config,
    SRTProcessor.ret.
  destruct (SRTProcessor.parse_file f (force_encoding config)) as [[d|e]|];
    try reflexivity.
  rewrite <- prepare_config.
  destruct (SRTProcessor.prepare d config); reflexivity.
Qed.

Lemma check_file_only_config (lower : str -> str) (f : input_file)
    (config : ProcessingConfig) :
  snd (SRTProcessor.check_file_only lower f config)
  = match SRTProcessor.parse_file f (force_encoding config) with
    | Some (Ok document) => config_after config document
    | _ => config
    end.
Proof.
  unfold SRTProcessor.check_file_only, SRTProcessor.mbind,
    SRTProcessor.get_config, SRTProcessor.ret.
  destruct (SRTProcessor.parse_file f (force_encoding config)) as [[d|e]|];
    try reflexivity.
  rewrite <- prepare_config.
  destruct (SRTProcessor.prepare d config); reflexivity.
Qed.

(** ** Facts about the string operations *)

Lemma dropwhile_nil_iff (p : char -> bool) (s : str) :
  Py.dropwhile p s = [] <-> forallb p s = true.
Proof.
  induction s as [|c s IH]; simpl; [tauto|].
  destruct (p c); simpl; [exact IH|]. split; discriminate.
Qed.

Lemma dropwhile_head (p : char -> bool) (s : str) (c : char) (t : str) :
  Py.dropwhile p s = c :: t -> p c = false.
Proof.
  induction s as [|x s IH]; simpl; [discriminate|].
  destruct (p x) eqn:E; [exact IH|]. intros H. injection H as <- _. exact E.
Qed.

Lemma forallb_rev (p : char -> bool) (s : str) :
  forallb p (rev s) = forallb p s.
Proof.
  induction s as [|c s IH]; [reflexivity|].
  simpl. rewrite forallb_app, IH. simpl. rewrite andb_true_r. apply andb_comm.
Qed.

Lemma rstrip_nil_iff (s : str) :
  Py.rstrip s = [] <-> forallb Py.isspace s = true.
Proof.
  unfold Py.rstrip. rewrite <- forallb_rev, <- dropwhile_nil_iff.
  split; intros H.
  - apply (f_equal (@rev char)) in H. rewrite rev_involutive in H. exact H.
  - rewrite H. reflexivity.
Qed.

(** A line is blank exactly when all its characters are white space. *)
Lemma strip_nil_iff (s : str) :
  Py.strip s = [] <-> forallb Py.isspace s = true.
Proof.
  unfold Py.strip, Py.lstrip. rewrite <- rstrip_nil_iff. split.
  - intros H. unfold Py.rstrip in *.
    destruct (Py.dropwhile Py.isspace (rev s)) as [|c t] eqn:E; [reflexivity|].
    apply dropwhile_head in E. apply dropwhile_nil_iff in H.
    simpl in H. rewrite forallb_app in H. simpl in H.
    rewrite E in H. rewrite andb_false_r in H. discriminate.
  - intros ->. reflexivity.
Qed.

Lemma is_blank_iff (s : str) :
  is_blank s = true <-> forallb Py.isspace s = true.
Proof.
  rewrite <- strip_nil_iff. unfold is_blank.
  destruct (Py.strip s); split; congruence.
Qed.

Lemma in_join (sep : str) (parts : list str) (l : str) (c : char) :
  In l parts -> In c l -> In c (Py.join sep parts).
Proof.
  induction parts as [|p parts IH]; intros Hl Hc; [destruct Hl|].
  destruct Hl as [->|Hl].
  - destruct parts; simpl; [exact Hc|]. apply in_or_app. left. exact Hc.
  - destruct parts as [|q parts]; [destruct Hl|].
    change (Py.join sep (p :: q :: parts))
      with (p ++ sep ++ Py.join sep (q :: parts)).
    apply in_or_app. right. apply in_or_app. right. apply IH; assumption.
Qed.

(** ** Removal of SDH-only blocks *)

Lemma star_greedy_run (p : char -> bool) (c : char) (caps : list str) :
  p c = true ->
  forall n pos,
    Re.star_greedy p pos (repeat c n) (fun pos' _ => Some (pos', caps))
    = Some ((pos + n)%nat, caps).
Proof.
  intros Hp. induction n as [|n IH]; intros pos; simpl.
  - now rewrite Nat.add_0_r.
  - rewrite Hp, IH. f_equal. f_equal. lia.
Qed.

Lemma match_music_run (n pos : nat) :
  Re.match_at music_runs pos (repeat MUSIC_NOTE (S n)) = Some (S (pos + n), []).
Proof.
  unfold Re.match_at, music_runs, Re.plus. simpl.
  rewrite (star_greedy_run (N.eqb MUSIC_NOTE) MUSIC_NOTE [] eq_refl n (S pos)).
  reflexivity.
Qed.

Lemma sub_skip_music (n : nat) :
  forall pos, Re.sub_go music_runs [] (repeat MUSIC_NOTE n) pos n = [].
Proof.
  induction n as [|n IH]; intros pos; [reflexivity|].
  simpl. apply IH.
Qed.

Lemma sub_music_run (n : nat) :
  Re.sub music_runs [] (repeat MUSIC_NOTE n) = [].
Proof.
  destruct n as [|n]; [reflexivity|].
  unfold Re.sub.
  change (Re.sub_go music_runs [] (repeat MUSIC_NOTE (S n)) 0 0)
    with (match Re.match_at music_runs 0 (repeat MUSIC_NOTE (S n)) with
          | Some (e, _) =>
              if (0 <? e)%nat
              then [] ++ Re.sub_go music_runs [] (repeat MUSIC_NOTE n) 1 (e - 0 - 1)
              else [] ++ MUSIC_NOTE
                   :: Re.sub_go music_runs [] (repeat MUSIC_NOTE n) 1 0
          | None => MUSIC_NOTE :: Re.sub_go music_runs [] (repeat MUSIC_NOTE n) 1 0
          end).
  rewrite match_music_run. simpl. rewrite Nat.sub_0_r. apply sub_skip_music.
Qed.

Lemma sdh_residue_music (n : nat) : sdh_residue (repeat MUSIC_NOTE n) = [].
Proof. unfold sdh_residue. rewrite sub_music_run. reflexivity. Qed.

Lemma music_only_is_sdh_only (b : SubtitleBlock) :
  music_only b -> is_sdh_only_block b = true.
Proof.
  intros [Hall [l [Hin Hne]]]. unfold is_sdh_only_block.
  destruct (lines b) as [|l0 ls] eqn:El; [destruct Hin|].
  assert (Hfull : Py.strip (text b) <> []).
  { intros H. apply strip_nil_iff in H. apply Hne. apply strip_nil_iff.
    rewrite forallb_forall in *. intros c Hc. apply H.
    unfold text. rewrite El. eapply in_join; eassumption. }
  destruct (Py.strip (text b)) as [|c0 t0]; [congruence|].
  destruct (existsb _ music_patterns); [reflexivity|].
  destruct (existsb _ audio_description_patterns); [reflexivity|].
  apply forallb_forall. intros line Hline.
  rewrite Forall_forall in Hall. destruct (Hall line Hline) as [n Hn].
  rewrite Hn. destruct n as [|n]; [reflexivity|].
  change (MUSIC_NOTE :: repeat MUSIC_NOTE n) with (repeat MUSIC_NOTE (S n)).
  rewrite sdh_residue_music. reflexivity.
Qed.

Lemma reindex_indices (bs : list SubtitleBlock) :
  forall i, map index (reindex i bs) = Z_range (i + 1) (length bs).
Proof.
  induction bs as [|b bs IH]; intros i; [reflexivity|].
  simpl. rewrite IH. reflexivity.
Qed.

Lemma reindex_length (bs : list SubtitleBlock) :
  forall i, length (reindex i bs) = length bs.
Proof.
  induction bs as [|b bs IH]; intros i; [reflexivity|].
  simpl. now rewrite IH.
Qed.

Lemma sdh_survivors_drop (before after : list SubtitleBlock) (b : SubtitleBlock) :
  is_sdh_only_block b = true ->
  sdh_survivors (before ++ b :: after) = sdh_survivors (before ++ after).
Proof.
  intros Hs. unfold sdh_survivors. rewrite !flat_map_app.
  f_equal. cbn [flat_map]. rewrite Hs. reflexivity.
Qed.

(** C8: the SDH pass drops every block whose only content is music
    glyphs: such a block is classified SDH-only, and the result is the
    one the document without that block would give; the indices of the
    blocks of the result are 1, 2, ..., n in order. *)
Theorem C8_sdh_removal_drops_and_renumbers
    (d : SRTDocument) (before after : list SubtitleBlock) (b : SubtitleBlock) :
  blocks d = before ++ b :: after ->
  music_only b ->
  is_sdh_only_block b = true
  /\ remove_sdh_blocks_and_clean_content d
     = remove_sdh_blocks_and_clean_content (with_blocks d (before ++ after))
  /\ map index (blocks (remove_sdh_blocks_and_clean_content d))
     = Z_range 1 (length (blocks (remove_sdh_blocks_and_clean_content d))).
Proof.
  intros Hd Hm. pose proof (music_only_is_sdh_only Hm) as Hs.
  split; [exact Hs|split].
  - unfold remove_sdh_blocks_and_clean_content, with_blocks.
    cbn [blocks source_file detected_language encoding].
    rewrite Hd. f_equal. f_equal. apply sdh_survivors_drop. exact Hs.
  - unfold remove_sdh_blocks_and_clean_content.
    cbn [blocks]. rewrite reindex_indices, reindex_length. reflexivity.
Qed.

Lemma C8_sdh_removal_drops_and_renumbers_witness :
  is_sdh_only_block (new_block 2%Z tc1 [[MUSIC_NOTE; MUSIC_NOTE]]) = true
  /\ remove_sdh_blocks_and_clean_content hello_music_world
     = remove_sdh_blocks_and_clean_content
         (with_blocks hello_music_world
            ([new_block 1%Z tc1 [lit "Hello"]] ++ [new_block 3%Z tc2 [lit "World"]]))
  /\ map index (blocks (remove_sdh_blocks_and_clean_content hello_music_world))
     = Z_range 1
         (length (blocks (remove_sdh_blocks_and_clean_content hello_music_world))).
Proof.
  apply (@C8_sdh_removal_drops_and_renumbers hello_music_world
           [new_block 1%Z tc1 [lit "Hello"]] [new_block 3%Z tc2 [lit "World"]]
           (new_block 2%Z tc1 [[MUSIC_NOTE; MUSIC_NOTE]])).
  - reflexivity.
  - split.
    + constructor; [|constructor]. exists 2%nat. reflexivity.
    + exists [MUSIC_NOTE; MUSIC_NOTE]. split; [left; reflexivity|].
      vm_compute. discriminate.
Defined.

Example sdh_removal_example :
  blocks (remove_sdh_blocks_and_clean_content hello_music_world)
  = [new_block 1%Z tc1 [lit "Hello"]; new_block 2%Z tc2 [lit "World"]].
Proof. vm_compute. reflexivity. Qed.

(** ** Where the text lines of a block end *)

Lemma skipn_app_length {A : Type} (a b : list A) : skipn (length a) (a ++ b) = b.
Proof. induction a as [|x a IH]; [reflexivity|exact IH]. Qed.

Lemma nth_error_at {A : Type} (a b : list A) (x : A) :
  nth_error (a ++ x :: b) (length a) = Some x.
Proof. induction a as [|z a IH]; [reflexivity|exact IH]. Qed.

Lemma nth_error_at_succ {A : Type} (a b : list A) (x y : A) :
  nth_error (a ++ x :: y :: b) (S (length a)) = Some y.
Proof. induction a as [|z a IH]; [reflexivity|exact IH]. Qed.

Lemma skipn_at_2 {A : Type} (a b : list A) (x y : A) :
  skipn (S (S (length a))) (a ++ x :: y :: b) = b.
Proof. induction a as [|z a IH]; [reflexivity|exact IH]. Qed.

Lemma isdigit_not_blank (l : str) :
  Py.isdigit (Py.strip l) = true -> is_blank l = false.
Proof. unfold is_blank. destruct (Py.strip l); [discriminate|reflexivity]. Qed.

Lemma blank_rstrip (l : str) : is_blank l = true -> Py.rstrip l = [].
Proof. intros H. apply rstrip_nil_iff. apply is_blank_iff. exact H. Qed.

Lemma blank_not_next_block (l : str) (rest : list str) :
  is_blank l = true -> at_next_block (l :: rest) = false.
Proof.
  intros H. unfold is_blank in H. unfold at_next_block.
  destruct rest; [reflexivity|].
  destruct (Py.strip l); [reflexivity|discriminate].
Qed.

(** The loop runs through every line that does not look like the start
    of the next block, and stops at the first that does, or at the end
    of the input. *)
Lemma collect_text_lines_spec (body rest : list str) :
  forall current_line text_lines,
    (forall k, (k < length body)%nat ->
               at_next_block (skipn k (body ++ rest)) = false) ->
    rest = [] \/ at_next_block rest = true ->
    collect_text_lines (body ++ rest) current_line text_lines
    = (text_lines ++ map Py.rstrip body, (current_line + length body)%nat).
Proof.
  induction body as [|l body IH]; intros cur acc Hno Hrest.
  - simpl. rewrite app_nil_r, Nat.add_0_r.
    destruct rest as [|r rest]; [reflexivity|].
    destruct Hrest as [Hrest|Hrest]; [discriminate|].
    simpl. unfold at_next_block in Hrest. unfold at_next_block.
    rewrite Hrest. reflexivity.
  - change ((l :: body) ++ rest) with (l :: (body ++ rest)).
    cbn [collect_text_lines].
    pose proof (Hno 0%nat ltac:(simpl; lia)) as H0. cbn [skipn] in H0.
    change ((l :: body) ++ rest) with (l :: (body ++ rest)) in H0.
    rewrite H0. rewrite IH.
    + cbn [map length]. rewrite <- app_assoc. f_equal. lia.
    + intros k Hk. apply (Hno (S k)). simpl. lia.
    + exact Hrest.
Qed.

Lemma pop_trailing_empty_blank (ls : list str) (b : str) :
  is_blank b = true -> pop_trailing_empty (ls ++ [b]) = pop_trailing_empty ls.
Proof.
  intros H. unfold pop_trailing_empty. rewrite rev_app_distr. simpl.
  rewrite H. reflexivity.
Qed.

(** One call of [_parse_block] at the index line of a block whose text
    runs up to the next index line followed by a time code, or up to the
    end of the input. *)
Lemma parse_block_at
    (before body rest : list str) (index_line time_line : str)
    (idx : Z) (tcode : TimeCode) :
  Py.isdigit (Py.strip index_line) = true ->
  Py.int (Py.strip index_line) = Some idx ->
  parse_time_line (Py.strip time_line) = Ok tcode ->
  (forall k, (k < length body)%nat ->
             at_next_block (skipn k (body ++ rest)) = false) ->
  rest = [] \/ at_next_block rest = true ->
  pop_trailing_empty (map Py.rstrip body) <> [] ->
  _parse_block (before ++ index_line :: time_line :: body ++ rest)
    (length before)
  = Ok (Some (new_block idx tcode (pop_trailing_empty (map Py.rstrip body))),
        (length before + 2 + length body)%nat).
Proof.
  intros Hd Hi Ht Hno Hrest Hne.
  unfold _parse_block. rewrite skipn_app_length.
  cbn [skip_empty_lines]. rewrite (isdigit_not_blank _ Hd).
  rewrite nth_error_at. rewrite Hd, Hi. cbn [negb of_option bind].
  rewrite nth_error_at_succ. rewrite Ht. cbn [bind].
  rewrite skipn_at_2.
  rewrite collect_text_lines_spec by assumption.
  cbn [app].
  destruct (pop_trailing_empty (map Py.rstrip body)) eqn:E; [congruence|].
  f_equal. f_equal. lia.
Qed.

(** C4, as the code has it: the text lines of a block end only at a line
    that is a bare integer immediately followed by a time-code line, or
    at the end of the input.  When the line after the blank line that
    follows the text is such a line (or the input ends), the block gets
    the text lines before the blank line, without their trailing blank
    lines, and parsing resumes right after the blank line: no line after
    it becomes part of the text of the block. *)
Theorem C4_text_lines_end_at_next_block
    (before text rest : list str) (index_line time_line blank : str)
    (idx : Z) (tcode : TimeCode) :
  Py.isdigit (Py.strip index_line) = true ->
  Py.int (Py.strip index_line) = Some idx ->
  parse_time_line (Py.strip time_line) = Ok tcode ->
  (forall k, (k < length text)%nat ->
             at_next_block (skipn k (text ++ blank :: rest)) = false) ->
  is_blank blank = true ->
  rest = [] \/ at_next_block rest = true ->
  pop_trailing_empty (map Py.rstrip text) <> [] ->
  _parse_block (before ++ index_line :: time_line :: text ++ blank :: rest)
    (length before)
  = Ok (Some (new_block idx tcode (pop_trailing_empty (map Py.rstrip text))),
        (length before + 2 + (length text + 1))%nat).
Proof.
  intros Hd Hi Ht Hno Hb Hrest Hne.
  assert (Hpop : pop_trailing_empty (map Py.rstrip (text ++ [blank]))
                 = pop_trailing_empty (map Py.rstrip text)).
  { rewrite map_app. cbn [map]. rewrite (blank_rstrip _ Hb).
    apply pop_trailing_empty_blank. reflexivity. }
  replace (text ++ blank :: rest) with ((text ++ [blank]) ++ rest)
    by (rewrite <- app_assoc; reflexivity).
  rewrite (@parse_block_at before (text ++ [blank]) rest index_line time_line
             idx tcode Hd Hi Ht).
  - rewrite Hpop, length_app. reflexivity.
  - intros k Hk. rewrite length_app in Hk. cbn [length] in Hk.
    rewrite <- app_assoc. cbn [app].
    destruct (Nat.eq_dec k (length text)) as [->|Hneq].
    + rewrite skipn_app_length. apply blank_not_next_block. exact Hb.
    + apply Hno. lia.
  - exact Hrest.
  - rewrite Hpop. exact Hne.
Qed.

Lemma C4_text_lines_end_at_next_block_witness :
  _parse_block ([] ++ lit "1" :: T1 :: [lit "Hello"] ++ [] :: [lit "2"; T2; lit "World"])
    (length (@nil str))
  = Ok (Some (new_block 1%Z tc1 (pop_trailing_empty (map Py.rstrip [lit "Hello"]))),
        (length (@nil str) + 2 + (length [lit "Hello"] + 1))%nat).
Proof.
  apply (@C4_text_lines_end_at_next_block [] [lit "Hello"]
           [lit "2"; T2; lit "World"] (lit "1") T1 [] 1%Z tc1).
  - reflexivity.
  - reflexivity.
  - vm_compute. reflexivity.
  - intros k Hk. simpl in Hk. assert (k = 0%nat) as -> by lia.
    vm_compute. reflexivity.
  - reflexivity.
  - right. vm_compute. reflexivity.
  - vm_compute. discriminate.
Defined.

(** C4 fails as stated: a blank line does not end the text of a block.
    In the input below a blank line follows the text line "Hello" and
    the line "World" after it still becomes part of the text. *)
Lemma C4_counterexample :
  _parse_content (Py.join [NL] [lit "1"; T1; lit "Hello"; []; lit "World"])
  = Some (Ok [new_block 1%Z tc1 [lit "Hello"; []; lit "World"]])
  /\ is_blank [] = true
  /\ In (lit "World") (lines (new_block 1%Z tc1 [lit "Hello"; []; lit "World"])).
Proof.
  repeat split; try (vm_compute; reflexivity).
  right. right. left. reflexivity.
Qed.

(** ** Soundness of the matcher *)

Lemma star_greedy_sound (p : char -> bool) (k : nat -> str -> option Re.matched) :
  forall s pos m,
    Re.star_greedy p pos s k = Some m ->
    exists pre s', s = pre ++ s' /\ forallb p pre = true
                   /\ k (pos + length pre)%nat s' = Some m.
Proof.
  induction s as [|c t IH]; intros pos m H; simpl in H.
  - exists [], []. rewrite Nat.add_0_r. auto.
  - destruct (p c) eqn:Hc.
    + destruct (Re.star_greedy p (S pos) t k) as [r|] eqn:E.
      * injection H as <-. destruct (IH _ _ E) as (pre & s' & -> & Hp & Hk).
        exists (c :: pre), s'. simpl. rewrite Hc, Hp.
        replace (pos + S (length pre))%nat with (S pos + length pre)%nat by lia.
        auto.
      * exists [], (c :: t). rewrite Nat.add_0_r. auto.
    + exists [], (c :: t). rewrite Nat.add_0_r. auto.
Qed.

Lemma star_lazy_sound (p : char -> bool) (k : nat -> str -> option Re.matched) :
  forall s pos m,
    Re.star_lazy p pos s k = Some m ->
    exists pre s', s = pre ++ s' /\ forallb p pre = true
                   /\ k (pos + length pre)%nat s' = Some m.
Proof.
  induction s as [|c t IH]; intros pos m H; simpl in H.
  - destruct (k pos []) eqn:E; [|discriminate].
    injection H as <-. exists [], []. rewrite Nat.add_0_r. auto.
  - destruct (k pos (c :: t)) eqn:E.
    + injection H as <-. exists [], (c :: t). rewrite Nat.add_0_r. auto.
    + destruct (p c) eqn:Hc; [|discriminate].
      destruct (IH _ _ H) as (pre & s' & -> & Hp & Hk).
      exists (c :: pre), s'. simpl. rewrite Hc, Hp.
      replace (pos + S (length pre))%nat with (S pos + length pre)%nat by lia.
      auto.
Qed.

(** Whatever the matcher accepts is a word of the pattern, followed by a
    text that the continuation accepts. *)
Lemma run_sound (r : Re.regex) :
  forall pos s caps k m,
    Re.run r pos s caps k = Some m ->
    exists pre s' caps',
      s = pre ++ s' /\ lang r pre /\ k (pos + length pre)%nat s' caps' = Some m.
Proof.
  induction r as [|p|a IHa b IHb|a IHa b IHb|p|p| | |g IHg];
    intros pos s caps k m H; simpl in H.
  - exists [], s, caps. rewrite Nat.add_0_r. simpl. auto.
  - destruct s as [|c t]; [discriminate|].
    destruct (p c) eqn:Hc; [|discriminate].
    exists [c], t, caps. simpl.
    replace (pos + 1)%nat with (S pos) by lia. eauto.
  - destruct (IHa _ _ _ _ _ H) as (u & s1 & caps1 & -> & Hu & H1).
    destruct (IHb _ _ _ _ _ H1) as (v & s2 & caps2 & -> & Hv & H2).
    exists (u ++ v), s2, caps2. rewrite <- app_assoc, length_app.
    rewrite Nat.add_assoc. simpl. eauto 8.
  - destruct (Re.run a pos s caps k) as [m'|] eqn:E.
    + injection H as <-.
      destruct (IHa _ _ _ _ _ E) as (u & s1 & caps1 & -> & Hu & H1).
      exists u, s1, caps1. simpl. auto.
    + destruct (IHb _ _ _ _ _ H) as (u & s1 & caps1 & -> & Hu & H1).
      exists u, s1, caps1. simpl. auto.
  - destruct (star_greedy_sound _ _ _ _ H) as (pre & s' & -> & Hp & Hk).
    exists pre, s', caps. simpl. auto.
  - destruct (star_lazy_sound _ _ _ _ H) as (pre & s' & -> & Hp & Hk).
    exists pre, s', caps. simpl. auto.
  - destruct pos; [|discriminate].
    exists [], s, caps. simpl. auto.
  - exists [], s, caps. rewrite Nat.add_0_r. simpl.
    destruct s as [|c [|c' t]]; auto; [|discriminate].
    destruct (c =? NL); [auto|discriminate].
  - destruct (IHg _ _ _ _ _ H) as (u & s1 & caps1 & -> & Hu & H1).
    exists u, s1, (caps1 ++ [firstn (pos + length u - pos) (u ++ s1)]).
    simpl. auto.
Qed.

Lemma matches_sound (r : Re.regex) (s : str) :
  Re.matches r s = true -> exists pre s', s = pre ++ s' /\ lang r pre.
Proof.
  unfold Re.matches, Re.match_, Re.match_at. intros H.
  destruct (Re.run r 0 s [] _) as [m|] eqn:E; [|discriminate].
  destruct (run_sound _ _ _ _ _ E) as (pre & s' & caps' & -> & Hl & _).
  eauto.
Qed.

(** ** The shape of an accepted time-code line *)

Ltac break_lang :=
  repeat match goal with
         | H : exists _, _ |- _ => destruct H
         | H : _ /\ _ |- _ => destruct H
         | H : (_ =? _) = true |- _ => apply N.eqb_eq in H
         end.

Lemma lang_time_stamp (ts : str) : lang time_stamp ts -> stamp ts.
Proof.
  unfold time_stamp, Re.digit, Re.chr. cbn [Re.seqs lang]. intros H.
  break_lang. subst. cbn [app]. constructor; assumption.
Qed.

Lemma time_pattern_shape (s : str) :
  Re.matches time_pattern s = true ->
  exists ts1 w1 w2 ts2 rest,
    s = ts1 ++ w1 ++ ARROW ++ w2 ++ ts2 ++ rest
    /\ stamp ts1 /\ stamp ts2
    /\ forallb Py.isspace w1 = true /\ forallb Py.isspace w2 = true.
Proof.
  intros H. apply matches_sound in H. destruct H as (pre & rest & -> & H).
  unfold time_pattern, Re.spaces in H.
  change (Re.text (lit "-->"))
    with (Re.Seq (Re.chr 45) (Re.Seq (Re.chr 45) (Re.chr 62))) in H.
  unfold Re.chr in H. cbn [Re.seqs lang] in H.
  destruct H as (ts1 & v1 & -> & H1 & w1 & v2 & -> & Hw1 & ar & v3 & -> & Ha
                 & w2 & ts2 & -> & Hw2 & H2).
  apply lang_time_stamp in H1, H2.
  break_lang. subst.
  exists ts1, w1, w2, ts2, rest. repeat split; try assumption.
  rewrite <- !app_assoc. reflexivity.
Qed.

(** ** Facts about the character classes *)

Lemma decimal_lookup_spec (zs : list N) (c : char) (v : N) :
  Py.decimal_lookup zs c = Some v ->
  exists z, In z zs /\ z <= c /\ c < z + 10 /\ v = c - z.
Proof.
  induction zs as [|z zs IH]; simpl; [discriminate|].
  destruct ((z <=? c) && (c <? z + 10)) eqn:E.
  - intros H. injection H as <-. apply andb_true_iff in E. destruct E as [E1 E2].
    apply N.leb_le in E1. apply N.ltb_lt in E2. exists z. auto.
  - intros H. destruct (IH H) as (z' & Hin & Hr). exists z'. auto.
Qed.

Lemma below_ten (k : N) : k < 10 -> In k ten.
Proof.
  intros H. unfold ten.
  assert (E : k = 0 \/ k = 1 \/ k = 2 \/ k = 3 \/ k = 4 \/ k = 5 \/ k = 6
              \/ k = 7 \/ k = 8 \/ k = 9) by lia.
  simpl. repeat (destruct E as [E|E]; [subst; auto 12|]). subst; auto 12.
Qed.

Lemma holds_of_decimals_spec (P : char -> bool) (c : char) :
  holds_of_decimals P = true -> Py.isdecimal c = true -> P c = true.
Proof.
  unfold holds_of_decimals, Py.isdecimal, Py.decimal_value. intros HP Hc.
  destruct (Py.decimal_lookup Py.decimal_zeros c) as [v|] eqn:E; [|discriminate].
  apply decimal_lookup_spec in E. destruct E as (z & Hin & Hle & Hlt & ->).
  rewrite forallb_forall in HP. specialize (HP z Hin).
  rewrite forallb_forall in HP.
  assert (Hk : c - z < 10) by lia.
  specialize (HP (c - z) (below_ten Hk)).
  replace (z + (c - z)) with c in HP by lia. exact HP.
Qed.

Lemma decimal_digit_like (c : char) :
  Py.isdecimal c = true -> digit_like c = true.
Proof. apply holds_of_decimals_spec. vm_compute. reflexivity. Qed.

Lemma decimal_facts (c : char) :
  Py.isdecimal c = true ->
  (exists a, Py.to_ascii_char c = Some a /\ ascii_digit a = true)
  /\ Py.isspace c = false
  /\ c <> 58 /\ c <> 44 /\ c <> 45 /\ c <> 32 /\ c <> 10.
Proof.
  intros H. apply decimal_digit_like in H. unfold digit_like in H.
  apply andb_true_iff in H. destruct H as [H H3].
  apply andb_true_iff in H. destruct H as [H1 H2].
  apply negb_true_iff in H2, H3.
  split; [|split; [exact H2|]].
  - destruct (Py.to_ascii_char c) as [a|]; [|discriminate]. eauto.
  - unfold char_in in H3. cbn [existsb] in H3.
    repeat (apply orb_false_iff in H3; destruct H3 as [? H3]).
    repeat match goal with
           | E : (c =? _) = false |- _ => apply N.eqb_neq in E
           end.
    repeat split; assumption.
Qed.

Ltac bool_to_prop :=
  repeat match goal with
         | H : (_ || _) = true |- _ => apply orb_true_iff in H; destruct H as [H|H]
         | H : (_ && _) = true |- _ => apply andb_true_iff in H; destruct H as [? H]
         | H : (_ <=? _) = true |- _ => apply N.leb_le in H
         | H : (_ =? _) = true |- _ => apply N.eqb_eq in H
         | H : (_ <? _) = true |- _ => apply N.ltb_lt in H
         | H : (_ <? _) = false |- _ => apply N.ltb_ge in H
         end.

Lemma space_facts (c : char) :
  Py.isspace c = true ->
  (exists a, Py.to_ascii_char c = Some a /\ spaceish a = true)
  /\ Py.isdecimal c = false
  /\ c <> 58 /\ c <> 44 /\ c <> 45.
Proof.
  intros H. split; [|split].
  - unfold Py.to_ascii_char. rewrite H.
    destruct (c <? 127) eqn:E; [|exists SPACE; split; reflexivity].
    exists c. split; [reflexivity|].
    unfold Py.isspace, in_range in H. unfold spaceish, Py.c_isspace, in_range.
    apply N.ltb_lt in E.
    destruct (N.leb_spec 9 c), (N.leb_spec c 13), (N.eqb_spec c 32),
      (N.leb_spec 28 c), (N.leb_spec c 31); simpl; try reflexivity;
      exfalso; bool_to_prop; lia.
  - destruct (Py.isdecimal c) eqn:E; [|reflexivity].
    apply decimal_facts in E. destruct E as (_ & E & _). congruence.
  - unfold Py.isspace, in_range in H.
    repeat split; intros ->; vm_compute in H; discriminate.
Qed.

(** ** Facts about [int] *)

Lemma to_ascii_decimal_app (u v : str) :
  Py.to_ascii_decimal (u ++ v)
  = match Py.to_ascii_decimal u, Py.to_ascii_decimal v with
    | Some u', Some v' => Some (u' ++ v')
    | _, _ => None
    end.
Proof.
  induction u as [|c u IH]; simpl.
  - destruct (Py.to_ascii_decimal v); reflexivity.
  - destruct (Py.to_ascii_char c); [|reflexivity]. rewrite IH.
    destruct (Py.to_ascii_decimal u), (Py.to_ascii_decimal v); reflexivity.
Qed.

Lemma to_ascii_spaces (w : str) :
  forallb Py.isspace w = true ->
  exists w', Py.to_ascii_decimal w = Some w' /\ forallb spaceish w' = true.
Proof.
  induction w as [|c w IH]; simpl; intros H.
  - exists []. auto.
  - apply andb_true_iff in H. destruct H as [Hc Hw].
    destruct (IH Hw) as (w' & -> & Hs).
    destruct (space_facts _ Hc) as ((a & -> & Ha) & _).
    exists (a :: w'). simpl. rewrite Ha, Hs. auto.
Qed.

Lemma to_ascii_digits (ds : str) :
  forallb Py.isdecimal ds = true ->
  exists ds', Py.to_ascii_decimal ds = Some ds'
              /\ forallb ascii_digit ds' = true /\ length ds' = length ds.
Proof.
  induction ds as [|c ds IH]; simpl; intros H.
  - exists []. auto.
  - apply andb_true_iff in H. destruct H as [Hc Hd].
    destruct (IH Hd) as (ds' & -> & Hs & Hl).
    destruct (decimal_facts _ Hc) as ((a & -> & Ha) & _).
    exists (a :: ds'). simpl. rewrite Ha, Hs, Hl. auto.
Qed.

Lemma ascii_digit_value (a : char) :
  ascii_digit a = true -> (0 <= Z.of_N (a - 48) <= 9)%Z.
Proof.
  unfold ascii_digit, in_range. intros H. bool_to_prop. lia.
Qed.

Lemma int_body_nonneg (s : str) :
  forall acc st v r,
    (0 <= acc)%Z -> Py.int_body s acc st = Some (v, r) -> (0 <= v)%Z.
Proof.
  induction s as [|c t IH]; intros acc st v r Hacc H; cbn [Py.int_body] in H.
  - destruct st; try discriminate. injection H as <- _. exact Hacc.
  - destruct (in_range 48 57 c) eqn:Hd.
    + apply IH in H; [exact H|]. pose proof (ascii_digit_value c Hd). lia.
    + destruct (c =? 95).
      * destruct st; try discriminate. apply IH in H; assumption.
      * destruct st; try discriminate. injection H as <- _. exact Hacc.
Qed.

Lemma int_body_digits (ds : str) :
  forall acc st r,
    forallb ascii_digit ds = true -> ds <> [] -> (0 <= acc)%Z ->
    ends_digits r ->
    exists v,
      Py.int_body (ds ++ r) acc st = Some (v, r)
      /\ (acc * 10 ^ Z.of_nat (length ds) <= v
          < (acc + 1) * 10 ^ Z.of_nat (length ds))%Z.
Proof.
  induction ds as [|a ds IH]; intros acc st r Hd Hne Hacc Hr; [congruence|].
  simpl in Hd. apply andb_true_iff in Hd. destruct Hd as [Ha Hd].
  pose proof (ascii_digit_value a Ha) as Hv.
  change ((a :: ds) ++ r) with (a :: (ds ++ r)). cbn [Py.int_body].
  unfold ascii_digit in Ha. rewrite Ha.
  destruct ds as [|b ds'].
  - cbn [app length]. exists (10 * acc + Z.of_N (a - 48))%Z. split.
    + destruct r as [|c r']; [reflexivity|].
      destruct Hr as [Hr1 Hr2]. cbn [Py.int_body].
      unfold ascii_digit in Hr1. rewrite Hr1, Hr2. reflexivity.
    + change (Z.of_nat 1) with 1%Z. lia.
  - destruct (IH (10 * acc + Z.of_N (a - 48))%Z Py.IntAfterDigit r Hd
                ltac:(discriminate) ltac:(lia) Hr) as (v & Hv1 & Hv2).
    exists v. split; [exact Hv1|].
    remember (length (b :: ds')) as n.
    replace (Z.of_nat (length (a :: b :: ds'))) with (Z.of_nat n + 1)%Z
      by (subst n; cbn [length]; lia).
    rewrite Z.pow_add_r by lia. change (10 ^ 1)%Z with 10%Z.
    assert (0 < 10 ^ Z.of_nat n)%Z by (apply Z.pow_pos_nonneg; lia).
    nia.
Qed.

Lemma dropwhile_spaceish (w t : str) :
  forallb spaceish w = true ->
  Py.dropwhile Py.c_isspace (w ++ t) = Py.dropwhile Py.c_isspace t
  \/ exists c t', Py.dropwhile Py.c_isspace (w ++ t) = c :: t'
                  /\ in_range 28 31 c = true.
Proof.
  induction w as [|c w IH]; simpl; intros H; [left; reflexivity|].
  apply andb_true_iff in H. destruct H as [Hc Hw].
  destruct (Py.c_isspace c) eqn:E; [exact (IH Hw)|].
  right. exists c, (w ++ t). split; [reflexivity|].
  unfold spaceish in Hc. rewrite E in Hc. exact Hc.
Qed.

Lemma separator_not_int (c : char) (t : str) :
  in_range 28 31 c = true ->
  (let '(sign, a2) :=
     if c =? 43 then (1%Z, t)
     else if c =? 45 then ((-1)%Z, t) else (1%Z, c :: t) in
   Py.int_body a2 0%Z Py.IntStart) = None.
Proof.
  unfold in_range. intros H. bool_to_prop.
  destruct (N.eqb_spec c 43); [lia|]. destruct (N.eqb_spec c 45); [lia|].
  cbn [Py.int_body]. unfold in_range.
  destruct (N.leb_spec 48 c); [lia|]. cbn [andb].
  destruct (N.eqb_spec c 95); [lia|]. reflexivity.
Qed.

Lemma spaceish_ends_digits (x : str) :
  forallb spaceish x = true -> ends_digits x.
Proof.
  destruct x as [|c x]; simpl; [auto|]. intros H.
  apply andb_true_iff in H. destruct H as [H _].
  unfold spaceish, Py.c_isspace, ascii_digit, in_range in *.
  destruct (N.leb_spec 48 c), (N.leb_spec c 57), (N.eqb_spec c 95);
    simpl; try (split; reflexivity); exfalso; bool_to_prop; lia.
Qed.

Lemma digit_not_sign (a : char) :
  ascii_digit a = true ->
  Py.c_isspace a = false /\ (a =? 43) = false /\ (a =? 45) = false.
Proof.
  unfold ascii_digit, Py.c_isspace, in_range. intros H. bool_to_prop.
  destruct (N.leb_spec 9 a), (N.leb_spec a 13), (N.eqb_spec a 32),
    (N.eqb_spec a 43), (N.eqb_spec a 45); simpl; try lia; auto.
Qed.

(** A field made of decimal digits, with white space around it, is read
    as a number below the power of ten of its number of digits. *)
Lemma int_of_field (w ds x : str) (v : Z) :
  forallb Py.isspace w = true -> forallb Py.isdecimal ds = true -> ds <> [] ->
  forallb Py.isspace x = true ->
  Py.int (w ++ ds ++ x) = Some v ->
  (0 <= v < 10 ^ Z.of_nat (length ds))%Z.
Proof.
  intros Hw Hd Hne Hx. unfold Py.int. rewrite !to_ascii_decimal_app.
  destruct (to_ascii_spaces _ Hw) as (w' & -> & Hw').
  destruct (to_ascii_digits _ Hd) as (ds' & -> & Hd' & Hl).
  destruct (to_ascii_spaces _ Hx) as (x' & -> & Hx').
  assert (Hne' : ds' <> []) by (destruct ds', ds; simpl in *; congruence).
  destruct (dropwhile_spaceish w' (ds' ++ x') Hw') as [E|(c & t' & E & Hc)];
    rewrite E.
  - destruct ds' as [|a ds'']; [congruence|].
    pose proof Hd' as Ha. simpl in Ha. apply andb_true_iff in Ha.
    destruct Ha as [Ha _]. destruct (digit_not_sign _ Ha) as (S1 & S2 & S3).
    change ((a :: ds'') ++ x') with (a :: (ds'' ++ x')).
    cbn [Py.dropwhile]. rewrite S1, S2, S3.
    change (a :: (ds'' ++ x')) with ((a :: ds'') ++ x').
    destruct (@int_body_digits (a :: ds'') 0%Z Py.IntStart x' Hd' Hne'
                ltac:(lia) (spaceish_ends_digits _ Hx')) as (v0 & -> & Hv0).
    destruct (Py.dropwhile Py.c_isspace x'); [|discriminate].
    intros H. injection H as <-. rewrite <- Hl. destruct v0; lia.
  - pose proof (separator_not_int c t' Hc) as Hn.
    destruct (c =? 43); [|destruct (c =? 45)]; rewrite Hn; discriminate.
Qed.

(** A text that starts with a decimal digit is not read as a negative
    number. *)
Lemma int_after_digit (d : char) (t : str) (v : Z) :
  Py.isdecimal d = true -> Py.int (d :: t) = Some v -> (0 <= v)%Z.
Proof.
  intros Hd. unfold Py.int. cbn [Py.to_ascii_decimal].
  destruct (decimal_facts _ Hd) as ((a & -> & Ha) & _).
  destruct (Py.to_ascii_decimal t) as [t'|]; [|discriminate].
  destruct (digit_not_sign _ Ha) as (S1 & S2 & S3).
  cbn [Py.dropwhile]. rewrite S1, S2, S3.
  destruct (Py.int_body (a :: t') 0%Z Py.IntStart) as [[v0 rest]|] eqn:E;
    [|discriminate].
  apply int_body_nonneg in E; [|lia].
  destruct (Py.dropwhile Py.c_isspace rest); [|discriminate].
  intros H. injection H as <-. destruct v0; lia.
Qed.

(** ** Facts about [split] *)

Lemma split_go_nonempty (sep s : str) :
  forall skip cur, Py.split_go sep s skip cur <> [].
Proof.
  induction s as [|c t IH]; intros skip cur; cbn [Py.split_go]; [discriminate|].
  destruct skip; [|apply IH].
  destruct (Py.startswith (c :: t) sep); [discriminate|apply IH].
Qed.

(** The characters of a prefix at which no separator starts are passed
    over. *)
Lemma split_go_pass (sep a t : str) :
  forall cur,
    (forall k, (k < length a)%nat ->
               Py.startswith (skipn k (a ++ t)) sep = false) ->
    Py.split_go sep (a ++ t) 0 cur = Py.split_go sep t 0 (rev a ++ cur).
Proof.
  induction a as [|x a IH]; intros cur H; [reflexivity|].
  change ((x :: a) ++ t) with (x :: (a ++ t)). cbn [Py.split_go].
  pose proof (H 0%nat ltac:(simpl; lia)) as H0. cbn [skipn] in H0.
  change ((x :: a) ++ t) with (x :: (a ++ t)) in H0. rewrite H0.
  rewrite IH.
  - cbn [rev]. rewrite <- app_assoc. reflexivity.
  - intros k Hk. apply (H (S k)). simpl. lia.
Qed.

Lemma startswith_nil (t : str) : Py.startswith t [] = true.
Proof. destruct t; reflexivity. Qed.

Lemma startswith_first (c c0 : char) (t sep' : str) :
  c <> c0 -> Py.startswith (c :: t) (c0 :: sep') = false.
Proof.
  intros H. cbn [Py.startswith]. destruct (N.eqb_spec c0 c); [congruence|].
  reflexivity.
Qed.

(** A prefix without the first character of the separator is passed
    over. *)
Lemma split_go_pass_first (c0 : char) (sep' a t : str) :
  forall cur,
    forallb (fun c => negb (c =? c0)) a = true ->
    Py.split_go (c0 :: sep') (a ++ t) 0 cur
    = Py.split_go (c0 :: sep') t 0 (rev a ++ cur).
Proof.
  induction a as [|x a IH]; intros cur H; [reflexivity|].
  simpl in H. apply andb_true_iff in H. destruct H as [Hx Ha].
  apply negb_true_iff, N.eqb_neq in Hx.
  change ((x :: a) ++ t) with (x :: (a ++ t)). cbn [Py.split_go].
  rewrite (startswith_first _ _ Hx). rewrite IH by exact Ha.
  cbn [rev]. rewrite <- app_assoc. reflexivity.
Qed.

Lemma split_go_skip (sep a t : str) :
  forall cur, Py.split_go sep (a ++ t) (length a) cur = Py.split_go sep t 0 cur.
Proof.
  induction a as [|x a IH]; intros cur; [reflexivity|].
  change ((x :: a) ++ t) with (x :: (a ++ t)). cbn [Py.split_go length].
  apply IH.
Qed.

Lemma startswith_app (sep t : str) : Py.startswith (sep ++ t) sep = true.
Proof.
  induction sep as [|c sep IH]; [destruct t; reflexivity|].
  simpl. rewrite N.eqb_refl. exact IH.
Qed.

(** At a separator the current piece is closed. *)
Lemma split_go_match (c0 : char) (sep' t cur : str) :
  Py.split_go (c0 :: sep') ((c0 :: sep') ++ t) 0 cur
  = rev cur :: Py.split_go (c0 :: sep') t 0 [].
Proof.
  change ((c0 :: sep') ++ t) with (c0 :: (sep' ++ t)). cbn [Py.split_go].
  change (c0 :: (sep' ++ t)) with ((c0 :: sep') ++ t).
  rewrite startswith_app.
  replace (length (c0 :: sep') - 1)%nat with (length sep') by (simpl; lia).
  rewrite split_go_skip. reflexivity.
Qed.

(** A split into one piece returns the text itself. *)
Lemma split_go_singleton (sep s : str) :
  forall cur y, Py.split_go sep s 0 cur = [y] -> y = rev cur ++ s.
Proof.
  induction s as [|c t IH]; intros cur y H; cbn [Py.split_go] in H.
  - injection H as <-. rewrite app_nil_r. reflexivity.
  - destruct (Py.startswith (c :: t) sep).
    + injection H as _ H. exfalso. exact (split_go_nonempty _ _ _ _ H).
    + apply IH in H. rewrite H. cbn [rev]. rewrite <- app_assoc. reflexivity.
Qed.

(** The first piece starts with what has been read so far. *)
Lemma split_go_head (sep s : str) :
  forall cur y l, Py.split_go sep s 0 cur = y :: l -> exists u, y = rev cur ++ u.
Proof.
  induction s as [|c t IH]; intros cur y l H; cbn [Py.split_go] in H.
  - injection H as <- _. exists []. rewrite app_nil_r. reflexivity.
  - destruct (Py.startswith (c :: t) sep).
    + injection H as <- _. exists []. rewrite app_nil_r. reflexivity.
    + apply IH in H. destruct H as [u ->]. exists (c :: u).
      cbn [rev]. rewrite <- app_assoc. reflexivity.
Qed.

(** A text that holds the separator character is split into at least
    two pieces. *)
Lemma split_char_two (c0 : char) (s : str) :
  forall cur, In c0 s ->
    exists y z l, Py.split_go [c0] s 0 cur = y :: z :: l.
Proof.
  induction s as [|c t IH]; intros cur Hin; [destruct Hin|].
  cbn [Py.split_go Py.startswith].
  destruct (N.eqb_spec c0 c) as [->|Hne].
  - rewrite startswith_nil. cbn [andb length Nat.sub].
    destruct (Py.split_go [c] t 0 []) as [|z l] eqn:E.
    + exfalso. exact (split_go_nonempty _ _ _ _ E).
    + do 3 eexists. reflexivity.
  - cbn [andb]. destruct Hin as [Hin|Hin]; [congruence|]. apply IH. exact Hin.
Qed.

(** ** How an accepted time-code line is cut at the arrow *)

Lemma startswith_second (c : char) (t : str) :
  not_dash_next t -> Py.startswith (c :: t) SEP = false.
Proof.
  unfold SEP. intros H.
  destruct t as [|c2 t]; cbn [Py.startswith]; [apply andb_false_r|].
  simpl in H. destruct (N.eqb_spec 45 c2); [congruence|].
  cbn [andb]. apply andb_false_r.
Qed.

Lemma pass_spaces (w t : str) :
  forall cur,
    forallb Py.isspace w = true -> not_dash_next t ->
    Py.split_go SEP (w ++ t) 0 cur = Py.split_go SEP t 0 (rev w ++ cur).
Proof.
  induction w as [|c w IH]; intros cur Hw Ht; [reflexivity|].
  simpl in Hw. apply andb_true_iff in Hw. destruct Hw as [Hc Hw].
  change ((c :: w) ++ t) with (c :: (w ++ t)). cbn [Py.split_go].
  rewrite startswith_second.
  - rewrite IH by assumption. cbn [rev]. rewrite <- app_assoc. reflexivity.
  - destruct w as [|c2 w']; [exact Ht|]. simpl.
    simpl in Hw. apply andb_true_iff in Hw. destruct Hw as [Hc2 _].
    apply space_facts in Hc2. tauto.
Qed.

Lemma stamp_no_space (ts : str) :
  stamp ts -> forallb (fun c => negb (c =? 32)) ts = true.
Proof.
  intros H. destruct H. cbn [forallb].
  repeat match goal with
         | H : Py.isdecimal ?d = true |- _ =>
             let F := fresh in
             pose proof (decimal_facts _ H) as (_ & _ & _ & _ & _ & F & _);
             apply N.eqb_neq in F; rewrite F; clear H
         end.
  reflexivity.
Qed.

Lemma stamp_not_dash_next (ts t : str) : stamp ts -> not_dash_next (ts ++ t).
Proof.
  intros H. destruct H. simpl.
  match goal with
  | H : Py.isdecimal h1 = true |- _ => apply decimal_facts in H
  end. tauto.
Qed.

Lemma pass_arrow_tail (w2 ts2 rest : str) :
  forall cur,
    stamp ts2 -> forallb Py.isspace w2 = true ->
    Py.split_go SEP (ARROW ++ w2 ++ ts2 ++ rest) 0 cur
    = Py.split_go SEP rest 0 (rev (ARROW ++ w2 ++ ts2) ++ cur).
Proof.
  intros cur Hs Hw. unfold SEP.
  rewrite split_go_pass_first by reflexivity.
  fold SEP. rewrite pass_spaces by (auto using stamp_not_dash_next).
  unfold SEP. rewrite split_go_pass_first by (apply stamp_no_space; exact Hs).
  f_equal. rewrite !rev_app_distr, <- !app_assoc. reflexivity.
Qed.

Lemma last_cases {A : Type} (l : list A) :
  l = [] \/ exists x c, l = x ++ [c].
Proof.
  destruct l as [|a l]; [left; reflexivity|right].
  destruct (exists_last (l := a :: l) ltac:(discriminate)) as (x & c & E).
  eauto.
Qed.

(** Either the first separator sits between the two stamps, and the line
    is cut there, or the first piece runs past the second stamp. *)
Lemma split_time_line (ts1 w1 w2 ts2 rest : str) :
  stamp ts1 -> stamp ts2 ->
  forallb Py.isspace w1 = true -> forallb Py.isspace w2 = true ->
  (exists x w2',
      w1 = x ++ [32] /\ w2 = 32 :: w2'
      /\ Py.split SEP (ts1 ++ w1 ++ ARROW ++ w2 ++ ts2 ++ rest)
         = (ts1 ++ x) :: Py.split_go SEP (w2' ++ ts2 ++ rest) 0 [])
  \/ Py.split SEP (ts1 ++ w1 ++ ARROW ++ w2 ++ ts2 ++ rest)
     = Py.split_go SEP rest 0 (rev (ts1 ++ w1 ++ ARROW ++ w2 ++ ts2)).
Proof.
  intros H1 H2 Hw1 Hw2. unfold Py.split.
  assert (Hpass : forall c cur,
             Py.startswith (c :: ARROW ++ w2 ++ ts2 ++ rest) SEP = false ->
             Py.split_go SEP (c :: ARROW ++ w2 ++ ts2 ++ rest) 0 cur
             = Py.split_go SEP rest 0 (rev (c :: ARROW ++ w2 ++ ts2) ++ cur)).
  { intros c cur E. cbn [Py.split_go]. rewrite E.
    rewrite pass_arrow_tail by assumption.
    f_equal. cbn [rev]. rewrite <- !app_assoc. reflexivity. }
  unfold SEP at 1 3. rewrite split_go_pass_first by (apply stamp_no_space; exact H1).
  fold SEP. rewrite app_nil_r.
  destruct (last_cases w1) as [->|(x & c & ->)].
  - right. cbn [app]. rewrite pass_arrow_tail by assumption.
    f_equal. rewrite !rev_app_distr, <- !app_assoc. reflexivity.
  - rewrite forallb_app in Hw1. apply andb_true_iff in Hw1.
    destruct Hw1 as [Hx Hc]. simpl in Hc. rewrite andb_true_r in Hc.
    rewrite <- app_assoc. cbn [app].
    rewrite pass_spaces; [|exact Hx|simpl; apply space_facts in Hc; tauto].
    assert (Hright : Py.startswith (c :: ARROW ++ w2 ++ ts2 ++ rest) SEP = false ->
              Py.split_go SEP (c :: ARROW ++ w2 ++ ts2 ++ rest) 0 (rev x ++ rev ts1)
              = Py.split_go SEP rest 0
                  (rev (ts1 ++ (x ++ [c]) ++ ARROW ++ w2 ++ ts2))).
    { intros E. rewrite Hpass by exact E. f_equal.
      cbn [rev]. rewrite !rev_app_distr. cbn [rev app].
      rewrite <- !app_assoc. reflexivity. }
    destruct (N.eq_dec c 32) as [->|Hc32].
    + destruct w2 as [|c2 w2'].
      * right. apply Hright. destruct H2.
        match goal with
        | H : Py.isdecimal h1 = true |- _ =>
            apply decimal_facts in H; destruct H as (_ & _ & _ & _ & _ & F & _)
        end.
        unfold SEP, ARROW. cbn [app Py.startswith].
        destruct (N.eqb_spec 32 h1); [congruence|]. reflexivity.
      * destruct (N.eq_dec c2 32) as [->|Hc2].
        -- left. exists x, w2'. split; [reflexivity|split; [reflexivity|]].
           change (32 :: ARROW ++ (32 :: w2') ++ ts2 ++ rest)
             with (SEP ++ (w2' ++ ts2 ++ rest)).
           unfold SEP at 1 2. rewrite split_go_match. fold SEP.
           f_equal. rewrite rev_app_distr, !rev_involutive. reflexivity.
        -- right. apply Hright. unfold SEP, ARROW. cbn [app Py.startswith].
           destruct (N.eqb_spec 32 c2); [congruence|]. reflexivity.
    + right. apply Hright. apply startswith_first. exact Hc32.
Qed.

(** ** The fields of an accepted time-code line *)

Lemma spaces_without (c0 : char) (w : str) :
  c0 = 58 \/ c0 = 44 ->
  forallb Py.isspace w = true ->
  forallb (fun c => negb (c =? c0)) w = true.
Proof.
  intros Hc0. induction w as [|c w IH]; simpl; intros H; [reflexivity|].
  apply andb_true_iff in H. destruct H as [Hc Hw].
  rewrite (IH Hw), andb_true_r. apply negb_true_iff, N.eqb_neq.
  apply space_facts in Hc. destruct Hc0; subst; tauto.
Qed.

Lemma digit_is_not (c0 d : char) :
  c0 = 58 \/ c0 = 44 -> Py.isdecimal d = true -> negb (d =? c0) = true.
Proof.
  intros Hc0 Hd. apply negb_true_iff, N.eqb_neq.
  apply decimal_facts in Hd. destruct Hc0; subst; tauto.
Qed.

(** The four numbers read from a text that holds a time stamp after
    white space: none is negative, the first three have two digits, and
    the last has three when only white space follows the stamp. *)
Lemma parse_fields_stamp (w ts t : str) (h m s ms : Z) :
  stamp ts -> forallb Py.isspace w = true ->
  _parse_fields (w ++ ts ++ t) = Ok (h, m, s, ms) ->
  (0 <= h <= 99 /\ 0 <= m <= 99 /\ 0 <= s <= 99 /\ 0 <= ms
   /\ (forallb Py.isspace t = true -> ms <= 999))%Z.
Proof.
  intros Hs Hw. destruct Hs as [h1 h2 m1 m2 s1 s2 f1 f2 f3 Dh1 Dh2 Dm1 Dm2 Ds1 Ds2 Df1 Df2 Df3].
  unfold _parse_fields. change (lit ":") with [58]. change (lit ",") with [44].
  unfold Py.split.
  replace (w ++ [h1; h2; 58; m1; m2; 58; s1; s2; 44; f1; f2; f3] ++ t)
    with ((w ++ [h1; h2]) ++ [58] ++ [m1; m2] ++ [58]
          ++ [s1; s2; 44; f1; f2; f3] ++ t)
    by (rewrite <- !app_assoc; reflexivity).
  rewrite split_go_pass_first, split_go_match.
  2:{ rewrite forallb_app, (spaces_without (c0 := 58)) by auto.
      cbn [forallb]. rewrite !(digit_is_not (c0 := 58)) by auto. reflexivity. }
  rewrite split_go_pass_first, split_go_match.
  2:{ cbn [forallb]. rewrite !(digit_is_not (c0 := 58)) by auto. reflexivity. }
  rewrite app_nil_r, rev_involutive. cbn [rev app].
  match goal with
  | |- context [Py.split_go ?sep ?u 0 []] =>
      destruct (Py.split_go sep u 0 []) as [|third [|x more]] eqn:E3
  end;
    [exfalso; exact (split_go_nonempty _ _ _ _ E3)|
     |intros H; cbv beta iota in H; discriminate H].
  apply split_go_singleton in E3. cbn [rev app] in E3. subst third.
  change (s1 :: s2 :: 44 :: f1 :: f2 :: f3 :: t)
    with ([s1; s2] ++ [44] ++ [f1; f2; f3] ++ t).
  rewrite split_go_pass_first, split_go_match.
  2:{ cbn [forallb]. rewrite !(digit_is_not (c0 := 44)) by auto. reflexivity. }
  cbn [rev app].
  match goal with
  | |- context [Py.split_go ?sep ?u 0 []] =>
      destruct (Py.split_go sep u 0 []) as [|ms_str [|x more]] eqn:E4
  end;
    [exfalso; exact (split_go_nonempty _ _ _ _ E4)|
     |intros H; cbv beta iota in H; discriminate H].
  apply split_go_singleton in E4. cbn [rev app] in E4. subst ms_str.
  destruct (Py.int (w ++ [h1; h2])) as [vh|] eqn:Eh;
    [|intros H; discriminate H].
  destruct (Py.int [m1; m2]) as [vm|] eqn:Em; [|intros H; discriminate H].
  destruct (Py.int [s1; s2]) as [vs|] eqn:Es; [|intros H; discriminate H].
  destruct (Py.int (f1 :: f2 :: f3 :: t)) as [vf|] eqn:Ef;
    [|intros H; discriminate H].
  cbn [of_option bind]. intros H. injection H as <- <- <- <-.
  assert (D2 : forall a b, Py.isdecimal a = true -> Py.isdecimal b = true ->
                           forallb Py.isdecimal [a; b] = true)
    by (intros a b Ha Hb; simpl; rewrite Ha, Hb; reflexivity).
  pose proof (@int_of_field w [h1; h2] [] vh Hw (D2 _ _ Dh1 Dh2)
                ltac:(discriminate) eq_refl) as Bh.
  rewrite app_nil_r in Bh. specialize (Bh Eh).
  pose proof (@int_of_field [] [m1; m2] [] vm eq_refl (D2 _ _ Dm1 Dm2)
                ltac:(discriminate) eq_refl Em) as Bm.
  pose proof (@int_of_field [] [s1; s2] [] vs eq_refl (D2 _ _ Ds1 Ds2)
                ltac:(discriminate) eq_refl Es) as Bs.
  pose proof (@int_after_digit f1 (f2 :: f3 :: t) vf Df1 Ef) as Bf.
  change (10 ^ Z.of_nat (length [h1; h2]))%Z with 100%Z in Bh.
  change (10 ^ Z.of_nat (length [m1; m2]))%Z with 100%Z in Bm.
  change (10 ^ Z.of_nat (length [s1; s2]))%Z with 100%Z in Bs.
  repeat split; try lia.
  intros Ht.
  assert (D3 : forallb Py.isdecimal [f1; f2; f3] = true)
    by (simpl; rewrite Df1, Df2, Df3; reflexivity).
  pose proof (@int_of_field [] [f1; f2; f3] t vf eq_refl D3
                ltac:(discriminate) Ht Ef) as Bf3.
  change (10 ^ Z.of_nat (length [f1; f2; f3]))%Z with 1000%Z in Bf3. lia.
Qed.

Lemma stamp_has_colon (ts : str) : stamp ts -> In 58 ts.
Proof. intros H. destruct H. simpl. auto. Qed.

(** A first piece that runs past the second stamp is not a time. *)
Lemma parse_fields_two_stamps (ts1 mid ts2 u : str) :
  stamp ts1 -> stamp ts2 ->
  _parse_fields (ts1 ++ mid ++ ts2 ++ u) = Err ValueError.
Proof.
  intros H1 H2. destruct H1 as [h1 h2 m1 m2 s1 s2 f1 f2 f3 Dh1 Dh2 Dm1 Dm2 Ds1 Ds2 Df1 Df2 Df3].
  unfold _parse_fields. change (lit ":") with [58]. unfold Py.split.
  replace ([h1; h2; 58; m1; m2; 58; s1; s2; 44; f1; f2; f3] ++ mid ++ ts2 ++ u)
    with ([h1; h2] ++ [58] ++ [m1; m2] ++ [58]
          ++ ([s1; s2; 44; f1; f2; f3] ++ mid ++ ts2 ++ u))
    by reflexivity.
  rewrite split_go_pass_first, split_go_match.
  2:{ cbn [forallb]. rewrite !(digit_is_not (c0 := 58)) by auto. reflexivity. }
  rewrite split_go_pass_first, split_go_match.
  2:{ cbn [forallb]. rewrite !(digit_is_not (c0 := 58)) by auto. reflexivity. }
  assert (Hin : In 58 ([s1; s2; 44; f1; f2; f3] ++ mid ++ ts2 ++ u)).
  { apply in_or_app. right. apply in_or_app. right. apply in_or_app. left.
    apply stamp_has_colon. exact H2. }
  destruct (split_char_two 58 _ [] Hin) as (y & z & l & E).
  match goal with
  | |- match ?X with _ => _ end = _ =>
      replace X with (y :: z :: l) by (symmetry; exact E)
  end.
  reflexivity.
Qed.

(** C3, as the code has it: a line that the pattern does not match at
    its start is refused with the parse error for an invalid time
    format.  For a line that is accepted, the two times are read from
    the two sides of the arrow; every field is non-negative, hours,
    minutes and seconds are at most 99 (there is no check against 59),
    the milliseconds of the start time are at most 999, and the
    milliseconds of the end time are at most 999 when only white space
    follows the end stamp. *)
Theorem C3_accepted_time_code_fields (time_line : str) :
  (Re.matches time_pattern time_line = false ->
   parse_time_line time_line = Err (ParseFailure (InvalidTimeFormat time_line)))
  /\ forall tc,
       parse_time_line time_line = Ok tc ->
       exists start_str end_str lead ts tail h1 m1 s1 ms1 h2 m2 s2 ms2,
         Py.split (lit " --> ") time_line = [start_str; end_str]
         /\ _parse_fields start_str = Ok (h1, m1, s1, ms1)
         /\ mk_timedelta h1 m1 s1 ms1 = Ok (start tc)
         /\ _parse_fields end_str = Ok (h2, m2, s2, ms2)
         /\ mk_timedelta h2 m2 s2 ms2 = Ok (end_ tc)
         /\ two_digit_fields h1 m1 s1 ms1 /\ (ms1 <= 999)%Z
         /\ two_digit_fields h2 m2 s2 ms2
         /\ end_str = lead ++ ts ++ tail /\ stamp ts
         /\ forallb Py.isspace lead = true
         /\ (forallb Py.isspace tail = true -> (ms2 <= 999)%Z).
Proof.
  split.
  - intros H. unfold parse_time_line. rewrite H. reflexivity.
  - intros tc H. unfold parse_time_line in H.
    destruct (Re.matches time_pattern time_line) eqn:Em; [|discriminate].
    cbn [negb] in H.
    destruct (time_pattern_shape _ Em)
      as (ts1 & w1 & w2 & ts2 & rest & -> & S1 & S2 & Hw1 & Hw2).
    unfold from_srt_time in H. change (lit " --> ") with SEP in *.
    destruct (@split_time_line ts1 w1 w2 ts2 rest S1 S2 Hw1 Hw2)
      as [(x & w2' & -> & -> & Es)|Es]; rewrite Es in *.
    + destruct (Py.split_go SEP (w2' ++ ts2 ++ rest) 0 []) as [|b [|b' l]] eqn:Eb;
        try discriminate.
      apply split_go_singleton in Eb. cbn [rev app] in Eb. subst b.
      unfold _parse_time in H.
      destruct (_parse_fields (ts1 ++ x)) as [[[[h1 m1] s1] ms1]|e] eqn:E1;
        [|discriminate].
      cbn [bind] in H.
      destruct (mk_timedelta h1 m1 s1 ms1) as [st|e] eqn:T1; [|discriminate].
      cbn [bind] in H.
      destruct (_parse_fields (w2' ++ ts2 ++ rest)) as [[[[h2 m2] s2] ms2]|e] eqn:E2;
        [|discriminate].
      cbn [bind] in H.
      destruct (mk_timedelta h2 m2 s2 ms2) as [en|e] eqn:T2; [|discriminate].
      cbn [bind] in H. injection H as <-. cbn [start end_].
      rewrite forallb_app in Hw1. apply andb_true_iff in Hw1.
      destruct Hw1 as [Hx _].
      simpl in Hw2.
      destruct (@parse_fields_stamp [] ts1 x h1 m1 s1 ms1 S1 eq_refl E1)
        as (B1 & B2 & B3 & B4 & B5).
      destruct (@parse_fields_stamp w2' ts2 rest h2 m2 s2 ms2 S2 Hw2 E2)
        as (C1 & C2 & C3 & C4 & C5).
      exists (ts1 ++ x), (w2' ++ ts2 ++ rest), w2', ts2, rest,
        h1, m1, s1, ms1, h2, m2, s2, ms2.
      unfold two_digit_fields. repeat split; auto; lia.
    + destruct (Py.split_go SEP rest 0
                  (rev (ts1 ++ w1 ++ ARROW ++ w2 ++ ts2))) as [|a [|b [|b' l]]] eqn:Ea;
        try discriminate.
      apply split_go_head in Ea. destruct Ea as [u ->].
      rewrite rev_involutive in H. unfold _parse_time in H.
      replace ((ts1 ++ w1 ++ ARROW ++ w2 ++ ts2) ++ u)
        with (ts1 ++ (w1 ++ ARROW ++ w2) ++ ts2 ++ u) in H
        by (rewrite <- !app_assoc; reflexivity).
      rewrite parse_fields_two_stamps in H by assumption. discriminate.
Qed.

Lemma C3_accepted_time_code_fields_witness :
  exists start_str end_str lead ts tail h1 m1 s1 ms1 h2 m2 s2 ms2,
    Py.split (lit " --> ") T2 = [start_str; end_str]
    /\ _parse_fields start_str = Ok (h1, m1, s1, ms1)
    /\ mk_timedelta h1 m1 s1 ms1 = Ok (start tc2)
    /\ _parse_fields end_str = Ok (h2, m2, s2, ms2)
    /\ mk_timedelta h2 m2 s2 ms2 = Ok (end_ tc2)
    /\ two_digit_fields h1 m1 s1 ms1 /\ (ms1 <= 999)%Z
    /\ two_digit_fields h2 m2 s2 ms2
    /\ end_str = lead ++ ts ++ tail /\ stamp ts
    /\ forallb Py.isspace lead = true
    /\ (forallb Py.isspace tail = true -> (ms2 <= 999)%Z).
Proof.
  apply (proj2 (C3_accepted_time_code_fields T2) tc2).
  vm_compute. reflexivity.
Defined.

(** C3 fails as stated: minutes and seconds of 99 are accepted. *)
Lemma C3_counterexample :
  parse_time_line (lit "00:99:99,999 --> 00:00:00,000")
  = Ok {| start := 6039999000%Z; end_ := 0%Z |}
  /\ Py.split (lit " --> ") (lit "00:99:99,999 --> 00:00:00,000")
     = [lit "00:99:99,999"; lit "00:00:00,000"]
  /\ _parse_fields (lit "00:99:99,999") = Ok (0, 99, 99, 999)%Z
  /\ (59 < 99)%Z.
Proof. repeat split; vm_compute; reflexivity. Qed.

(** What follows the end stamp is read as part of its milliseconds. *)
Example end_milliseconds_beyond_999 :
  parse_time_line (lit "00:00:01,000 --> 00:00:02,0009999")
  = Ok {| start := 1000000%Z; end_ := 11999000%Z |}
  /\ _parse_fields (lit "00:00:02,0009999") = Ok (0, 0, 2, 9999)%Z.
Proof. split; vm_compute; reflexivity. Qed.

(** ** Decimal numerals *)

Lemma value_of_shift (ds : str) :
  forall acc,
    (value_of ds acc = acc * 10 ^ Z.of_nat (length ds) + value_of ds 0)%Z.
Proof.
  induction ds as [|c t IH]; intros acc.
  - simpl. lia.
  - cbn [value_of length]. rewrite IH. rewrite (IH (10 * 0 + _)%Z).
    rewrite Nat2Z.inj_succ, Z.pow_succ_r by lia. ring.
Qed.

Lemma int_body_value (ds : str) :
  forall acc st,
    forallb ascii_digit ds = true -> ds <> [] ->
    Py.int_body ds acc st = Some (value_of ds acc, []).
Proof.
  induction ds as [|c t IH]; intros acc st Hd Hne; [congruence|].
  cbn [forallb] in Hd. apply andb_true_iff in Hd. destruct Hd as [Hc Ht].
  cbn [Py.int_body value_of]. unfold ascii_digit in Hc. rewrite Hc.
  destruct t as [|c' t'].
  - reflexivity.
  - apply IH; [exact Ht|discriminate].
Qed.

Lemma digits_of_ascii (fuel : nat) :
  forall n acc,
    forallb ascii_digit acc = true ->
    forallb ascii_digit (Py.digits_of fuel n acc) = true.
Proof.
  induction fuel as [|f IH]; intros n acc Hacc; [exact Hacc|].
  cbn [Py.digits_of].
  assert (Hd : forallb ascii_digit ((48 + n mod 10) :: acc) = true).
  { cbn [forallb]. rewrite Hacc, andb_true_r.
    unfold ascii_digit, in_range.
    pose proof (N.mod_upper_bound n 10 ltac:(discriminate)).
    apply andb_true_iff. set (m := n mod 10) in *. clearbody m.
    split; [apply N.leb_le|apply N.leb_le]; lia. }
  destruct (n <? 10); [exact Hd|]. apply IH. exact Hd.
Qed.

Lemma digits_of_length (fuel : nat) :
  forall n acc, (length acc <= length (Py.digits_of fuel n acc))%nat.
Proof.
  induction fuel as [|f IH]; intros n acc; [apply Nat.le_refl|].
  cbn [Py.digits_of]. destruct (n <? 10).
  - simpl. lia.
  - etransitivity; [|apply IH]. simpl. lia.
Qed.

Lemma digits_of_nonempty (fuel : nat) (n : N) (acc : str) :
  Py.digits_of (S fuel) n acc <> [].
Proof.
  cbn [Py.digits_of]. destruct (n <? 10); [discriminate|].
  intros H.
  pose proof (digits_of_length fuel (n / 10) ((48 + n mod 10) :: acc)) as L.
  rewrite H in L. simpl in L. lia.
Qed.

Lemma digits_of_value (fuel : nat) :
  forall n acc,
    (Z.of_N n < 2 ^ Z.of_nat fuel)%Z ->
    (value_of (Py.digits_of fuel n acc) 0
     = Z.of_N n * 10 ^ Z.of_nat (length acc) + value_of acc 0)%Z.
Proof.
  induction fuel as [|f IH]; intros n acc Hn.
  - simpl in Hn. cbn [Py.digits_of]. lia.
  - cbn [Py.digits_of].
    assert (Hacc : value_of ((48 + n mod 10) :: acc) 0
                   = (Z.of_N (n mod 10) * 10 ^ Z.of_nat (length acc)
                      + value_of acc 0)%Z).
    { cbn [value_of]. rewrite value_of_shift.
      rewrite (N.add_comm 48), N.add_sub. lia. }
    pose proof (N.div_mod n 10 ltac:(discriminate)) as Hdm.
    pose proof (N.mod_upper_bound n 10 ltac:(discriminate)) as Hm.
    destruct (n <? 10) eqn:E.
    + apply N.ltb_lt in E. rewrite Hacc.
      rewrite N.mod_small by exact E. reflexivity.
    + apply N.ltb_ge in E. rewrite IH.
      * rewrite Hacc. cbn [length].
        rewrite Nat2Z.inj_succ, Z.pow_succ_r by lia.
        assert (Hz : Z.of_N n = (10 * Z.of_N (n / 10) + Z.of_N (n mod 10))%Z) by lia.
        rewrite Hz. ring.
      * rewrite Nat2Z.inj_succ, Z.pow_succ_r in Hn by lia.
        clear IH Hacc. set (q := n / 10) in *. set (r := n mod 10) in *.
        set (p := (2 ^ Z.of_nat f)%Z) in *. clearbody q r p. lia.
Qed.

Lemma size_nat_bound (n : N) : (Z.of_N n < 2 ^ Z.of_nat (N.size_nat n))%Z.
Proof.
  destruct n as [|p]; [reflexivity|].
  apply Zpower2_Psize. apply Nat.le_refl.
Qed.

Lemma str_of_N_digits (n : N) :
  forallb ascii_digit (Py.str_of_N n) = true /\ Py.str_of_N n <> [].
Proof.
  split; [apply digits_of_ascii; reflexivity|apply digits_of_nonempty].
Qed.

Lemma str_of_N_value (n : N) : value_of (Py.str_of_N n) 0 = Z.of_N n.
Proof.
  unfold Py.str_of_N. rewrite digits_of_value.
  - simpl. lia.
  - pose proof (size_nat_bound n) as H.
    rewrite Nat2Z.inj_succ, Z.pow_succ_r by lia. lia.
Qed.

Lemma ascii_to_ascii (ds : str) :
  forallb ascii_digit ds = true -> Py.to_ascii_decimal ds = Some ds.
Proof.
  induction ds as [|c t IH]; intros H; [reflexivity|].
  cbn [forallb] in H. apply andb_true_iff in H. destruct H as [Hc Ht].
  cbn [Py.to_ascii_decimal]. rewrite (IH Ht).
  unfold Py.to_ascii_char. unfold ascii_digit, in_range in Hc.
  apply andb_true_iff in Hc. destruct Hc as [_ Hc]. apply N.leb_le in Hc.
  assert (E : (c <? 127) = true) by (apply N.ltb_lt; lia).
  rewrite E. reflexivity.
Qed.

(** [int] reads a non-empty string of ASCII digits as its decimal value. *)
Lemma int_ascii_digits (ds : str) :
  forallb ascii_digit ds = true -> ds <> [] ->
  Py.int ds = Some (value_of ds 0).
Proof.
  intros Hd Hne. unfold Py.int. rewrite (@ascii_to_ascii ds Hd).
  destruct ds as [|c t]; [congruence|].
  pose proof Hd as Hd'. cbn [forallb] in Hd'.
  apply andb_true_iff in Hd'. destruct Hd' as [Hc _].
  destruct (@digit_not_sign c Hc) as (Hs & Hp & Hm).
  cbn [Py.dropwhile]. rewrite Hs, Hp, Hm.
  rewrite (@int_body_value (c :: t) 0%Z Py.IntStart Hd Hne).
  cbn [Py.dropwhile]. f_equal. destruct (value_of (c :: t) 0); reflexivity.
Qed.

Lemma ascii_digit_decimal (c : char) :
  ascii_digit c = true -> Py.isdecimal c = true.
Proof.
  intros H. unfold ascii_digit, in_range in H.
  apply andb_true_iff in H. destruct H as [H1 H2].
  apply N.leb_le in H2.
  unfold Py.isdecimal, Py.decimal_value, Py.decimal_zeros.
  cbn [Py.decimal_lookup]. rewrite H1.
  assert (E : (c <? 48 + 10) = true) by (apply N.ltb_lt; lia).
  rewrite E. reflexivity.
Qed.

Lemma ascii_digits_isdigit (ds : str) :
  forallb ascii_digit ds = true -> ds <> [] -> Py.isdigit ds = true.
Proof.
  intros Hd Hne. destruct ds as [|c t]; [congruence|].
  unfold Py.isdigit. apply forallb_forall. intros x Hx.
  unfold Py.isdigit_char.
  rewrite ascii_digit_decimal; [reflexivity|].
  rewrite forallb_forall in Hd. apply Hd. exact Hx.
Qed.

Lemma ascii_digit_not_space (c : char) :
  ascii_digit c = true -> Py.isspace c = false.
Proof.
  intros H. apply ascii_digit_decimal in H.
  apply decimal_facts in H. tauto.
Qed.

(** ** Stripping, joining and splitting *)

Lemma dropwhile_length (p : char -> bool) (s : str) :
  (length (Py.dropwhile p s) <= length s)%nat.
Proof.
  induction s as [|c t IH]; [apply Nat.le_refl|].
  simpl. destruct (p c); simpl; lia.
Qed.

(** A string that [rstrip] leaves alone does not end in white space. *)
Lemma rstrip_fixed_last (x : str) (c : char) :
  Py.rstrip (x ++ [c]) = x ++ [c] -> Py.isspace c = false.
Proof.
  unfold Py.rstrip. rewrite rev_app_distr. cbn [rev app Py.dropwhile].
  destruct (Py.isspace c); [|reflexivity].
  intros H. apply (f_equal (@length char)) in H.
  rewrite length_rev, length_app in H. cbn [length] in H.
  pose proof (dropwhile_length Py.isspace (rev x)) as L.
  rewrite length_rev in L. lia.
Qed.

Lemma rstrip_last (x : str) (c : char) :
  Py.isspace c = false -> Py.rstrip (x ++ [c]) = x ++ [c].
Proof.
  intros H. unfold Py.rstrip. rewrite rev_app_distr.
  cbn [rev app Py.dropwhile]. rewrite H.
  change (c :: rev x) with ([c] ++ rev x).
  rewrite rev_app_distr, rev_involutive. reflexivity.
Qed.

Lemma rstrip_newline (x : str) (c : char) :
  Py.rstrip ((x ++ [c]) ++ [NL]) = Py.rstrip (x ++ [c]).
Proof.
  unfold Py.rstrip. rewrite (rev_app_distr (x ++ [c])). reflexivity.
Qed.

Lemma lstrip_first (c : char) (t : str) :
  Py.isspace c = false -> Py.lstrip (c :: t) = c :: t.
Proof. intros H. unfold Py.lstrip. cbn [Py.dropwhile]. rewrite H. reflexivity. Qed.

(** [strip] leaves alone a string that neither starts nor ends with
    white space. *)
Lemma strip_fixed (c : char) (t x : str) (e : char) :
  c :: t = x ++ [e] ->
  Py.isspace c = false -> Py.isspace e = false ->
  Py.strip (c :: t) = c :: t.
Proof.
  intros E Hc He. unfold Py.strip. rewrite E, (@rstrip_last x e He), <- E.
  apply lstrip_first. exact Hc.
Qed.

Lemma ascii_digits_strip (ds : str) :
  forallb ascii_digit ds = true -> Py.strip ds = ds.
Proof.
  intros Hd. destruct ds as [|c t]; [reflexivity|].
  destruct (last_cases (c :: t)) as [E|(x & e & E)]; [discriminate|].
  rewrite forallb_forall in Hd.
  apply (@strip_fixed c t x e E); apply ascii_digit_not_space; apply Hd.
  - left. reflexivity.
  - rewrite E. apply in_or_app. right. left. reflexivity.
Qed.

Lemma split_last_piece (c0 : char) (sep' l : str) :
  forall cur, without c0 l = true ->
    Py.split_go (c0 :: sep') l 0 cur = [rev cur ++ l].
Proof.
  intros cur H.
  pose proof (@split_go_pass_first c0 sep' l [] cur H) as P.
  rewrite app_nil_r in P. rewrite P. cbn [Py.split_go].
  rewrite rev_app_distr, rev_involutive. reflexivity.
Qed.

Lemma split_first_piece (c0 : char) (sep' a t : str) :
  without c0 a = true ->
  Py.split_go (c0 :: sep') (a ++ (c0 :: sep') ++ t) 0 []
  = a :: Py.split_go (c0 :: sep') t 0 [].
Proof.
  intros H. rewrite (@split_go_pass_first c0 sep' a _ [] H).
  rewrite (@split_go_match c0 sep' t (rev a ++ [])).
  rewrite app_nil_r, rev_involutive. reflexivity.
Qed.

Lemma ascii_digits_without (c0 : char) (ds : str) :
  ascii_digit c0 = false -> forallb ascii_digit ds = true ->
  without c0 ds = true.
Proof.
  intros H0 Hd. unfold without. apply forallb_forall. intros c Hc.
  rewrite forallb_forall in Hd. specialize (Hd c Hc).
  destruct (N.eqb_spec c c0) as [->|]; [congruence|reflexivity].
Qed.

Lemma without_app (c0 : char) (a b : str) :
  without c0 (a ++ b) = without c0 a && without c0 b.
Proof. apply forallb_app. Qed.

(** Splitting at the line breaks undoes joining with line breaks, when
    no line contains one. *)
Lemma split_join (ls : list str) :
  ls <> [] -> forallb (without NL) ls = true ->
  Py.split [NL] (Py.join [NL] ls) = ls.
Proof.
  unfold Py.split. induction ls as [|l rest IH]; intros Hne H; [congruence|].
  cbn [forallb] in H. apply andb_true_iff in H. destruct H as [Hl Hrest].
  destruct rest as [|l2 rest'].
  - cbn [Py.join]. rewrite split_last_piece by exact Hl. reflexivity.
  - change (Py.join [NL] (l :: l2 :: rest'))
      with (l ++ [NL] ++ Py.join [NL] (l2 :: rest')).
    rewrite (@split_go_pass_first NL [] l _ [] Hl).
    rewrite (@split_go_match NL [] (Py.join [NL] (l2 :: rest')) (rev l ++ [])).
    rewrite app_nil_r, rev_involutive. f_equal.
    apply IH; [discriminate|exact Hrest].
Qed.

Lemma join_app_blank (ls : list str) :
  ls <> [] -> Py.join [NL] (ls ++ [[]]) = Py.join [NL] ls ++ [NL].
Proof.
  induction ls as [|l rest IH]; intros Hne; [congruence|].
  destruct rest as [|l2 rest'].
  - reflexivity.
  - change (Py.join [NL] ((l :: l2 :: rest') ++ [[]]))
      with (l ++ [NL] ++ Py.join [NL] ((l2 :: rest') ++ [[]])).
    rewrite IH by discriminate.
    change (Py.join [NL] (l :: l2 :: rest'))
      with (l ++ [NL] ++ Py.join [NL] (l2 :: rest')).
    rewrite <- !app_assoc. reflexivity.
Qed.

Lemma join_first (c : char) (t : str) (rest : list str) :
  exists u, Py.join [NL] ((c :: t) :: rest) = c :: u.
Proof. destruct rest; [exists t|eexists]; reflexivity. Qed.

Lemma join_last (ls : list str) (x : str) (e : char) :
  exists u, Py.join [NL] (ls ++ [x ++ [e]]) = u ++ [e].
Proof.
  induction ls as [|l rest IH].
  - exists x. reflexivity.
  - destruct IH as (u & Hu).
    destruct rest as [|l2 rest'].
    + exists (l ++ [NL] ++ x). cbn [app Py.join]. rewrite <- !app_assoc. reflexivity.
    + exists (l ++ [NL] ++ u).
      change (Py.join [NL] ((l :: l2 :: rest') ++ [x ++ [e]]))
        with (l ++ [NL] ++ Py.join [NL] ((l2 :: rest') ++ [x ++ [e]])).
      rewrite Hu. rewrite <- !app_assoc. reflexivity.
Qed.

(** The serialized text ends with one line break, which [strip] removes,
    when the first line starts and the last line ends with a character
    that is not white space. *)
Lemma strip_joined (c : char) (t : str) (mid : list str) (x : str) (e : char) :
  Py.isspace c = false -> Py.isspace e = false ->
  Py.strip (Py.join [NL] (((c :: t) :: mid ++ [x ++ [e]]) ++ [[]]))
  = Py.join [NL] ((c :: t) :: mid ++ [x ++ [e]]).
Proof.
  intros Hc He. rewrite join_app_blank by discriminate.
  destruct (join_first c t (mid ++ [x ++ [e]])) as (u & Hu).
  destruct (join_last ((c :: t) :: mid) x e) as (v & Hv).
  change (((c :: t) :: mid) ++ [x ++ [e]])
    with ((c :: t) :: mid ++ [x ++ [e]]) in Hv.
  unfold Py.strip. rewrite Hv, rstrip_newline, (@rstrip_last v e He), <- Hv, Hu.
  apply lstrip_first. exact Hc.
Qed.

(** ** Writing and reading a time code *)

Lemma Z_range_in (n : nat) :
  forall from v, (from <= v < from + Z.of_nat n)%Z -> In v (Z_range from n).
Proof.
  induction n as [|n IH]; intros from v H; [lia|].
  cbn [Z_range]. destruct (Z.eq_dec from v) as [->|Hne].
  - left. reflexivity.
  - right. apply IH. lia.
Qed.

Lemma pad_ok_spec (w : nat) (v : Z) :
  pad_ok w v = true ->
  length (Py.zero_pad w v) = w
  /\ forallb ascii_digit (Py.zero_pad w v) = true
  /\ Py.int (Py.zero_pad w v) = Some v.
Proof.
  unfold pad_ok. cbv zeta. intros H.
  apply andb_true_iff in H. destruct H as [H H3].
  apply andb_true_iff in H. destruct H as [H1 H2].
  apply Nat.eqb_eq in H1. repeat split; [exact H1|exact H2|].
  destruct (Py.int (Py.zero_pad w v)) as [x|]; [|discriminate].
  apply Z.eqb_eq in H3. congruence.
Qed.

Lemma pad2_ok (v : Z) : (0 <= v < 100)%Z -> pad_ok 2 v = true.
Proof.
  intros H.
  assert (A : forallb (pad_ok 2) (Z_range 0 100) = true) by (vm_compute; reflexivity).
  rewrite forallb_forall in A. apply A. apply Z_range_in. simpl. lia.
Qed.

Lemma pad3_ok (v : Z) : (0 <= v < 1000)%Z -> pad_ok 3 v = true.
Proof.
  intros H.
  assert (A : forallb (pad_ok 3) (Z_range 0 1000) = true) by (vm_compute; reflexivity).
  rewrite forallb_forall in A. apply A. apply Z_range_in. simpl. lia.
Qed.

Lemma valid_time_spec (td : timedelta) :
  valid_time td = true ->
  (0 <= td < 360000000000 /\ td mod 1000 = 0)%Z.
Proof.
  unfold valid_time. intros H.
  apply andb_true_iff in H. destruct H as [H H3].
  apply andb_true_iff in H. destruct H as [H1 H2].
  apply Z.leb_le in H1. apply Z.ltb_lt in H2. apply Z.eqb_eq in H3. lia.
Qed.

Lemma round_half_even_near (n d : Z) :
  (0 < d)%Z ->
  (- d <= 2 * (round_half_even n d * d - n) <= d)%Z.
Proof.
  intros H. unfold round_half_even.
  pose proof (Z.div_mod n d ltac:(lia)) as E.
  pose proof (Z.mod_pos_bound n d H) as B.
  set (q := (n / d)%Z) in *. set (r := (n mod d)%Z) in *. clearbody q r.
  destruct (Z.ltb_spec (2 * r) d); [nia|].
  destruct (Z.ltb_spec d (2 * r)); [nia|].
  destruct (Z.even q); nia.
Qed.

Lemma pow2_nonpos (n : Z) : (n <= 0)%Z -> pow2 n = 1%Z.
Proof. intros H. unfold pow2. rewrite Z.max_l by lia. reflexivity. Qed.

Lemma pow2_pos (n : Z) : (0 <= n)%Z -> pow2 n = (2 ^ n)%Z.
Proof. intros H. unfold pow2. rewrite Z.max_r by lia. reflexivity. Qed.

Lemma true_divide_exponent (a : Z) :
  (0 <= a < 17179869184000000)%Z ->
  (exponent (true_divide a 1000000) <= -19)%Z.
Proof.
  intros [H0 H1]. unfold true_divide. cbn [exponent].
  change (Z.log2 1000000) with 19%Z.
  assert (L : (Z.log2 a <= 53)%Z).
  { destruct (Z.eq_dec a 0) as [->|N]; [cbn; lia|].
    assert (Z.log2 a < 54)%Z; [|lia].
    apply Z.log2_lt_pow2; [lia|].
    change (2 ^ 54)%Z with 18014398509481984%Z. lia. }
  destruct (Z.leb_spec (1000000 * pow2 (Z.log2 a - 19))
              (a * pow2 (- (Z.log2 a - 19)))) as [C|C]; [|lia].
  destruct (Z.eq_dec (Z.log2 a) 53) as [E|N]; [|lia].
  exfalso. rewrite E in C.
  change (pow2 (53 - 19)) with 17179869184%Z in C.
  change (pow2 (- (53 - 19))) with 1%Z in C. lia.
Qed.

(** The quotient of a rounded multiple: the rounding is by less than
    one in [p], which is more than half of [d]. *)
Lemma rounded_quotient (a d p m : Z) :
  (0 <= a)%Z -> (0 < d)%Z -> (d < 2 * p)%Z ->
  (- d <= 2 * (m * d - a * p) <= d)%Z ->
  (m / p = a / d)%Z.
Proof.
  intros Ha Hd Hp Hm.
  pose proof (Z.div_mod a d ltac:(lia)) as E.
  pose proof (Z.mod_pos_bound a d Hd) as B.
  set (q := (a / d)%Z) in *. set (r := (a mod d)%Z) in *. clearbody q r.
  symmetry. apply Z.div_unique with (r := (m - q * p)%Z); [|lia].
  left. subst a. split; nia.
Qed.

Lemma int_true_divide (a : Z) :
  (0 <= a < 17179869184000000)%Z ->
  (0 <= mantissa (true_divide a 1000000))%Z
  /\ int_of_float (true_divide a 1000000) = (a / 1000000)%Z.
Proof.
  intros H. pose proof (@true_divide_exponent a H) as X.
  unfold int_of_float. revert X. unfold true_divide. cbn [mantissa exponent].
  set (e := ((if (_ <=? _)%Z then _ else _) - 52)%Z). clearbody e. intros X.
  rewrite (@pow2_nonpos e) by lia. rewrite (@pow2_pos (- e)) by lia.
  rewrite !Z.mul_1_r.
  assert (P : (524288 <= 2 ^ (- e))%Z).
  { change 524288%Z with (2 ^ 19)%Z. apply Z.pow_le_mono_r; lia. }
  set (p := (2 ^ (- e))%Z) in *. clearbody p.
  pose proof (@round_half_even_near (a * p) 1000000 ltac:(lia)) as R.
  set (m := round_half_even (a * p) 1000000) in *. clearbody m.
  assert (M : (0 <= m)%Z) by nia.
  split; [exact M|].
  rewrite Z.quot_div_nonneg by lia.
  apply (@rounded_quotient a 1000000 p m); lia.
Qed.

(** Up to [2 ** 34] seconds, [int(td.total_seconds())] is the number of
    whole seconds, counted towards zero. *)
Lemma total_seconds_exact (td : timedelta) :
  exact_seconds td ->
  int_of_float (total_seconds_float td) = Z.quot td 1000000.
Proof.
  unfold exact_seconds. intros H.
  destruct (@int_true_divide (Z.abs td) ltac:(lia)) as [_ E].
  unfold total_seconds_float, int_of_float in *.
  cbn [mantissa exponent] in *.
  set (f := true_divide (Z.abs td) 1000000) in *. clearbody f.
  destruct (Z.sgn_spec td) as [[Hp S]|[[Hz S]|[Hn S]]]; rewrite S.
  - rewrite Z.mul_1_l, E, Z.abs_eq by lia.
    symmetry. apply Z.quot_div_nonneg; lia.
  - subst td. cbn [Z.mul]. rewrite Z.quot_0_l; [reflexivity|].
    unfold pow2. apply Z.pow_nonzero; lia.
  - rewrite <- Z.mul_assoc, Z.mul_opp_l, Z.mul_1_l.
    rewrite Z.quot_opp_l by (unfold pow2; apply Z.pow_nonzero; lia).
    rewrite E, Z.abs_neq by lia.
    rewrite <- (Z.opp_involutive td) at 2.
    rewrite Z.quot_opp_l by lia. f_equal.
    symmetry. apply Z.quot_div_nonneg; lia.
Qed.

Lemma valid_time_exact (td : timedelta) :
  valid_time td = true -> exact_seconds td.
Proof.
  intros H. apply valid_time_spec in H. unfold exact_seconds. lia.
Qed.

Lemma format_time_fields (td : timedelta) :
  exact_seconds td ->
  _format_time td
  = Py.zero_pad 2 (hours_of td) ++ [58] ++ Py.zero_pad 2 (minutes_of td)
    ++ [58] ++ Py.zero_pad 2 (seconds_of td) ++ [44]
    ++ Py.zero_pad 3 (milliseconds_of td).
Proof.
  intros H. unfold _format_time. rewrite (@total_seconds_exact td H).
  reflexivity.
Qed.

Lemma fields_in_range (td : timedelta) :
  valid_time td = true ->
  (0 <= hours_of td < 100 /\ 0 <= minutes_of td < 100
   /\ 0 <= seconds_of td < 100 /\ 0 <= milliseconds_of td < 1000
   /\ (((hours_of td * 60 + minutes_of td) * 60 + seconds_of td) * 1000
       + milliseconds_of td) * 1000 = td)%Z.
Proof.
  intros H. apply valid_time_spec in H. destruct H as [Hr Hm].
  unfold hours_of, minutes_of, seconds_of, milliseconds_of.
  rewrite Z.quot_div_nonneg by lia.
  pose proof (Z.div_mod td 1000000 ltac:(lia)) as E1.
  pose proof (Z.mod_pos_bound td 1000000 ltac:(lia)) as B1.
  set (q := (td / 1000000)%Z) in *. set (u := (td mod 1000000)%Z) in *.
  pose proof (Z.div_mod q 3600 ltac:(lia)) as E2.
  pose proof (Z.mod_pos_bound q 3600 ltac:(lia)) as B2.
  pose proof (Z.div_mod q 60 ltac:(lia)) as E3.
  pose proof (Z.mod_pos_bound q 60 ltac:(lia)) as B3.
  set (h := (q / 3600)%Z) in *. set (r := (q mod 3600)%Z) in *.
  pose proof (Z.div_mod r 60 ltac:(lia)) as E4.
  pose proof (Z.mod_pos_bound r 60 ltac:(lia)) as B4.
  pose proof (Z.div_mod u 1000 ltac:(lia)) as E5.
  pose proof (Z.mod_pos_bound u 1000 ltac:(lia)) as B5.
  pose proof (Z.div_mod td 1000 ltac:(lia)) as E6.
  rewrite Hm in E6.
  set (mi := (r / 60)%Z) in *. set (s' := (r mod 60)%Z) in *.
  set (s := (q mod 60)%Z) in *. set (q60 := (q / 60)%Z) in *.
  set (ms := (u / 1000)%Z) in *. set (u' := (u mod 1000)%Z) in *.
  set (k := (td / 1000)%Z) in *.
  clearbody q u h r mi s s' q60 ms u' k. lia.
Qed.

Lemma parse_fields_format (td : timedelta) :
  valid_time td = true ->
  _parse_fields (_format_time td)
  = Ok (hours_of td, minutes_of td, seconds_of td, milliseconds_of td).
Proof.
  intros H. destruct (@fields_in_range td H) as (Hh & Hm & Hs & Hms & _).
  destruct (@pad_ok_spec 2 _ (@pad2_ok _ Hh)) as (_ & Dh & Ih).
  destruct (@pad_ok_spec 2 _ (@pad2_ok _ Hm)) as (_ & Dm & Im).
  destruct (@pad_ok_spec 2 _ (@pad2_ok _ Hs)) as (_ & Ds & Is).
  destruct (@pad_ok_spec 3 _ (@pad3_ok _ Hms)) as (_ & Dms & Ims).
  rewrite (@format_time_fields td (@valid_time_exact td H)).
  unfold _parse_fields, Py.split.
  change (lit ":") with [58]. change (lit ",") with [44].
  rewrite split_first_piece by (apply ascii_digits_without; [reflexivity|exact Dh]).
  rewrite split_first_piece by (apply ascii_digits_without; [reflexivity|exact Dm]).
  rewrite split_last_piece.
  2:{ rewrite !without_app.
      rewrite (@ascii_digits_without 58 _ eq_refl Ds).
      rewrite (@ascii_digits_without 58 _ eq_refl Dms). reflexivity. }
  cbn [rev]. rewrite app_nil_l.
  rewrite split_first_piece by (apply ascii_digits_without; [reflexivity|exact Ds]).
  rewrite split_last_piece by (apply ascii_digits_without; [reflexivity|exact Dms]).
  cbn [rev]. rewrite app_nil_l. rewrite Ih, Im, Is, Ims. reflexivity.
Qed.

Lemma parse_time_format (td : timedelta) :
  valid_time td = true -> _parse_time (_format_time td) = Ok td.
Proof.
  intros H. unfold _parse_time. rewrite (@parse_fields_format td H).
  cbn [bind]. destruct (@fields_in_range td H) as (_ & _ & _ & _ & E).
  unfold mk_timedelta. rewrite E.
  apply valid_time_spec in H.
  assert (B : ((- MAX_DAYS * US_PER_DAY <=? td)
               && (td <? (MAX_DAYS + 1) * US_PER_DAY))%Z = true).
  { apply andb_true_iff. unfold MAX_DAYS, US_PER_DAY.
    split; [apply Z.leb_le|apply Z.ltb_lt]; lia. }
  rewrite B. reflexivity.
Qed.

Lemma two_ascii_digits (s : str) :
  length s = 2%nat -> forallb ascii_digit s = true ->
  exists a b, s = [a; b] /\ Py.isdecimal a = true /\ Py.isdecimal b = true.
Proof.
  intros L D. destruct s as [|a [|b [|c s]]]; try discriminate.
  cbn [forallb] in D. rewrite !andb_true_iff in D.
  exists a, b. repeat split; apply ascii_digit_decimal; tauto.
Qed.

Lemma three_ascii_digits (s : str) :
  length s = 3%nat -> forallb ascii_digit s = true ->
  exists a b c, s = [a; b; c] /\ Py.isdecimal a = true
                /\ Py.isdecimal b = true /\ Py.isdecimal c = true.
Proof.
  intros L D. destruct s as [|a [|b [|c [|d s]]]]; try discriminate.
  cbn [forallb] in D. rewrite !andb_true_iff in D.
  exists a, b, c. repeat split; apply ascii_digit_decimal; tauto.
Qed.

Lemma format_time_stamp (td : timedelta) :
  valid_time td = true -> stamp (_format_time td).
Proof.
  intros H. destruct (@fields_in_range td H) as (Hh & Hm & Hs & Hms & _).
  destruct (@pad_ok_spec 2 _ (@pad2_ok _ Hh)) as (Lh & Dh & _).
  destruct (@pad_ok_spec 2 _ (@pad2_ok _ Hm)) as (Lm & Dm & _).
  destruct (@pad_ok_spec 2 _ (@pad2_ok _ Hs)) as (Ls & Ds & _).
  destruct (@pad_ok_spec 3 _ (@pad3_ok _ Hms)) as (Lms & Dms & _).
  rewrite (@format_time_fields td (@valid_time_exact td H)).
  destruct (@two_ascii_digits _ Lh Dh) as (h1 & h2 & -> & ? & ?).
  destruct (@two_ascii_digits _ Lm Dm) as (m1 & m2 & -> & ? & ?).
  destruct (@two_ascii_digits _ Ls Ds) as (s1 & s2 & -> & ? & ?).
  destruct (@three_ascii_digits _ Lms Dms) as (f1 & f2 & f3 & -> & ? & ? & ?).
  constructor; assumption.
Qed.

Lemma stamp_matches (ts rest : str) (pos : nat) (caps : list str)
    (k : nat -> str -> list str -> option Re.matched) :
  stamp ts ->
  Re.run time_stamp pos (ts ++ rest) caps k = k (pos + 12)%nat rest caps.
Proof.
  intros S. destruct S as [h1 h2 m1 m2 s1 s2 f1 f2 f3 H1 H2 H3 H4 H5 H6 H7 H8 H9].
  unfold time_stamp, Re.digit, Re.chr.
  cbn [Re.seqs Re.run app].
  rewrite H1, H2, H3, H4, H5, H6, H7, H8, H9.
  cbn [N.eqb Pos.eqb].
  replace (pos + 12)%nat with (S (S (S (S (S (S (S (S (S (S (S (S pos)))))))))))) by lia.
  reflexivity.
Qed.

Lemma stamp_first (ts : str) :
  stamp ts -> exists c t x e, ts = c :: t /\ ts = x ++ [e]
                              /\ Py.isdecimal c = true /\ Py.isdecimal e = true.
Proof.
  intros S. destruct S as [h1 h2 m1 m2 s1 s2 f1 f2 f3 H1 H2 H3 H4 H5 H6 H7 H8 H9].
  exists h1, [h2; 58; m1; m2; 58; s1; s2; 44; f1; f2; f3],
    [h1; h2; 58; m1; m2; 58; s1; s2; 44; f1; f2], f3.
  repeat split; assumption || reflexivity.
Qed.

(** A line made of two time stamps around the arrow is one that the
    pattern of the parser accepts. *)
Lemma time_pattern_matches (ts1 ts2 : str) :
  stamp ts1 -> stamp ts2 ->
  Re.matches time_pattern (ts1 ++ SEP ++ ts2) = true.
Proof.
  intros S1 S2. unfold Re.matches, Re.match_, Re.match_at, time_pattern.
  change (Re.text (lit "-->"))
    with (Re.Seq (Re.chr 45) (Re.Seq (Re.chr 45) (Re.chr 62))).
  cbn [Re.seqs Re.run]. rewrite (@stamp_matches ts1 _ _ _ _ S1).
  destruct (@stamp_first ts2 S2) as (c & t & _ & _ & E & _ & Hc & _).
  destruct (@decimal_facts c Hc) as (_ & Hsp & _).
  unfold Re.spaces, Re.chr. cbn [Re.run SEP app Re.star_greedy].
  change (Py.isspace 32) with true. change (Py.isspace 45) with false.
  cbv iota. cbn [Re.run N.eqb Pos.eqb Re.star_greedy].
  change (Py.isspace 32) with true. cbv iota.
  rewrite E at 1. cbn [Re.star_greedy]. rewrite Hsp. rewrite <- E.
  rewrite <- (app_nil_r ts2) at 1.
  rewrite (@stamp_matches ts2 _ _ _ _ S2). reflexivity.
Qed.

Lemma stamp_without_space (ts : str) : stamp ts -> without 32 ts = true.
Proof. apply stamp_no_space. Qed.

Lemma split_arrow (ts1 ts2 : str) :
  stamp ts1 -> stamp ts2 -> Py.split SEP (ts1 ++ SEP ++ ts2) = [ts1; ts2].
Proof.
  intros S1 S2. unfold Py.split, SEP.
  rewrite split_first_piece by (apply stamp_without_space; exact S1).
  rewrite split_last_piece by (apply stamp_without_space; exact S2).
  reflexivity.
Qed.

Lemma time_line_strip (ts1 ts2 : str) :
  stamp ts1 -> stamp ts2 -> Py.strip (ts1 ++ SEP ++ ts2) = ts1 ++ SEP ++ ts2.
Proof.
  intros S1 S2.
  destruct (@stamp_first ts1 S1) as (c & t & _ & _ & E1 & _ & Hc & _).
  destruct (@stamp_first ts2 S2) as (_ & _ & x & e & _ & E2 & _ & He).
  destruct (@decimal_facts c Hc) as (_ & Hsc & _).
  destruct (@decimal_facts e He) as (_ & Hse & _).
  rewrite E1. cbn [app].
  apply (@strip_fixed c (t ++ SEP ++ ts2) ((c :: t) ++ SEP ++ x) e).
  - rewrite E2. cbn [app]. rewrite <- !app_assoc. reflexivity.
  - exact Hsc.
  - exact Hse.
Qed.

(** Accepted and read back: the time code of a block, written by
    [to_srt_format], is what the parser reads from that line. *)
Lemma parse_time_line_format (tc : TimeCode) :
  valid_time (start tc) = true -> valid_time (end_ tc) = true ->
  parse_time_line (Py.strip (TimeCode_to_srt_format tc)) = Ok tc.
Proof.
  intros Hs He.
  pose proof (@format_time_stamp _ Hs) as S1.
  pose proof (@format_time_stamp _ He) as S2.
  unfold TimeCode_to_srt_format. change (lit " --> ") with SEP.
  rewrite (@time_line_strip _ _ S1 S2). unfold parse_time_line.
  rewrite (@time_pattern_matches _ _ S1 S2). cbn [negb].
  unfold from_srt_time. change (lit " --> ") with SEP.
  rewrite (@split_arrow _ _ S1 S2).
  rewrite (@parse_time_format _ Hs), (@parse_time_format _ He).
  destruct tc. reflexivity.
Qed.

(** ** Serializing and parsing again *)

Lemma str_eqb_eq (a b : str) : str_eqb a b = true -> a = b.
Proof. unfold str_eqb. destruct (list_eq_dec N.eq_dec a b); congruence. Qed.

Lemma canonical_block_spec (b : SubtitleBlock) :
  canonical_block b = true ->
  (0 <= index b)%Z
  /\ valid_time (start (time_code b)) = true
  /\ valid_time (end_ (time_code b)) = true
  /\ forallb plain_line (lines b) = true
  /\ ends_visibly (lines b) = true
  /\ no_block_start (lines b) = true
  /\ language b = None /\ is_sdh b = false.
Proof.
  unfold canonical_block. rewrite !andb_true_iff, Z.leb_le.
  intros (((((((H1 & H2) & H3) & H4) & H5) & H6) & H7) & H8).
  repeat split; try assumption.
  - destruct (language b); [discriminate|reflexivity].
  - destruct (is_sdh b); [discriminate|reflexivity].
Qed.

Lemma plain_line_spec (l : str) :
  plain_line l = true -> without NL l = true /\ Py.rstrip l = l.
Proof.
  unfold plain_line. rewrite andb_true_iff. intros [H1 H2].
  split; [exact H1|apply str_eqb_eq; exact H2].
Qed.

Lemma flat_map_body_lines (rest : list SubtitleBlock) :
  forall b, flat_map block_to_srt_lines (b :: rest) = body_lines b rest ++ [[]].
Proof.
  induction rest as [|b' rest IH]; intros b.
  - cbn [flat_map body_lines block_to_srt_lines app].
    rewrite !app_nil_r. reflexivity.
  - change (flat_map block_to_srt_lines (b :: b' :: rest))
      with (block_to_srt_lines b ++ flat_map block_to_srt_lines (b' :: rest)).
    rewrite IH. unfold block_to_srt_lines. cbn [body_lines app].
    rewrite <- !app_assoc. reflexivity.
Qed.

(** *** The index line and the time-code line of a block *)

Lemma index_line_digits (i : Z) :
  (0 <= i)%Z ->
  forallb ascii_digit (Py.str_of_Z i) = true /\ Py.str_of_Z i <> []
  /\ value_of (Py.str_of_Z i) 0 = i.
Proof.
  intros H.
  assert (E : Py.str_of_Z i = Py.str_of_N (Z.to_N i)) by (destruct i; [reflexivity|reflexivity|lia]).
  rewrite E. destruct (str_of_N_digits (Z.to_N i)) as [D Hne].
  repeat split; [exact D|exact Hne|].
  rewrite str_of_N_value. lia.
Qed.

Lemma index_line_read (i : Z) :
  (0 <= i)%Z ->
  Py.isdigit (Py.strip (Py.str_of_Z i)) = true
  /\ Py.int (Py.strip (Py.str_of_Z i)) = Some i.
Proof.
  intros H. destruct (@index_line_digits i H) as (D & Hne & V).
  rewrite (@ascii_digits_strip _ D). split.
  - apply ascii_digits_isdigit; assumption.
  - rewrite (@int_ascii_digits _ D Hne), V. reflexivity.
Qed.

Lemma stamp_without_newline (ts : str) : stamp ts -> without NL ts = true.
Proof.
  intros S. destruct S as [h1 h2 m1 m2 s1 s2 f1 f2 f3 H1 H2 H3 H4 H5 H6 H7 H8 H9].
  unfold without. cbn [forallb].
  repeat match goal with
         | H : Py.isdecimal ?c = true |- _ =>
             let F := fresh in
             destruct (@decimal_facts c H) as (_ & _ & _ & _ & _ & _ & F);
             apply N.eqb_neq in F; unfold NL; rewrite F; clear H F
         end.
  reflexivity.
Qed.

Lemma time_line_facts (tc : TimeCode) :
  valid_time (start tc) = true -> valid_time (end_ tc) = true ->
  without NL (TimeCode_to_srt_format tc) = true
  /\ Re.matches time_pattern (Py.strip (TimeCode_to_srt_format tc)) = true.
Proof.
  intros Hs He.
  pose proof (@format_time_stamp _ Hs) as S1.
  pose proof (@format_time_stamp _ He) as S2.
  unfold TimeCode_to_srt_format. change (lit " --> ") with SEP. split.
  - rewrite !without_app.
    rewrite (stamp_without_newline S1), (stamp_without_newline S2). reflexivity.
  - rewrite (@time_line_strip _ _ S1 S2). apply time_pattern_matches; assumption.
Qed.

(** *** The text lines of a block *)

Lemma map_rstrip_plain (ls : list str) :
  forallb plain_line ls = true -> map Py.rstrip ls = ls.
Proof.
  induction ls as [|l ls IH]; intros H; [reflexivity|].
  cbn [forallb] in H. apply andb_true_iff in H. destruct H as [Hl Hls].
  cbn [map]. rewrite (IH Hls).
  destruct (@plain_line_spec l Hl) as [_ ->]. reflexivity.
Qed.

Lemma pop_trailing_empty_visible (ls : list str) :
  ends_visibly ls = true -> pop_trailing_empty ls = ls /\ ls <> [].
Proof.
  unfold ends_visibly, pop_trailing_empty.
  destruct (rev ls) as [|l r] eqn:E; [discriminate|]. intros H.
  apply negb_true_iff in H. rewrite H. split.
  - rewrite <- E. apply rev_involutive.
  - intros ->. discriminate.
Qed.

Lemma no_block_start_inside (ls tail : list str) :
  no_block_start ls = true ->
  tail = [] \/ (exists r, tail = [] :: r) ->
  forall k, (k < length ls)%nat -> at_next_block (skipn k (ls ++ tail)) = false.
Proof.
  intros H T. induction ls as [|l t IH]; intros k Hk; [simpl in Hk; lia|].
  cbn [no_block_start] in H. apply andb_true_iff in H. destruct H as [H0 Ht].
  apply negb_true_iff in H0.
  destruct k as [|k].
  - cbn [skipn]. destruct t as [|l2 t'].
    + cbn [app]. destruct T as [->|(r & ->)]; [reflexivity|].
      unfold at_next_block. apply andb_false_r.
    + exact H0.
  - cbn [skipn app]. apply IH; [exact Ht|]. simpl in Hk. lia.
Qed.

Lemma plain_lines_without_newline (ls : list str) :
  forallb plain_line ls = true -> forallb (without NL) ls = true.
Proof.
  intros H. apply forallb_forall. intros l Hl.
  rewrite forallb_forall in H.
  destruct (@plain_line_spec l (H l Hl)) as [Hn _]. exact Hn.
Qed.

(** The last text line of a block ends with a character that is not
    white space. *)
Lemma last_line_visible (ls : list str) :
  forallb plain_line ls = true -> ends_visibly ls = true ->
  exists ls' x e, ls = ls' ++ [x ++ [e]] /\ Py.isspace e = false.
Proof.
  intros P V. unfold ends_visibly in V.
  destruct (rev ls) as [|l r] eqn:E; [discriminate|].
  apply negb_true_iff in V.
  assert (Els : ls = rev r ++ [l]).
  { rewrite <- (rev_involutive ls), E. reflexivity. }
  assert (Pl : plain_line l = true).
  { rewrite forallb_forall in P. apply P. rewrite Els.
    apply in_or_app. right. left. reflexivity. }
  destruct (@plain_line_spec l Pl) as [_ R].
  destruct (last_cases l) as [->|(x & e & ->)]; [discriminate|].
  exists (rev r), x, e. split; [exact Els|].
  apply (@rstrip_fixed_last x e R).
Qed.

(** *** One block, then all of them *)

Lemma body_lines_unfold (b : SubtitleBlock) (rest : list SubtitleBlock) :
  body_lines b rest
  = Py.str_of_Z (index b) :: TimeCode_to_srt_format (time_code b)
    :: lines b
       ++ match rest with
          | [] => []
          | b' :: rest' => [] :: body_lines b' rest'
          end.
Proof. destruct rest; reflexivity. Qed.

Lemma body_lines_start (b : SubtitleBlock) (rest : list SubtitleBlock) :
  canonical_block b = true -> at_next_block (body_lines b rest) = true.
Proof.
  intros H. destruct (@canonical_block_spec b H) as (Hi & Hs & He & _).
  rewrite body_lines_unfold. unfold at_next_block.
  destruct (@index_line_read _ Hi) as [-> _].
  destruct (@time_line_facts _ Hs He) as [_ ->]. reflexivity.
Qed.

Lemma new_block_eta (b : SubtitleBlock) :
  language b = None -> is_sdh b = false ->
  new_block (index b) (time_code b) (lines b) = b.
Proof. destruct b. cbn. intros -> ->. reflexivity. Qed.

(** The parser reads the first block of the serialized lines back and
    stops where the next one starts. *)
Lemma parse_block_body (before : list str) (b : SubtitleBlock)
    (rest : list SubtitleBlock) :
  canonical_block b = true ->
  forallb canonical_block rest = true ->
  _parse_block (before ++ body_lines b rest) (length before)
  = Ok (Some b,
        (length before + 2 + length (lines b)
         + match rest with [] => 0 | _ :: _ => 1 end)%nat).
Proof.
  intros H Hrest.
  destruct (@canonical_block_spec b H) as (Hi & Hs & He & Hp & Hv & Hn & Hl & Hsdh).
  destruct (@index_line_read _ Hi) as [Hd Hint].
  pose proof (@parse_time_line_format _ Hs He) as Ht.
  destruct (@pop_trailing_empty_visible _ Hv) as [Hpop Hne].
  rewrite body_lines_unfold. destruct rest as [|b' rest'].
  - rewrite (@parse_block_at before (lines b) [] _ _ _ _ Hd Hint Ht).
    + rewrite (@map_rstrip_plain _ Hp), Hpop, (@new_block_eta _ Hl Hsdh).
      f_equal. f_equal. lia.
    + apply no_block_start_inside; [exact Hn|left; reflexivity].
    + left. reflexivity.
    + rewrite (@map_rstrip_plain _ Hp), Hpop. exact Hne.
  - cbn [forallb] in Hrest. apply andb_true_iff in Hrest.
    destruct Hrest as [Hb' _].
    assert (Hmap : pop_trailing_empty (map Py.rstrip (lines b ++ [[]])) = lines b).
    { rewrite map_app. cbn [map]. change (Py.rstrip []) with (@nil char).
      rewrite pop_trailing_empty_blank by reflexivity.
      rewrite (@map_rstrip_plain _ Hp). exact Hpop. }
    replace (lines b ++ [] :: body_lines b' rest')
      with ((lines b ++ [[]]) ++ body_lines b' rest')
      by (rewrite <- app_assoc; reflexivity).
    rewrite (@parse_block_at before (lines b ++ [[]]) (body_lines b' rest')
               _ _ _ _ Hd Hint Ht).
    + rewrite Hmap, (@new_block_eta _ Hl Hsdh), length_app.
      cbn [length]. f_equal. f_equal. lia.
    + intros k Hk. rewrite length_app in Hk. cbn [length] in Hk.
      rewrite <- app_assoc. cbn [app].
      destruct (Nat.eq_dec k (length (lines b))) as [->|Hneq].
      * rewrite skipn_app_length. apply blank_not_next_block. reflexivity.
      * apply no_block_start_inside; [exact Hn| |lia].
        right. eexists. reflexivity.
    + right. apply body_lines_start. exact Hb'.
    + rewrite Hmap. exact Hne.
Qed.

Lemma parse_loop_done (fuel : nat) (lines : list str) (current_line : nat)
    (blocks : list SubtitleBlock) :
  (length lines <= current_line)%nat ->
  parse_loop fuel lines current_line blocks = Some (Ok blocks).
Proof.
  intros H.
  assert (E : (current_line <? length lines)%nat = false) by (apply Nat.ltb_ge; exact H).
  destruct fuel; cbn [parse_loop]; rewrite E; reflexivity.
Qed.

(** The loop of the parser over the serialized lines: one round for each
    block. *)
Lemma parse_loop_body (rest : list SubtitleBlock) :
  forall (b : SubtitleBlock) (before : list str) (acc : list SubtitleBlock)
         (fuel : nat),
    canonical_block b = true ->
    forallb canonical_block rest = true ->
    (length rest < fuel)%nat ->
    parse_loop fuel (before ++ body_lines b rest) (length before) acc
    = Some (Ok (acc ++ b :: rest)).
Proof.
  induction rest as [|b' rest' IH]; intros b before acc fuel Hb Hrest Hfuel.
  - destruct fuel as [|fuel]; [simpl in Hfuel; lia|].
    cbn [parse_loop].
    assert (E : (length before <? length (before ++ body_lines b []))%nat = true).
    { apply Nat.ltb_lt. rewrite length_app, body_lines_unfold. simpl. lia. }
    rewrite E, (@parse_block_body before b _ Hb Hrest).
    apply parse_loop_done.
    rewrite length_app, body_lines_unfold. cbn [length].
    rewrite length_app. cbn [length]. lia.
  - destruct fuel as [|fuel]; [simpl in Hfuel; lia|].
    cbn [parse_loop].
    assert (E : (length before <? length (before ++ body_lines b (b' :: rest')))%nat = true).
    { apply Nat.ltb_lt. rewrite length_app, body_lines_unfold. simpl. lia. }
    rewrite E, (@parse_block_body before b _ Hb Hrest).
    pose proof Hrest as Hrest'. cbn [forallb] in Hrest'.
    apply andb_true_iff in Hrest'. destruct Hrest' as [Hb' Hrest'].
    rewrite body_lines_unfold.
    set (head := Py.str_of_Z (index b) :: TimeCode_to_srt_format (time_code b)
                 :: lines b ++ [[]]).
    replace (before ++ Py.str_of_Z (index b)
               :: TimeCode_to_srt_format (time_code b)
               :: lines b ++ [] :: body_lines b' rest')
      with ((before ++ head) ++ body_lines b' rest').
    2:{ unfold head. rewrite <- !app_assoc. cbn [app].
        rewrite <- app_assoc. reflexivity. }
    replace (length before + 2 + length (lines b) + 1)%nat
      with (length (before ++ head)).
    2:{ unfold head. rewrite length_app. cbn [length]. rewrite length_app.
        cbn [length]. lia. }
    rewrite (IH b' (before ++ head) (acc ++ [b]) fuel Hb' Hrest').
    + rewrite <- app_assoc. reflexivity.
    + simpl in Hfuel. lia.
Qed.

Lemma body_lines_length (rest : list SubtitleBlock) :
  forall b, (length rest < length (body_lines b rest))%nat.
Proof.
  induction rest as [|b' rest' IH]; intros b; rewrite body_lines_unfold.
  - simpl. lia.
  - cbn [length]. rewrite length_app. cbn [length].
    specialize (IH b'). lia.
Qed.

Lemma body_lines_without_newline (rest : list SubtitleBlock) :
  forall b,
    canonical_block b = true -> forallb canonical_block rest = true ->
    forallb (without NL) (body_lines b rest) = true.
Proof.
  induction rest as [|b' rest' IH]; intros b Hb Hrest;
    destruct (@canonical_block_spec b Hb) as (Hi & Hs & He & Hp & _);
    destruct (@index_line_digits _ Hi) as (D & _ & _);
    destruct (@time_line_facts _ Hs He) as [Ht _];
    rewrite body_lines_unfold; cbn [forallb]; rewrite forallb_app;
    rewrite Ht, (@plain_lines_without_newline _ Hp);
    rewrite (@ascii_digits_without NL _ eq_refl D).
  - reflexivity.
  - cbn [forallb] in Hrest. apply andb_true_iff in Hrest.
    destruct Hrest as [Hb' Hrest']. cbn [forallb andb].
    rewrite (IH b' Hb' Hrest'). reflexivity.
Qed.

(** The first serialized line starts with a digit and the last one ends
    with a character that is not white space. *)
Lemma body_lines_ends (rest : list SubtitleBlock) :
  forall b,
    canonical_block b = true -> forallb canonical_block rest = true ->
    exists c t mid x e,
      body_lines b rest = (c :: t) :: mid ++ [x ++ [e]]
      /\ Py.isspace c = false /\ Py.isspace e = false.
Proof.
  induction rest as [|b' rest' IH]; intros b Hb Hrest;
    destruct (@canonical_block_spec b Hb) as (Hi & Hs & He & Hp & Hv & _);
    destruct (@index_line_digits _ Hi) as (D & Hne & _);
    rewrite body_lines_unfold;
    destruct (Py.str_of_Z (index b)) as [|c t] eqn:Ei; try congruence;
    assert (Hc : Py.isspace c = false)
      by (apply ascii_digit_not_space; cbn [forallb] in D;
          apply andb_true_iff in D; tauto).
  - destruct (@last_line_visible _ Hp Hv) as (ls' & x & e & El & Hx).
    exists c, t, (TimeCode_to_srt_format (time_code b) :: ls'), x, e.
    rewrite El, app_nil_r. repeat split; assumption || reflexivity.
  - cbn [forallb] in Hrest. apply andb_true_iff in Hrest.
    destruct Hrest as [Hb' Hrest'].
    destruct (IH b' Hb' Hrest') as (c' & t' & mid & x & e & E & _ & Hx).
    exists c, t,
      (TimeCode_to_srt_format (time_code b) :: lines b ++ [] :: (c' :: t') :: mid),
      x, e.
    rewrite E. repeat split; try assumption.
    cbn [app]. f_equal. f_equal. rewrite <- app_assoc. reflexivity.
Qed.

(** C2, restricted to the documents that the parser can deliver: the
    index of every block is not negative, its two times are whole
    milliseconds from zero to below a hundred hours, its lines contain no
    line break and end without white space, the last of them is not
    blank, no line is a bare integer with a time-code line after it, and
    the language, the SDH mark and the fields of the document other than
    the blocks have their default values.  Parsing the serialized text of
    such a document returns the document. *)
Theorem C2_round_trip (d : SRTDocument) :
  canonical_document d = true ->
  parse_content (to_srt_format d) = Some (Ok d).
Proof.
  destruct d as [bs sf dl enc]. unfold canonical_document.
  cbn [blocks source_file detected_language encoding].
  rewrite !andb_true_iff. intros (((Hbs & Hsf) & Hdl) & Henc).
  destruct sf; [discriminate|]. destruct dl; [discriminate|].
  apply str_eqb_eq in Henc. subst enc.
  unfold parse_content, _parse_content, to_srt_format. cbn [blocks].
  destruct bs as [|b rest]; [reflexivity|].
  cbn [forallb] in Hbs. apply andb_true_iff in Hbs. destruct Hbs as [Hb Hrest].
  rewrite flat_map_body_lines.
  destruct (@body_lines_ends rest b Hb Hrest) as (c & t & mid & x & e & E & Hc & He).
  match goal with
  | |- context [Py.strip ?u] =>
      replace (Py.strip u) with (Py.join [NL] (body_lines b rest))
        by (symmetry; rewrite E; apply (@strip_joined c t mid x e Hc He))
  end.
  rewrite split_join.
  - pose proof (@parse_loop_body rest b [] [] _ Hb Hrest
                  (body_lines_length rest b)) as P.
    match goal with
    | |- match ?X with _ => _ end = _ =>
        replace X with (Some (Ok (E := SRTParseError) (b :: rest)))
          by (symmetry; exact P)
    end.
    reflexivity.
  - rewrite E. discriminate.
  - apply body_lines_without_newline; assumption.
Qed.

Lemma C2_round_trip_witness :
  parse_content (to_srt_format hello_world) = Some (Ok hello_world).
Proof. apply C2_round_trip. vm_compute. reflexivity. Defined.

(** C2 fails as stated: the only line of the block below is not a bare
    integer and no time-code line follows it, yet the document that comes
    back has lost the space at the end of the line. *)
Lemma C2_counterexample :
  forallb (fun b => no_block_start (lines b)) (blocks hello_trailing_space) = true
  /\ parse_content (to_srt_format hello_trailing_space)
     = Some (Ok (new_document [new_block 1%Z tc1 [lit "Hello"]]))
  /\ new_document [new_block 1%Z tc1 [lit "Hello"]] <> hello_trailing_space.
Proof.
  repeat split; try (vm_compute; reflexivity).
  intros H. vm_compute in H. discriminate H.
Qed.

(** What else the round trip needs: a block without lines, a negative
    index and a time of a hundred hours are written but not read back, a
    time that is not a whole number of milliseconds comes back rounded
    down, and a blank last line is dropped. *)
Example round_trip_limits :
  parse_content (to_srt_format (new_document [new_block 1%Z tc1 []]))
  = Some (Err (ParseErrorAt 1 (ParseFailure NoSubtitleTextFound)))
  /\ parse_content (to_srt_format (new_document [new_block (-1)%Z tc1 [lit "Hello"]]))
     = Some (Err (ParseErrorAt 1 (ParseFailure (ExpectedSubtitleIndex (lit "-1")))))
  /\ parse_content
       (to_srt_format
          (new_document
             [new_block 1%Z {| start := 360000000000%Z; end_ := 360001000000%Z |}
                [lit "Hello"]]))
     = Some (Err (ParseErrorAt 1
                    (ParseFailure
                       (InvalidTimeFormat (lit "100:00:00,000 --> 100:00:01,000")))))
  /\ parse_content
       (to_srt_format
          (new_document
             [new_block 1%Z {| start := 1000001%Z; end_ := 2000000%Z |}
                [lit "Hello"]]))
     = Some (Ok (new_document [new_block 1%Z tc1 [lit "Hello"]]))
  /\ parse_content (to_srt_format (new_document [new_block 1%Z tc1 [lit "Hello"; []]]))
     = Some (Ok (new_document [new_block 1%Z tc1 [lit "Hello"]])).
Proof. repeat split; vm_compute; reflexivity. Qed.

(** ** The limits of a configuration *)

Lemma character_limit_bounds (config : ProcessingConfig) (l : Language) :
  (13 <= get_character_limit config l <= 42)%Z.
Proof. unfold get_character_limit. destruct l, (sdh_mode config); lia. Qed.

(** ** Visible characters *)

Lemma visible_app (a b : str) : visible (a ++ b) = visible a ++ visible b.
Proof. apply filter_app. Qed.

Lemma visible_spaces (w : str) : forallb Py.isspace w = true -> visible w = [].
Proof.
  induction w as [|c w IH]; intros H; [reflexivity|].
  cbn [forallb] in H. apply andb_true_iff in H. destruct H as [Hc Hw].
  unfold visible. cbn [filter]. rewrite Hc. cbn [negb]. apply IH. exact Hw.
Qed.

Lemma visible_blank (l : str) : is_blank l = true -> visible l = [].
Proof. intros H. apply visible_spaces. apply is_blank_iff. exact H. Qed.

Lemma visible_dropwhile (s : str) : visible (Py.dropwhile Py.isspace s) = visible s.
Proof.
  induction s as [|c s IH]; [reflexivity|].
  cbn [Py.dropwhile]. destruct (Py.isspace c) eqn:E; [|reflexivity].
  rewrite IH. unfold visible. cbn [filter]. rewrite E. reflexivity.
Qed.

Lemma visible_rev (s : str) : visible (rev s) = rev (visible s).
Proof.
  induction s as [|c s IH]; [reflexivity|].
  cbn [rev]. rewrite visible_app, IH. unfold visible at 2 3. cbn [filter].
  destruct (negb (Py.isspace c)); cbn [rev app]; [reflexivity|].
  rewrite app_nil_r. reflexivity.
Qed.

Lemma visible_lstrip (s : str) : visible (Py.lstrip s) = visible s.
Proof. apply visible_dropwhile. Qed.

Lemma visible_rstrip (s : str) : visible (Py.rstrip s) = visible s.
Proof.
  unfold Py.rstrip. rewrite visible_rev, visible_dropwhile, visible_rev.
  apply rev_involutive.
Qed.

Lemma visible_strip (s : str) : visible (Py.strip s) = visible s.
Proof. unfold Py.strip. rewrite visible_lstrip. apply visible_rstrip. Qed.

Lemma visible_text_cons (l : str) (ls : list str) :
  visible_text (l :: ls) = visible l ++ visible_text ls.
Proof. unfold visible_text. cbn [concat]. apply visible_app. Qed.

Lemma visible_text_app (a b : list str) :
  visible_text (a ++ b) = visible_text a ++ visible_text b.
Proof. unfold visible_text. rewrite concat_app. apply visible_app. Qed.

Lemma visible_text_flat_map (f : str -> list str) (ls : list str) :
  (forall l, visible_text (f l) = visible l) ->
  visible_text (flat_map f ls) = visible_text ls.
Proof.
  intros H. induction ls as [|l ls IH]; [reflexivity|].
  cbn [flat_map]. rewrite visible_text_app, visible_text_cons, IH, H.
  reflexivity.
Qed.

Lemma visible_slices (line : str) (i : Z) :
  visible (Py.slice_to line i) ++ visible (Py.slice_from line i) = visible line.
Proof.
  unfold Py.slice_to, Py.slice_from. rewrite <- visible_app, firstn_skipn.
  reflexivity.
Qed.

(** ** Cutting a line *)

Lemma range_down_go_found (f : Z -> option Z) (n : nat) :
  forall i r,
    range_down_go n i f = Some r ->
    exists j, (i - Z.of_nat n < j <= i)%Z /\ f j = Some r.
Proof.
  induction n as [|n IH]; intros i r H; [discriminate|].
  cbn [range_down_go] in H. destruct (f i) as [x|] eqn:E.
  - injection H as <-. exists i. split; [lia|exact E].
  - destruct (IH _ _ H) as (j & Hj & Fj). exists j. split; [lia|exact Fj].
Qed.

(** A position that a downward search returns comes from an index of
    its range. *)
Lemma range_down_found (hi lo : Z) (f : Z -> option Z) (r : Z) :
  range_down hi lo f = Some r ->
  exists j, (lo < j <= hi)%Z /\ f j = Some r.
Proof.
  unfold range_down. intros H.
  destruct (range_down_go_found _ _ _ H) as (j & Hj & Fj).
  exists j. split; [lia|exact Fj].
Qed.

Lemma first_found_cases (P : Z -> Prop) (searches : list (option Z)) :
  Forall (fun s => forall r, s = Some r -> P r) searches ->
  first_found searches = (-1)%Z \/ P (first_found searches).
Proof.
  induction 1 as [|s rest Hs _ IH]; [left; reflexivity|].
  cbn [first_found]. destruct s as [r|]; [right; apply Hs; reflexivity|exact IH].
Qed.

Lemma slice_to_length (line : str) (i : Z) :
  (0 <= i)%Z -> (Py.len (Py.slice_to line i) <= i)%Z.
Proof.
  intros H. unfold Py.len, Py.slice_to, Py.slice_index.
  destruct (Z.ltb_spec i 0); [lia|]. rewrite length_firstn. lia.
Qed.

Lemma slice_from_length (line : str) (i : Z) :
  (1 <= i)%Z -> line <> [] ->
  (length (Py.slice_from line i) < length line)%nat.
Proof.
  intros H Hne. unfold Py.slice_from, Py.slice_index.
  destruct (Z.ltb_spec i 0); [lia|]. rewrite length_skipn.
  destruct line; [congruence|]. simpl length. lia.
Qed.

Lemma rstrip_length (s : str) : (length (Py.rstrip s) <= length s)%nat.
Proof.
  unfold Py.rstrip. rewrite length_rev.
  etransitivity; [apply dropwhile_length|]. rewrite length_rev. lia.
Qed.

Lemma lstrip_length (s : str) : (length (Py.lstrip s) <= length s)%nat.
Proof. apply dropwhile_length. Qed.

(** What a cut at a position from [1] to [limit] gives: the two parts
    hold the visible characters of the line, the first part is within the
    limit and the second is shorter than the line. *)
Lemma cut_at (line : str) (limit pos : Z) :
  (1 <= pos <= limit)%Z -> line <> [] ->
  let first_part := Py.rstrip (Py.slice_to line pos) in
  let second_part := Py.lstrip (Py.slice_from line pos) in
  visible first_part ++ visible second_part = visible line
  /\ (Py.len first_part <= limit)%Z
  /\ (length second_part < length line)%nat.
Proof.
  intros Hpos Hne. cbv zeta. repeat split.
  - rewrite visible_rstrip, visible_lstrip. apply visible_slices.
  - pose proof (rstrip_length (Py.slice_to line pos)) as L.
    pose proof (@slice_to_length line pos ltac:(lia)) as T.
    unfold Py.len in *. lia.
  - pose proof (lstrip_length (Py.slice_from line pos)) as L.
    pose proof (@slice_from_length line pos ltac:(lia) Hne) as T. lia.
Qed.

(** ** The pieces of a broken line *)

Section Pieces.

Variable limit : Z.
Variable split_line : str -> cut.
Variable break : str -> list str.
Hypothesis break_equation : forall line, follows_recursion split_line break line.
Hypothesis cut_is_good : good_cut limit split_line.

Lemma break_cases (line : str) :
  (split_line line = None /\ break line = [line])
  \/ exists first_part second_part,
       split_line line = Some (first_part, second_part)
       /\ visible first_part ++ visible second_part = visible line
       /\ (Py.len first_part <= limit)%Z
       /\ ((second_part = [] /\ break line = [first_part])
           \/ ((length second_part < length line)%nat
               /\ break line = first_part :: break second_part)).
Proof.
  pose proof (break_equation line) as E. unfold follows_recursion in E.
  destruct (split_line line) as [[fp sp]|] eqn:S; [right|left; split; auto].
  destruct (cut_is_good S) as (Hv & Hl & Hs).
  exists fp, sp. repeat split; try assumption.
  unfold recursive_call in E. destruct sp as [|c sp]; [left; split; auto|right].
  apply Nat.ltb_lt in Hs. rewrite Hs in E. apply Nat.ltb_lt in Hs.
  split; assumption.
Qed.

Lemma break_visible (line : str) : visible_text (break line) = visible line.
Proof.
  induction line as [line IH] using (induction_ltof1 _ (@length char)).
  unfold ltof in IH.
  destruct (break_cases line)
    as [[_ ->]|(fp & sp & _ & Hv & _ & [[-> ->]|[Hs ->]])].
  - unfold visible_text. cbn [concat]. rewrite app_nil_r. reflexivity.
  - unfold visible_text. cbn [concat]. rewrite app_nil_r.
    rewrite <- Hv. cbn [visible filter]. rewrite app_nil_r. reflexivity.
  - rewrite visible_text_cons, (IH sp Hs). exact Hv.
Qed.

Lemma break_fits (line : str) : pieces_fit limit split_line (break line).
Proof.
  induction line as [line IH] using (induction_ltof1 _ (@length char)).
  unfold ltof in IH.
  destruct (break_cases line)
    as [[Hn ->]|(fp & sp & _ & _ & Hl & [[-> ->]|[Hs ->]])].
  - exists [], line. repeat split; [constructor|right; exact Hn].
  - exists [], fp. repeat split; [constructor|left; exact Hl].
  - destruct (IH sp Hs) as (init & last & -> & Hinit & Hlast).
    exists (fp :: init), last. repeat split; [|exact Hlast].
    constructor; assumption.
Qed.

End Pieces.

(** ** Where the three engines cut *)

Lemma char_at_some (line : str) (i : Z) (c : char) :
  char_at line i = Some c -> (0 <= i < Py.len line)%Z.
Proof.
  unfold char_at, Py.len. destruct (Z.ltb_spec i 0) as [Hlt|Hge]; [discriminate|].
  intros E. assert (nth_error line (Z.to_nat i) <> None) as N by congruence.
  apply nth_error_Some in N. lia.
Qed.

Ltac close_search :=
  let r := fresh "r" in
  let H := fresh "H" in
  intros r H; apply range_down_found in H;
  destruct H as (j & Hj & Fj);
  repeat match type of Fj with
         | match ?x with _ => _ end = Some _ => destruct x eqn:?; try discriminate
         | (if ?x then _ else _) = Some _ => destruct x eqn:?; try discriminate
         end;
  injection Fj as <-;
  repeat match goal with
         | H : (_ && _) = true |- _ => apply andb_true_iff in H; destruct H
         | H : (_ <=? _)%Z = true |- _ => apply Z.leb_le in H
         end;
  lia.

Lemma chinese_break_position (line : str) (limit : Z) :
  let p := ChineseProcessor._find_best_break_position line limit in
  p = (-1)%Z \/ (Z.max 0 (limit - 10) <= p <= limit)%Z.
Proof.
  cbv zeta. unfold ChineseProcessor._find_best_break_position.
  apply (@first_found_cases (fun p => (Z.max 0 (limit - 10) <= p <= limit)%Z)).
  repeat (apply Forall_cons; [close_search|]). apply Forall_nil.
Qed.

Lemma korean_break_position (line : str) (limit : Z) :
  let p := KoreanProcessor._find_best_break_position line limit in
  p = (-1)%Z \/ (Z.max 0 (limit - 8) <= p <= limit)%Z.
Proof.
  cbv zeta. unfold KoreanProcessor._find_best_break_position.
  apply (@first_found_cases (fun p => (Z.max 0 (limit - 8) <= p <= limit)%Z)).
  repeat (apply Forall_cons; [close_search|]). apply Forall_nil.
Qed.

Lemma find_word_found (lower : str -> str) (line : str) (set : list str)
    (search_start search_end : Z) (words : list str) (r : Z) :
  EnglishProcessor.find_word lower line set search_start search_end words = Some r ->
  (search_start <= r <= search_end)%Z.
Proof.
  induction words as [|w words IH]; [discriminate|].
  cbn [EnglishProcessor.find_word].
  destruct (in_set _ set && _ && _) eqn:E; [|exact IH].
  intros H. injection H as <-.
  apply andb_true_iff in E. destruct E as [E E2].
  apply andb_true_iff in E. destruct E as [_ E1].
  apply Z.leb_le in E1. apply Z.leb_le in E2. lia.
Qed.

Lemma english_break_position (lower : str -> str) (line : str) (limit : Z) :
  let p := EnglishProcessor._find_best_break_position lower line limit in
  p = (-1)%Z \/ (Z.max 0 (limit - 20) <= p <= limit)%Z.
Proof.
  cbv zeta. unfold EnglishProcessor._find_best_break_position.
  apply (@first_found_cases (fun p => (Z.max 0 (limit - 20) <= p <= limit)%Z)).
  apply Forall_cons; [close_search|].
  apply Forall_cons; [intros r H; apply find_word_found in H; lia|].
  apply Forall_cons; [intros r H; apply find_word_found in H; lia|].
  apply Forall_nil.
Qed.

Lemma longer_than_limit_nonempty (config : ProcessingConfig) (line : str) :
  (Py.len line <=? limit_of config)%Z = false -> line <> [].
Proof.
  intros H. apply Z.leb_gt in H. intros ->.
  pose proof (character_limit_bounds config (config_language config)).
  unfold limit_of, Py.len in H. simpl in H. lia.
Qed.

Lemma chinese_good_cut (config : ProcessingConfig) :
  good_cut (limit_of config) (ChineseProcessor.split_line config).
Proof.
  intros line fp sp. unfold ChineseProcessor.split_line.
  fold (limit_of config).
  destruct (Py.len line <=? limit_of config)%Z eqn:E1; [discriminate|].
  destruct (Py.len line - limit_of config <? 3)%Z; [discriminate|].
  match goal with |- context [if (Py.len ?sp <? 5)%Z then _ else _] =>
    destruct (Py.len sp <? 5)%Z; [discriminate|] end.
  intros H. injection H as <- <-.
  apply cut_at; [|apply (@longer_than_limit_nonempty _ _ E1)].
  pose proof (character_limit_bounds config (config_language config)) as B.
  fold (limit_of config) in B.
  destruct (chinese_break_position line (limit_of config)) as [->|P].
  - cbn. lia.
  - destruct (Z.eqb_spec (ChineseProcessor._find_best_break_position line (limit_of config)) (-1)); lia.
Qed.

Lemma korean_good_cut (config : ProcessingConfig) :
  good_cut (limit_of config) (KoreanProcessor.split_line config).
Proof.
  intros line fp sp. unfold KoreanProcessor.split_line.
  fold (limit_of config).
  destruct (Py.len line <=? limit_of config)%Z eqn:E1; [discriminate|].
  destruct (Py.len line - limit_of config <? 3)%Z; [discriminate|].
  match goal with |- context [if (Py.len ?sp <? 4)%Z then _ else _] =>
    destruct (Py.len sp <? 4)%Z; [discriminate|] end.
  intros H. injection H as <- <-.
  apply cut_at; [|apply (@longer_than_limit_nonempty _ _ E1)].
  pose proof (character_limit_bounds config (config_language config)) as B.
  fold (limit_of config) in B.
  destruct (korean_break_position line (limit_of config)) as [->|P].
  - cbn. lia.
  - destruct (Z.eqb_spec (KoreanProcessor._find_best_break_position line (limit_of config)) (-1)); lia.
Qed.

Lemma english_should_break (lower : str -> str) (line : str) (limit : Z) :
  EnglishProcessor._should_break_line lower line limit = true ->
  (0 < EnglishProcessor._find_best_break_position lower line limit)%Z.
Proof.
  unfold EnglishProcessor._should_break_line.
  destruct (Py.len line <=? limit)%Z; [discriminate|].
  destruct (Py.strip (Py.slice_from line limit)); [discriminate|].
  destruct (length _ <? 4)%nat; [discriminate|].
  destruct (Z.ltb_spec 0 (EnglishProcessor._find_best_break_position lower line limit));
    [auto|discriminate].
Qed.

Lemma english_good_cut (lower : str -> str) (config : ProcessingConfig) :
  good_cut (limit_of config) (EnglishProcessor.split_line lower config).
Proof.
  intros line fp sp. unfold EnglishProcessor.split_line.
  fold (limit_of config).
  destruct (Py.len line <=? limit_of config)%Z eqn:E1; [discriminate|].
  destruct (EnglishProcessor._should_break_line lower line (limit_of config)) eqn:E2;
    [|discriminate].
  cbn [negb]. intros H. injection H as <- <-.
  apply english_should_break in E2.
  apply cut_at; [|apply (@longer_than_limit_nonempty _ _ E1)].
  destruct (english_break_position lower line (limit_of config)) as [P|P]; [lia|].
  assert (N : (EnglishProcessor._find_best_break_position lower line (limit_of config)
               =? -1)%Z = false) by (apply Z.eqb_neq; lia).
  rewrite !N. lia.
Qed.

Lemma chinese_break_visible (config : ProcessingConfig) (line : str) :
  visible_text (ChineseProcessor._break_line_intelligently config line)
  = visible line.
Proof.
  apply break_visible with (limit := limit_of config)
                           (split_line := ChineseProcessor.split_line config).
  - intros l. apply chinese_break_equation.
  - apply chinese_good_cut.
Qed.

Lemma korean_break_visible (config : ProcessingConfig) (line : str) :
  visible_text (KoreanProcessor._break_line_intelligently config line)
  = visible line.
Proof.
  apply break_visible with (limit := limit_of config)
                           (split_line := KoreanProcessor.split_line config).
  - intros l. apply korean_break_equation.
  - apply korean_good_cut.
Qed.

Lemma english_break_visible (lower : str -> str) (config : ProcessingConfig)
    (line : str) :
  visible_text (EnglishProcessor._break_line_intelligently lower config line)
  = visible line.
Proof.
  apply break_visible with (limit := limit_of config)
                           (split_line := EnglishProcessor.split_line lower config).
  - intros l. apply english_break_equation.
  - apply english_good_cut.
Qed.

(** X1: in each of the three engines, every piece of
    [_break_line_intelligently] but the last is within the character
    limit of the configuration; the last piece is within the limit or is
    a line that the engine does not cut. *)
Theorem break_line_pieces_fit (lower : str -> str)
    (config : ProcessingConfig) (line : str) :
  pieces_fit (limit_of config) (ChineseProcessor.split_line config)
    (ChineseProcessor._break_line_intelligently config line)
  /\ pieces_fit (limit_of config) (KoreanProcessor.split_line config)
       (KoreanProcessor._break_line_intelligently config line)
  /\ pieces_fit (limit_of config) (EnglishProcessor.split_line lower config)
       (EnglishProcessor._break_line_intelligently lower config line).
Proof.
  repeat split.
  - apply break_fits.
    + intros l. apply chinese_break_equation.
    + apply chinese_good_cut.
  - apply break_fits.
    + intros l. apply korean_break_equation.
    + apply korean_good_cut.
  - apply break_fits.
    + intros l. apply english_break_equation.
    + apply english_good_cut.
Qed.

(** ** The merging loops *)

Section Merging.

Variable step : merge_state -> str -> merge_state.

Lemma fold_visible :
  (forall st line, visible_state (step st line) = visible_state st ++ visible line) ->
  forall lines st,
    visible_state (fold_left step lines st) = visible_state st ++ visible_text lines.
Proof.
  intros H lines. induction lines as [|l lines IH]; intros st.
  - cbn. rewrite app_nil_r. reflexivity.
  - cbn [fold_left]. rewrite IH, H, visible_text_cons, app_assoc. reflexivity.
Qed.

Lemma fold_fits (limit : Z) (given : list str) :
  (forall st line, In line given ->
                   state_fits limit given st -> state_fits limit given (step st line)) ->
  forall lines st,
    incl lines given ->
    state_fits limit given st -> state_fits limit given (fold_left step lines st).
Proof.
  intros H lines. induction lines as [|l lines IH]; intros st Hin Hst; [exact Hst|].
  cbn [fold_left]. apply IH.
  - intros x Hx. apply Hin. right. exact Hx.
  - apply H; [apply Hin; left; reflexivity|exact Hst].
Qed.

End Merging.

Lemma merge_finish_visible (st : merge_state) :
  visible_text (merge_finish st) = visible_state st.
Proof.
  destruct st as [closed cur]. unfold merge_finish, visible_state. cbn [fst snd].
  destruct cur as [|c cur].
  - cbn. rewrite app_nil_r. reflexivity.
  - rewrite visible_text_app. unfold visible_text at 2. cbn [concat].
    rewrite app_nil_r. reflexivity.
Qed.

Lemma merge_finish_fits (limit : Z) (given : list str) (st : merge_state) :
  state_fits limit given st ->
  Forall (fits_or_given limit given) (merge_finish st).
Proof.
  destruct st as [closed cur]. unfold state_fits, merge_finish. cbn [fst snd].
  intros [Hc Hcur]. destruct cur as [|c cur]; [exact Hc|].
  apply Forall_app. split; [exact Hc|].
  constructor; [|constructor]. destruct Hcur as [E|F]; [discriminate|exact F].
Qed.

Lemma visible_state_close (closed : list str) (cur line : str) :
  visible_state (closed ++ [cur], line)
  = visible_state (closed, cur) ++ visible line.
Proof.
  unfold visible_state. cbn [fst snd]. rewrite visible_text_app.
  unfold visible_text at 2. cbn [concat]. rewrite app_nil_r. reflexivity.
Qed.

Lemma visible_state_join (closed : list str) (cur sep line : str) :
  forallb Py.isspace sep = true ->
  visible_state (closed, cur ++ sep ++ line)
  = visible_state (closed, cur) ++ visible line.
Proof.
  intros H. unfold visible_state. cbn [fst snd].
  rewrite !visible_app, (visible_spaces _ H), <- app_assoc. reflexivity.
Qed.

Lemma visible_state_start (closed : list str) (line : str) :
  visible_state (closed, line) = visible_state (closed, []) ++ visible line.
Proof. unfold visible_state. cbn. rewrite app_nil_r. reflexivity. Qed.

Lemma state_fits_close (limit : Z) (given closed : list str) (cur line l : str) :
  In l given -> line = Py.strip l ->
  state_fits limit given (closed, cur) ->
  cur <> [] ->
  state_fits limit given (closed ++ [cur], line).
Proof.
  intros Hin -> [Hc Hcur] Hne. cbn [fst snd] in *. split; cbn [fst snd].
  - apply Forall_app. split; [exact Hc|]. constructor; [|constructor].
    destruct Hcur as [E|F]; [congruence|exact F].
  - right. right. apply in_map. exact Hin.
Qed.

Lemma state_fits_start (limit : Z) (given closed : list str) (cur line l : str) :
  In l given -> line = Py.strip l ->
  state_fits limit given (closed, cur) ->
  state_fits limit given (closed, line).
Proof.
  intros Hin -> [Hc _]. split; cbn [fst snd] in *; [exact Hc|].
  right. right. apply in_map. exact Hin.
Qed.

Lemma state_fits_join (limit : Z) (given closed : list str) (cur merged : str) :
  (Py.len merged <= limit)%Z ->
  state_fits limit given (closed, cur) ->
  state_fits limit given (closed, merged).
Proof.
  intros Hm [Hc _]. split; cbn [fst snd] in *; [exact Hc|]. right. left. exact Hm.
Qed.

Lemma len_app (a b : str) : Py.len (a ++ b) = (Py.len a + Py.len b)%Z.
Proof. unfold Py.len. rewrite length_app. lia. Qed.

(** *** Chinese *)

Lemma chinese_should_merge (config : ProcessingConfig) (current next_line : str) :
  ChineseProcessor._should_merge_with_current config current next_line = true ->
  current <> [] /\ (Py.len (current ++ next_line) <= limit_of config)%Z.
Proof.
  unfold ChineseProcessor._should_merge_with_current.
  destruct current as [|c current]; [discriminate|].
  destruct (ends_in _ _); [discriminate|].
  destruct (negb _); [discriminate|].
  intros H. apply Z.leb_le in H. rewrite len_app.
  split; [discriminate|exact H].
Qed.

Lemma chinese_step_visible (config : ProcessingConfig) (st : merge_state) (line : str) :
  visible_state (ChineseProcessor.merge_step config st line)
  = visible_state st ++ visible line.
Proof.
  destruct st as [closed cur]. unfold ChineseProcessor.merge_step.
  rewrite <- (visible_strip line).
  destruct (Py.strip line) as [|c l'] eqn:E.
  - cbn. rewrite app_nil_r. reflexivity.
  - destruct (ChineseProcessor._should_merge_with_current config cur (c :: l')) eqn:M.
    + destruct cur as [|x cur]; [apply visible_state_start|].
      apply (@visible_state_join closed (x :: cur) [] (c :: l') eq_refl).
    + destruct cur as [|x cur]; [apply visible_state_start|].
      apply visible_state_close.
Qed.

Lemma chinese_step_fits (config : ProcessingConfig) (given : list str)
    (st : merge_state) (line : str) :
  In line given ->
  state_fits (limit_of config) given st ->
  state_fits (limit_of config) given (ChineseProcessor.merge_step config st line).
Proof.
  intros Hin Hst. destruct st as [closed cur]. unfold ChineseProcessor.merge_step.
  destruct (Py.strip line) as [|c l'] eqn:E; [exact Hst|].
  destruct (ChineseProcessor._should_merge_with_current config cur (c :: l')) eqn:M.
  - destruct (@chinese_should_merge _ _ _ M) as [Hne Hlen].
    destruct cur as [|x cur]; [congruence|].
    apply (@state_fits_join _ _ _ _ _ Hlen Hst).
  - destruct cur as [|x cur].
    + apply (@state_fits_start _ _ closed _ _ _ Hin (eq_sym E) Hst).
    + apply (@state_fits_close _ _ closed _ _ _ Hin (eq_sym E) Hst). discriminate.
Qed.

(** *** Korean *)

Lemma korean_should_merge (config : ProcessingConfig) (current next_line : str) :
  KoreanProcessor._should_merge_with_current config current next_line = true ->
  current <> []
  /\ (Py.len (current ++ [SPACE] ++ next_line) <= limit_of config)%Z.
Proof.
  unfold KoreanProcessor._should_merge_with_current.
  destruct current as [|c current]; [discriminate|].
  destruct (ends_in _ _); [discriminate|].
  destruct (negb _); [discriminate|].
  intros H. apply Z.leb_le in H. rewrite !len_app.
  split; [discriminate|]. change (Py.len [SPACE]) with 1%Z.
  unfold limit_of. lia.
Qed.

Lemma korean_step_visible (config : ProcessingConfig) (st : merge_state) (line : str) :
  visible_state (KoreanProcessor.merge_step config st line)
  = visible_state st ++ visible line.
Proof.
  destruct st as [closed cur]. unfold KoreanProcessor.merge_step.
  rewrite <- (visible_strip line).
  destruct (Py.strip line) as [|c l'] eqn:E.
  - cbn. rewrite app_nil_r. reflexivity.
  - destruct (KoreanProcessor._should_merge_with_current config cur (c :: l')) eqn:M.
    + destruct cur as [|x cur]; [apply visible_state_start|].
      apply (@visible_state_join closed (x :: cur) [SPACE] (c :: l') eq_refl).
    + destruct cur as [|x cur]; [apply visible_state_start|].
      apply visible_state_close.
Qed.

Lemma korean_step_fits (config : ProcessingConfig) (given : list str)
    (st : merge_state) (line : str) :
  In line given ->
  state_fits (limit_of config) given st ->
  state_fits (limit_of config) given (KoreanProcessor.merge_step config st line).
Proof.
  intros Hin Hst. destruct st as [closed cur]. unfold KoreanProcessor.merge_step.
  destruct (Py.strip line) as [|c l'] eqn:E; [exact Hst|].
  destruct (KoreanProcessor._should_merge_with_current config cur (c :: l')) eqn:M.
  - destruct (@korean_should_merge _ _ _ M) as [Hne Hlen].
    destruct cur as [|x cur]; [congruence|].
    apply (@state_fits_join _ _ _ _ _ Hlen Hst).
  - destruct cur as [|x cur].
    + apply (@state_fits_start _ _ closed _ _ _ Hin (eq_sym E) Hst).
    + apply (@state_fits_close _ _ closed _ _ _ Hin (eq_sym E) Hst). discriminate.
Qed.

(** *** English *)

Lemma english_should_merge (lower : str -> str) (config : ProcessingConfig)
    (current next_line : str) :
  EnglishProcessor._should_merge_with_current lower config current next_line = true ->
  current <> []
  /\ (Py.len (current ++ [SPACE] ++ next_line) <= limit_of config)%Z.
Proof.
  unfold EnglishProcessor._should_merge_with_current.
  destruct current as [|c current]; [discriminate|].
  destruct (ends_in _ _); [discriminate|].
  destruct (_ && _); [discriminate|].
  cbv zeta. intros H.
  assert (F : (Py.len (c :: current) + 1 + Py.len next_line
               <=? get_character_limit config (config_language config))%Z = true).
  { repeat match type of H with
           | (if ?x then _ else _) = true => destruct x
           end; exact H. }
  apply Z.leb_le in F. rewrite !len_app.
  split; [discriminate|]. change (Py.len [SPACE]) with 1%Z.
  unfold limit_of. lia.
Qed.

Lemma english_step_visible (lower : str -> str) (config : ProcessingConfig)
    (st : merge_state) (line : str) :
  visible_state (EnglishProcessor.merge_step lower config st line)
  = visible_state st ++ visible line.
Proof.
  destruct st as [closed cur]. unfold EnglishProcessor.merge_step.
  rewrite <- (visible_strip line).
  destruct (Py.strip line) as [|c l'] eqn:E.
  - cbn. rewrite app_nil_r. reflexivity.
  - destruct (EnglishProcessor._should_merge_with_current lower config cur (c :: l')) eqn:M.
    + destruct cur as [|x cur]; [apply visible_state_start|].
      cbv zeta.
      repeat match goal with
             | |- context [if ?b then _ else _] => destruct b
             end;
        first [ apply visible_state_close
              | apply (@visible_state_join closed (x :: cur) [SPACE] (c :: l') eq_refl) ].
    + destruct cur as [|x cur]; [apply visible_state_start|].
      apply visible_state_close.
Qed.

Lemma english_step_fits (lower : str -> str) (config : ProcessingConfig)
    (given : list str) (st : merge_state) (line : str) :
  In line given ->
  state_fits (limit_of config) given st ->
  state_fits (limit_of config) given (EnglishProcessor.merge_step lower config st line).
Proof.
  intros Hin Hst. destruct st as [closed cur]. unfold EnglishProcessor.merge_step.
  destruct (Py.strip line) as [|c l'] eqn:E; [exact Hst|].
  destruct (EnglishProcessor._should_merge_with_current lower config cur (c :: l')) eqn:M.
  - destruct (@english_should_merge _ _ _ _ M) as [Hne Hlen].
    destruct cur as [|x cur]; [congruence|].
    cbv zeta.
    repeat match goal with
           | |- context [if ?b then _ else _] => destruct b
           end;
      first [ apply (@state_fits_join _ _ _ _ _ Hlen Hst)
            | apply (@state_fits_close _ _ closed _ _ _ Hin (eq_sym E) Hst);
              discriminate ].
  - destruct cur as [|x cur].
    + apply (@state_fits_start _ _ closed _ _ _ Hin (eq_sym E) Hst).
    + apply (@state_fits_close _ _ closed _ _ _ Hin (eq_sym E) Hst). discriminate.
Qed.

(** *** The three merges *)

Lemma merge_visible (step : merge_state -> str -> merge_state) (lines : list str) :
  (forall st line, visible_state (step st line) = visible_state st ++ visible line) ->
  visible_text (if (length lines <=? 1)%nat then lines
                else merge_finish (fold_left step lines ([], [])))
  = visible_text lines.
Proof.
  intros H. destruct (length lines <=? 1)%nat; [reflexivity|].
  rewrite merge_finish_visible, (@fold_visible step H). reflexivity.
Qed.

Lemma empty_state_fits (limit : Z) (given : list str) :
  state_fits limit given ([], []).
Proof. split; [constructor|left; reflexivity]. Qed.

Lemma merge_fits (step : merge_state -> str -> merge_state) (limit : Z)
    (lines : list str) :
  (forall st line, In line lines ->
                   state_fits limit lines st -> state_fits limit lines (step st line)) ->
  Forall (fun l => (Py.len l <= limit)%Z \/ In l lines \/ In l (map Py.strip lines))
    (if (length lines <=? 1)%nat then lines
     else merge_finish (fold_left step lines ([], []))).
Proof.
  intros H. destruct (length lines <=? 1)%nat.
  - apply Forall_forall. intros l Hl. right. left. exact Hl.
  - pose proof (@merge_finish_fits limit lines _
                  (@fold_fits step limit lines H lines _ (incl_refl lines)
                     (empty_state_fits limit lines))) as F.
    apply Forall_forall. intros l Hl. rewrite Forall_forall in F.
    destruct (F l Hl) as [A|B]; [left; exact A|right; right; exact B].
Qed.

Lemma chinese_merge_visible (config : ProcessingConfig) (lines : list str) :
  visible_text (ChineseProcessor._smart_merge_lines config lines) = visible_text lines.
Proof. apply merge_visible. apply chinese_step_visible. Qed.

Lemma korean_merge_visible (config : ProcessingConfig) (lines : list str) :
  visible_text (KoreanProcessor._smart_merge_lines config lines) = visible_text lines.
Proof. apply merge_visible. apply korean_step_visible. Qed.

Lemma english_merge_visible (lower : str -> str) (config : ProcessingConfig)
    (lines : list str) :
  visible_text (EnglishProcessor._smart_merge_lines lower config lines)
  = visible_text lines.
Proof. apply merge_visible. apply english_step_visible. Qed.

(** X2: merging never builds a line that is over the limit: in each of
    the three engines, every line that [_smart_merge_lines] returns is
    within the character limit of the configuration, or is one of the
    input lines, as given or stripped. *)
Theorem smart_merge_within_limit (lower : str -> str)
    (config : ProcessingConfig) (lines : list str) :
  let ok l :=
    (Py.len l <= limit_of config)%Z \/ In l lines \/ In l (map Py.strip lines) in
  Forall ok (ChineseProcessor._smart_merge_lines config lines)
  /\ Forall ok (KoreanProcessor._smart_merge_lines config lines)
  /\ Forall ok (EnglishProcessor._smart_merge_lines lower config lines).
Proof.
  cbv zeta. repeat split.
  - apply merge_fits. intros st line. apply chinese_step_fits.
  - apply merge_fits. intros st line. apply korean_step_fits.
  - apply merge_fits. intros st line. apply english_step_fits.
Qed.

(** ** More on stripping *)

Lemma dropwhile_suffix (p : char -> bool) (s : str) :
  exists pre, s = pre ++ Py.dropwhile p s /\ forallb p pre = true.
Proof.
  induction s as [|c s (pre & E & F)]; [exists []; split; reflexivity|].
  cbn [Py.dropwhile]. destruct (p c) eqn:Hc.
  - exists (c :: pre). cbn [app forallb]. rewrite Hc, F. split; [congruence|reflexivity].
  - exists []. split; reflexivity.
Qed.

Lemma rstrip_ends (s x : str) (e : char) :
  Py.rstrip s = x ++ [e] -> Py.isspace e = false.
Proof.
  unfold Py.rstrip. intros H. apply (f_equal (@rev char)) in H.
  rewrite rev_involutive, rev_app_distr in H. cbn [rev app] in H.
  apply (dropwhile_head _ _ H).
Qed.

(** A stripped text is empty, or starts and ends with characters that
    are not white space. *)
Lemma strip_ends (s : str) :
  Py.strip s = []
  \/ exists c t x e,
       Py.strip s = c :: t /\ c :: t = x ++ [e]
       /\ Py.isspace c = false /\ Py.isspace e = false.
Proof.
  destruct (Py.strip s) as [|c t] eqn:E; [left; reflexivity|right].
  destruct (last_cases (c :: t)) as [N|(x & e & L)]; [discriminate|].
  exists c, t, x, e. repeat split; [exact L| |].
  - unfold Py.strip, Py.lstrip in E. apply (dropwhile_head _ _ E).
  - unfold Py.strip, Py.lstrip in E.
    destruct (dropwhile_suffix Py.isspace (Py.rstrip s)) as (pre & P & _).
    rewrite E, L, app_assoc in P. apply (@rstrip_ends s (pre ++ x) e P).
Qed.

Lemma strip_idempotent (s : str) : Py.strip (Py.strip s) = Py.strip s.
Proof.
  destruct (strip_ends s) as [->|(c & t & x & e & -> & L & Hc & He)]; [reflexivity|].
  apply (@strip_fixed c t x e L Hc He).
Qed.

Lemma strip_sublist (s : str) (p : char -> bool) :
  forallb p s = true -> forallb p (Py.strip s) = true.
Proof.
  intros H. unfold Py.strip, Py.lstrip, Py.rstrip.
  destruct (dropwhile_suffix Py.isspace (rev s)) as (pre1 & P1 & _).
  destruct (dropwhile_suffix Py.isspace (rev (Py.dropwhile Py.isspace (rev s))))
    as (pre2 & P2 & _).
  assert (H1 : forallb p (Py.dropwhile Py.isspace (rev s)) = true).
  { rewrite <- forallb_rev in H. rewrite P1, forallb_app in H.
    apply andb_true_iff in H. tauto. }
  rewrite <- forallb_rev in H1. rewrite P2, forallb_app in H1.
  apply andb_true_iff in H1. tauto.
Qed.

(** ** The dialogue dash *)

(** A greedy star that can take all of [pre] and nothing after it, and
    whose continuation then succeeds, returns what the continuation
    returns. *)
Lemma star_greedy_max (p : char -> bool) (k : nat -> str -> option Re.matched)
    (pre s' : str) (m : Re.matched) :
  forallb p pre = true ->
  match s' with [] => True | c :: _ => p c = false end ->
  forall pos,
    k (pos + length pre)%nat s' = Some m ->
    Re.star_greedy p pos (pre ++ s') k = Some m.
Proof.
  intros Hpre Hs'. induction pre as [|c pre IH]; intros pos Hk.
  - cbn [app length] in *. rewrite Nat.add_0_r in Hk.
    destruct s' as [|c s']; cbn [Re.star_greedy]; [exact Hk|].
    rewrite Hs'. exact Hk.
  - cbn [forallb] in Hpre. apply andb_true_iff in Hpre. destruct Hpre as [Hc Hpre].
    cbn [app Re.star_greedy]. rewrite Hc.
    rewrite (IH Hpre (S pos)); [reflexivity|].
    cbn [length] in Hk. rewrite <- Hk. f_equal. lia.
Qed.

(** What the pattern of the dialogue dash accepts: a dash, white space,
    and the text that it captures, up to the end of the line. *)
Lemma dialogue_match_shape (l : str) (m : Re.matched) :
  Re.match_ dialogue_pattern l = Some m ->
  exists w content tail,
    l = DASH :: w ++ content ++ tail
    /\ forallb Py.isspace w = true /\ forallb Re.any content = true
    /\ (tail = [] \/ tail = [NL])
    /\ snd m = [content].
Proof.
  unfold Re.match_, Re.match_at, dialogue_pattern, Re.spaces, Re.chr.
  cbn [Re.seqs Re.run].
  destruct l as [|c t]; [discriminate|].
  destruct (N.eqb_spec DASH c) as [<-|]; [|discriminate].
  intros H. apply star_greedy_sound in H.
  destruct H as (w & s1 & -> & Hw & H).
  apply star_greedy_sound in H.
  destruct H as (content & tail & -> & Hc & H).
  exists w, content, tail. repeat split; try assumption.
  - destruct tail as [|x [|y tail]]; [left; reflexivity| |discriminate].
    destruct (N.eqb_spec x NL) as [->|]; [right; reflexivity|discriminate].
  - assert (G : firstn (1 + length w + length content - (1 + length w))
                  (content ++ tail) = content).
    { replace (1 + length w + length content - (1 + length w))%nat
        with (length content + 0)%nat by lia.
      rewrite firstn_app_2. cbn. apply app_nil_r. }
    rewrite G in H.
    destruct tail as [|x [|y tail]]; [| |discriminate].
    + injection H as <-. reflexivity.
    + destruct (x =? NL); [|discriminate]. injection H as <-. reflexivity.
Qed.

(** A dash, one space and a stripped text without a line break is
    matched by the pattern, and the text is what it captures. *)
Lemma dialogue_match_formatted (content : str) :
  forallb Re.any content = true ->
  match content with [] => True | c :: _ => Py.isspace c = false end ->
  exists e, Re.match_ dialogue_pattern (DASH :: SPACE :: content)
            = Some (e, [content]).
Proof.
  intros Hany Hhead.
  unfold Re.match_, Re.match_at, dialogue_pattern, Re.spaces, Re.chr.
  cbn [Re.seqs Re.run]. change (DASH =? DASH) with true. cbv iota.
  eexists.
  apply (@star_greedy_max Py.isspace _ [SPACE] content); [reflexivity|exact Hhead|].
  rewrite <- (app_nil_r content) at 1.
  apply (@star_greedy_max Re.any _ content []); [exact Hany|exact I|].
  cbn [app].
  replace (1 + length [SPACE] + length content - (1 + length [SPACE]))%nat
    with (length content) by (cbn; lia).
  rewrite firstn_all. reflexivity.
Qed.

Lemma dash_visible : visible (lit "- ") = [DASH].
Proof. reflexivity. Qed.

(** One line of [_process_dialogue_format]. *)
Lemma dialogue_line_cases (line : str) :
  let out := process_dialogue_format [line] in
  (Py.strip line = [] /\ out = [])
  \/ (Py.strip line <> [] /\ out = [Py.strip line])
  \/ exists w content tail,
       Py.strip line = DASH :: w ++ content ++ tail
       /\ forallb Py.isspace w = true /\ forallb Re.any content = true
       /\ (tail = [] \/ tail = [NL])
       /\ out = [lit "- " ++ Py.strip content].
Proof.
  cbv zeta. unfold process_dialogue_format. cbn [flat_map]. rewrite app_nil_r.
  destruct (Py.strip line) as [|c l] eqn:E; [left; split; reflexivity|right].
  destruct (Re.match_ dialogue_pattern (c :: l)) as [[e caps]|] eqn:M;
    [|left; split; [discriminate|reflexivity]].
  destruct (@dialogue_match_shape _ _ M) as (w & content & tail & L & Hw & Hc & Ht & Hm).
  cbn [snd] in Hm. subst caps. right.
  exists w, content, tail. repeat split; assumption.
Qed.

Lemma process_dialogue_format_cons (line : str) (lines : list str) :
  process_dialogue_format (line :: lines)
  = process_dialogue_format [line] ++ process_dialogue_format lines.
Proof.
  unfold process_dialogue_format. cbn [flat_map]. rewrite app_nil_r. reflexivity.
Qed.

Lemma dialogue_line_visible (line : str) :
  visible_text (process_dialogue_format [line]) = visible line.
Proof.
  rewrite <- (visible_strip line).
  destruct (dialogue_line_cases line)
    as [[E ->]|[[_ ->]|(w & content & tail & E & Hw & _ & Ht & ->)]].
  - rewrite E. reflexivity.
  - unfold visible_text. cbn [concat]. rewrite app_nil_r. reflexivity.
  - unfold visible_text. cbn [concat]. rewrite app_nil_r, E.
    rewrite visible_app, dash_visible, visible_strip.
    change (DASH :: w ++ content ++ tail) with ([DASH] ++ w ++ content ++ tail).
    rewrite !visible_app, (visible_spaces _ Hw).
    assert (T : visible tail = []) by (destruct Ht as [->| ->]; reflexivity).
    rewrite T, app_nil_r. reflexivity.
Qed.

Lemma dialogue_format_visible (lines : list str) :
  visible_text (process_dialogue_format lines) = visible_text lines.
Proof.
  induction lines as [|line lines IH]; [reflexivity|].
  rewrite process_dialogue_format_cons, visible_text_app, visible_text_cons, IH.
  rewrite dialogue_line_visible. reflexivity.
Qed.

Lemma formatted_line_fixed (content : str) :
  forallb Re.any content = true ->
  process_dialogue_format [lit "- " ++ Py.strip content]
  = [lit "- " ++ Py.strip content].
Proof.
  intros Hany. pose proof (@strip_sublist content Re.any Hany) as Hs.
  unfold process_dialogue_format. cbn [flat_map]. rewrite app_nil_r.
  change (lit "- " ++ Py.strip content) with (DASH :: SPACE :: Py.strip content).
  destruct (strip_ends content) as [E|(c & t & x & e & E & L & Hc & He)].
  - rewrite E. reflexivity.
  - rewrite E in *.
    assert (F : Py.strip (DASH :: SPACE :: c :: t) = DASH :: SPACE :: c :: t).
    { apply (@strip_fixed DASH (SPACE :: c :: t) (DASH :: SPACE :: x) e);
        [rewrite L; reflexivity|reflexivity|exact He]. }
    rewrite F.
    destruct (@dialogue_match_formatted (c :: t) Hs Hc) as (pos & ->).
    rewrite (@strip_fixed c t x e L Hc He). reflexivity.
Qed.

Lemma dialogue_line_idempotent (line : str) :
  process_dialogue_format (process_dialogue_format [line])
  = process_dialogue_format [line].
Proof.
  destruct (dialogue_line_cases line)
    as [[E R]|[[N R]|(w & content & tail & E & Hw & Hc & Ht & R)]].
  - rewrite R. reflexivity.
  - rewrite R. unfold process_dialogue_format in *. cbn [flat_map] in *.
    rewrite app_nil_r in *. rewrite strip_idempotent. exact R.
  - rewrite R. apply formatted_line_fixed. exact Hc.
Qed.

Lemma process_dialogue_format_app (a b : list str) :
  process_dialogue_format (a ++ b)
  = process_dialogue_format a ++ process_dialogue_format b.
Proof. unfold process_dialogue_format. apply flat_map_app. Qed.

(** X3: [_process_dialogue_format] is idempotent: formatting lines that
    have been formatted changes nothing. *)
Theorem dialogue_format_idempotent (lines : list str) :
  process_dialogue_format (process_dialogue_format lines)
  = process_dialogue_format lines.
Proof.
  induction lines as [|line lines IH]; [reflexivity|].
  rewrite process_dialogue_format_cons, process_dialogue_format_app, IH.
  rewrite dialogue_line_idempotent. reflexivity.
Qed.

(** ** A block through one engine *)

Lemma apply_breaking_visible (break : str -> list str) (lines : list str) :
  (forall line, visible_text (break line) = visible line) ->
  visible_text (flat_map (fun line => if is_blank line then [] else break line) lines)
  = visible_text lines.
Proof.
  intros H. apply visible_text_flat_map. intros l.
  destruct (is_blank l) eqn:B; [|apply H].
  rewrite (visible_blank _ B). reflexivity.
Qed.

Lemma visible_text_last (before : list str) (last : str) :
  visible_text (before ++ [last]) = visible_text before ++ visible last.
Proof.
  rewrite visible_text_app. unfold visible_text at 2. cbn [concat].
  rewrite app_nil_r. reflexivity.
Qed.

Lemma rev_cons_split {A : Type} (l : list A) (x : A) (r : list A) :
  rev l = x :: r -> l = rev r ++ [x].
Proof. intros H. rewrite <- (rev_involutive l), H. reflexivity. Qed.

Lemma chinese_punctuation_visible (lines : list str) :
  visible_text (ChineseProcessor._add_missing_punctuation lines) = visible_text lines
  \/ visible_text (ChineseProcessor._add_missing_punctuation lines)
     = visible_text lines ++ [12290].
Proof.
  unfold ChineseProcessor._add_missing_punctuation.
  destruct (rev lines) as [|last before] eqn:E; [left; reflexivity|].
  match goal with |- context [if ?c then _ else _] => destruct c end;
    [right|left; reflexivity].
  rewrite (rev_cons_split _ E), !visible_text_last, visible_app, visible_strip.
  rewrite <- app_assoc. reflexivity.
Qed.

Lemma korean_punctuation_visible (lines : list str) :
  visible_text (KoreanProcessor._add_missing_punctuation lines) = visible_text lines
  \/ visible_text (KoreanProcessor._add_missing_punctuation lines)
     = visible_text lines ++ [46].
Proof.
  unfold KoreanProcessor._add_missing_punctuation.
  destruct (rev lines) as [|last before] eqn:E; [left; reflexivity|].
  match goal with |- context [if ?c then _ else _] => destruct c end;
    [right|left; reflexivity].
  rewrite (rev_cons_split _ E), !visible_text_last, visible_app, visible_strip.
  rewrite <- app_assoc. reflexivity.
Qed.

Lemma startswith_dash (s : str) :
  Py.startswith s (lit "- ") = true -> exists rest, s = DASH :: SPACE :: rest.
Proof.
  destruct s as [|a [|b rest]]; try discriminate.
  - cbn. rewrite andb_false_r. discriminate.
  - cbn [lit list_ascii_of_string map Py.startswith]. intros H.
    apply andb_true_iff in H. destruct H as [Ha H].
    apply andb_true_iff in H. destruct H as [Hb _].
    apply N.eqb_eq in Ha. apply N.eqb_eq in Hb.
    exists rest. cbn in Ha, Hb. subst. reflexivity.
Qed.

Lemma merged_pair_visible (config : ProcessingConfig) (current_line next_line m : str) :
  EnglishProcessor.merged_pair config current_line next_line = Some m ->
  visible m = visible current_line ++ visible next_line.
Proof.
  unfold EnglishProcessor.merged_pair. cbv zeta.
  destruct (Py.startswith current_line (lit "- ")) eqn:Dc;
    destruct (Py.startswith next_line (lit "- ")) eqn:Dn; cbn [andb negb];
    try discriminate;
    (match goal with
     | |- (if ?c then _ else None) = Some _ -> _ => destruct c; [|discriminate]
     end);
    try discriminate;
    (match goal with
     | |- match ?x with [] => _ | _ :: _ => _ end = Some _ -> _ =>
         destruct x as [|c0 r0] eqn:E; [discriminate|]
     end);
    (match goal with
     | |- (if ?c then _ else None) = Some _ -> _ => destruct c; [|discriminate]
     end);
    intros H; injection H as <-; rewrite <- E.
  - destruct (startswith_dash _ Dc) as (rest & ->).
    change (Py.slice_from (DASH :: SPACE :: rest) 2) with rest.
    change (DASH :: SPACE :: rest) with (lit "- " ++ rest).
    rewrite !visible_app, visible_strip. reflexivity.
  - rewrite !visible_app. reflexivity.
Qed.

Example merge_short_lines_example :
  EnglishProcessor._merge_short_lines english_config
    [lit "- Hello"; lit "there"; lit "- Bye"]
  = [lit "- Hello there"; lit "- Bye"].
Proof. vm_compute. reflexivity. Qed.

Lemma merge_short_loop_visible (config : ProcessingConfig) (lines : list str) :
  visible_text (EnglishProcessor.merge_short_loop config lines) = visible_text lines.
Proof.
  induction lines as [lines IH] using (induction_ltof1 _ (@length str)).
  unfold ltof in IH.
  destruct lines as [|l rest]; [reflexivity|].
  assert (Keep : visible_text (l :: EnglishProcessor.merge_short_loop config rest)
                 = visible_text (l :: rest)).
  { rewrite !visible_text_cons, IH; [reflexivity|simpl; lia]. }
  cbn [EnglishProcessor.merge_short_loop].
  destruct (is_blank l); [exact Keep|].
  destruct rest as [|next rest']; [exact Keep|].
  destruct (is_blank next); cbn [negb]; [exact Keep|].
  destruct (EnglishProcessor.merged_pair config (Py.strip l) (Py.strip next))
    as [m|] eqn:M; [|exact Keep].
  rewrite !visible_text_cons, IH by (simpl; lia).
  rewrite (merged_pair_visible _ _ _ M), !visible_strip, <- app_assoc.
  reflexivity.
Qed.

Lemma merge_short_lines_visible (config : ProcessingConfig) (lines : list str) :
  visible_text (EnglishProcessor._merge_short_lines config lines) = visible_text lines.
Proof.
  unfold EnglishProcessor._merge_short_lines.
  destruct (length lines <=? 1)%nat; [reflexivity|apply merge_short_loop_visible].
Qed.

Lemma chinese_lines_visible (config : ProcessingConfig) (lines : list str) :
  let merged :=
    let formatted := ChineseProcessor._process_dialogue_format lines in
    if (1 <? length formatted)%nat
    then ChineseProcessor._smart_merge_lines config formatted else formatted in
  visible_text (ChineseProcessor._apply_line_breaking config merged)
  = visible_text lines.
Proof.
  cbv zeta. unfold ChineseProcessor._apply_line_breaking.
  rewrite apply_breaking_visible.
  - destruct (1 <? _)%nat.
    + rewrite chinese_merge_visible. apply dialogue_format_visible.
    + apply dialogue_format_visible.
  - intros l. apply chinese_break_visible.
Qed.

Lemma korean_lines_visible (config : ProcessingConfig) (lines : list str) :
  let merged :=
    let formatted := KoreanProcessor._process_dialogue_format lines in
    if (1 <? length formatted)%nat
    then KoreanProcessor._smart_merge_lines config formatted else formatted in
  visible_text (KoreanProcessor._apply_line_breaking config merged)
  = visible_text lines.
Proof.
  cbv zeta. unfold KoreanProcessor._apply_line_breaking.
  rewrite apply_breaking_visible.
  - destruct (1 <? _)%nat.
    + rewrite korean_merge_visible. apply dialogue_format_visible.
    + apply dialogue_format_visible.
  - intros l. apply korean_break_visible.
Qed.

Lemma english_lines_visible (lower : str -> str) (config : ProcessingConfig)
    (lines : list str) :
  let merged :=
    let formatted := EnglishProcessor._process_dialogue_format lines in
    if (1 <? length formatted)%nat
    then EnglishProcessor._smart_merge_lines lower config formatted
    else formatted in
  visible_text (EnglishProcessor._apply_line_breaking lower config merged)
  = visible_text lines.
Proof.
  cbv zeta. unfold EnglishProcessor._apply_line_breaking.
  rewrite apply_breaking_visible.
  - destruct (1 <? _)%nat.
    + rewrite english_merge_visible. apply dialogue_format_visible.
    + apply dialogue_format_visible.
  - intros l. apply english_break_visible.
Qed.

(** X4: processing a block never loses, adds or reorders a visible
    character of its text, but for the full stop that the Chinese and
    Korean engines may add at the very end when the punctuation pass is
    enabled: the visible characters of the lines of [process_block],
    read in order, are those of the lines of the block, followed by the
    ideographic full stop (Chinese) or the full stop (Korean) if it was
    added.  The English engine adds nothing. *)
Theorem process_block_keeps_visible_characters (lower : str -> str)
    (config : ProcessingConfig) (block : SubtitleBlock) :
  same_up_to_stop config 12290 (lines block)
    (lines (ChineseProcessor.process_block config block))
  /\ same_up_to_stop config 46 (lines block)
       (lines (KoreanProcessor.process_block config block))
  /\ visible_text (lines (EnglishProcessor.process_block lower config block))
     = visible_text (lines block).
Proof.
  repeat split.
  - unfold ChineseProcessor.process_block, same_up_to_stop.
    destruct (lines block) as [|l ls] eqn:E; [left; rewrite E; reflexivity|].
    cbn [lines]. pose proof (chinese_lines_visible config (l :: ls)) as V.
    cbv zeta in V. destruct (no_punct_fix config); cbn [negb].
    + left. exact V.
    + destruct (chinese_punctuation_visible
                  (ChineseProcessor._apply_line_breaking config
                     (if (1 <? length (ChineseProcessor._process_dialogue_format (l :: ls)))%nat
                      then ChineseProcessor._smart_merge_lines config
                             (ChineseProcessor._process_dialogue_format (l :: ls))
                      else ChineseProcessor._process_dialogue_format (l :: ls))))
        as [P|P]; rewrite P, V; [left|right; split]; reflexivity.
  - unfold KoreanProcessor.process_block, same_up_to_stop.
    destruct (lines block) as [|l ls] eqn:E; [left; rewrite E; reflexivity|].
    cbn [lines]. pose proof (korean_lines_visible config (l :: ls)) as V.
    cbv zeta in V. destruct (no_punct_fix config); cbn [negb].
    + left. exact V.
    + destruct (korean_punctuation_visible
                  (KoreanProcessor._apply_line_breaking config
                     (if (1 <? length (KoreanProcessor._process_dialogue_format (l :: ls)))%nat
                      then KoreanProcessor._smart_merge_lines config
                             (KoreanProcessor._process_dialogue_format (l :: ls))
                      else KoreanProcessor._process_dialogue_format (l :: ls))))
        as [P|P]; rewrite P, V; [left|right; split]; reflexivity.
  - unfold EnglishProcessor.process_block.
    destruct (lines block) as [|l ls] eqn:E; [rewrite E; reflexivity|].
    cbn [lines]. rewrite merge_short_lines_visible.
    apply (english_lines_visible lower config (l :: ls)).
Qed.

(** ** Short lines merged again *)

Lemma merged_pair_fits (config : ProcessingConfig) (current_line next_line m : str) :
  EnglishProcessor.merged_pair config current_line next_line = Some m ->
  (Py.len m <= limit_of config)%Z.
Proof.
  unfold EnglishProcessor.merged_pair, limit_of. cbv zeta.
  destruct (if _ : bool then false else _); [|discriminate].
  destruct (if _ : bool then Some _ else _) as [[|c r]|]; try discriminate.
  destruct (Z.leb_spec (Py.len (c :: r))
              (get_character_limit config (config_language config))) as [L|G];
    [|discriminate].
  intros H. injection H as <-. exact L.
Qed.

Lemma merge_short_loop_fits (config : ProcessingConfig) (lines : list str) :
  Forall (fun l => (Py.len l <= limit_of config)%Z \/ In l lines)
    (EnglishProcessor.merge_short_loop config lines)
  /\ (length (EnglishProcessor.merge_short_loop config lines) <= length lines)%nat.
Proof.
  induction lines as [lines IH] using (induction_ltof1 _ (@length str)).
  unfold ltof in IH.
  destruct lines as [|l rest]; [split; [constructor|apply Nat.le_refl]|].
  assert (Keep : Forall (fun x => (Py.len x <= limit_of config)%Z \/ In x (l :: rest))
                   (l :: EnglishProcessor.merge_short_loop config rest)
                 /\ (length (l :: EnglishProcessor.merge_short_loop config rest)
                     <= length (l :: rest))%nat).
  { destruct (IH rest ltac:(simpl; lia)) as [F L]. split; [|simpl; lia].
    constructor; [right; left; reflexivity|].
    apply (Forall_impl _ (P := fun x => (Py.len x <= limit_of config)%Z \/ In x rest));
      [|exact F].
    intros x [H|H]; [left; exact H|right; right; exact H]. }
  cbn [EnglishProcessor.merge_short_loop].
  destruct (is_blank l); [exact Keep|].
  destruct rest as [|next rest']; [exact Keep|].
  destruct (is_blank next); cbn [negb]; [exact Keep|].
  destruct (EnglishProcessor.merged_pair config (Py.strip l) (Py.strip next))
    as [m|] eqn:M; [|exact Keep].
  destruct (IH rest' ltac:(simpl; lia)) as [F L]. split; [|simpl; lia].
  constructor; [left; apply (merged_pair_fits _ _ _ M)|].
  apply (Forall_impl _ (P := fun x => (Py.len x <= limit_of config)%Z \/ In x rest'));
    [|exact F].
  intros x [H|H]; [left; exact H|right; right; right; exact H].
Qed.

(** X5: the last pass of the English engine never builds a line that is
    over the limit: every line that [_merge_short_lines] returns is
    within the character limit of the configuration or is one of the
    lines it was given, unchanged; and it returns no more lines than it
    was given. *)
Theorem merge_short_lines_within_limit (config : ProcessingConfig)
    (lines : list str) :
  Forall (fun l => (Py.len l <= limit_of config)%Z \/ In l lines)
    (EnglishProcessor._merge_short_lines config lines)
  /\ (length (EnglishProcessor._merge_short_lines config lines) <= length lines)%nat.
Proof.
  unfold EnglishProcessor._merge_short_lines.
  destruct (length lines <=? 1)%nat; [|apply merge_short_loop_fits].
  split; [|apply Nat.le_refl].
  apply Forall_forall. intros l Hl. right. exact Hl.
Qed.

(** ** What processing leaves alone *)

Section Frame.

Variable lower : str -> str.

Lemma same_but_lines_refl (b : SubtitleBlock) : same_but_lines b b.
Proof. repeat split. Qed.

Lemma processor_frame (l : Language) (p : Processor)
    (config : ProcessingConfig) (block : SubtitleBlock) :
  SRTProcessor.processors lower l = Some p ->
  same_but_lines (process_block p config block) block.
Proof.
  destruct l; cbn; intros H; try discriminate; injection H as <-; cbn;
    [unfold ChineseProcessor.process_block
    |unfold EnglishProcessor.process_block
    |unfold KoreanProcessor.process_block];
    destruct (lines block); repeat split.
Qed.

Lemma process_one_frame (config : ProcessingConfig) (d : SRTDocument)
    (block : SubtitleBlock) :
  same_but_lines
    (if SRTProcessor._is_bilingual_block block
     then SRTProcessor._process_bilingual_block lower config block
     else match SRTProcessor.processors lower (SRTProcessor.block_language_of d block) with
          | Some processor => process_block processor config block
          | None => block
          end)
    block.
Proof.
  destruct (SRTProcessor._is_bilingual_block block).
  - repeat split.
  - destruct (SRTProcessor.processors lower (SRTProcessor.block_language_of d block))
      as [p|] eqn:E.
    + apply (@processor_frame _ _ config block E).
    + apply same_but_lines_refl.
Qed.

(** X6: processing a document changes the lines of its blocks and
    nothing else: [_process_document] returns as many blocks, in the same
    order, each with the index, the time code, the language and the SDH
    mark it had, in a document with the same source file, detected
    language and encoding. *)
Theorem process_document_frame (config : ProcessingConfig) (d : SRTDocument) :
  same_but_text (SRTProcessor._process_document lower config d) d.
Proof.
  unfold same_but_text, SRTProcessor._process_document.
  cbn [blocks source_file detected_language encoding]. repeat split.
  induction (blocks d) as [|b bs IH]; [constructor|].
  cbn [map]. constructor; [apply process_one_frame|exact IH].
Qed.

Lemma process_document_fields (config : ProcessingConfig) (d : SRTDocument) :
  map index (blocks (SRTProcessor._process_document lower config d))
  = map index (blocks d)
  /\ map time_code (blocks (SRTProcessor._process_document lower config d))
     = map time_code (blocks d)
  /\ map language (blocks (SRTProcessor._process_document lower config d))
     = map language (blocks d).
Proof.
  unfold SRTProcessor._process_document. cbn [blocks].
  induction (blocks d) as [|b bs (I1 & I2 & I3)]; [repeat split|].
  cbn [map]. rewrite I1, I2, I3.
  destruct (process_one_frame config d b) as (Hi & Ht & Hl & _).
  rewrite Hi, Ht, Hl. repeat split.
Qed.

(** X7: a language without an engine: when no block of a document has a
    language for which there is a processor (Japanese, or none
    detected), the validator records no warning whatever the lines hold,
    and, if no block is bilingual either, [_process_document] returns
    the document unchanged. *)
Theorem no_processor_no_change (config : ProcessingConfig) (d : SRTDocument) :
  (forall b, In b (blocks d) ->
             SRTProcessor.processors lower (SRTProcessor.block_language_of d b) = None) ->
  warnings (SRTProcessor.validate_document lower config d) = []
  /\ ((forall b, In b (blocks d) -> SRTProcessor._is_bilingual_block b = false) ->
      SRTProcessor._process_document lower config d = d).
Proof.
  intros H. split.
  - unfold SRTProcessor.validate_document. cbn [warnings].
    induction (blocks d) as [|b bs IH]; [reflexivity|].
    cbn [flat_map]. unfold SRTProcessor.block_warnings at 1.
    rewrite (H b (or_introl eq_refl)). cbn [app].
    apply IH. intros b' Hb'. apply H. right. exact Hb'.
  - intros B. destruct d as [bs sf dl enc].
    unfold SRTProcessor._process_document. cbn [blocks source_file detected_language encoding] in *.
    f_equal. rewrite <- (map_id bs) at 2. apply map_ext_in. intros b Hb.
    rewrite (B b Hb), (H b Hb). reflexivity.
Qed.

End Frame.

Lemma no_processor_no_change_witness :
  warnings (SRTProcessor.validate_document ascii_lower default_config
              japanese_document) = []
  /\ ((forall b, In b (blocks japanese_document) ->
                 SRTProcessor._is_bilingual_block b = false) ->
      SRTProcessor._process_document ascii_lower default_config japanese_document
      = japanese_document).
Proof.
  apply (@no_processor_no_change ascii_lower default_config japanese_document).
  intros b [<-|[]]. reflexivity.
Defined.

(** ** What language detection answers *)

Lemma best_language_in (scores : list (Language * Q)) :
  scores <> [] -> In (LanguageDetector.best_language scores) (map fst scores).
Proof.
  destruct scores as [|first rest]; [congruence|intros _].
  unfold LanguageDetector.best_language.
  assert (G : forall (l : list (Language * Q)) (best : Language * Q),
             In (fst (fold_left
                        (fun best x => if Qlt_bool (snd best) (snd x) then x else best)
                        l best))
                (fst best :: map fst l)).
  { induction l as [|x l IH]; intros best; [left; reflexivity|].
    cbn [fold_left map].
    destruct (IH (if Qlt_bool (snd best) (snd x) then x else best)) as [H|H].
    - destruct (Qlt_bool (snd best) (snd x)); [right; left|left]; exact H.
    - right. right. exact H. }
  apply G.
Qed.

Lemma best_score_detectable (cc : LanguageDetector.char_counts) :
  detectable (LanguageDetector.best_language
                (LanguageDetector._calculate_language_scores cc)).
Proof.
  assert (H : LanguageDetector._calculate_language_scores cc <> [])
    by (unfold LanguageDetector._calculate_language_scores; discriminate).
  apply best_language_in in H.
  unfold LanguageDetector._calculate_language_scores in H at 2.
  cbn [map fst In] in H. unfold detectable.
  destruct H as [H|[H|[H|[H|[]]]]]; rewrite <- H; tauto.
Qed.

Lemma detect_line_language_detectable (line : str) :
  detectable (LanguageDetector.detect_line_language line).
Proof.
  unfold LanguageDetector.detect_line_language.
  destruct (is_blank line); [right; left; reflexivity|apply best_score_detectable].
Qed.

Lemma detect_block_language_detectable (b : SubtitleBlock) :
  detectable (LanguageDetector._detect_block_language b).
Proof.
  unfold LanguageDetector._detect_block_language.
  destruct (is_blank (text b)); [right; left; reflexivity|apply best_score_detectable].
Qed.

Lemma detect_language_detectable (d : SRTDocument) :
  detectable (LanguageDetector.detect_language d).
Proof.
  unfold LanguageDetector.detect_language.
  destruct (blocks d); [right; left; reflexivity|apply best_score_detectable].
Qed.

Lemma detectable_not_auto (l : Language) : detectable l -> l <> AUTO.
Proof. intros [H|[H|[H|H]]]; rewrite H; discriminate. Qed.

(** ** The configuration after a file in auto mode *)

(** C9, a defect of the code: the configuration of the caller is not
    left as it was.  In auto mode [process_file] and [check_file_only]
    assign the detected language to the configuration object that the
    processor was given ([self.config.language = detected_language]).
    So every call in auto mode on a file that parses changes the
    language field of that object, and the processor is in auto mode
    no longer: the next file of a batch, which goes through the same
    processor, is not detected but named after the first.  The Japanese
    file, which alone is found to be Japanese, is named English after
    the English file, by [process_file] and by [check_file_only].
    ([_process_bilingual_block], next to them, builds a new
    configuration with [dataclasses.replace] and leaves the object as it
    is.) *)
Theorem C9_auto_language_overwritten :
  (forall (lower : str -> str) (f : input_file) (config : ProcessingConfig)
          (document : SRTDocument),
      SRTProcessor.parse_file f (force_encoding config) = Some (Ok document) ->
      config_language config = AUTO ->
      snd (SRTProcessor.process_file lower f config)
      = replace_language config (LanguageDetector.detect_language document)
      /\ snd (SRTProcessor.check_file_only lower f config)
         = replace_language config (LanguageDetector.detect_language document)
      /\ replace_language config (LanguageDetector.detect_language document)
         <> config)
  /\ config_language default_config = AUTO
  /\ config_language
       (snd (SRTProcessor.process_file ascii_lower english_file default_config))
     = ENGLISH
  /\ (exists doc text config',
        SRTProcessor.process_file ascii_lower japanese_file default_config
        = (Some (Ok (doc, text)), config')
        /\ detected_language doc = Some JAPANESE)
  /\ (exists doc text config',
        SRTProcessor.process_file ascii_lower japanese_file
          (snd (SRTProcessor.process_file ascii_lower english_file
                  default_config))
        = (Some (Ok (doc, text)), config')
        /\ detected_language doc = Some ENGLISH)
  /\ (exists results config',
        SRTProcessor.check_file_only ascii_lower japanese_file
          (snd (SRTProcessor.check_file_only ascii_lower english_file
                  default_config))
        = (Some (Ok results), config')
        /\ stat_detected_language (stats (validation results)) = Some ENGLISH).
Proof.
  split; [|split; [|split; [|split; [|split]]]].
  - intros lower f config document P A.
    rewrite process_file_config, check_file_only_config, P.
    unfold config_after. rewrite A.
    split; [reflexivity|]. split; [reflexivity|].
    intros E. apply (f_equal config_language) in E.
    cbn [config_language replace_language] in E.
    rewrite A in E.
    exact (detectable_not_auto (detect_language_detectable document) E).
  - reflexivity.
  - vm_compute. reflexivity.
  - eexists. eexists. eexists. split; [vm_compute; reflexivity|reflexivity].
  - eexists. eexists. eexists. split; [vm_compute; reflexivity|reflexivity].
  - eexists. eexists. split; [vm_compute; reflexivity|reflexivity].
Qed.

(** ** Bilingual blocks *)

Lemma Language_eqb_eq (a b : Language) : Language_eqb a b = true <-> a = b.
Proof. destruct a, b; cbn; split; intros H; try reflexivity; discriminate. Qed.

Lemma Language_eqb_neq (a b : Language) : Language_eqb a b = false <-> a <> b.
Proof.
  destruct (Language_eqb a b) eqn:E.
  - apply Language_eqb_eq in E. split; [discriminate|congruence].
  - split; [|reflexivity]. intros _ H. apply Language_eqb_eq in H. congruence.
Qed.

(** Once one language has been seen, the scan looks for a line of
    another one. *)
Lemma bilingual_scan_seen (ls : list str) (x : Language) :
  SRTProcessor.bilingual_scan ls [x] = true
  <-> exists l, In l ls /\ is_blank l = false
                /\ LanguageDetector.detect_line_language l <> x.
Proof.
  induction ls as [|l ls IH]; cbn [SRTProcessor.bilingual_scan].
  - split; [discriminate|intros (l & [] & _)].
  - destruct (is_blank l) eqn:B.
    + rewrite IH. split; intros (l' & Hin & Hb & Hd).
      * exists l'. split; [right; exact Hin|split; assumption].
      * destruct Hin as [<-|Hin]; [congruence|].
        exists l'. repeat split; assumption.
    + unfold SRTProcessor.add_language. cbn [existsb]. rewrite orb_false_r.
      destruct (Language_eqb (LanguageDetector.detect_line_language l) x) eqn:E.
      * cbn [length Nat.ltb Nat.leb]. rewrite IH.
        apply Language_eqb_eq in E.
        split; intros (l' & Hin & Hb & Hd).
        -- exists l'. split; [right; exact Hin|split; assumption].
        -- destruct Hin as [<-|Hin]; [congruence|].
           exists l'. repeat split; assumption.
      * cbn [app length Nat.ltb Nat.leb]. apply Language_eqb_neq in E.
        split; [intros _|reflexivity].
        exists l. split; [left; reflexivity|split; assumption].
Qed.

Lemma bilingual_scan_start (ls : list str) :
  SRTProcessor.bilingual_scan ls [] = true
  <-> exists l1 l2, In l1 ls /\ In l2 ls
        /\ is_blank l1 = false /\ is_blank l2 = false
        /\ LanguageDetector.detect_line_language l1
           <> LanguageDetector.detect_line_language l2.
Proof.
  induction ls as [|l ls IH]; cbn [SRTProcessor.bilingual_scan].
  - split; [discriminate|intros (l1 & _ & [] & _)].
  - destruct (is_blank l) eqn:B.
    + rewrite IH. split; intros (l1 & l2 & H1 & H2 & B1 & B2 & D).
      * exists l1, l2. repeat split; try assumption; right; assumption.
      * destruct H1 as [<-|H1]; [congruence|].
        destruct H2 as [<-|H2]; [congruence|].
        exists l1, l2. repeat split; assumption.
    + unfold SRTProcessor.add_language. cbn [existsb app length Nat.ltb Nat.leb].
      rewrite bilingual_scan_seen. split.
      * intros (l2 & H2 & B2 & D). exists l2, l.
        repeat split; try assumption; [right; exact H2|left; reflexivity].
      * intros (l1 & l2 & H1 & H2 & B1 & B2 & D).
        destruct H1 as [<-|H1]; destruct H2 as [<-|H2].
        -- congruence.
        -- exists l2. repeat split; try assumption. congruence.
        -- exists l1. repeat split; assumption.
        -- destruct (Language_eqb (LanguageDetector.detect_line_language l1)
                       (LanguageDetector.detect_line_language l)) eqn:E.
           ++ apply Language_eqb_eq in E. exists l2.
              repeat split; try assumption. congruence.
           ++ apply Language_eqb_neq in E. exists l1.
              repeat split; assumption.
Qed.

(** X8: a block is treated as bilingual exactly when two of its lines
    that are not blank are detected as different languages. *)
Theorem bilingual_block_iff (block : SubtitleBlock) :
  SRTProcessor._is_bilingual_block block = true
  <-> exists l1 l2, In l1 (lines block) /\ In l2 (lines block)
        /\ is_blank l1 = false /\ is_blank l2 = false
        /\ LanguageDetector.detect_line_language l1
           <> LanguageDetector.detect_line_language l2.
Proof.
  unfold SRTProcessor._is_bilingual_block.
  destruct (length (lines block) <? 2)%nat eqn:L.
  - split; [discriminate|].
    intros (l1 & l2 & H1 & H2 & _ & _ & D). exfalso.
    apply Nat.ltb_lt in L.
    destruct (lines block) as [|a [|b r]]; cbn in L; try lia.
    + destruct H1.
    + destruct H1 as [<-|[]]; destruct H2 as [<-|[]]. congruence.
  - apply bilingual_scan_start.
Qed.

(** ** What a warning says *)

Lemma line_warnings_justified (config : ProcessingConfig) (i : Z) (ls : list str) :
  forall before w,
    In w (SRTProcessor.line_warnings config i (Z.of_nat (length before)) ls) ->
    match w with
    | ExceedsCharacterLimit i' line_number line_char_count char_limit line_language =>
        i' = i
        /\ exists line,
             (1 <= line_number)%Z
             /\ nth_error (before ++ ls) (Z.to_nat (line_number - 1)) = Some line
             /\ is_blank line = false
             /\ line_language = LanguageDetector.detect_line_language line
             /\ line_char_count = Py.len line
             /\ char_limit = get_character_limit config line_language
             /\ (char_limit < line_char_count)%Z
    | ReadingSpeedTooFast _ _ _ => False
    end.
Proof.
  induction ls as [|l ls IH]; intros before w Hin; [destruct Hin|].
  cbn [SRTProcessor.line_warnings] in Hin. apply in_app_or in Hin.
  destruct Hin as [Hin|Hin].
  - destruct (is_blank l) eqn:B; [destruct Hin|].
    destruct (Z.ltb_spec (get_character_limit config
                            (LanguageDetector.detect_line_language l)) (Py.len l))
      as [Lt|Ge]; [|destruct Hin].
    destruct Hin as [<-|[]]. split; [reflexivity|].
    exists l. repeat split; try assumption; try lia.
    replace (Z.to_nat (Z.of_nat (length before) + 1 - 1)) with (length before) by lia.
    rewrite nth_error_app2, Nat.sub_diag by lia. reflexivity.
  - replace (Z.of_nat (length before) + 1)%Z
      with (Z.of_nat (length (before ++ [l]))) in Hin
      by (rewrite length_app; cbn [length]; lia).
    specialize (IH (before ++ [l]) w Hin).
    rewrite <- app_assoc in IH. exact IH.
Qed.

Lemma block_warnings_justified (lower : str -> str) (config : ProcessingConfig)
    (d : SRTDocument) (b : SubtitleBlock) (w : warning) :
  In b (blocks d) ->
  In w (SRTProcessor.block_warnings lower config d b) ->
  justified lower config d w.
Proof.
  intros Hb Hin. unfold SRTProcessor.block_warnings in Hin. cbv zeta in Hin.
  destruct (SRTProcessor.processors lower (SRTProcessor.block_language_of d b))
    as [processor|] eqn:P; [|destruct Hin].
  apply in_app_or in Hin. destruct Hin as [Hin|Hin].
  - apply (line_warnings_justified config (index b) (lines b) []) in Hin.
    destruct w as [i n c lim lang|]; [|destruct Hin].
    destruct Hin as (-> & line & H).
    exists b, processor. repeat split; try assumption.
    exists line. exact H.
  - destruct (no_speed_check config) eqn:S; cbn [negb] in Hin; [destruct Hin|].
    destruct (validate_reading_speed processor config b) eqn:V; cbn [negb] in Hin;
      [destruct Hin|].
    destruct Hin as [<-|[]].
    exists b, processor. repeat split; assumption.
Qed.

(** X9: the validator raises no warning without cause.  Every warning of
    [validate_document] names a block of the document whose language
    has a processor; a character warning gives the position, the
    length, the detected language and the limit of a line of that block
    that is not blank and is longer than its limit; a speed warning is
    given only when the speed check is enabled and the engine of the
    language of the block rejects its reading speed. *)
Theorem warnings_are_justified (lower : str -> str) (config : ProcessingConfig)
    (d : SRTDocument) :
  Forall (justified lower config d)
    (warnings (SRTProcessor.validate_document lower config d)).
Proof.
  apply Forall_forall. intros w Hin.
  unfold SRTProcessor.validate_document in Hin. cbn [warnings] in Hin.
  apply in_flat_map in Hin. destruct Hin as (b & Hb & Hw).
  exact (@block_warnings_justified lower config d b w Hb Hw).
Qed.

Lemma warning_blocks_are_blocks (lower : str -> str) (config : ProcessingConfig)
    (d : SRTDocument) :
  incl (map warning_block (warnings (SRTProcessor.validate_document lower config d)))
       (map index (blocks d)).
Proof.
  intros i Hi. apply in_map_iff in Hi. destruct Hi as (w & <- & Hw).
  unfold SRTProcessor.validate_document in Hw. cbn [warnings] in Hw.
  apply in_flat_map in Hw. destruct Hw as (b & Hb & Hw).
  destruct (@block_warnings_justified lower config d b w Hb Hw)
    as (b' & _ & Hb' & -> & _).
  apply in_map. exact Hb'.
Qed.

(** ** The compliance figures of the check-only mode *)

Lemma nodup_nil_iff {A : Type} (dec : forall x y : A, {x = y} + {x <> y})
    (l : list A) :
  nodup dec l = [] <-> l = [].
Proof.
  split; [|intros ->; reflexivity].
  destruct l as [|x l]; [reflexivity|]. intros H.
  assert (I : In x (nodup dec (x :: l))) by (apply nodup_In; left; reflexivity).
  rewrite H in I. destruct I.
Qed.

Lemma warned_blocks_bound (lower : str -> str) (config : ProcessingConfig)
    (d : SRTDocument) :
  (length (nodup Z.eq_dec
             (map warning_block
                (warnings (SRTProcessor.validate_document lower config d))))
   <= length (blocks d))%nat.
Proof.
  rewrite <- (length_map index (blocks d)).
  apply NoDup_incl_length; [apply NoDup_nodup|].
  intros i Hi. apply nodup_In in Hi.
  exact (@warning_blocks_are_blocks lower config d i Hi).
Qed.

Lemma rate_bounds (c t : Z) :
  (0 <= c <= t)%Z -> (0 < t)%Z ->
  (0 <= inject_Z c / inject_Z t * 100)%Q
  /\ (inject_Z c / inject_Z t * 100 <= 100)%Q
  /\ ((inject_Z c / inject_Z t * 100 == 100)%Q <-> c = t).
Proof.
  intros Hc Ht. destruct t as [|p|p]; try lia.
  unfold Qle, Qeq, Qdiv, Qmult, Qinv, inject_Z. cbn [Qnum Qden].
  rewrite !Pos.mul_1_l, !Pos.mul_1_r, !Z.mul_1_r.
  repeat split; try lia.
Qed.

(** X10: the figures of the check-only mode are consistent.  When
    [check_file_only] returns a result, the number of compliant blocks
    lies between zero and the number of blocks, the compliance rate lies
    between 0 and 100, and the rate is 100 exactly when the document has
    a block and the validator raised no warning. *)
Theorem check_file_only_compliance (lower : str -> str) (f : input_file)
    (config config' : ProcessingConfig) (r : check_results) :
  SRTProcessor.check_file_only lower f config = (Some (Ok r), config') ->
  let total := stat_total_blocks (stats (validation r)) in
  total = Z.of_nat (length (blocks (original_document r)))
  /\ (0 <= compliant_blocks r <= total)%Z
  /\ (0 <= compliance_rate r)%Q /\ (compliance_rate r <= 100)%Q
  /\ ((compliance_rate r == 100)%Q
      <-> (0 < total)%Z /\ warnings (validation r) = []).
Proof.
  unfold SRTProcessor.check_file_only, SRTProcessor.mbind,
    SRTProcessor.get_config, SRTProcessor.ret.
  destruct (SRTProcessor.parse_file f (force_encoding config)) as [[d|e]|];
    try discriminate.
  destruct (SRTProcessor.prepare d config) as [d' c']. cbv zeta.
  intros H.
  pose proof (@warned_blocks_bound lower c' d') as B.
  assert (T : stat_total_blocks (stats (SRTProcessor.validate_document lower c' d'))
              = Z.of_nat (length (blocks d'))) by reflexivity.
  remember (SRTProcessor.validate_document lower c' d') as v eqn:V.
  clear V. injection H as <- <-.
  cbn [validation compliant_blocks compliance_rate original_document].
  rewrite T. set (ws := warnings v) in *.
  assert (N : Z.of_nat (length (nodup Z.eq_dec (map warning_block ws))) = 0%Z
              <-> ws = []).
  { split.
    - intros H. apply map_eq_nil with (f := warning_block).
      apply (nodup_nil_iff Z.eq_dec). apply length_zero_iff_nil.
      apply Nat2Z.inj. exact H.
    - intros ->. reflexivity. }
  set (w := Z.of_nat (length (nodup Z.eq_dec (map warning_block ws)))) in *.
  set (t := Z.of_nat (length (blocks d'))) in *.
  assert (W : (0 <= w <= t)%Z) by (unfold w, t; lia).
  clearbody w t. split; [reflexivity|]. split; [lia|].
  destruct (Z.ltb_spec 0 t) as [P|P].
  - destruct (@rate_bounds (t - w) t) as (R0 & R1 & R2); [lia|exact P|].
    split; [exact R0|]. split; [exact R1|].
    rewrite R2. split.
    + intros E. split; [exact P|]. apply N. lia.
    + intros [_ E]. apply N in E. lia.
  - split; [apply Qle_refl|]. split; [discriminate|].
    split; [discriminate|]. intros [Q _]. lia.
Qed.

Lemma check_file_only_compliance_witness :
  exists r config',
    SRTProcessor.check_file_only ascii_lower english_file default_config
    = (Some (Ok r), config')
    /\ stat_total_blocks (stats (validation r))
       = Z.of_nat (length (blocks (original_document r)))
    /\ (0 <= compliant_blocks r <= stat_total_blocks (stats (validation r)))%Z
    /\ (0 <= compliance_rate r)%Q /\ (compliance_rate r <= 100)%Q
    /\ ((compliance_rate r == 100)%Q
        <-> (0 < stat_total_blocks (stats (validation r)))%Z
            /\ warnings (validation r) = []).
Proof.
  eexists. eexists.
  refine ((fun E => conj E (@check_file_only_compliance ascii_lower english_file
                              default_config _ _ E)) _).
  vm_compute. reflexivity.
Defined.

(** ** What whole-file processing returns *)

Lemma reindex_language (bs : list SubtitleBlock) :
  forall i, map language (reindex i bs) = map language bs.
Proof.
  induction bs as [|b bs IH]; intros i; [reflexivity|].
  cbn [reindex map]. rewrite IH. reflexivity.
Qed.

Lemma sdh_survivors_marked (bs : list SubtitleBlock) :
  Forall marked bs -> Forall marked (sdh_survivors bs).
Proof.
  induction 1 as [|b bs Hb _ IH]; [constructor|].
  unfold sdh_survivors. cbn [flat_map]. apply Forall_app. split; [|exact IH].
  destruct (is_sdh_only_block b); [constructor|]. cbv zeta.
  destruct (lines (clean_sdh_markers b)); [constructor|].
  destruct (existsb _ _); constructor; [exact Hb|constructor].
Qed.

Lemma marked_language (bs bs' : list SubtitleBlock) :
  map language bs' = map language bs -> Forall marked bs -> Forall marked bs'.
Proof.
  revert bs'. induction bs as [|b bs IH]; intros [|b' bs'] E H;
    try discriminate; [constructor|].
  cbn [map] in E. injection E as E1 E2. inversion H as [|? ? Hb Hbs]; subst.
  constructor; [|apply IH; assumption].
  unfold marked in *. rewrite E1. exact Hb.
Qed.

Lemma detect_block_languages_marked (d : SRTDocument) :
  Forall marked (blocks (LanguageDetector.detect_block_languages d)).
Proof.
  unfold LanguageDetector.detect_block_languages. cbn [blocks].
  apply Forall_forall. intros b Hb. apply in_map_iff in Hb.
  destruct Hb as (b0 & <- & _).
  exists (LanguageDetector._detect_block_language b0).
  split; [reflexivity|apply detect_block_language_detectable].
Qed.

(** What [prepare] hands to the engines and to the validator. *)
Lemma prepare_result (config config' : ProcessingConfig) (d d' : SRTDocument) :
  SRTProcessor.prepare d config = (d', config') ->
  source_file d' = source_file d
  /\ encoding d' = encoding d
  /\ detected_language d' = Some (config_language config')
  /\ config_language config' <> AUTO
  /\ Forall marked (blocks d')
  /\ (remove_sdh config = true ->
      map index (blocks d') = Z_range 1 (length (blocks d')))
  /\ (remove_sdh config = false ->
      map index (blocks d') = map index (blocks d)
      /\ map time_code (blocks d') = map time_code (blocks d)
      /\ map lines (blocks d') = map lines (blocks d)).
Proof.
  unfold SRTProcessor.prepare, SRTProcessor.mbind, SRTProcessor.get_config,
    SRTProcessor.ret, SRTProcessor.assign_language.
  assert (G : forall l c, config_language c = l -> l <> AUTO ->
            remove_sdh c = remove_sdh config ->
            ((if remove_sdh c
              then remove_sdh_blocks_and_clean_content
                     (LanguageDetector.detect_block_languages
                        (SRTProcessor.set_detected_language d l))
              else LanguageDetector.detect_block_languages
                     (SRTProcessor.set_detected_language d l)), c) = (d', config') ->
            source_file d' = source_file d
            /\ encoding d' = encoding d
            /\ detected_language d' = Some (config_language config')
            /\ config_language config' <> AUTO
            /\ Forall marked (blocks d')
            /\ (remove_sdh config = true ->
                map index (blocks d') = Z_range 1 (length (blocks d')))
            /\ (remove_sdh config = false ->
                map index (blocks d') = map index (blocks d)
                /\ map time_code (blocks d') = map time_code (blocks d)
                /\ map lines (blocks d') = map lines (blocks d))).
  { intros l c Hl Ha Hr H. injection H as <- <-. rewrite Hr.
    pose proof (detect_block_languages_marked
                  (SRTProcessor.set_detected_language d l)) as M.
    assert (Hd : detected_language
                   (LanguageDetector.detect_block_languages
                      (SRTProcessor.set_detected_language d l))
                 = Some (config_language c)) by (rewrite Hl; reflexivity).
    assert (Hn : config_language c <> AUTO) by (rewrite Hl; exact Ha).
    destruct (remove_sdh config).
    - unfold remove_sdh_blocks_and_clean_content.
      cbn [source_file encoding detected_language blocks].
      split; [reflexivity|]. split; [reflexivity|]. split; [exact Hd|].
      split; [exact Hn|]. split; [|split; [|discriminate]].
      + apply (@marked_language (sdh_survivors
                 (blocks (LanguageDetector.detect_block_languages
                            (SRTProcessor.set_detected_language d l))))).
        * apply reindex_language.
        * apply sdh_survivors_marked. exact M.
      + intros _. rewrite reindex_indices, reindex_length. reflexivity.
    - split; [reflexivity|]. split; [reflexivity|]. split; [exact Hd|].
      split; [exact Hn|]. split; [exact M|]. split; [discriminate|].
      intros _.
      cbn [LanguageDetector.detect_block_languages blocks
           SRTProcessor.set_detected_language].
      rewrite !map_map. repeat split. }
  destruct (config_language config) eqn:L; intros H;
    try (apply (G _ config L); [discriminate|reflexivity|exact H]).
  apply (G (LanguageDetector.detect_language d)
           (replace_language config (LanguageDetector.detect_language d)));
    [reflexivity|apply detectable_not_auto, detect_language_detectable
    |reflexivity|exact H].
Qed.

(** X11: what whole-file processing returns.  When [process_file] returns
    a document, the text it writes is that document in the wire format;
    the document names as its source the input path as [str(Path(...))]
    writes it, without the empty parts and the lone dots, and it names a
    language that is not auto, the one the configuration holds
    afterwards; every block
    carries a language mark; with SDH removal the blocks are numbered 1,
    2, ..., n; without it the blocks are those that the parser found, in
    the same order with the same indices and time codes. *)
Theorem process_file_result (lower : str -> str) (f : input_file)
    (config config' : ProcessingConfig) (doc : SRTDocument) (text : str) :
  SRTProcessor.process_file lower f config = (Some (Ok (doc, text)), config') ->
  text = to_srt_format doc
  /\ source_file doc = Some (Py.Path_str (path f))
  /\ detected_language doc = Some (config_language config')
  /\ config_language config' <> AUTO
  /\ Forall marked (blocks doc)
  /\ (remove_sdh config = true ->
      map index (blocks doc) = Z_range 1 (length (blocks doc)))
  /\ (remove_sdh config = false ->
      exists parsed,
        _parse_content (content f) = Some (Ok parsed)
        /\ map index (blocks doc) = map index parsed
        /\ map time_code (blocks doc) = map time_code parsed).
Proof.
  unfold SRTProcessor.process_file, SRTProcessor.mbind,
    SRTProcessor.get_config, SRTProcessor.ret.
  destruct (SRTProcessor.parse_file f (force_encoding config)) as [[d|e]|] eqn:P;
    try discriminate.
  destruct (SRTProcessor.prepare d config) as [d' c'] eqn:R. cbv zeta.
  intros H.
  pose proof (@process_document_fields lower c' d') as (Ii & It & Il).
  assert (Fs : source_file (SRTProcessor._process_document lower c' d')
               = source_file d') by reflexivity.
  assert (Fd : detected_language (SRTProcessor._process_document lower c' d')
               = detected_language d') by reflexivity.
  remember (SRTProcessor._process_document lower c' d') as doc' eqn:D.
  injection H as <- <- <-.
  destruct (@prepare_result config c' d d' R) as (Rs & Re & Rd & Ra & Rm & Ri & Rk).
  unfold SRTProcessor.parse_file in P.
  destruct (_parse_content (content f)) as [[parsed|e]|] eqn:C; try discriminate.
  injection P as <-. cbn [source_file blocks] in *.
  repeat split; try congruence.
  - apply (@marked_language (blocks d')); assumption.
  - intros S. rewrite Ii, (Ri S), <- (length_map index (blocks doc')), Ii, length_map.
    reflexivity.
  - intros S. destruct (Rk S) as (K1 & K2 & _). exists parsed.
    repeat split; congruence.
Qed.

Lemma process_file_result_witness :
  exists doc text config',
    SRTProcessor.process_file ascii_lower english_file default_config
    = (Some (Ok (doc, text)), config')
    /\ text = to_srt_format doc
    /\ source_file doc = Some (Py.Path_str (path english_file))
    /\ detected_language doc = Some (config_language config')
    /\ config_language config' <> AUTO
    /\ Forall marked (blocks doc)
    /\ (remove_sdh default_config = true ->
        map index (blocks doc) = Z_range 1 (length (blocks doc)))
    /\ (remove_sdh default_config = false ->
        exists parsed,
          _parse_content (content english_file) = Some (Ok parsed)
          /\ map index (blocks doc) = map index parsed
          /\ map time_code (blocks doc) = map time_code parsed).
Proof.
  eexists. eexists. eexists.
  refine ((fun E => conj E (@process_file_result ascii_lower english_file
                              default_config _ _ _ E)) _).
  vm_compute. reflexivity.
Defined.

(** The source of a document is the path in the form of [pathlib], not
    the text that the caller wrote: the same file under [./en.srt] has
    the source [en.srt]. *)
Example source_file_normalised :
  Py.Path_str (lit "./en.srt") = lit "en.srt"
  /\ Py.Path_str (lit "subs//en/../a.srt") = lit "subs/en/../a.srt"
  /\ Py.Path_str (lit "//host/a.srt/") = lit "//host/a.srt"
  /\ Py.Path_str (lit "///a.srt") = lit "/a.srt"
  /\ Py.Path_str [] = lit "."
  /\ match
       fst (SRTProcessor.process_file ascii_lower
              {| path := lit "./en.srt"; content := content english_file;
                 detected_encoding := utf_8 |} default_config)
     with
     | Some (Ok (doc, _)) => source_file doc = Some (lit "en.srt")
     | _ => False
     end.
Proof. vm_compute. repeat split; reflexivity. Qed.

(** ** A time code, written and read *)

Lemma value_of_zeros (k : nat) (ds : str) :
  value_of (repeat 48 k ++ ds) 0 = value_of ds 0.
Proof. induction k as [|k IH]; [reflexivity|exact IH]. Qed.

Lemma zero_pad_nonneg (w : nat) (v : Z) :
  (0 <= v)%Z ->
  forallb ascii_digit (Py.zero_pad w v) = true
  /\ Py.int (Py.zero_pad w v) = Some v.
Proof.
  intros H.
  destruct (str_of_N_digits (Z.abs_N v)) as [D Hne].
  assert (E : Py.zero_pad w v
              = repeat 48 (w - length (Py.str_of_N (Z.abs_N v)))
                ++ Py.str_of_N (Z.abs_N v))
    by (destruct v; [reflexivity|reflexivity|lia]).
  assert (Dp : forallb ascii_digit (Py.zero_pad w v) = true).
  { rewrite E, forallb_app. apply andb_true_iff. split; [|exact D].
    apply forallb_forall. intros c Hc. apply repeat_spec in Hc. subst c.
    reflexivity. }
  split; [exact Dp|].
  rewrite int_ascii_digits; [|exact Dp|].
  - rewrite E, value_of_zeros, str_of_N_value. f_equal. lia.
  - rewrite E. intros N. apply app_eq_nil in N. destruct N as [_ N].
    exact (Hne N).
Qed.

Lemma fields_nonneg (td : timedelta) :
  (0 <= td)%Z ->
  (0 <= hours_of td /\ 0 <= minutes_of td /\ 0 <= seconds_of td
   /\ 0 <= milliseconds_of td
   /\ (((hours_of td * 60 + minutes_of td) * 60 + seconds_of td) * 1000
       + milliseconds_of td) * 1000 = whole_milliseconds td)%Z.
Proof.
  intros Hr. unfold hours_of, minutes_of, seconds_of, milliseconds_of,
    whole_milliseconds.
  rewrite Z.quot_div_nonneg by lia.
  pose proof (Z.div_mod td 1000000 ltac:(lia)) as E1.
  pose proof (Z.mod_pos_bound td 1000000 ltac:(lia)) as B1.
  set (q := (td / 1000000)%Z) in *. set (u := (td mod 1000000)%Z) in *.
  pose proof (Z.div_mod q 3600 ltac:(lia)) as E2.
  pose proof (Z.mod_pos_bound q 3600 ltac:(lia)) as B2.
  pose proof (Z.div_mod q 60 ltac:(lia)) as E3.
  pose proof (Z.mod_pos_bound q 60 ltac:(lia)) as B3.
  set (h := (q / 3600)%Z) in *. set (r := (q mod 3600)%Z) in *.
  pose proof (Z.div_mod r 60 ltac:(lia)) as E4.
  pose proof (Z.mod_pos_bound r 60 ltac:(lia)) as B4.
  pose proof (Z.div_mod u 1000 ltac:(lia)) as E5.
  pose proof (Z.mod_pos_bound u 1000 ltac:(lia)) as B5.
  pose proof (Z.div_mod td 1000 ltac:(lia)) as E6.
  pose proof (Z.mod_pos_bound td 1000 ltac:(lia)) as B6.
  set (mi := (r / 60)%Z) in *. set (s' := (r mod 60)%Z) in *.
  set (s := (q mod 60)%Z) in *. set (q60 := (q / 60)%Z) in *.
  set (ms := (u / 1000)%Z) in *. set (u' := (u mod 1000)%Z) in *.
  set (k := (td / 1000)%Z) in *. set (k' := (td mod 1000)%Z) in *.
  clearbody q u h r mi s s' q60 ms u' k k'. lia.
Qed.

Lemma parse_fields_format_nonneg (td : timedelta) :
  exactly_written td ->
  _parse_fields (_format_time td)
  = Ok (hours_of td, minutes_of td, seconds_of td, milliseconds_of td).
Proof.
  intros [H X]. destruct (@fields_nonneg td H) as (Hh & Hm & Hs & Hms & _).
  destruct (@zero_pad_nonneg 2 _ Hh) as (Dh & Ih).
  destruct (@zero_pad_nonneg 2 _ Hm) as (Dm & Im).
  destruct (@zero_pad_nonneg 2 _ Hs) as (Ds & Is).
  destruct (@zero_pad_nonneg 3 _ Hms) as (Dms & Ims).
  rewrite (@format_time_fields td X). unfold _parse_fields, Py.split.
  change (lit ":") with [58]. change (lit ",") with [44].
  rewrite split_first_piece by (apply ascii_digits_without; [reflexivity|exact Dh]).
  rewrite split_first_piece by (apply ascii_digits_without; [reflexivity|exact Dm]).
  rewrite split_last_piece.
  2:{ rewrite !without_app.
      rewrite (@ascii_digits_without 58 _ eq_refl Ds).
      rewrite (@ascii_digits_without 58 _ eq_refl Dms). reflexivity. }
  cbn [rev]. rewrite app_nil_l.
  rewrite split_first_piece by (apply ascii_digits_without; [reflexivity|exact Ds]).
  rewrite split_last_piece by (apply ascii_digits_without; [reflexivity|exact Dms]).
  cbn [rev]. rewrite app_nil_l. rewrite Ih, Im, Is, Ims. reflexivity.
Qed.

Lemma parse_time_format_nonneg (td : timedelta) :
  exactly_written td ->
  _parse_time (_format_time td) = Ok (whole_milliseconds td).
Proof.
  intros W. unfold _parse_time.
  rewrite (@parse_fields_format_nonneg td W). cbn [bind].
  destruct W as [H0 H1]. unfold exact_seconds in H1.
  destruct (@fields_nonneg td H0) as (_ & _ & _ & _ & E).
  unfold mk_timedelta. rewrite E.
  assert (B : ((- MAX_DAYS * US_PER_DAY <=? whole_milliseconds td)
               && (whole_milliseconds td <? (MAX_DAYS + 1) * US_PER_DAY))%Z = true).
  { unfold whole_milliseconds.
    pose proof (Z.mod_pos_bound td 1000 ltac:(lia)) as M.
    set (k := (td mod 1000)%Z) in *. clearbody k.
    apply andb_true_iff. unfold MAX_DAYS, US_PER_DAY in *.
    split; [apply Z.leb_le|apply Z.ltb_lt]; lia. }
  rewrite B. reflexivity.
Qed.

Lemma format_time_without_space (td : timedelta) :
  exactly_written td -> without 32 (_format_time td) = true.
Proof.
  intros [H X]. destruct (@fields_nonneg td H) as (Hh & Hm & Hs & Hms & _).
  destruct (@zero_pad_nonneg 2 _ Hh) as (Dh & _).
  destruct (@zero_pad_nonneg 2 _ Hm) as (Dm & _).
  destruct (@zero_pad_nonneg 2 _ Hs) as (Ds & _).
  destruct (@zero_pad_nonneg 3 _ Hms) as (Dms & _).
  rewrite (@format_time_fields td X), !without_app.
  rewrite (@ascii_digits_without 32 _ eq_refl Dh),
    (@ascii_digits_without 32 _ eq_refl Dm),
    (@ascii_digits_without 32 _ eq_refl Ds),
    (@ascii_digits_without 32 _ eq_refl Dms).
  reflexivity.
Qed.

(** X12: a time code that is written is read back, up to [2 ** 34]
    seconds.  For start and end times that are not negative and below
    [2 ** 34] seconds (some 544 years), [from_srt_time] applied to the
    text of [to_srt_format] succeeds and returns the two times without
    what they have below a millisecond; it returns the time code itself
    when both are whole numbers of milliseconds.  A hundred hours are no
    bound: the hours are written with as many digits as they need.  The
    bound is that of the [float] of [total_seconds], which up to there
    has the whole seconds of the time before its point. *)
Theorem time_code_read_back (tc : TimeCode) :
  exactly_written (start tc) -> exactly_written (end_ tc) ->
  from_srt_time (TimeCode_to_srt_format tc)
  = Ok {| start := whole_milliseconds (start tc);
          end_ := whole_milliseconds (end_ tc) |}
  /\ ((start tc mod 1000 = 0)%Z -> (end_ tc mod 1000 = 0)%Z ->
      from_srt_time (TimeCode_to_srt_format tc) = Ok tc).
Proof.
  intros Hs He.
  assert (R : from_srt_time (TimeCode_to_srt_format tc)
              = Ok {| start := whole_milliseconds (start tc);
                      end_ := whole_milliseconds (end_ tc) |}).
  { unfold from_srt_time, TimeCode_to_srt_format, Py.split.
    change (lit " --> ") with SEP. unfold SEP.
    rewrite split_first_piece by (apply format_time_without_space, Hs).
    rewrite split_last_piece by (apply format_time_without_space, He).
    cbn [rev app].
    rewrite (@parse_time_format_nonneg _ Hs), (@parse_time_format_nonneg _ He).
    reflexivity. }
  split; [exact R|].
  intros Ms Me. rewrite R. unfold whole_milliseconds. rewrite Ms, Me, !Z.sub_0_r.
  destruct tc. reflexivity.
Qed.

Lemma time_code_read_back_witness :
  from_srt_time (TimeCode_to_srt_format hundred_hours)
  = Ok {| start := whole_milliseconds (start hundred_hours);
          end_ := whole_milliseconds (end_ hundred_hours) |}
  /\ ((start hundred_hours mod 1000 = 0)%Z ->
      (end_ hundred_hours mod 1000 = 0)%Z ->
      from_srt_time (TimeCode_to_srt_format hundred_hours) = Ok hundred_hours).
Proof.
  apply (@time_code_read_back hundred_hours);
    unfold exactly_written, exact_seconds; cbn [start end_ hundred_hours]; lia.
Defined.

(** Beyond the bound the division rounds up to the next second.  At
    [2 ** 34] seconds and 999999 microseconds the seconds are written
    one too many, and so are they for the 999 milliseconds after three
    hundred million days, a time of whole milliseconds that is read back
    as another. *)
Example seconds_rounded_up :
  int_of_float (total_seconds_float beyond_exact) = 17179869185%Z
  /\ Z.quot beyond_exact 1000000 = 17179869184%Z
  /\ _format_time late_milliseconds = lit "7200000000:00:01,999"
  /\ (late_milliseconds mod 1000 = 0)%Z
  /\ _parse_time (_format_time late_milliseconds)
     = Ok (late_milliseconds + 1000000)%Z.
Proof. vm_compute. repeat split; reflexivity. Qed.

(** ** What the parser delivers *)

Lemma rstrip_prefix (s : str) :
  exists w, s = Py.rstrip s ++ w /\ forallb Py.isspace w = true.
Proof.
  unfold Py.rstrip.
  destruct (dropwhile_suffix Py.isspace (rev s)) as (pre & E & F).
  exists (rev pre). split.
  - rewrite <- rev_app_distr, <- E, rev_involutive. reflexivity.
  - rewrite forallb_rev. exact F.
Qed.

Lemma rstrip_idempotent (s : str) : Py.rstrip (Py.rstrip s) = Py.rstrip s.
Proof.
  destruct (last_cases (Py.rstrip s)) as [->|(x & e & E)]; [reflexivity|].
  rewrite E. apply rstrip_last. apply (@rstrip_ends s x e E).
Qed.

Lemma rstrip_without (c0 : char) (s : str) :
  without c0 s = true -> without c0 (Py.rstrip s) = true.
Proof.
  intros H. destruct (rstrip_prefix s) as (w & E & _).
  rewrite E, without_app in H. apply andb_true_iff in H. tauto.
Qed.

Lemma strip_rstrip (s : str) : Py.strip (Py.rstrip s) = Py.strip s.
Proof. unfold Py.strip. rewrite rstrip_idempotent. reflexivity. Qed.

Lemma is_blank_rstrip (s : str) : is_blank (Py.rstrip s) = is_blank s.
Proof. unfold is_blank. rewrite strip_rstrip. reflexivity. Qed.

Lemma rstrip_plain (s : str) :
  without NL s = true -> plain_line (Py.rstrip s) = true.
Proof.
  intros H. unfold plain_line. rewrite (@rstrip_without NL s H), rstrip_idempotent.
  unfold str_eqb. destruct (list_eq_dec N.eq_dec (Py.rstrip s) (Py.rstrip s));
    [reflexivity|congruence].
Qed.

Lemma without_rev (c0 : char) (s : str) : without c0 (rev s) = without c0 s.
Proof. apply forallb_rev. Qed.

(** The pieces of a text that is split at the line breaks hold none. *)
Lemma split_lines_without (s : str) :
  forall cur, without NL cur = true ->
    forallb (without NL) (Py.split_go [NL] s 0 cur) = true.
Proof.
  induction s as [|c t IH]; intros cur H; cbn [Py.split_go].
  - cbn [forallb]. rewrite without_rev, H. reflexivity.
  - assert (S : Py.startswith (c :: t) [NL] = (NL =? c)).
    { cbn [Py.startswith]. destruct t; apply andb_true_r. }
    rewrite S. destruct (N.eqb_spec NL c) as [E|E].
    + cbn [forallb length Nat.sub]. rewrite IH by reflexivity.
      rewrite without_rev, H. reflexivity.
    + apply IH. unfold without in *. cbn [forallb].
      apply andb_true_iff. split; [|exact H].
      apply negb_true_iff. apply N.eqb_neq. congruence.
Qed.

(** *** The index line *)

Lemma points_in (lo hi c : N) :
  in_range lo hi c = true -> In c (points (lo, hi)).
Proof.
  unfold in_range, points. cbn [fst snd]. intros H.
  apply andb_true_iff in H. destruct H as [H1 H2].
  apply N.leb_le in H1, H2.
  apply in_map_iff. exists (N.to_nat (c - lo)). split; [lia|].
  apply in_seq. lia.
Qed.

(** [int] refuses the digits that are not decimal. *)
Lemma other_digit_no_int (c : char) :
  existsb (fun r => in_range (fst r) (snd r) c) Py.other_digit_ranges = true ->
  Py.to_ascii_char c = None.
Proof.
  intros H. apply existsb_exists in H. destruct H as ([lo hi] & Hr & Hc).
  cbn [fst snd] in Hc. apply points_in in Hc.
  assert (A : forallb (fun c => match Py.to_ascii_char c with
                                | None => true | Some _ => false end)
                (flat_map points Py.other_digit_ranges) = true)
    by (vm_compute; reflexivity).
  rewrite forallb_forall in A.
  specialize (A c ltac:(apply in_flat_map; exists (lo, hi); split; assumption)).
  destruct (Py.to_ascii_char c); [discriminate|reflexivity].
Qed.

(** An index line that passes [isdigit] and that [int] reads gives an
    index that is not negative. *)
Lemma index_nonneg (s : str) (i : Z) :
  Py.isdigit s = true -> Py.int s = Some i -> (0 <= i)%Z.
Proof.
  destruct s as [|c t]; [discriminate|]. unfold Py.isdigit. cbn [forallb].
  intros H Hi. apply andb_true_iff in H. destruct H as [Hc _].
  unfold Py.isdigit_char in Hc.
  destruct (Py.isdecimal c) eqn:D.
  - apply (@int_after_digit c t i D Hi).
  - cbn [orb] in Hc. apply other_digit_no_int in Hc.
    unfold Py.int in Hi. cbn [Py.to_ascii_decimal] in Hi. rewrite Hc in Hi.
    discriminate.
Qed.

(** *** The time-code line *)

Lemma mk_timedelta_whole (h m s ms : Z) (td : timedelta) :
  mk_timedelta h m s ms = Ok td ->
  (0 <= h)%Z -> (0 <= m)%Z -> (0 <= s)%Z -> (0 <= ms)%Z ->
  (0 <= td)%Z /\ (td mod 1000 = 0)%Z.
Proof.
  unfold mk_timedelta. cbv zeta.
  destruct (_ && _); [|discriminate]. intros H. injection H as <-.
  intros Hh Hm Hs Hms. split; [nia|apply Z.mod_mul; lia].
Qed.

(** A time-code line that is accepted gives two times that are not
    negative and are whole numbers of milliseconds. *)
Lemma parse_time_line_whole (time_line : str) (tc : TimeCode) :
  parse_time_line time_line = Ok tc ->
  (0 <= start tc)%Z /\ (start tc mod 1000 = 0)%Z
  /\ (0 <= end_ tc)%Z /\ (end_ tc mod 1000 = 0)%Z.
Proof.
  intros H. unfold parse_time_line in H.
  destruct (Re.matches time_pattern time_line) eqn:Em; [|discriminate].
  cbn [negb] in H.
  destruct (time_pattern_shape _ Em)
    as (ts1 & w1 & w2 & ts2 & rest & -> & S1 & S2 & Hw1 & Hw2).
  unfold from_srt_time in H. change (lit " --> ") with SEP in *.
  destruct (@split_time_line ts1 w1 w2 ts2 rest S1 S2 Hw1 Hw2)
    as [(x & w2' & -> & -> & Es)|Es]; rewrite Es in *.
  - destruct (Py.split_go SEP (w2' ++ ts2 ++ rest) 0 []) as [|b [|b' l]] eqn:Eb;
      try discriminate.
    apply split_go_singleton in Eb. cbn [rev app] in Eb. subst b.
    unfold _parse_time in H.
    destruct (_parse_fields (ts1 ++ x)) as [[[[h1 m1] s1] ms1]|e] eqn:E1;
      [|discriminate].
    cbn [bind] in H.
    destruct (mk_timedelta h1 m1 s1 ms1) as [st|e] eqn:T1; [|discriminate].
    cbn [bind] in H.
    destruct (_parse_fields (w2' ++ ts2 ++ rest)) as [[[[h2 m2] s2] ms2]|e] eqn:E2;
      [|discriminate].
    cbn [bind] in H.
    destruct (mk_timedelta h2 m2 s2 ms2) as [en|e] eqn:T2; [|discriminate].
    cbn [bind] in H. injection H as <-. cbn [start end_].
    simpl in Hw2.
    destruct (@parse_fields_stamp [] ts1 x h1 m1 s1 ms1 S1 eq_refl E1)
      as (B1 & B2 & B3 & B4 & _).
    destruct (@parse_fields_stamp w2' ts2 rest h2 m2 s2 ms2 S2 Hw2 E2)
      as (C1 & C2 & C3 & C4 & _).
    destruct (@mk_timedelta_whole _ _ _ _ _ T1 ltac:(lia) ltac:(lia) ltac:(lia)
                ltac:(lia)) as [P1 P2].
    destruct (@mk_timedelta_whole _ _ _ _ _ T2 ltac:(lia) ltac:(lia) ltac:(lia)
                ltac:(lia)) as [Q1 Q2].
    repeat split; assumption.
  - destruct (Py.split_go SEP rest 0
                (rev (ts1 ++ w1 ++ ARROW ++ w2 ++ ts2))) as [|a [|b [|b' l]]] eqn:Ea;
      try discriminate.
    apply split_go_head in Ea. destruct Ea as [u ->].
    rewrite rev_involutive in H. unfold _parse_time in H.
    replace ((ts1 ++ w1 ++ ARROW ++ w2 ++ ts2) ++ u)
      with (ts1 ++ (w1 ++ ARROW ++ w2) ++ ts2 ++ u) in H
      by (rewrite <- !app_assoc; reflexivity).
    rewrite parse_fields_two_stamps in H by assumption. discriminate.
Qed.

(** *** The text lines *)

Lemma skip_empty_lines_ge (rest : list str) :
  forall current_line, (current_line <= skip_empty_lines rest current_line)%nat.
Proof.
  induction rest as [|l rest IH]; intros cur; cbn [skip_empty_lines];
    [apply Nat.le_refl|].
  destruct (is_blank l); [|apply Nat.le_refl].
  etransitivity; [|apply IH]. lia.
Qed.

(** The loop takes a first part of the lines, up to the end of the input
    or to the first line that starts the next block. *)
Lemma collect_text_lines_split (rest : list str) :
  forall current_line text_lines,
  exists body rest',
    rest = body ++ rest'
    /\ collect_text_lines rest current_line text_lines
       = (text_lines ++ map Py.rstrip body, (current_line + length body)%nat)
    /\ (forall k, (k < length body)%nat ->
                  at_next_block (skipn k (body ++ rest')) = false).
Proof.
  induction rest as [|l rest IH]; intros cur acc.
  - exists [], []. cbn [collect_text_lines map length app].
    rewrite app_nil_r, Nat.add_0_r. repeat split. intros k Hk. lia.
  - cbn [collect_text_lines]. destruct (at_next_block (l :: rest)) eqn:A.
    + exists [], (l :: rest). cbn [map length app].
      rewrite app_nil_r, Nat.add_0_r. repeat split. intros k Hk. lia.
    + destruct (IH (S cur) (acc ++ [Py.rstrip l])) as (body & rest' & E & C & N).
      exists (l :: body), rest'. rewrite C. cbn [map length app].
      rewrite <- app_assoc, E. repeat split.
      * f_equal. lia.
      * intros [|k] Hk; cbn [skipn]; [rewrite <- E; exact A|].
        apply N. lia.
Qed.

Lemma no_block_start_rstrip (body rest : list str) :
  (forall k, (k < length body)%nat ->
             at_next_block (skipn k (body ++ rest)) = false) ->
  no_block_start (map Py.rstrip body) = true.
Proof.
  induction body as [|l body IH]; intros H; [reflexivity|].
  cbn [map no_block_start]. apply andb_true_iff. split.
  - apply negb_true_iff. destruct body as [|l2 body']; [reflexivity|].
    pose proof (H 0%nat ltac:(simpl; lia)) as H0. cbn [skipn app] in H0.
    cbn [map]. unfold at_next_block in *. rewrite !strip_rstrip. exact H0.
  - apply IH. intros k Hk. apply (H (S k)). simpl. lia.
Qed.

Lemma no_block_start_prefix (a b : list str) :
  no_block_start (a ++ b) = true -> no_block_start a = true.
Proof.
  induction a as [|x a IH]; intros H; [reflexivity|].
  cbn [app no_block_start] in *. apply andb_true_iff in H. destruct H as [H0 H].
  apply andb_true_iff. split; [|apply IH; exact H].
  destruct a as [|y a']; [reflexivity|exact H0].
Qed.

(** Dropping the blank lines at the end leaves a first part of the
    lines that is empty or ends with a line that is not blank. *)
Lemma pop_trailing_empty_spec (ls : list str) :
  exists dropped,
    ls = pop_trailing_empty ls ++ dropped
    /\ (pop_trailing_empty ls = [] \/ ends_visibly (pop_trailing_empty ls) = true).
Proof.
  unfold pop_trailing_empty, ends_visibly.
  match goal with |- context [rev (?f (rev ls))] => set (drop := f) end.
  assert (G : forall r : list str,
             exists dropped,
               rev r = rev (drop r) ++ dropped
               /\ (rev (drop r) = []
                   \/ match rev (rev (drop r)) with
                      | l :: _ => negb (is_blank l)
                      | [] => false
                      end = true)).
  { induction r as [|l r IH].
    - exists []. split; [reflexivity|left; reflexivity].
    - cbn [drop]. destruct (is_blank l) eqn:B.
      + destruct IH as (dropped & E & V). exists (dropped ++ [l]).
        split; [|exact V].
        cbn [rev]. rewrite E at 1. rewrite <- app_assoc. reflexivity.
      + exists []. rewrite app_nil_r. split; [reflexivity|right].
        rewrite rev_involutive, B. reflexivity. }
  destruct (G (rev ls)) as (dropped & E & V). rewrite rev_involutive in E.
  exists dropped. split; assumption.
Qed.

Lemma text_lines_shape (body rest : list str) :
  forallb (without NL) body = true ->
  (forall k, (k < length body)%nat ->
             at_next_block (skipn k (body ++ rest)) = false) ->
  pop_trailing_empty (map Py.rstrip body) <> [] ->
  forallb plain_line (pop_trailing_empty (map Py.rstrip body)) = true
  /\ ends_visibly (pop_trailing_empty (map Py.rstrip body)) = true
  /\ no_block_start (pop_trailing_empty (map Py.rstrip body)) = true.
Proof.
  intros W N Hne.
  destruct (pop_trailing_empty_spec (map Py.rstrip body)) as (dropped & E & V).
  destruct V as [V|V]; [congruence|].
  assert (P : forallb plain_line (map Py.rstrip body) = true).
  { apply forallb_forall. intros x Hx. apply in_map_iff in Hx.
    destruct Hx as (l & <- & Hl). apply rstrip_plain.
    rewrite forallb_forall in W. apply W. exact Hl. }
  pose proof (@no_block_start_rstrip body rest N) as S.
  rewrite E in P, S. rewrite forallb_app in P. apply andb_true_iff in P.
  repeat split; [tauto|exact V|].
  apply (@no_block_start_prefix _ dropped S).
Qed.

(** *** One block *)

Lemma skipn_without (lines : list str) (k : nat) (body rest : list str) :
  forallb (without NL) lines = true -> skipn k lines = body ++ rest ->
  forallb (without NL) body = true.
Proof.
  intros W E. apply forallb_forall. intros l Hl.
  rewrite forallb_forall in W. apply W.
  rewrite <- (firstn_skipn k lines), E. apply in_or_app. right.
  apply in_or_app. left. exact Hl.
Qed.

(** What one call of [_parse_block] returns when it does not fail: no
    block at the end of the input, or a well-formed block and a line
    further down. *)
Lemma parse_block_ok (input : list str) (start_line next : nat)
    (found : option SubtitleBlock) :
  forallb (without NL) input = true ->
  _parse_block input start_line = Ok (found, next) ->
  match found with
  | None => (length input <= next)%nat
  | Some b => parsed_block b
  end
  /\ (start_line < length input -> start_line < next)%nat.
Proof.
  intros W. unfold _parse_block. cbv zeta.
  pose proof (skip_empty_lines_ge (skipn start_line input) start_line) as G.
  set (cur := skip_empty_lines (skipn start_line input) start_line) in *.
  clearbody cur.
  destruct (nth_error input cur) as [l|] eqn:L.
  - destruct (Py.isdigit (Py.strip l)) eqn:D; cbn [negb]; [|discriminate].
    destruct (Py.int (Py.strip l)) as [i|] eqn:I; cbn [of_option bind];
      [|discriminate].
    destruct (nth_error input (S cur)) as [tl|] eqn:T; [|discriminate].
    destruct (parse_time_line (Py.strip tl)) as [tc|e] eqn:P; cbn [bind];
      [|discriminate].
    destruct (collect_text_lines_split (skipn (S (S cur)) input) (S (S cur)) [])
      as (body & rest & E & C & N).
    rewrite C. cbn [app].
    destruct (pop_trailing_empty (map Py.rstrip body)) as [|x xs] eqn:Pop;
      [discriminate|].
    intros H. injection H as <- <-. split; [|lia].
    destruct (@text_lines_shape body rest (@skipn_without _ _ _ _ W E) N)
      as (S1 & S2 & S3); [rewrite Pop; discriminate|].
    destruct (@parse_time_line_whole _ _ P) as (T1 & T2 & T3 & T4).
    rewrite Pop in S1, S2, S3. unfold parsed_block, new_block.
    cbn [index time_code lines language is_sdh].
    repeat split; try assumption.
    apply (@index_nonneg _ _ D I).
  - intros H. injection H as <- <-. apply nth_error_None in L.
    split; [exact L|lia].
Qed.

(** *** The loop *)

(** The loop ends: every round that does not fail moves to a later
    line. *)
Lemma parse_loop_returns (fuel : nat) (lines : list str) :
  forallb (without NL) lines = true ->
  forall current_line blocks,
    (length lines <= fuel + current_line)%nat ->
    exists r, parse_loop fuel lines current_line blocks = Some r.
Proof.
  intros W. induction fuel as [|fuel IH]; intros cur acc F.
  - rewrite parse_loop_done by lia. eauto.
  - cbn [parse_loop]. destruct (Nat.ltb_spec cur (length lines)) as [Lt|Ge];
      [|eauto].
    destruct (_parse_block lines cur) as [[found next]|e] eqn:B; [|eauto].
    destruct (@parse_block_ok lines cur next found W B) as [_ Hn].
    apply IH. specialize (Hn Lt). lia.
Qed.

Lemma parse_loop_blocks (fuel : nat) (lines : list str) :
  forallb (without NL) lines = true ->
  forall current_line blocks result,
    Forall parsed_block blocks ->
    parse_loop fuel lines current_line blocks = Some (Ok result) ->
    Forall parsed_block result /\ exists more, result = blocks ++ more.
Proof.
  intros W. induction fuel as [|fuel IH]; intros cur acc result A.
  - cbn [parse_loop]. destruct (cur <? length lines)%nat; [discriminate|].
    intros H. injection H as <-. split; [exact A|].
    exists []. rewrite app_nil_r. reflexivity.
  - cbn [parse_loop]. destruct (cur <? length lines)%nat.
    + destruct (_parse_block lines cur) as [[found next]|e] eqn:B; [|discriminate].
      destruct (@parse_block_ok lines cur next found W B) as [Hb _].
      intros H. apply IH in H.
      * destruct H as [H (more & ->)]. split; [exact H|].
        destruct found as [b|]; [|eauto].
        exists (b :: more). rewrite <- app_assoc. reflexivity.
      * destruct found as [b|]; [|exact A].
        apply Forall_app. split; [exact A|]. constructor; [exact Hb|constructor].
    + intros H. injection H as <-. split; [exact A|].
      exists []. rewrite app_nil_r. reflexivity.
Qed.

Lemma parse_loop_error (fuel : nat) (lines : list str) :
  forall current_line blocks n e,
    parse_loop fuel lines current_line blocks = Some (Err (ParseErrorAt n e)) ->
    (current_line < n <= length lines)%nat.
Proof.
  induction fuel as [|fuel IH]; intros cur acc n e; cbn [parse_loop].
  - destruct (cur <? length lines)%nat; discriminate.
  - destruct (Nat.ltb_spec cur (length lines)) as [Lt|Ge]; [|discriminate].
    destruct (_parse_block lines cur) as [[found next]|e'] eqn:B.
    + intros H. apply IH in H.
      unfold _parse_block in B. cbv zeta in B.
      pose proof (skip_empty_lines_ge (skipn cur lines) cur) as G.
      set (c := skip_empty_lines (skipn cur lines) cur) in *. clearbody c.
      destruct (nth_error lines c) as [l|] eqn:L.
      * destruct (Py.isdigit (Py.strip l)); cbn [negb] in B; [|discriminate].
        destruct (Py.int (Py.strip l)); cbn [of_option bind] in B; [|discriminate].
        destruct (nth_error lines (S c)); [|discriminate].
        destruct (parse_time_line _); cbn [bind] in B; [|discriminate].
        destruct (collect_text_lines_split (skipn (S (S c)) lines) (S (S c)) [])
          as (body & rest & _ & C & _).
        rewrite C in B. cbn [app] in B.
        destruct (pop_trailing_empty _); [discriminate|].
        injection B as _ <-. lia.
      * injection B as _ <-. lia.
    + intros H. injection H as <- _. lia.
Qed.

(** *** The whole text *)

Lemma input_lines_without (content : str) :
  forallb (without NL) (input_lines content) = true.
Proof. apply split_lines_without. reflexivity. Qed.

(** X13: the parser answers on every text.  [parse_content] returns a
    document or a parse error, whatever the text is: its loop moves to a
    later line in every round.  The line number of an error is that of a
    line of the text, counted from 1. *)
Theorem parse_content_returns (content : str) :
  exists r,
    parse_content content = Some r
    /\ forall n e, r = Err (ParseErrorAt n e) ->
                   (1 <= n <= length (input_lines content))%nat.
Proof.
  unfold parse_content, _parse_content. fold (input_lines content).
  destruct (@parse_loop_returns (length (input_lines content)) (input_lines content)
              (input_lines_without content) 0%nat [] ltac:(lia)) as (r & R).
  rewrite R. destruct r as [bs|[n e]].
  - eexists. split; [reflexivity|]. intros n e H. discriminate.
  - eexists. split; [reflexivity|]. intros n' e' H. injection H as <- <-.
    apply parse_loop_error in R. lia.
Qed.

(** X14: what the parser delivers.  In a document that [parse_content]
    returns, the source file, the detected language and the encoding
    have their default values, and every block is well formed: its index
    is not negative, its two times are not negative and are whole
    numbers of milliseconds, it has text, no line of it holds a line
    break or ends with white space, the last line is not blank, no line
    is a bare integer with a time-code line after it, and it has no
    language and no SDH mark. *)
Theorem parsed_document_shape (content : str) (d : SRTDocument) :
  parse_content content = Some (Ok d) ->
  d = new_document (blocks d) /\ Forall parsed_block (blocks d).
Proof.
  unfold parse_content, _parse_content. fold (input_lines content).
  destruct (parse_loop _ _ _ _) as [[bs|e]|] eqn:R; try discriminate.
  intros H. injection H as <-. split; [reflexivity|].
  cbn [blocks new_document].
  apply (@parse_loop_blocks _ _ (input_lines_without content) 0%nat [] bs
           (Forall_nil _) R).
Qed.

Lemma parsed_document_shape_witness :
  hello_there = new_document (blocks hello_there)
  /\ Forall parsed_block (blocks hello_there).
Proof.
  apply (@parsed_document_shape (content english_file) hello_there).
  vm_compute. reflexivity.
Defined.

(** *** Blank text *)

Lemma first_line_visible (c : char) (t : str) :
  Py.isspace c = false ->
  exists u rest, Py.split [NL] (c :: t) = (c :: u) :: rest.
Proof.
  intros H. unfold Py.split. cbn [Py.split_go Py.startswith].
  assert (E : (NL =? c) = false).
  { apply N.eqb_neq. intros <-. discriminate. }
  rewrite E. cbn [andb].
  destruct (Py.split_go [NL] t 0 [c]) as [|y l] eqn:S;
    [exfalso; exact (split_go_nonempty _ _ _ _ S)|].
  destruct (split_go_head _ _ _ S) as (u & ->). exists u, l. reflexivity.
Qed.

(** X15: the empty document.  [parse_content] returns the document
    without blocks exactly when the text is blank (empty or white space
    only): a text with a visible character gives at least one block, or
    a parse error. *)
Theorem empty_document_iff_blank (content : str) :
  parse_content content = Some (Ok (new_document [])) <-> is_blank content = true.
Proof.
  unfold is_blank, parse_content, _parse_content. fold (input_lines content).
  unfold input_lines.
  destruct (strip_ends content) as [E|(c & t & x & e & E & _ & Hc & _)]; rewrite E.
  - split; reflexivity.
  - split; [|discriminate].
    destruct (@first_line_visible c t Hc) as (u & rest & S).
    pose proof (input_lines_without content) as W. unfold input_lines in W.
    rewrite E in W. rewrite S in *.
    cbn [length parse_loop Nat.ltb Nat.leb].
    assert (B : is_blank (c :: u) = false).
    { destruct (is_blank (c :: u)) eqn:B; [|reflexivity].
      apply is_blank_iff in B. cbn [forallb] in B. rewrite Hc in B. discriminate. }
    destruct (_parse_block ((c :: u) :: rest) 0) as [[found next]|err] eqn:P;
      [|discriminate].
    assert (F : exists b, found = Some b).
    { unfold _parse_block in P. cbn [skipn skip_empty_lines] in P. rewrite B in P.
      cbn [nth_error] in P.
      destruct (Py.isdigit (Py.strip (c :: u))); cbn [negb] in P; [|discriminate].
      destruct (Py.int (Py.strip (c :: u))); cbn [of_option bind] in P;
        [|discriminate].
      destruct rest as [|tl0 rest']; [discriminate|].
      destruct (parse_time_line _); cbn [bind] in P; [|discriminate].
      destruct (collect_text_lines _ _ _) as [tl nl].
      destruct (pop_trailing_empty tl); [discriminate|].
      injection P as <- _. eauto. }
    destruct F as (b & ->). cbn [app].
    match goal with
    | |- match ?X with _ => _ end = _ -> _ =>
        destruct X as [[bs|err]|] eqn:L; try discriminate
    end.
    destruct (@parse_block_ok _ _ _ _ W P) as [Hb _].
    destruct (@parse_loop_blocks _ _ W next [b] bs
                (Forall_cons _ Hb (Forall_nil _)) L) as [_ (more & ->)].
    cbn [app]. discriminate.
Qed.

(** *** Written and parsed again *)

Lemma parsed_block_canonical (b : SubtitleBlock) :
  parsed_block b -> below_hundred_hours b -> canonical_block b = true.
Proof.
  intros (Hi & S1 & S2 & E1 & E2 & P & V & N & L & D) [Bs Be].
  unfold canonical_block, valid_time. rewrite P, V, N, L, D.
  repeat (apply andb_true_iff; split); try reflexivity;
    try (apply Z.leb_le; assumption); try (apply Z.ltb_lt; assumption);
    apply Z.eqb_eq; assumption.
Qed.

Lemma parsed_blocks_canonical (bs : list SubtitleBlock) :
  Forall parsed_block bs -> Forall below_hundred_hours bs ->
  forallb canonical_block bs = true.
Proof.
  induction 1 as [|b bs Hb _ IH]; intros B; [reflexivity|].
  inversion B as [|? ? B1 B2]; subst. cbn [forallb].
  rewrite (@parsed_block_canonical b Hb B1), (IH B2). reflexivity.
Qed.

(** X16: parsing is stable.  A document that [parse_content] returned,
    with all times below a hundred hours, is returned again when its
    serialized text is parsed: nothing that the parser has read is lost
    or changed by writing it and reading it once more. *)
Theorem parse_again_same (content : str) (d : SRTDocument) :
  parse_content content = Some (Ok d) ->
  Forall below_hundred_hours (blocks d) ->
  parse_content (to_srt_format d) = Some (Ok d).
Proof.
  unfold parse_content at 1. unfold _parse_content. fold (input_lines content).
  destruct (parse_loop _ _ _ _) as [[bs|e]|] eqn:R; try discriminate.
  intros H. injection H as <-. cbn [blocks new_document]. intros B.
  destruct (@parse_loop_blocks _ _ (input_lines_without content) 0%nat [] bs
              (Forall_nil _) R) as [P _].
  pose proof (@parsed_blocks_canonical bs P B) as C.
  unfold parse_content, _parse_content, to_srt_format.
  change (blocks (new_document bs)) with bs.
  destruct bs as [|b rest]; [reflexivity|].
  cbn [forallb] in C. apply andb_true_iff in C. destruct C as [Hb Hrest].
  rewrite flat_map_body_lines.
  destruct (@body_lines_ends rest b Hb Hrest) as (c & t & mid & x & e & E & Hc & He).
  match goal with
  | |- context [Py.strip ?u] =>
      replace (Py.strip u) with (Py.join [NL] (body_lines b rest))
        by (symmetry; rewrite E; apply (@strip_joined c t mid x e Hc He))
  end.
  rewrite split_join.
  - pose proof (@parse_loop_body rest b [] [] _ Hb Hrest
                  (body_lines_length rest b)) as L.
    match goal with
    | |- match ?X with _ => _ end = _ =>
        replace X with (Some (Ok (E := SRTParseError) (b :: rest)))
          by (symmetry; exact L)
    end.
    reflexivity.
  - rewrite E. discriminate.
  - apply body_lines_without_newline; assumption.
Qed.

Lemma parse_again_same_witness :
  parse_content (to_srt_format hello_there) = Some (Ok hello_there).
Proof.
  apply (@parse_again_same (content english_file) hello_there).
  - vm_compute. reflexivity.
  - repeat constructor.
Defined.

(** ** What the SDH pass leaves *)

Lemma str_eqb_neq (a b : str) : str_eqb a b = false -> a <> b.
Proof. unfold str_eqb. destruct (list_eq_dec N.eq_dec a b); congruence. Qed.

Lemma clean_whitespace_cases (t : str) :
  _clean_whitespace t = []
  \/ (Py.strip (_clean_whitespace t) = _clean_whitespace t
      /\ _clean_whitespace t <> lit "-").
Proof.
  unfold _clean_whitespace. cbv zeta.
  destruct (str_eqb _ (lit "-")) eqn:E; [left; reflexivity|right].
  split; [apply strip_idempotent|apply str_eqb_neq; exact E].
Qed.

Lemma clean_sdh_markers_lines (b : SubtitleBlock) :
  Forall clean_line (lines (clean_sdh_markers b)).
Proof.
  unfold clean_sdh_markers. cbn [lines]. apply Forall_forall. intros l Hl.
  apply in_flat_map in Hl. destruct Hl as (line & _ & Hl). cbv zeta in Hl.
  destruct (Py.strip line) as [|c t]; [destruct Hl|].
  destruct (is_blank (_remove_sdh_from_line (c :: t))) eqn:B; [destruct Hl|].
  destruct Hl as [<-|[]]. unfold _remove_sdh_from_line in *.
  destruct (clean_whitespace_cases
              (fold_left (fun cleaned pattern => Re.sub pattern [] cleaned)
                 sdh_patterns (c :: t))) as [E|[E N]].
  - rewrite E in B. discriminate.
  - repeat split; assumption.
Qed.

Lemma clean_lines_visible (ls : list str) :
  Forall clean_line ls -> ls <> [] ->
  existsb (fun line => negb (is_blank line)) ls = true.
Proof.
  intros F Hne. destruct ls as [|l ls]; [congruence|].
  inversion F as [|? ? (_ & B & _) _]; subst. cbn [existsb]. rewrite B. reflexivity.
Qed.

(** The blocks that survive are the cleaned blocks that have a line
    left. *)
Lemma sdh_survivors_in (bs : list SubtitleBlock) (kept : SubtitleBlock) :
  In kept (sdh_survivors bs)
  <-> exists b, In b bs /\ is_sdh_only_block b = false
                /\ lines (clean_sdh_markers b) <> []
                /\ kept = clean_sdh_markers b.
Proof.
  unfold sdh_survivors. rewrite in_flat_map. split.
  - intros (b & Hb & H). exists b. cbv zeta in H.
    destruct (is_sdh_only_block b); [destruct H|].
    destruct (lines (clean_sdh_markers b)) as [|l ls] eqn:L; [destruct H|].
    destruct (existsb _ _); [|destruct H]. destruct H as [<-|[]].
    repeat split; try assumption. discriminate.
  - intros (b & Hb & S & L & ->). exists b. split; [exact Hb|]. cbv zeta.
    rewrite S.
    pose proof (@clean_lines_visible _ (clean_sdh_markers_lines b) L) as V.
    destruct (lines (clean_sdh_markers b)) as [|l ls] eqn:E; [congruence|].
    rewrite V. left. reflexivity.
Qed.

Lemma sdh_survivors_length (bs : list SubtitleBlock) :
  (length (sdh_survivors bs) <= length bs)%nat.
Proof.
  induction bs as [|b bs IH]; [apply Nat.le_refl|].
  unfold sdh_survivors in *. cbn [flat_map]. rewrite length_app. cbn [length].
  cbv zeta. destruct (is_sdh_only_block b); [cbn [length]; lia|].
  destruct (lines (clean_sdh_markers b)); [cbn [length]; lia|].
  destruct (existsb _ _); cbn [length]; lia.
Qed.

Lemma reindex_from (bs : list SubtitleBlock) (kept : SubtitleBlock) :
  forall i,
    In kept (reindex i bs) -> exists b, In b bs /\ kept = set_index b (index kept).
Proof.
  induction bs as [|b bs IH]; intros i; cbn [reindex In]; [intros []|].
  intros [<-|H].
  - exists b. split; [left; reflexivity|reflexivity].
  - destruct (IH _ H) as (b' & Hb' & E). exists b'. split; [right; exact Hb'|exact E].
Qed.

Lemma reindex_to (bs : list SubtitleBlock) (b : SubtitleBlock) :
  forall i,
    In b bs -> exists kept, In kept (reindex i bs) /\ kept = set_index b (index kept).
Proof.
  induction bs as [|b0 bs IH]; intros i; cbn [reindex In]; [intros []|].
  intros [->|H].
  - exists (set_index b (i + 1)). split; [left; reflexivity|reflexivity].
  - destruct (IH (i + 1)%Z H) as (kept & Hk & E). exists kept.
    split; [right; exact Hk|exact E].
Qed.

(** X17: what the SDH pass leaves.  The result of
    [remove_sdh_blocks_and_clean_content] has the source file, the
    detected language and the encoding of the document and no more
    blocks than it.  Every block of the result is the cleaned form of a
    block of the document that is not SDH-only, under a new index; it
    has at least one line, and each of its lines is stripped, not blank
    and not a lone dash.  Every block of the document that is not
    SDH-only and keeps a line when cleaned is in the result. *)
Theorem sdh_pass_result (d : SRTDocument) :
  let result := remove_sdh_blocks_and_clean_content d in
  (source_file result = source_file d
   /\ detected_language result = detected_language d
   /\ encoding result = encoding d)
  /\ (length (blocks result) <= length (blocks d))%nat
  /\ Forall (fun kept =>
               lines kept <> [] /\ Forall clean_line (lines kept)
               /\ exists b, In b (blocks d) /\ is_sdh_only_block b = false
                            /\ cleaned_from b kept)
       (blocks result)
  /\ Forall (fun b =>
               is_sdh_only_block b = false ->
               lines (clean_sdh_markers b) <> [] ->
               exists kept, In kept (blocks result) /\ cleaned_from b kept)
       (blocks d).
Proof.
  cbv zeta. unfold remove_sdh_blocks_and_clean_content.
  cbn [source_file detected_language encoding blocks].
  split; [repeat split|]. split; [|split].
  - rewrite reindex_length. apply sdh_survivors_length.
  - apply Forall_forall. intros kept Hk.
    destruct (reindex_from _ _ _ Hk) as (c & Hc & E).
    apply sdh_survivors_in in Hc. destruct Hc as (b & Hb & S & L & ->).
    assert (El : lines kept = lines (clean_sdh_markers b)) by (rewrite E; reflexivity).
    rewrite El. repeat split; [exact L|apply clean_sdh_markers_lines|].
    exists b. repeat split; assumption.
  - apply Forall_forall. intros b Hb S L.
    assert (Hc : In (clean_sdh_markers b) (sdh_survivors (blocks d))).
    { apply sdh_survivors_in. exists b. repeat split; assumption. }
    apply (reindex_to _ _ 0%Z Hc).
Qed.

(** ** Text in one script *)

Lemma count_app (p : char -> bool) (a b : str) :
  LanguageDetector.count p (a ++ b)
  = (LanguageDetector.count p a + LanguageDetector.count p b)%Z.
Proof.
  unfold LanguageDetector.count, Py.len. rewrite filter_app, length_app. lia.
Qed.

Lemma count_nonneg (p : char -> bool) (t : str) :
  (0 <= LanguageDetector.count p t)%Z.
Proof. unfold LanguageDetector.count, Py.len. lia. Qed.

Lemma count_none (q : char -> bool) (t : str) :
  (forall c, In c t -> q c = false) -> LanguageDetector.count q t = 0%Z.
Proof.
  intros H. unfold LanguageDetector.count, Py.len.
  induction t as [|c t IH]; [reflexivity|].
  cbn [filter]. rewrite (H c (or_introl eq_refl)). apply IH.
  intros x Hx. apply H. right. exact Hx.
Qed.

Lemma count_same (p q : char -> bool) (t : str) :
  (forall c, In c t -> q c = p c) ->
  LanguageDetector.count q t = LanguageDetector.count p t.
Proof.
  intros H. unfold LanguageDetector.count. f_equal.
  induction t as [|c t IH]; [reflexivity|].
  cbn [filter]. rewrite (H c (or_introl eq_refl)), IH; [reflexivity|].
  intros x Hx. apply H. right. exact Hx.
Qed.

Lemma count_or (p q : char -> bool) (t : str) :
  (forall c, p c && q c = false) ->
  LanguageDetector.count (fun c => p c || q c) t
  = (LanguageDetector.count p t + LanguageDetector.count q t)%Z.
Proof.
  intros D. unfold LanguageDetector.count, Py.len.
  induction t as [|c t IH]; [reflexivity|].
  cbn [filter]. specialize (D c).
  destruct (p c), (q c); cbn [orb andb length] in *; try discriminate; lia.
Qed.

(** The characters that are counted in the total: those of the script
    and the line breaks. *)
Lemma total_of_script (p : char -> bool) (t : str) :
  p SPACE = false -> p NL = false ->
  (forall c, In c t -> p c = true \/ c = SPACE \/ c = NL) ->
  Py.len (Py.remove_char SPACE t)
  = (LanguageDetector.count p t + LanguageDetector.count (N.eqb NL) t)%Z.
Proof.
  intros Hs Hn H. unfold LanguageDetector.count, Py.remove_char, Py.len.
  induction t as [|c t IH]; [reflexivity|].
  assert (IH' := IH (fun x Hx => H x (or_intror Hx))). clear IH.
  cbn [filter].
  destruct (H c (or_introl eq_refl)) as [Hp|[->| ->]].
  - rewrite Hp.
    assert (c <> SPACE) by (intros ->; congruence).
    assert (c <> NL) by (intros ->; congruence).
    destruct (N.eqb_spec c SPACE); [congruence|].
    destruct (N.eqb_spec NL c); [congruence|]. cbn [negb length].
    unfold char in *. lia.
  - rewrite Hs. change (SPACE =? SPACE) with true. change (NL =? SPACE) with false.
    cbn [negb length]. exact IH'.
  - rewrite Hn. change (NL =? SPACE) with false. change (NL =? NL) with true.
    cbn [negb length]. unfold char in *. lia.
Qed.

(** *** Lines, blocks and documents as texts *)

Lemma script_text_join (p : char -> bool) (sep : char) (a b : str) :
  sep = SPACE \/ sep = NL -> p sep = false ->
  script_text p a -> script_text p b -> script_text p (a ++ [sep] ++ b).
Proof.
  intros S Hp [Ca Na] [Cb Nb]. split.
  - intros c Hc. apply in_app_or in Hc. destruct Hc as [Hc|Hc]; [apply Ca, Hc|].
    apply in_app_or in Hc. destruct Hc as [[<-|[]]|Hc]; [|apply Cb, Hc].
    destruct S as [->| ->]; tauto.
  - rewrite !count_app.
    assert (E : LanguageDetector.count p [sep] = 0%Z).
    { unfold LanguageDetector.count. cbn [filter]. rewrite Hp. reflexivity. }
    assert (B : (LanguageDetector.count (N.eqb NL) [sep] <= 1)%Z).
    { unfold LanguageDetector.count, Py.len. cbn [filter].
      destruct (NL =? sep); cbn [length]; lia. }
    lia.
Qed.

Lemma script_text_joined (p : char -> bool) (sep : char) (parts : list str) :
  sep = SPACE \/ sep = NL -> p sep = false ->
  parts <> [] -> Forall (script_text p) parts ->
  script_text p (Py.join [sep] parts).
Proof.
  intros S Hp Hne F. induction F as [|a rest Ha _ IH]; [congruence|].
  destruct rest as [|b rest]; [exact Ha|].
  change (Py.join [sep] (a :: b :: rest))
    with (a ++ [sep] ++ Py.join [sep] (b :: rest)).
  apply script_text_join; try assumption. apply IH. discriminate.
Qed.

Lemma script_line_text (p : char -> bool) (l : str) :
  p NL = false -> script_line p l -> script_text p l.
Proof.
  intros Hn [B C]. split; [intros c Hc; destruct (C c Hc); tauto|].
  assert (Z : LanguageDetector.count (N.eqb NL) l = 0%Z).
  { apply count_none. intros c Hc. destruct (C c Hc) as [H| ->]; [|reflexivity].
    apply N.eqb_neq. intros <-. congruence. }
  rewrite Z.
  destruct (Z.eq_dec (LanguageDetector.count p l) 0) as [E|E];
    [|pose proof (count_nonneg p l); lia].
  exfalso. unfold LanguageDetector.count, Py.len in E.
  assert (F : filter p l = []) by (destruct (filter p l); [reflexivity|discriminate]).
  assert (A : forallb Py.isspace l = true).
  { apply forallb_forall. intros c Hc. destruct (C c Hc) as [H| ->]; [|reflexivity].
    assert (I : In c (filter p l)) by (apply filter_In; split; assumption).
    rewrite F in I. destruct I. }
  apply is_blank_iff in A. congruence.
Qed.

Lemma script_block_text (p : char -> bool) (b : SubtitleBlock) :
  p NL = false -> script_block p b -> script_text p (text b).
Proof.
  intros Hn [Hne F]. unfold text.
  apply script_text_joined; [right; reflexivity|exact Hn|exact Hne|].
  apply Forall_forall. intros l Hl. apply script_line_text; [exact Hn|].
  rewrite Forall_forall in F. apply F. exact Hl.
Qed.

Lemma script_document_text (p : char -> bool) (d : SRTDocument) :
  p SPACE = false -> p NL = false -> script_document p d ->
  script_text p (Py.join [SPACE] (map text (blocks d))).
Proof.
  intros Hs Hn [Hne F].
  apply script_text_joined; [left; reflexivity|exact Hs| |].
  - destruct (blocks d); [congruence|discriminate].
  - apply Forall_forall. intros t Ht. apply in_map_iff in Ht.
    destruct Ht as (b & <- & Hb). apply script_block_text; [exact Hn|].
    rewrite Forall_forall in F. apply F. exact Hb.
Qed.

Lemma script_text_visible (p : char -> bool) (t : str) :
  (forall c, p c = true -> Py.isspace c = false) ->
  script_text p t -> is_blank t = false.
Proof.
  intros V [_ N]. destruct (is_blank t) eqn:B; [|reflexivity]. exfalso.
  apply is_blank_iff in B.
  assert (Z : LanguageDetector.count p t = 0%Z).
  { apply count_none. intros c Hc. rewrite forallb_forall in B.
    specialize (B c Hc). destruct (p c) eqn:E; [|reflexivity].
    rewrite (V c E) in B. discriminate. }
  pose proof (count_nonneg (N.eqb NL) t). lia.
Qed.

(** *** Comparing scores *)

Lemma Qlt_bool_true (x y : Q) : (x < y)%Q -> Qlt_bool x y = true.
Proof.
  intros H. unfold Qlt_bool. destruct (Qle_bool y x) eqn:E; [|reflexivity].
  apply Qle_bool_iff in E. exfalso. apply (Qlt_not_le _ _ H E).
Qed.

Lemma Qlt_bool_false (x y : Q) : (y <= x)%Q -> Qlt_bool x y = false.
Proof.
  intros H. unfold Qlt_bool. apply Qle_bool_iff in H. rewrite H. reflexivity.
Qed.

Lemma floor_score_zero (x : Q) : (x <= 0)%Q -> LanguageDetector.floor_score x = 0%Q.
Proof.
  intros H. unfold LanguageDetector.floor_score.
  rewrite Qlt_bool_true; [reflexivity|]. lra.
Qed.

Lemma floor_score_kept (x : Q) :
  (1 # 100 <= x)%Q -> LanguageDetector.floor_score x = x.
Proof.
  intros H. unfold LanguageDetector.floor_score.
  rewrite Qlt_bool_false; [reflexivity|exact H].
Qed.

Lemma wins_first (a b c d : Q) :
  (b <= a)%Q -> (c <= a)%Q -> (d <= a)%Q ->
  LanguageDetector.best_language
    [(CHINESE, a); (ENGLISH, b); (KOREAN, c); (JAPANESE, d)] = CHINESE.
Proof.
  intros Hb Hc Hd. unfold LanguageDetector.best_language.
  cbn [fold_left snd fst].
  rewrite (Qlt_bool_false Hb). cbn [snd].
  rewrite (Qlt_bool_false Hc). cbn [snd].
  rewrite (Qlt_bool_false Hd). reflexivity.
Qed.

Lemma wins_second (a b c d : Q) :
  (a < b)%Q -> (c <= b)%Q -> (d <= b)%Q ->
  LanguageDetector.best_language
    [(CHINESE, a); (ENGLISH, b); (KOREAN, c); (JAPANESE, d)] = ENGLISH.
Proof.
  intros Ha Hc Hd. unfold LanguageDetector.best_language.
  cbn [fold_left snd fst].
  rewrite (Qlt_bool_true Ha). cbn [snd].
  rewrite (Qlt_bool_false Hc). cbn [snd].
  rewrite (Qlt_bool_false Hd). reflexivity.
Qed.

Lemma wins_third (a b c d : Q) :
  (a <= 0)%Q -> (b <= 0)%Q -> (0 < c)%Q -> (d <= c)%Q ->
  LanguageDetector.best_language
    [(CHINESE, a); (ENGLISH, b); (KOREAN, c); (JAPANESE, d)] = KOREAN.
Proof.
  intros Ha Hb Hc Hd. unfold LanguageDetector.best_language.
  cbn [fold_left snd fst].
  destruct (Qlt_bool a b); cbn [snd];
    (rewrite (@Qlt_bool_true _ c) by lra); cbn [snd];
    rewrite (Qlt_bool_false Hd); reflexivity.
Qed.

Lemma wins_fourth (a b c d : Q) :
  (a <= 0)%Q -> (b <= 0)%Q -> (c <= 0)%Q -> (0 < d)%Q ->
  LanguageDetector.best_language
    [(CHINESE, a); (ENGLISH, b); (KOREAN, c); (JAPANESE, d)] = JAPANESE.
Proof.
  intros Ha Hb Hc Hd. unfold LanguageDetector.best_language.
  cbn [fold_left snd fst].
  destruct (Qlt_bool a b); cbn [snd];
    (destruct (Qlt_bool _ c)); cbn [snd];
    (rewrite (@Qlt_bool_true _ d) by lra); reflexivity.
Qed.

(** The share of the characters of the script in a text of the script
    is above a half. *)
Lemma script_share (h nl : Z) :
  (0 <= nl < h)%Z ->
  (1 # 2 <= inject_Z h / inject_Z (Z.max (h + nl) 1))%Q
  /\ (inject_Z 0 / inject_Z (Z.max (h + nl) 1) == 0)%Q.
Proof.
  intros H. rewrite Z.max_l by lia. split.
  - destruct (h + nl)%Z as [|p|p] eqn:E; try lia.
    unfold Qle, Qdiv, Qmult, Qinv, inject_Z. cbn [Qnum Qden].
    rewrite !Pos.mul_1_l, !Z.mul_1_r, !Z.mul_1_l. lia.
  - unfold Qdiv. apply Qmult_0_l.
Qed.

(** *** The classes of characters do not overlap *)

Ltac class_facts :=
  unfold kana, LanguageDetector.chinese_pattern, LanguageDetector.korean_pattern,
    LanguageDetector.hiragana_pattern, LanguageDetector.katakana_pattern,
    LanguageDetector.ascii_pattern, LanguageDetector.chinese_punct,
    LanguageDetector.korean_punct, LanguageDetector.japanese_punct,
    Py.isspace, in_range, char_in, SPACE, NL in *;
  cbn [existsb] in *.

(** [q c = false], from a hypothesis that puts [c] in another class. *)
Ltac other_class :=
  match goal with
  | |- ?q = false =>
      let E := fresh "E" in
      destruct q eqn:E; [exfalso|reflexivity];
      class_facts; bool_to_prop; try discriminate; lia
  end.

(** A class that holds no character of the script, no space and no line
    break is not met in a text of the script. *)
Lemma count_other (p q : char -> bool) (t : str) :
  (forall c, p c = true -> q c = false) -> q SPACE = false -> q NL = false ->
  script_text p t -> LanguageDetector.count q t = 0%Z.
Proof.
  intros D Hs Hn [C _]. apply count_none. intros c Hc.
  destruct (C c Hc) as [H|[->| ->]]; [apply D, H|exact Hs|exact Hn].
Qed.

Ltac no_other p :=
  match goal with
  | H : script_text p ?t |- context [LanguageDetector.count ?q ?t] =>
      lazymatch q with
      | p => fail
      | N.eqb NL => fail
      | _ =>
          rewrite (@count_other p q t
                     ltac:(let c := fresh "c" in let Hc := fresh "Hc" in
                           intros c Hc; other_class)
                     eq_refl eq_refl H)
      end
  end.

(** *** Each script wins *)

Lemma chinese_text_detected (t : str) :
  script_text LanguageDetector.chinese_pattern t ->
  LanguageDetector.best_language
    (LanguageDetector._calculate_language_scores
       (LanguageDetector._count_characters t)) = CHINESE.
Proof.
  intros H. pose proof H as [C N].
  unfold LanguageDetector._calculate_language_scores,
    LanguageDetector._count_characters.
  cbn [LanguageDetector.n_chinese LanguageDetector.n_korean
       LanguageDetector.n_hiragana LanguageDetector.n_katakana
       LanguageDetector.n_ascii LanguageDetector.n_chinese_punct
       LanguageDetector.n_korean_punct LanguageDetector.n_japanese_punct
       LanguageDetector.total_chars].
  repeat no_other LanguageDetector.chinese_pattern.
  rewrite (@total_of_script LanguageDetector.chinese_pattern t eq_refl eq_refl C).
  rewrite !Z.add_0_r.
  pose proof (count_nonneg (N.eqb NL) t) as P.
  set (h := LanguageDetector.count LanguageDetector.chinese_pattern t) in *.
  set (nl := LanguageDetector.count (N.eqb NL) t) in *.
  destruct (@script_share h nl ltac:(lia)) as [U Z0].
  set (u := (inject_Z h / inject_Z (Z.max (h + nl) 1))%Q) in *.
  set (z := (inject_Z 0 / inject_Z (Z.max (h + nl) 1))%Q) in *.
  clearbody u z. cbv zeta.
  rewrite (@Qlt_bool_false u (1 # 10)) by lra.
  rewrite (@floor_score_kept (u * 10 + z * 2)) by lra.
  rewrite (@floor_score_zero (z * 2)) by lra.
  rewrite (@floor_score_zero (z * 10 + z * 2)) by lra.
  rewrite (@floor_score_kept ((z + z + u * (1 # 2)) * 10 + z * 2)) by lra.
  apply wins_first; lra.
Qed.

Lemma english_text_detected (t : str) :
  script_text LanguageDetector.ascii_pattern t ->
  LanguageDetector.best_language
    (LanguageDetector._calculate_language_scores
       (LanguageDetector._count_characters t)) = ENGLISH.
Proof.
  intros H. pose proof H as [C N].
  unfold LanguageDetector._calculate_language_scores,
    LanguageDetector._count_characters.
  cbn [LanguageDetector.n_chinese LanguageDetector.n_korean
       LanguageDetector.n_hiragana LanguageDetector.n_katakana
       LanguageDetector.n_ascii LanguageDetector.n_chinese_punct
       LanguageDetector.n_korean_punct LanguageDetector.n_japanese_punct
       LanguageDetector.total_chars].
  repeat no_other LanguageDetector.ascii_pattern.
  rewrite (@total_of_script LanguageDetector.ascii_pattern t eq_refl eq_refl C).
  rewrite !Z.add_0_r.
  pose proof (count_nonneg (N.eqb NL) t) as P.
  set (h := LanguageDetector.count LanguageDetector.ascii_pattern t) in *.
  set (nl := LanguageDetector.count (N.eqb NL) t) in *.
  destruct (@script_share h nl ltac:(lia)) as [U Z0].
  set (u := (inject_Z h / inject_Z (Z.max (h + nl) 1))%Q) in *.
  set (z := (inject_Z 0 / inject_Z (Z.max (h + nl) 1))%Q) in *.
  clearbody u z. cbv zeta.
  rewrite (@Qlt_bool_true z (1 # 10)) by lra.
  rewrite (@floor_score_zero (z * 10 + z * 2)) by lra.
  rewrite (@floor_score_kept (u * 10)) by lra.
  rewrite (@floor_score_zero ((z + z + z * (1 # 2)) * 10 + z * 2)) by lra.
  apply wins_second; lra.
Qed.

Lemma korean_text_detected (t : str) :
  script_text LanguageDetector.korean_pattern t ->
  LanguageDetector.best_language
    (LanguageDetector._calculate_language_scores
       (LanguageDetector._count_characters t)) = KOREAN.
Proof.
  intros H. pose proof H as [C N].
  unfold LanguageDetector._calculate_language_scores,
    LanguageDetector._count_characters.
  cbn [LanguageDetector.n_chinese LanguageDetector.n_korean
       LanguageDetector.n_hiragana LanguageDetector.n_katakana
       LanguageDetector.n_ascii LanguageDetector.n_chinese_punct
       LanguageDetector.n_korean_punct LanguageDetector.n_japanese_punct
       LanguageDetector.total_chars].
  repeat no_other LanguageDetector.korean_pattern.
  rewrite (@total_of_script LanguageDetector.korean_pattern t eq_refl eq_refl C).
  rewrite !Z.add_0_r, !Z.add_0_l.
  pose proof (count_nonneg (N.eqb NL) t) as P.
  set (h := LanguageDetector.count LanguageDetector.korean_pattern t) in *.
  set (nl := LanguageDetector.count (N.eqb NL) t) in *.
  destruct (@script_share h nl ltac:(lia)) as [U Z0].
  set (u := (inject_Z h / inject_Z (Z.max (h + nl) 1))%Q) in *.
  set (z := (inject_Z 0 / inject_Z (Z.max (h + nl) 1))%Q) in *.
  clearbody u z. cbv zeta.
  rewrite (@Qlt_bool_false u (1 # 10)) by lra.
  rewrite (@floor_score_zero (z * 10 + z * 2)) by lra.
  rewrite (@floor_score_zero (z * 2)) by lra.
  rewrite (@floor_score_kept (u * 10 + z * 2)) by lra.
  rewrite (@floor_score_zero ((z + z + z * (1 # 2)) * 10 + z * 2)) by lra.
  apply wins_third; lra.
Qed.

Lemma kana_text_detected (t : str) :
  script_text kana t ->
  LanguageDetector.best_language
    (LanguageDetector._calculate_language_scores
       (LanguageDetector._count_characters t)) = JAPANESE.
Proof.
  intros H. pose proof H as [C N].
  unfold LanguageDetector._calculate_language_scores,
    LanguageDetector._count_characters.
  cbn [LanguageDetector.n_chinese LanguageDetector.n_korean
       LanguageDetector.n_hiragana LanguageDetector.n_katakana
       LanguageDetector.n_ascii LanguageDetector.n_chinese_punct
       LanguageDetector.n_korean_punct LanguageDetector.n_japanese_punct
       LanguageDetector.total_chars].
  repeat no_other kana.
  rewrite (@total_of_script kana t eq_refl eq_refl C).
  assert (K : LanguageDetector.count kana t
              = (LanguageDetector.count LanguageDetector.hiragana_pattern t
                 + LanguageDetector.count LanguageDetector.katakana_pattern t)%Z).
  { apply count_or. intros c.
    destruct (LanguageDetector.hiragana_pattern c) eqn:E; [|reflexivity].
    cbn [andb]. other_class. }
  rewrite K in *. rewrite !Z.add_0_l.
  pose proof (count_nonneg (N.eqb NL) t) as P.
  set (h1 := LanguageDetector.count LanguageDetector.hiragana_pattern t) in *.
  set (h2 := LanguageDetector.count LanguageDetector.katakana_pattern t) in *.
  set (nl := LanguageDetector.count (N.eqb NL) t) in *.
  destruct (@script_share (h1 + h2) nl ltac:(lia)) as [U Z0].
  assert (E : (inject_Z (h1 + h2) / inject_Z (Z.max (h1 + h2 + nl) 1)
               == inject_Z h1 / inject_Z (Z.max (h1 + h2 + nl) 1)
                  + inject_Z h2 / inject_Z (Z.max (h1 + h2 + nl) 1))%Q).
  { unfold Qdiv. rewrite inject_Z_plus. ring. }
  set (u := (inject_Z (h1 + h2) / inject_Z (Z.max (h1 + h2 + nl) 1))%Q) in *.
  set (u1 := (inject_Z h1 / inject_Z (Z.max (h1 + h2 + nl) 1))%Q) in *.
  set (u2 := (inject_Z h2 / inject_Z (Z.max (h1 + h2 + nl) 1))%Q) in *.
  set (z := (inject_Z 0 / inject_Z (Z.max (h1 + h2 + nl) 1))%Q) in *.
  clearbody u u1 u2 z. cbv zeta.
  rewrite (@Qlt_bool_false u (1 # 10)) by lra.
  rewrite (@floor_score_zero (z * 10 + z * 2)) by lra.
  rewrite (@floor_score_zero (z * 2)) by lra.
  rewrite (@floor_score_kept ((u1 + u2 + z * (1 # 2)) * 10 + z * 2)) by lra.
  apply wins_fourth; lra.
Qed.

Lemma script_visible (p : char -> bool) (L : Language) :
  In (p, L) scripts ->
  p SPACE = false /\ p NL = false
  /\ forall c, p c = true -> Py.isspace c = false.
Proof.
  intros [H|[H|[H|[H|[]]]]]; injection H as <- _;
    (split; [reflexivity|split; [reflexivity|]]); intros c Hc; other_class.
Qed.

Lemma script_text_detected (p : char -> bool) (L : Language) (t : str) :
  In (p, L) scripts -> script_text p t ->
  LanguageDetector.best_language
    (LanguageDetector._calculate_language_scores
       (LanguageDetector._count_characters t)) = L.
Proof.
  intros [H|[H|[H|[H|[]]]]] T; injection H as <- <-.
  - apply chinese_text_detected, T.
  - apply english_text_detected, T.
  - apply korean_text_detected, T.
  - apply kana_text_detected, T.
Qed.

(** X18: text in one script is detected as the language of that script.
    A line that is not blank and holds only Chinese ideographs and
    spaces is detected as Chinese; only ASCII letters and spaces, as
    English; only Hangul syllables and spaces, as Korean; only hiragana,
    katakana and spaces, as Japanese.  The same holds for a block whose
    lines are all such lines, and for a document whose blocks are all
    such blocks. *)
Theorem one_script_detected :
  Forall (fun script =>
            (forall line, script_line (fst script) line ->
                          LanguageDetector.detect_line_language line = snd script)
            /\ (forall block, script_block (fst script) block ->
                              LanguageDetector._detect_block_language block
                              = snd script)
            /\ (forall document, script_document (fst script) document ->
                                 LanguageDetector.detect_language document
                                 = snd script))
    scripts.
Proof.
  apply Forall_forall. intros [p L] S. cbn [fst snd].
  destruct (@script_visible p L S) as (Hs & Hn & V).
  split; [|split].
  - intros line H. unfold LanguageDetector.detect_line_language.
    destruct H as [B C]. rewrite B.
    apply (@script_text_detected p L line S).
    apply script_line_text; [exact Hn|split; assumption].
  - intros block H. unfold LanguageDetector._detect_block_language.
    pose proof (@script_block_text p block Hn H) as T.
    rewrite (@script_text_visible p (text block) V T).
    apply (@script_text_detected p L _ S T).
  - intros document H. unfold LanguageDetector.detect_language.
    pose proof (@script_document_text p document Hs Hn H) as T.
    destruct H as [Hne _].
    destruct (blocks document) as [|b bs] eqn:E; [congruence|].
    exact (@script_text_detected p L _ S T).
Qed.

Example one_script_detected_example :
  script_line kana hiragana_line
  /\ LanguageDetector.detect_line_language hiragana_line = JAPANESE.
Proof.
  split; [split|]; try (vm_compute; reflexivity).
  intros c Hc. apply repeat_spec in Hc. subst c. left. reflexivity.
Qed.

(** ** The language statistics of a document *)

Lemma Language_eqb_sym (a b : Language) : Language_eqb a b = Language_eqb b a.
Proof. destruct a, b; reflexivity. Qed.

Lemma add_to_set_in (l x : Language) (seen : list Language) :
  In x (LanguageDetector.add_to_set l seen) <-> x = l \/ In x seen.
Proof.
  unfold LanguageDetector.add_to_set.
  destruct (existsb (Language_eqb l) seen) eqn:E.
  - split; [tauto|]. intros [->|H]; [|exact H].
    apply existsb_exists in E. destruct E as (y & Hy & Ey).
    apply Language_eqb_eq in Ey. subst y. exact Hy.
  - rewrite in_app_iff. cbn [In]. split; [intros [H|[H|[]]]|intros [H|H]]; auto.
Qed.

Lemma add_to_set_nodup (l : Language) (seen : list Language) :
  NoDup seen -> NoDup (LanguageDetector.add_to_set l seen).
Proof.
  intros N. unfold LanguageDetector.add_to_set.
  destruct (existsb (Language_eqb l) seen) eqn:E; [exact N|].
  apply NoDup_app; [exact N|repeat constructor; intros []|].
  intros x Hx [D|[]]. subst x.
  assert (T : existsb (Language_eqb l) seen = true).
  { apply existsb_exists. exists l. split; [exact Hx|apply Language_eqb_eq; reflexivity]. }
  congruence.
Qed.

Lemma add_to_set_length (l : Language) (seen : list Language) :
  (length seen <= length (LanguageDetector.add_to_set l seen))%nat.
Proof.
  unfold LanguageDetector.add_to_set. destruct (existsb _ seen); [lia|].
  rewrite length_app. lia.
Qed.

Lemma set_fold_facts (ls : list Language) :
  forall seen,
    NoDup seen ->
    NoDup (fold_left (fun s l => LanguageDetector.add_to_set l s) ls seen)
    /\ (length seen
        <= length (fold_left (fun s l => LanguageDetector.add_to_set l s) ls seen))%nat
    /\ forall x,
         In x (fold_left (fun s l => LanguageDetector.add_to_set l s) ls seen)
         <-> In x seen \/ In x ls.
Proof.
  induction ls as [|l ls IH]; intros seen N; cbn [fold_left].
  - repeat split; [exact N|lia| |]; cbn [In]; tauto.
  - destruct (IH _ (add_to_set_nodup l N)) as (N' & L' & I').
    repeat split; [exact N'|pose proof (add_to_set_length l seen); lia| |].
    + intros H. apply I' in H. rewrite add_to_set_in in H. cbn [In].
      destruct H as [[->|H]|H]; auto.
    + intros H. apply I'. rewrite add_to_set_in. cbn [In] in H.
      destruct H as [H|[<-|H]]; auto.
Qed.

(** A list without repetition has more than one element exactly when
    it holds two different ones. *)
Lemma two_different (l : list Language) :
  NoDup l ->
  (1 <? length l)%nat = true <-> exists a b, In a l /\ In b l /\ a <> b.
Proof.
  intros N. split.
  - intros H. apply Nat.ltb_lt in H.
    destruct l as [|a [|b r]]; cbn [length] in H; try lia.
    exists a, b. repeat split; [left; reflexivity|right; left; reflexivity|].
    intros ->. inversion N as [|? ? Hn _]. apply Hn. left. reflexivity.
  - intros (a & b & Ha & Hb & D). apply Nat.ltb_lt.
    destruct l as [|x [|y r]]; cbn [length]; try lia.
    + destruct Ha.
    + destruct Ha as [<-|[]], Hb as [<-|[]]. congruence.
Qed.

(** The loop answers what the set of all block languages would. *)
Lemma mixed_scan_set (bs : list SubtitleBlock) :
  forall seen,
    NoDup seen -> (length seen <= 1)%nat ->
    LanguageDetector.mixed_scan bs seen
    = (1 <? length (fold_left (fun s l => LanguageDetector.add_to_set l s)
                      (map LanguageDetector._detect_block_language bs) seen))%nat.
Proof.
  induction bs as [|b bs IH]; intros seen N L;
    cbn [LanguageDetector.mixed_scan map fold_left].
  - symmetry. apply Nat.ltb_ge. exact L.
  - cbv zeta.
    set (seen' := LanguageDetector.add_to_set
                    (LanguageDetector._detect_block_language b) seen).
    pose proof (add_to_set_nodup (LanguageDetector._detect_block_language b) N) as N'.
    fold seen' in N'.
    destruct (Nat.ltb_spec 1 (length seen')) as [G|G].
    + symmetry. apply Nat.ltb_lt.
      destruct (@set_fold_facts (map LanguageDetector._detect_block_language bs)
                  seen' N') as (_ & L' & _). lia.
    + apply IH; assumption.
Qed.

Lemma language_set_length (ls : list Language) :
  (length (LanguageDetector.language_set ls) <= length ls)%nat.
Proof.
  unfold LanguageDetector.language_set.
  assert (G : forall seen,
             (length (fold_left (fun s l => LanguageDetector.add_to_set l s) ls seen)
              <= length seen + length ls)%nat).
  { induction ls as [|l ls IH]; intros seen; cbn [fold_left length]; [lia|].
    etransitivity; [apply IH|]. unfold LanguageDetector.add_to_set.
    destruct (existsb _ seen); [lia|]. rewrite length_app. cbn [length]. lia. }
  apply (G []).
Qed.

(** *** The counter *)

Lemma count_of_add (l k : Language) (counts : list (Language * Z)) :
  count_of (LanguageDetector.counter_add l counts) k
  = (count_of counts k + if Language_eqb l k then 1 else 0)%Z.
Proof.
  unfold count_of. induction counts as [|[x n] rest IH];
    cbn [LanguageDetector.counter_add find fst snd].
  - destruct (Language_eqb l k); reflexivity.
  - destruct (Language_eqb x l) eqn:E; cbn [find fst snd].
    + apply Language_eqb_eq in E. subst x.
      destruct (Language_eqb l k); cbn [snd]; lia.
    + destruct (Language_eqb x k) eqn:F; cbn [snd]; [|exact IH].
      apply Language_eqb_eq in F. subst x. rewrite Language_eqb_sym, E. lia.
Qed.

Lemma counter_add_keys (l : Language) (counts : list (Language * Z)) :
  map fst (LanguageDetector.counter_add l counts)
  = LanguageDetector.add_to_set l (map fst counts).
Proof.
  unfold LanguageDetector.add_to_set.
  induction counts as [|[x n] rest IH];
    cbn [LanguageDetector.counter_add map fst existsb]; [reflexivity|].
  rewrite (Language_eqb_sym l x).
  destruct (Language_eqb x l); cbn [orb map fst]; [reflexivity|].
  rewrite IH. destruct (existsb (Language_eqb l) (map fst rest)); reflexivity.
Qed.

Lemma counter_facts (ls : list Language) :
  forall counts,
    map fst (fold_left (fun c l => LanguageDetector.counter_add l c) ls counts)
    = fold_left (fun s l => LanguageDetector.add_to_set l s) ls (map fst counts)
    /\ forall k,
         count_of (fold_left (fun c l => LanguageDetector.counter_add l c) ls counts) k
         = (count_of counts k
            + Z.of_nat (length (filter (fun l => Language_eqb l k) ls)))%Z.
Proof.
  induction ls as [|l ls IH]; intros counts; cbn [fold_left filter].
  - split; [reflexivity|intros k; cbn [length]; lia].
  - destruct (IH (LanguageDetector.counter_add l counts)) as [K C].
    split; [rewrite K, counter_add_keys; reflexivity|].
    intros k. rewrite C, count_of_add.
    destruct (Language_eqb l k); cbn [length]; lia.
Qed.

Lemma filter_map_length {A B : Type} (f : A -> B) (p : B -> bool) (l : list A) :
  length (filter p (map f l)) = length (filter (fun x => p (f x)) l).
Proof.
  induction l as [|x l IH]; [reflexivity|].
  cbn [map filter]. destruct (p (f x)); cbn [length]; rewrite IH; reflexivity.
Qed.

(** X19: the language statistics of a document are consistent.  The
    flag [mixed_language] is what [is_mixed_language_document] answers,
    and it is set exactly when two blocks are detected as different
    languages.  The keys of the language distribution are the detected
    block languages, each once, and the count of every language is the
    number of blocks detected as it.  The detected language is the one
    that [detect_language] returns when the document has a block; for a
    document without blocks the statistics say Chinese where
    [detect_language] says English. *)
Theorem language_statistics_consistent (d : SRTDocument) :
  let s := LanguageDetector.get_language_statistics d in
  LanguageDetector.mixed_language s = LanguageDetector.is_mixed_language_document d
  /\ (LanguageDetector.is_mixed_language_document d = true
      <-> exists b1 b2,
            In b1 (blocks d) /\ In b2 (blocks d)
            /\ LanguageDetector._detect_block_language b1
               <> LanguageDetector._detect_block_language b2)
  /\ NoDup (map fst (LanguageDetector.language_distribution s))
  /\ (forall l, count_of (LanguageDetector.language_distribution s) l
                = blocks_detected_as d l)
  /\ (forall l, In l (map fst (LanguageDetector.language_distribution s))
                <-> exists b, In b (blocks d)
                              /\ LanguageDetector._detect_block_language b = l)
  /\ (blocks d <> [] ->
      LanguageDetector.stats_detected_language s
      = LanguageDetector.detect_language d)
  /\ (blocks d = [] ->
      LanguageDetector.stats_detected_language s = CHINESE
      /\ LanguageDetector.detect_language d = ENGLISH).
Proof.
  cbv zeta.
  set (ls := map LanguageDetector._detect_block_language (blocks d)).
  destruct (@set_fold_facts ls [] (NoDup_nil _)) as (N & _ & I).
  assert (M : LanguageDetector.is_mixed_language_document d
              = (1 <? length (LanguageDetector.language_set ls))%nat).
  { unfold LanguageDetector.is_mixed_language_document.
    destruct (Nat.ltb_spec (length (blocks d)) 2) as [S|S].
    - symmetry. apply Nat.ltb_ge. pose proof (language_set_length ls) as L.
      unfold ls in L at 2. rewrite length_map in L. lia.
    - apply mixed_scan_set; [constructor|cbn [length]; lia]. }
  destruct (@counter_facts ls []) as [K C].
  unfold LanguageDetector.get_language_statistics.
  cbn [LanguageDetector.mixed_language LanguageDetector.language_distribution
       LanguageDetector.stats_detected_language].
  fold ls. unfold LanguageDetector.Counter.
  split; [symmetry; exact M|]. split; [|split; [|split; [|split; [|split]]]].
  - rewrite M. unfold LanguageDetector.language_set.
    rewrite (two_different N). split.
    + intros (a & b & Ha & Hb & D). apply I in Ha, Hb.
      destruct Ha as [[]|Ha], Hb as [[]|Hb].
      apply in_map_iff in Ha, Hb.
      destruct Ha as (b1 & <- & H1), Hb as (b2 & <- & H2).
      exists b1, b2. repeat split; assumption.
    + intros (b1 & b2 & H1 & H2 & D).
      exists (LanguageDetector._detect_block_language b1),
        (LanguageDetector._detect_block_language b2).
      repeat split; [apply I; right; apply in_map; exact H1
                    |apply I; right; apply in_map; exact H2|exact D].
  - rewrite K. exact N.
  - intros l. rewrite C. unfold blocks_detected_as, ls, count_of. cbn [find].
    rewrite filter_map_length. reflexivity.
  - intros l. rewrite K. cbn [map]. rewrite I. unfold ls. rewrite in_map_iff.
    split; [intros [[]|(b & E & H)]; eauto|intros (b & H & E); right; eauto].
  - intros Hne. unfold LanguageDetector.detect_language.
    destruct (blocks d); [congruence|reflexivity].
  - intros E. unfold LanguageDetector.detect_language. rewrite E.
    split; vm_compute; reflexivity.
Qed.

(** ** The violation blocks of the check-only mode *)

Lemma group_of_add (k j : Z) (w : warning) (groups : list (Z * list warning)) :
  group_of (SRTProcessor.group_add k w groups) j
  = group_of groups j ++ (if (k =? j)%Z then [w] else []).
Proof.
  unfold group_of. induction groups as [|[x l] rest IH];
    cbn [SRTProcessor.group_add find fst snd].
  - destruct (k =? j)%Z; reflexivity.
  - destruct (Z.eqb_spec x k) as [->|N]; cbn [find fst snd].
    + destruct (k =? j)%Z; cbn [snd]; rewrite ?app_nil_r; reflexivity.
    + destruct (Z.eqb_spec x j) as [->|M]; cbn [snd]; [|exact IH].
      destruct (Z.eqb_spec k j); [congruence|]. rewrite app_nil_r. reflexivity.
Qed.

Lemma group_add_keys (k : Z) (w : warning) (groups : list (Z * list warning)) :
  map fst (SRTProcessor.group_add k w groups)
  = if existsb (Z.eqb k) (map fst groups) then map fst groups
    else map fst groups ++ [k].
Proof.
  induction groups as [|[x l] rest IH];
    cbn [SRTProcessor.group_add map fst existsb]; [reflexivity|].
  rewrite (Z.eqb_sym k x).
  destruct (x =? k)%Z; cbn [orb map fst]; [reflexivity|].
  rewrite IH. destruct (existsb (Z.eqb k) (map fst rest)); reflexivity.
Qed.

Lemma group_add_nodup (k : Z) (w : warning) (groups : list (Z * list warning)) :
  NoDup (map fst groups) ->
  NoDup (map fst (SRTProcessor.group_add k w groups))
  /\ forall j, In j (map fst (SRTProcessor.group_add k w groups))
               <-> j = k \/ In j (map fst groups).
Proof.
  intros N. rewrite group_add_keys.
  destruct (existsb (Z.eqb k) (map fst groups)) eqn:E.
  - split; [exact N|]. intros j. split; [tauto|]. intros [->|H]; [|exact H].
    apply existsb_exists in E. destruct E as (y & Hy & Ey).
    apply Z.eqb_eq in Ey. subst y. exact Hy.
  - split.
    + apply NoDup_app; [exact N|repeat constructor; intros []|].
      intros x Hx [D|[]]. subst x.
      assert (T : existsb (Z.eqb k) (map fst groups) = true).
      { apply existsb_exists. exists k. split; [exact Hx|apply Z.eqb_refl]. }
      congruence.
    + intros j. rewrite in_app_iff. cbn [In].
      split; [intros [H|[H|[]]]|intros [H|H]]; auto.
Qed.

(** The dictionary after the loop over the warnings. *)
Lemma block_violations_facts (ws : list warning) :
  NoDup (map fst (SRTProcessor.block_violations ws))
  /\ (forall j, In j (map fst (SRTProcessor.block_violations ws))
                <-> (0 <= j)%Z /\ In j (map warning_block ws))
  /\ (forall j, (0 <= j)%Z ->
                group_of (SRTProcessor.block_violations ws) j = warnings_of_block ws j).
Proof.
  unfold SRTProcessor.block_violations.
  assert (G : forall groups,
             NoDup (map fst groups) ->
             let result :=
               fold_left
                 (fun groups w =>
                    if (0 <=? warning_block w)%Z
                    then SRTProcessor.group_add (warning_block w) w groups
                    else groups) ws groups in
             NoDup (map fst result)
             /\ (forall j, In j (map fst result)
                           <-> In j (map fst groups)
                               \/ ((0 <= j)%Z /\ In j (map warning_block ws)))
             /\ (forall j, (0 <= j)%Z ->
                           group_of result j
                           = group_of groups j ++ warnings_of_block ws j)).
  { induction ws as [|w ws IH]; intros groups N; cbv zeta; cbn [fold_left].
    - split; [exact N|]. split.
      + intros j. cbn [map In]. tauto.
      + intros j _. cbn. symmetry. apply app_nil_r.
    - destruct (Z.leb_spec 0 (warning_block w)) as [P|P].
      + destruct (@group_add_nodup (warning_block w) w groups N) as [N' K'].
        destruct (IH _ N') as (N2 & K2 & L2). split; [exact N2|]. split.
        * intros j. rewrite K2, K'. cbn [map In].
          split; [intros [[->|H]|[H0 H]]|intros [H|[H0 [<-|H]]]]; auto.
        * intros j Hj. rewrite (L2 j Hj), group_of_add, <- app_assoc.
          f_equal. unfold warnings_of_block. cbn [filter].
          destruct (warning_block w =? j)%Z; reflexivity.
      + destruct (IH _ N) as (N2 & K2 & L2). split; [exact N2|]. split.
        * intros j. rewrite K2. cbn [map In].
          split; [intros [H|[H0 H]]|intros [H|[H0 [<-|H]]]]; auto. lia.
        * intros j Hj. rewrite (L2 j Hj). f_equal.
          unfold warnings_of_block. cbn [filter].
          destruct (Z.eqb_spec (warning_block w) j); [lia|reflexivity]. }
  destruct (G [] (NoDup_nil _)) as (N & K & L). split; [exact N|]. split.
  - intros j. rewrite K. cbn [map In]. tauto.
  - intros j Hj. rewrite (L j Hj). reflexivity.
Qed.

(** An entry of a dictionary with distinct keys is what the lookup of
    its key returns. *)
Lemma group_of_entry (groups : list (Z * list warning)) (k : Z) (l : list warning) :
  NoDup (map fst groups) -> In (k, l) groups -> group_of groups k = l.
Proof.
  unfold group_of. induction groups as [|[x m] rest IH]; intros N H; [destruct H|].
  cbn [map fst] in N. inversion N as [|? ? Hx N']; subst.
  cbn [find fst]. destruct H as [H|H].
  - injection H as -> ->. rewrite Z.eqb_refl. reflexivity.
  - destruct (Z.eqb_spec x k) as [->|D]; [|apply IH; assumption].
    exfalso. apply Hx. apply in_map_iff. exists (k, l). split; [reflexivity|exact H].
Qed.

Lemma warnings_of_block_in (ws : list warning) (w : warning) :
  In w ws -> In w (warnings_of_block ws (warning_block w)).
Proof.
  intros H. apply filter_In. split; [exact H|apply Z.eqb_refl].
Qed.

(** *** Sorting *)

Lemma insert_by_index_in (v x : SRTProcessor.violation_block)
    (sorted : list SRTProcessor.violation_block) :
  In x (SRTProcessor.insert_by_index v sorted) <-> x = v \/ In x sorted.
Proof.
  induction sorted as [|y rest IH]; cbn [SRTProcessor.insert_by_index In].
  - split; [intros [H|[]]|intros [H|[]]]; auto.
  - destruct (_ <=? _)%Z; cbn [In]; [split; intros [H|H]; auto|].
    rewrite IH. tauto.
Qed.

Lemma insert_by_index_length (v : SRTProcessor.violation_block)
    (sorted : list SRTProcessor.violation_block) :
  length (SRTProcessor.insert_by_index v sorted) = S (length sorted).
Proof.
  induction sorted as [|y rest IH]; cbn [SRTProcessor.insert_by_index length];
    [reflexivity|].
  destruct (_ <=? _)%Z; cbn [length]; [reflexivity|]. rewrite IH. reflexivity.
Qed.

Lemma insert_by_index_sorted (v : SRTProcessor.violation_block)
    (sorted : list SRTProcessor.violation_block) :
  StronglySorted Z.lt (map vb_index sorted) ->
  ~ In (vb_index v) (map vb_index sorted) ->
  StronglySorted Z.lt (map vb_index (SRTProcessor.insert_by_index v sorted)).
Proof.
  induction sorted as [|y rest IH]; intros S N;
    cbn [SRTProcessor.insert_by_index map].
  - repeat constructor.
  - cbn [map] in S, N. inversion S as [|? ? S' F]; subst.
    fold (vb_index v). fold (vb_index y).
    destruct (Z.leb_spec (vb_index v) (vb_index y)) as [L|L]; cbn [map].
    + assert (Lt : (vb_index v < vb_index y)%Z).
      { destruct (Z.eq_dec (vb_index v) (vb_index y)) as [E|E]; [|lia].
        exfalso. apply N. left. symmetry. exact E. }
      constructor; [exact S|]. constructor; [exact Lt|].
      apply (Forall_impl _ (P := Z.lt (vb_index y))); [intros a Ha; lia|exact F].
    + constructor.
      * apply IH; [exact S'|]. intros H. apply N. right. exact H.
      * apply Forall_forall. intros a Ha. apply in_map_iff in Ha.
        destruct Ha as (x & <- & Hx). apply insert_by_index_in in Hx.
        destruct Hx as [->|Hx]; [lia|].
        rewrite Forall_forall in F. apply F. apply in_map. exact Hx.
Qed.

Lemma sort_by_index_facts (vs : list SRTProcessor.violation_block) :
  NoDup (map vb_index vs) ->
  StronglySorted Z.lt (map vb_index (SRTProcessor.sort_by_index vs))
  /\ length (SRTProcessor.sort_by_index vs) = length vs
  /\ forall x, In x (SRTProcessor.sort_by_index vs) <-> In x vs.
Proof.
  unfold SRTProcessor.sort_by_index.
  induction vs as [|v vs IH]; intros N; cbn [fold_right map].
  - repeat split; try constructor; tauto.
  - cbn [map] in N. inversion N as [|? ? Hv N']; subst.
    destruct (IH N') as (S & L & I). split; [|split].
    + apply insert_by_index_sorted; [exact S|].
      intros H. apply Hv. apply in_map_iff in H. destruct H as (x & E & Hx).
      apply in_map_iff. exists x. split; [exact E|apply I; exact Hx].
    + rewrite insert_by_index_length, L. reflexivity.
    + intros x. rewrite insert_by_index_in, I. cbn [In].
      split; intros [H|H]; auto.
Qed.

(** *** The entries *)

Lemma extract_unfold (d : SRTDocument) (ws : list warning) :
  SRTProcessor._extract_violation_blocks d ws
  = SRTProcessor.sort_by_index
      (flat_map (entry_of d) (SRTProcessor.block_violations ws)).
Proof.
  unfold SRTProcessor._extract_violation_blocks. cbv zeta. f_equal.
  apply flat_map_ext. intros [k l]. reflexivity.
Qed.

Lemma entry_of_in (d : SRTDocument) (k : Z) (l : list warning)
    (v : SRTProcessor.violation_block) :
  In v (entry_of d (k, l)) ->
  find (fun doc_block => (index doc_block =? k)%Z) (blocks d)
  = Some (SRTProcessor.vb_block v)
  /\ vb_index v = k
  /\ SRTProcessor.vb_violations v = l
  /\ SRTProcessor.vb_violation_types v
     = SRTProcessor._categorize_violation_types l.
Proof.
  unfold entry_of. cbn [fst snd].
  destruct (find _ (blocks d)) as [b|] eqn:F; [|intros []].
  intros [<-|[]]. split; [reflexivity|]. apply find_some in F. destruct F as [Hb E].
  apply Z.eqb_eq in E. repeat split; assumption.
Qed.

Lemma entries_indices (d : SRTDocument) (groups : list (Z * list warning)) :
  NoDup (map fst groups) ->
  NoDup (map vb_index (flat_map (entry_of d) groups))
  /\ forall v, In v (flat_map (entry_of d) groups) ->
               exists l, In (vb_index v, l) groups /\ In v (entry_of d (vb_index v, l)).
Proof.
  induction groups as [|[k l] rest IH]; intros N; cbn [flat_map map fst].
  - split; [constructor|intros v []].
  - cbn [map fst] in N. inversion N as [|? ? Hk N']; subst.
    destruct (IH N') as [D I]. split.
    + rewrite map_app. apply NoDup_app; [|exact D|].
      * unfold entry_of. destruct (find _ (blocks d)); repeat constructor.
        intros [].
      * intros x Hx Hy. apply in_map_iff in Hx, Hy.
        destruct Hx as (v & <- & Hv), Hy as (v' & E & Hv').
        destruct (@entry_of_in _ _ _ _ Hv) as (_ & Ek & _).
        destruct (I v' Hv') as (l' & Hl' & _).
        apply Hk. apply in_map_iff. exists (vb_index v', l').
        split; [cbn [fst]; congruence|exact Hl'].
    + intros v Hv. apply in_app_or in Hv. destruct Hv as [Hv|Hv].
      * destruct (@entry_of_in _ _ _ _ Hv) as (_ & Ek & _).
        exists l. rewrite Ek. split; [left; reflexivity|exact Hv].
      * destruct (I v Hv) as (l' & Hl' & Hv'). exists l'.
        split; [right; exact Hl'|exact Hv'].
Qed.

Lemma categorize_kinds (ws : list warning) :
  NoDup (SRTProcessor._categorize_violation_types ws)
  /\ (In SRTProcessor.character_limit (SRTProcessor._categorize_violation_types ws)
      <-> exists w, In w ws /\ is_character_warning w = true)
  /\ (In SRTProcessor.reading_speed (SRTProcessor._categorize_violation_types ws)
      <-> exists w, In w ws /\ is_speed_warning w = true).
Proof.
  assert (C : existsb is_character_warning ws = true
              <-> exists w, In w ws /\ is_character_warning w = true)
    by apply existsb_exists.
  assert (R : existsb (fun w => negb (is_character_warning w) && is_speed_warning w) ws
              = true
              <-> exists w, In w ws /\ is_speed_warning w = true).
  { rewrite existsb_exists.
    split; intros (w & Hw & E); exists w; (split; [exact Hw|]);
      destruct w; cbn in *; congruence. }
  rewrite <- C, <- R. unfold SRTProcessor._categorize_violation_types.
  destruct (existsb is_character_warning ws),
    (existsb (fun w => negb (is_character_warning w) && is_speed_warning w) ws);
    cbn [app In]; (split; [|intuition discriminate]);
    repeat constructor; cbn [In]; intuition discriminate.
Qed.

Lemma entry_of_found (d : SRTDocument) (k : Z) (l : list warning) :
  In k (map index (blocks d)) ->
  exists block,
    entry_of d (k, l)
    = [{| SRTProcessor.vb_block := block;
          SRTProcessor.vb_violations := l;
          SRTProcessor.vb_violation_types :=
            SRTProcessor._categorize_violation_types l |}].
Proof.
  intros H. unfold entry_of. cbn [fst snd].
  destruct (find _ (blocks d)) as [b|] eqn:F; [exists b; reflexivity|].
  exfalso. apply in_map_iff in H. destruct H as (b & E & Hb).
  apply (find_none _ _ F) in Hb. rewrite E, Z.eqb_refl in Hb. discriminate.
Qed.

Lemma entries_length (d : SRTDocument) (groups : list (Z * list warning)) :
  (forall k, In k (map fst groups) -> In k (map index (blocks d))) ->
  length (flat_map (entry_of d) groups) = length groups.
Proof.
  induction groups as [|[k l] rest IH]; intros H; cbn [flat_map length];
    [reflexivity|].
  rewrite length_app, IH by (intros j Hj; apply H; right; exact Hj).
  destruct (@entry_of_found d k l) as (b & ->); [apply H; left; reflexivity|].
  reflexivity.
Qed.

Lemma extract_facts (d : SRTDocument) (ws : list warning) :
  StronglySorted Z.lt (map vb_index (SRTProcessor._extract_violation_blocks d ws))
  /\ Forall (reports d ws) (SRTProcessor._extract_violation_blocks d ws)
  /\ (forall w, In w ws -> (0 <= warning_block w)%Z ->
                In (warning_block w) (map index (blocks d)) ->
                exists v, In v (SRTProcessor._extract_violation_blocks d ws)
                          /\ vb_index v = warning_block w
                          /\ In w (SRTProcessor.vb_violations v))
  /\ ((forall w, In w ws -> (0 <= warning_block w)%Z
                            /\ In (warning_block w) (map index (blocks d))) ->
      length (SRTProcessor._extract_violation_blocks d ws)
      = length (nodup Z.eq_dec (map warning_block ws))).
Proof.
  rewrite extract_unfold.
  destruct (block_violations_facts ws) as (N & K & L).
  destruct (@entries_indices d _ N) as [D I].
  destruct (@sort_by_index_facts _ D) as (S & Len & M).
  split; [exact S|]. split; [|split].
  - apply Forall_forall. intros v Hv. apply M in Hv.
    destruct (I v Hv) as (l & Hl & He).
    destruct (@entry_of_in _ _ _ _ He) as (Hb & _ & Ev & Et).
    assert (Hk : In (vb_index v) (map fst (SRTProcessor.block_violations ws))).
    { apply in_map_iff. exists (vb_index v, l). split; [reflexivity|exact Hl]. }
    apply K in Hk. destruct Hk as [P Hw].
    assert (El : l = warnings_of_block ws (vb_index v)).
    { rewrite <- (L _ P). symmetry. apply group_of_entry; assumption. }
    destruct (categorize_kinds l) as (C0 & C1 & C2).
    unfold reports. rewrite Ev, Et.
    split; [exact Hb|]. split; [exact P|]. split; [exact El|].
    split; [|split; [exact C0|split; [exact C1|exact C2]]].
    rewrite El. apply in_map_iff in Hw. destruct Hw as (w & E & Hw).
    pose proof (@warnings_of_block_in ws w Hw) as W. rewrite E in W.
    intros Z. rewrite Z in W. destruct W.
  - intros w Hw P Hb.
    assert (Hk : In (warning_block w) (map fst (SRTProcessor.block_violations ws))).
    { apply K. split; [exact P|apply in_map; exact Hw]. }
    apply in_map_iff in Hk. destruct Hk as ([k l] & E & Hl). cbn [fst] in E. subst k.
    destruct (@entry_of_found d (warning_block w) l Hb) as (b & Eb).
    assert (Hv : In {| SRTProcessor.vb_block := b;
                       SRTProcessor.vb_violations := l;
                       SRTProcessor.vb_violation_types :=
                         SRTProcessor._categorize_violation_types l |}
                    (entry_of d (warning_block w, l)))
      by (rewrite Eb; left; reflexivity).
    eexists. split; [|split].
    + apply M. apply in_flat_map. exists (warning_block w, l).
      split; [exact Hl|exact Hv].
    + apply (@entry_of_in _ _ _ _ Hv).
    + cbn [SRTProcessor.vb_violations].
      rewrite <- (@group_of_entry _ _ _ N Hl), (L _ P).
      apply warnings_of_block_in. exact Hw.
  - intros H. rewrite Len, entries_length.
    + rewrite <- (length_map fst). apply Permutation_length.
      apply NoDup_Permutation; [exact N|apply NoDup_nodup|].
      intros j. rewrite K, nodup_In. split; [tauto|].
      intros Hj. split; [|exact Hj]. apply in_map_iff in Hj.
      destruct Hj as (w & <- & Hw). apply (H w Hw).
    + intros k Hk. apply K in Hk. destruct Hk as [_ Hk].
      apply in_map_iff in Hk. destruct Hk as (w & <- & Hw). apply (H w Hw).
Qed.

Lemma reports_warning (d : SRTDocument) (ws : list warning)
    (v : SRTProcessor.violation_block) (w : warning) :
  reports d ws v -> In w (SRTProcessor.vb_violations v) ->
  In w ws /\ warning_block w = vb_index v
  /\ In (SRTProcessor.vb_block v) (blocks d).
Proof.
  intros (F & _ & E & _) H. rewrite E in H. apply filter_In in H.
  destruct H as [H B]. apply Z.eqb_eq in B. apply find_some in F.
  split; [exact H|]. split; [exact B|apply F].
Qed.

(** X20: the violation blocks of a list of warnings.  For every document
    and every list of warnings, the entries that
    [_extract_violation_blocks] returns come in strictly increasing
    order of block index; the block of an entry is the first block of
    the document with its index; its warnings are exactly the warnings
    that name this index, in their order, and there is at least one; its
    kinds are the kinds of these warnings, each listed once.  A warning
    is in some entry exactly when its block index is not negative and is
    the index of a block of the document. *)
Theorem violation_blocks_report (d : SRTDocument) (ws : list warning) :
  let entries := SRTProcessor._extract_violation_blocks d ws in
  StronglySorted Z.lt (map vb_index entries)
  /\ Forall (reports d ws) entries
  /\ forall w,
       (exists v, In v entries /\ In w (SRTProcessor.vb_violations v))
       <-> In w ws /\ (0 <= warning_block w)%Z
           /\ In (warning_block w) (map index (blocks d)).
Proof.
  cbv zeta. destruct (extract_facts d ws) as (S & R & C & _).
  split; [exact S|]. split; [exact R|]. intros w. split.
  - intros (v & Hv & Hw). rewrite Forall_forall in R.
    pose proof (R v Hv) as Rv.
    destruct (@reports_warning d ws v w Rv Hw) as (H1 & H2 & H3).
    split; [exact H1|]. rewrite H2. split; [apply Rv|].
    exact (in_map index _ _ H3).
  - intros (H1 & H2 & H3). destruct (C w H1 H2 H3) as (v & Hv & _ & Hw).
    exists v. split; assumption.
Qed.

(** *** The violation blocks of a checked file *)

Lemma parse_file_blocks (f : input_file) (enc : option str) (d : SRTDocument) :
  SRTProcessor.parse_file f enc = Some (Ok d) -> Forall parsed_block (blocks d).
Proof.
  unfold SRTProcessor.parse_file, _parse_content. fold (input_lines (content f)).
  destruct (parse_loop _ _ _ _) as [[bs|e]|] eqn:R; try discriminate.
  intros H. injection H as <-. cbn [blocks].
  apply (@parse_loop_blocks _ _ (input_lines_without (content f)) 0%nat [] bs
           (Forall_nil _) R).
Qed.

Lemma Z_range_from (n : nat) :
  forall from v, In v (Z_range from n) -> (from <= v)%Z.
Proof.
  induction n as [|n IH]; intros from v; cbn [Z_range In]; [intros []|].
  intros [<-|H]; [lia|]. apply IH in H. lia.
Qed.

(** No block of the document that the two modes work on has a negative
    index. *)
Lemma prepared_indices (f : input_file) (enc : option str)
    (config config' : ProcessingConfig) (d d' : SRTDocument) :
  SRTProcessor.parse_file f enc = Some (Ok d) ->
  SRTProcessor.prepare d config = (d', config') ->
  forall i, In i (map index (blocks d')) -> (0 <= i)%Z.
Proof.
  intros P H i Hi.
  destruct (@prepare_result config config' d d' H) as (_ & _ & _ & _ & _ & Y & N).
  destruct (remove_sdh config).
  - rewrite (Y eq_refl) in Hi. apply Z_range_from in Hi. lia.
  - destruct (N eq_refl) as (E & _). rewrite E in Hi.
    apply in_map_iff in Hi. destruct Hi as (b & <- & Hb).
    pose proof (parse_file_blocks _ _ P) as F. rewrite Forall_forall in F.
    apply (F b Hb).
Qed.

(** X21: the violation blocks of a checked file.  When [check_file_only]
    returns a result, the warnings of the validation are exactly the
    warnings of the entries of its violation blocks, so that no warning
    is lost, and a warning of an entry names the block of the entry; the
    number of entries is the number of blocks less the number of
    compliant blocks; and an entry has the kind character limit, or
    reading speed, exactly when the list of character warnings, or of
    speed warnings, of the result holds a warning of its block. *)
Theorem check_file_only_violation_blocks (lower : str -> str) (f : input_file)
    (config config' : ProcessingConfig) (r : check_results) :
  SRTProcessor.check_file_only lower f config = (Some (Ok r), config') ->
  let entries := SRTProcessor.violation_blocks_of r in
  (forall w, In w (warnings (validation r))
             <-> exists v, In v entries /\ In w (SRTProcessor.vb_violations v))
  /\ (forall v w, In v entries -> In w (SRTProcessor.vb_violations v) ->
                  warning_block w = vb_index v)
  /\ Z.of_nat (length entries)
     = (stat_total_blocks (stats (validation r)) - compliant_blocks r)%Z
  /\ forall v, In v entries ->
       (In SRTProcessor.character_limit (SRTProcessor.vb_violation_types v)
        <-> exists w, In w (character_warnings r) /\ warning_block w = vb_index v)
       /\ (In SRTProcessor.reading_speed (SRTProcessor.vb_violation_types v)
           <-> exists w, In w (speed_warnings r) /\ warning_block w = vb_index v).
Proof.
  unfold SRTProcessor.check_file_only, SRTProcessor.mbind,
    SRTProcessor.get_config, SRTProcessor.ret, SRTProcessor.violation_blocks_of.
  destruct (SRTProcessor.parse_file f (force_encoding config)) as [[d|e]|] eqn:P;
    try discriminate.
  destruct (SRTProcessor.prepare d config) as [d' c'] eqn:Q. cbv zeta.
  intros H.
  pose proof (@warning_blocks_are_blocks lower c' d') as B.
  pose proof (@prepared_indices _ _ _ _ _ _ P Q) as I.
  remember (SRTProcessor.validate_document lower c' d') as val eqn:V.
  clear V. injection H as <-.
  cbn [validation compliant_blocks original_document character_warnings
       speed_warnings].
  set (ws := warnings val) in *.
  destruct (extract_facts d' ws) as (_ & R & C & L).
  rewrite Forall_forall in R.
  assert (K : forall w, In w ws ->
                (0 <= warning_block w)%Z
                /\ In (warning_block w) (map index (blocks d'))).
  { intros w Hw. assert (Hb : In (warning_block w) (map index (blocks d')))
      by (apply B; apply in_map; exact Hw).
    split; [apply I; exact Hb|exact Hb]. }
  split; [|split; [|split]].
  - intros w. split.
    + intros Hw. destruct (K w Hw) as [K1 K2].
      destruct (C w Hw K1 K2) as (v & Hv & _ & Hin). exists v. split; assumption.
    + intros (v & Hv & Hin). apply (@reports_warning d' ws v w (R v Hv) Hin).
  - intros v w Hv Hin. apply (@reports_warning d' ws v w (R v Hv) Hin).
  - rewrite (L K). lia.
  - intros v Hv. destruct (R v Hv) as (_ & _ & E & _ & _ & C1 & C2).
    rewrite C1, C2, E. unfold warnings_of_block.
    split; split; intros (w & Hw & X).
    + apply filter_In in Hw. destruct Hw as [Hw Y]. apply Z.eqb_eq in Y.
      exists w. split; [apply filter_In; split; assumption|exact Y].
    + apply filter_In in Hw. destruct Hw as [Hw Y].
      exists w. split; [|exact Y]. apply filter_In.
      split; [exact Hw|apply Z.eqb_eq; exact X].
    + apply filter_In in Hw. destruct Hw as [Hw Y]. apply Z.eqb_eq in Y.
      exists w. split; [|exact Y]. apply filter_In. split; [exact Hw|].
      destruct w; [discriminate|reflexivity].
    + apply filter_In in Hw. destruct Hw as [Hw Y].
      exists w. split; [apply filter_In; split; [exact Hw|apply Z.eqb_eq; exact X]|].
      destruct w; [discriminate|reflexivity].
Qed.

Lemma check_file_only_violation_blocks_witness :
  exists r config',
    SRTProcessor.check_file_only ascii_lower crowded_file default_config
    = (Some (Ok r), config')
    /\ (forall w, In w (warnings (validation r))
                  <-> exists v, In v (SRTProcessor.violation_blocks_of r)
                                /\ In w (SRTProcessor.vb_violations v))
    /\ (forall v w, In v (SRTProcessor.violation_blocks_of r) ->
                    In w (SRTProcessor.vb_violations v) ->
                    warning_block w = vb_index v)
    /\ Z.of_nat (length (SRTProcessor.violation_blocks_of r))
       = (stat_total_blocks (stats (validation r)) - compliant_blocks r)%Z
    /\ forall v, In v (SRTProcessor.violation_blocks_of r) ->
         (In SRTProcessor.character_limit (SRTProcessor.vb_violation_types v)
          <-> exists w, In w (character_warnings r)
                        /\ warning_block w = vb_index v)
         /\ (In SRTProcessor.reading_speed (SRTProcessor.vb_violation_types v)
             <-> exists w, In w (speed_warnings r)
                           /\ warning_block w = vb_index v).
Proof.
  eexists. eexists.
  refine ((fun E => conj E (@check_file_only_violation_blocks ascii_lower
                              crowded_file default_config _ _ E)) _).
  vm_compute. reflexivity.
Defined.

(** The two blocks of the crowded file are renumbered by the SDH pass;
    each has a character warning and a speed warning. *)
Example crowded_file_entries :
  match fst (SRTProcessor.check_file_only ascii_lower crowded_file default_config) with
  | Some (Ok r) =>
      map (fun v => (vb_index v, length (SRTProcessor.vb_violations v),
                     SRTProcessor.vb_violation_types v))
        (SRTProcessor.violation_blocks_of r)
      = [(1%Z, 2%nat, [SRTProcessor.character_limit; SRTProcessor.reading_speed]);
         (2%Z, 2%nat, [SRTProcessor.character_limit; SRTProcessor.reading_speed])]
  | _ => False
  end.
Proof. vm_compute. reflexivity. Qed.

(** ** The validator of the format *)

Lemma text_line_spec (l : str) :
  text_line l = true ->
  plain_line l = true /\ is_blank l = false
  /\ Py.isdigit (Py.strip l) = false.
Proof.
  unfold text_line. rewrite !andb_true_iff, !negb_true_iff. tauto.
Qed.

Lemma regular_block_spec (b : SubtitleBlock) :
  regular_block b = true ->
  (0 <= index b)%Z
  /\ valid_time (start (time_code b)) = true
  /\ valid_time (end_ (time_code b)) = true
  /\ lines b <> []
  /\ forallb text_line (lines b) = true.
Proof.
  unfold regular_block. rewrite !andb_true_iff, Z.leb_le.
  intros ((((H1 & H2) & H3) & H4) & H5). repeat split; try assumption.
  intros E. rewrite E in H4. discriminate.
Qed.

Lemma text_lines_plain (ls : list str) :
  forallb text_line ls = true -> forallb plain_line ls = true.
Proof.
  intros H. apply forallb_forall. intros l Hl. rewrite forallb_forall in H.
  apply (text_line_spec _ (H l Hl)).
Qed.

Lemma text_lines_end_visibly (ls : list str) :
  ls <> [] -> forallb text_line ls = true -> ends_visibly ls = true.
Proof.
  intros Hne H. unfold ends_visibly.
  destruct (rev ls) as [|l r] eqn:E.
  - exfalso. apply Hne. rewrite <- (rev_involutive ls), E. reflexivity.
  - rewrite forallb_forall in H.
    assert (Hl : In l ls) by (apply in_rev; rewrite E; left; reflexivity).
    destruct (text_line_spec _ (H l Hl)) as (_ & -> & _). reflexivity.
Qed.

Lemma text_lines_no_block_start (ls : list str) :
  forallb text_line ls = true -> no_block_start ls = true.
Proof.
  induction ls as [|l rest IH]; intros H; [reflexivity|].
  cbn [forallb] in H. apply andb_true_iff in H. destruct H as [Hl Hrest].
  cbn [no_block_start]. rewrite (IH Hrest), andb_true_r.
  destruct (text_line_spec _ Hl) as (_ & _ & D).
  unfold at_next_block. destruct rest as [|next rest']; [reflexivity|].
  rewrite D. reflexivity.
Qed.

Lemma regular_bare_canonical (b : SubtitleBlock) :
  regular_block b = true -> canonical_block (bare b) = true.
Proof.
  intros H. destruct (regular_block_spec _ H) as (Hi & Hs & He & Hne & Hl).
  unfold canonical_block, bare, new_block. cbn [index time_code lines language is_sdh].
  apply Z.leb_le in Hi.
  rewrite Hi, Hs, He, (text_lines_plain _ Hl),
    (text_lines_end_visibly Hne Hl), (text_lines_no_block_start _ Hl).
  reflexivity.
Qed.

Lemma regular_bare_all (bs : list SubtitleBlock) :
  forallb regular_block bs = true -> forallb canonical_block (map bare bs) = true.
Proof.
  induction bs as [|b rest IH]; intros H; [reflexivity|].
  cbn [forallb] in H. apply andb_true_iff in H. destruct H as [Hb Hrest].
  cbn [map forallb]. rewrite (regular_bare_canonical _ Hb), (IH Hrest). reflexivity.
Qed.

Lemma body_lines_bare (rest : list SubtitleBlock) :
  forall b, body_lines (bare b) (map bare rest) = body_lines b rest.
Proof.
  induction rest as [|b' rest' IH]; intros b; [reflexivity|].
  cbn [map]. rewrite (body_lines_unfold (bare b)), (body_lines_unfold b), IH.
  reflexivity.
Qed.

(** The lines that the validator works on, for a document of regular
    blocks. *)
Lemma written_lines (b : SubtitleBlock) (rest : list SubtitleBlock) :
  regular_block b = true -> forallb regular_block rest = true ->
  Py.split [NL] (Py.strip (Py.join [NL] (flat_map block_to_srt_lines (b :: rest))))
  = body_lines b rest.
Proof.
  intros Hb Hrest.
  pose proof (regular_bare_canonical _ Hb) as Cb.
  pose proof (regular_bare_all _ Hrest) as Cr.
  rewrite flat_map_body_lines.
  destruct (@body_lines_ends _ _ Cb Cr) as (c & t & mid & x & e & E & Hc & He).
  rewrite body_lines_bare in E.
  match goal with
  | |- context [Py.strip ?u] =>
      replace (Py.strip u) with (Py.join [NL] (body_lines b rest))
        by (symmetry; rewrite E; apply (@strip_joined c t mid x e Hc He))
  end.
  apply split_join.
  - rewrite E. discriminate.
  - rewrite <- body_lines_bare. apply body_lines_without_newline; assumption.
Qed.

(** *** One round of the loop *)

Lemma skip_empty_lines_gap (gap : list str) :
  forall (l : str) (tail : list str) (current_line : nat),
    forallb is_blank gap = true -> is_blank l = false ->
    skip_empty_lines (gap ++ l :: tail) current_line
    = (current_line + length gap)%nat.
Proof.
  induction gap as [|g gap IH]; intros l tail cur G L; cbn [app skip_empty_lines length].
  - rewrite L. lia.
  - cbn [forallb] in G. apply andb_true_iff in G. destruct G as [-> G].
    rewrite (IH l tail (S cur) G L). lia.
Qed.

Lemma count_text_lines_spec (body : list str) :
  forall (tail : list str) (current_line text_line_count : nat),
    forallb text_line body = true ->
    tail = [] \/ (exists r, tail = [] :: r) ->
    count_text_lines (body ++ tail) current_line text_line_count
    = ((text_line_count + length body)%nat, (current_line + length body)%nat).
Proof.
  induction body as [|l body IH]; intros tail cur n B T; cbn [app length].
  - rewrite !Nat.add_0_r. destruct T as [->|(r & ->)]; reflexivity.
  - cbn [forallb] in B. apply andb_true_iff in B. destruct B as [Hl B].
    destruct (text_line_spec _ Hl) as (_ & N & D).
    cbn [count_text_lines]. rewrite N, D. cbn [negb andb].
    rewrite (IH tail (S cur) (S n) B T). f_equal; lia.
Qed.

Lemma validate_loop_done (fuel : nat) (lines : list str) (current_line : nat)
    (expected_index : Z) (issues : list format_issue) :
  (length lines <= current_line)%nat ->
  validate_loop fuel lines current_line expected_index issues = Some (Ok issues).
Proof.
  intros H.
  assert (E : (current_line <? length lines)%nat = false) by (apply Nat.ltb_ge; exact H).
  destruct fuel; cbn [validate_loop]; rewrite E; reflexivity.
Qed.

Lemma digits_not_blank (s : str) : Py.isdigit (Py.strip s) = true -> is_blank s = false.
Proof.
  unfold is_blank. destruct (Py.strip s); [discriminate|reflexivity].
Qed.

(** A round on an index line, a time line and lines of text, after some
    blank lines. *)
Lemma validate_loop_round (fuel : nat) (before gap : list str)
    (index_line time_line : str) (body tail : list str) (i expected_index : Z)
    (issues : list format_issue) :
  forallb is_blank gap = true ->
  Py.isdigit (Py.strip index_line) = true ->
  Py.int (Py.strip index_line) = Some i ->
  Re.matches time_pattern (Py.strip time_line) = true ->
  body <> [] -> forallb text_line body = true ->
  tail = [] \/ (exists r, tail = [] :: r) ->
  validate_loop (S fuel)
    (before ++ gap ++ index_line :: time_line :: body ++ tail)
    (length before) expected_index issues
  = validate_loop fuel
      (before ++ gap ++ index_line :: time_line :: body ++ tail)
      (length before + length gap + 2 + length body)
      (expected_index + 1)
      (issues
       ++ if (i =? expected_index)%Z then []
          else [ExpectedIndexNumber (length before + length gap + 1)
                  expected_index i]).
Proof.
  intros G D I T Hne B Tl.
  set (all := before ++ gap ++ index_line :: time_line :: body ++ tail).
  cbn [validate_loop].
  assert (E : (length before <? length all)%nat = true).
  { apply Nat.ltb_lt. unfold all. rewrite !length_app. cbn [length]. lia. }
  rewrite E.
  assert (S1 : skipn (length before) all
               = gap ++ index_line :: time_line :: body ++ tail).
  { unfold all. rewrite skipn_app, Nat.sub_diag, skipn_all. reflexivity. }
  rewrite S1, (@skip_empty_lines_gap gap index_line _ (length before) G
                 (digits_not_blank _ D)).
  set (p := (length before + length gap)%nat).
  assert (A : all = (before ++ gap) ++ index_line :: time_line :: body ++ tail).
  { unfold all. rewrite <- app_assoc. reflexivity. }
  assert (Lp : length (before ++ gap) = p) by (unfold p; apply length_app).
  assert (N1 : nth_error all p = Some index_line).
  { rewrite A, nth_error_app2 by lia. rewrite Lp, Nat.sub_diag. reflexivity. }
  assert (N2 : nth_error all (S p) = Some time_line).
  { rewrite A, nth_error_app2 by lia. rewrite Lp.
    replace (S p - p)%nat with 1%nat by lia. reflexivity. }
  assert (S2 : skipn (S (S p)) all = body ++ tail).
  { rewrite A, skipn_app, Lp.
    replace (S (S p) - p)%nat with 2%nat by lia.
    rewrite skipn_all2 by lia. reflexivity. }
  rewrite N1, D, I. cbn [negb]. rewrite N2, T, S2.
  rewrite (@count_text_lines_spec body tail (S (S p)) 0 B Tl).
  assert (Z0 : (0 + length body =? 0)%nat = false).
  { apply Nat.eqb_neq. destruct body; [congruence|cbn [length]; lia]. }
  rewrite Z0.
  replace (S (S p) + length body)%nat with (p + 2 + length body)%nat by lia.
  destruct (i =? expected_index)%Z; [rewrite app_nil_r|]; reflexivity.
Qed.

(** The loop over the serialized lines: one round for each block. *)
Lemma validate_loop_body (rest : list SubtitleBlock) :
  forall (b : SubtitleBlock) (before gap : list str) (expected_index : Z)
         (issues : list format_issue) (fuel : nat),
    regular_block b = true ->
    forallb regular_block rest = true ->
    forallb is_blank gap = true ->
    (length rest < fuel)%nat ->
    validate_loop fuel (before ++ gap ++ body_lines b rest) (length before)
      expected_index issues
    = Some (Ok (issues
                ++ index_issues (length before + length gap + 1)
                     expected_index (b :: rest))).
Proof.
  induction rest as [|b' rest' IH];
    intros b before gap expected issues fuel Hb Hrest G Hfuel;
    (destruct fuel as [|fuel]; [simpl in Hfuel; lia|]);
    destruct (regular_block_spec _ Hb) as (Hi & Hs & He & Hne & Hl);
    destruct (@index_line_read _ Hi) as [Hd Hint];
    destruct (@time_line_facts _ Hs He) as [_ Ht];
    rewrite body_lines_unfold.
  - rewrite (@validate_loop_round fuel before gap _ _ (lines b) [] (index b)
               expected issues G Hd Hint Ht Hne Hl (or_introl eq_refl)).
    rewrite validate_loop_done.
    + cbn [index_issues]. rewrite app_nil_r. reflexivity.
    + rewrite !length_app. cbn [length]. rewrite length_app. cbn [length]. lia.
  - rewrite (@validate_loop_round fuel before gap _ _ (lines b)
               ([] :: body_lines b' rest') (index b)
               expected issues G Hd Hint Ht Hne Hl
               (or_intror (ex_intro _ _ eq_refl))).
    cbn [forallb] in Hrest. apply andb_true_iff in Hrest.
    destruct Hrest as [Hb' Hrest'].
    set (head := gap ++ Py.str_of_Z (index b)
                 :: TimeCode_to_srt_format (time_code b) :: lines b).
    replace (before ++ gap ++ Py.str_of_Z (index b)
               :: TimeCode_to_srt_format (time_code b)
               :: lines b ++ [] :: body_lines b' rest')
      with ((before ++ head) ++ [[]] ++ body_lines b' rest').
    2:{ unfold head. rewrite <- !app_assoc. reflexivity. }
    replace (length before + length gap + 2 + length (lines b))%nat
      with (length (before ++ head)).
    2:{ unfold head. rewrite !length_app. cbn [length]. lia. }
    rewrite (IH b' (before ++ head) [[]] (expected + 1)%Z _ fuel Hb' Hrest'
               eq_refl ltac:(simpl in Hfuel; lia)).
    match goal with
    | |- context [index_issues ?n (expected + 1)%Z _] =>
        replace n
          with (length before + length gap + 1 + 3 + length (lines b))%nat
          by (unfold head; rewrite !length_app; cbn [length]; lia)
    end.
    rewrite <- app_assoc. reflexivity.
Qed.

(** *** A written document *)

Lemma index_issues_nil (bs : list SubtitleBlock) :
  forall (line_number : nat) (expected_index : Z),
    index_issues line_number expected_index bs = []
    <-> map index bs = Z_range expected_index (length bs).
Proof.
  induction bs as [|b rest IH]; intros n e; cbn [index_issues map length Z_range].
  - split; reflexivity.
  - destruct (Z.eqb_spec (index b) e) as [E|E]; cbn [app].
    + rewrite IH. split; [intros ->; rewrite E; reflexivity|].
      intros H. injection H as _ H. exact H.
    + split; [discriminate|]. intros H. injection H as H _. contradiction.
Qed.

(** X22: the validator on a written document.  For a document whose
    blocks have an index that is not negative, times of whole
    milliseconds from zero to below a hundred hours, and at least one
    line, where every line has no line
    break, does not end with white space, is not blank and is not a run
    of digits, [validate_srt_format] on the serialized text returns one
    issue for each block whose index is not its position in the
    document, counted from 1, with the number of the index line of that
    block, and nothing else.  So it reports no issue exactly when the
    blocks are numbered 1, 2, 3 and so on. *)
Theorem written_document_validated (d : SRTDocument) :
  forallb regular_block (blocks d) = true ->
  validate_srt_format (to_srt_format d)
  = Some (Ok (index_issues 1 1 (blocks d)))
  /\ (validate_srt_format (to_srt_format d) = Some (Ok [])
      <-> map index (blocks d) = Z_range 1 (length (blocks d))).
Proof.
  intros H.
  assert (V : validate_srt_format (to_srt_format d)
              = Some (Ok (index_issues 1 1 (blocks d)))).
  { unfold validate_srt_format, to_srt_format.
    destruct (blocks d) as [|b rest]; [reflexivity|].
    cbn [forallb] in H. apply andb_true_iff in H. destruct H as [Hb Hrest].
    rewrite (written_lines b rest Hb Hrest).
    exact (@validate_loop_body rest b [] [] 1%Z [] _ Hb Hrest eq_refl
             (body_lines_length rest b)). }
  split; [exact V|]. rewrite V, <- index_issues_nil. split.
  - intros E. injection E as E. exact E.
  - intros ->. reflexivity.
Qed.

Lemma written_document_validated_witness :
  validate_srt_format (to_srt_format hello_gap)
  = Some (Ok (index_issues 1 1 (blocks hello_gap)))
  /\ (validate_srt_format (to_srt_format hello_gap) = Some (Ok [])
      <-> map index (blocks hello_gap) = Z_range 1 (length (blocks hello_gap))).
Proof.
  apply (@written_document_validated hello_gap). vm_compute. reflexivity.
Defined.

(** The second block of the sample is numbered 3: one issue, at line 5. *)
Example hello_gap_issue :
  validate_srt_format (to_srt_format hello_gap)
  = Some (Ok [ExpectedIndexNumber 5 2 3]).
Proof. vm_compute. reflexivity. Qed.

(** *** Any text *)

Lemma count_text_lines_bound (rest : list str) :
  forall (current_line text_line_count : nat),
    exists n,
      count_text_lines rest current_line text_line_count
      = ((text_line_count + n)%nat, (current_line + n)%nat)
      /\ (n <= length rest)%nat.
Proof.
  induction rest as [|l rest IH]; intros cur k; cbn [count_text_lines length].
  - exists 0%nat. rewrite !Nat.add_0_r. split; [reflexivity|lia].
  - destruct (negb (is_blank l) && negb (Py.isdigit (Py.strip l))).
    + destruct (IH (S cur) (S k)) as (n & E & B). exists (S n).
      rewrite E. split; [f_equal; lia|lia].
    + exists 0%nat. rewrite !Nat.add_0_r. split; [reflexivity|lia].
Qed.

Lemma sorted_app (a b : list nat) (m : nat) :
  StronglySorted le a -> StronglySorted le b ->
  Forall (fun x => (x <= m)%nat) a -> Forall (fun x => (m <= x)%nat) b ->
  StronglySorted le (a ++ b).
Proof.
  intros Sa Sb Fa Fb. induction Sa as [|x a Sa IH Hx]; [exact Sb|].
  inversion Fa as [|? ? Fx Fa']; subst. cbn [app]. constructor; [apply IH; exact Fa'|].
  apply Forall_app. split; [exact Hx|].
  apply (Forall_impl _ (P := fun y => (m <= y)%nat)); [intros y Hy; lia|exact Fb].
Qed.

(** The outcome of the loop when it goes on after having added the
    issues [new], all of them at lines from [current_line + 1] to
    [next]. *)
Lemma loop_outcome_step (lines : list str) (current_line next : nat)
    (issues new : list format_issue) (r : result exn (list format_issue)) :
  (current_line <= next <= length lines)%nat ->
  Forall (fun i => (current_line < issue_line i <= next)%nat) new ->
  StronglySorted le (map issue_line new) ->
  loop_outcome lines next (issues ++ new) r ->
  loop_outcome lines current_line issues r.
Proof.
  intros B F S. destruct r as [out|e]; cbn [loop_outcome]; [|tauto].
  intros (more & -> & Fm & Sm). exists (new ++ more).
  split; [rewrite app_assoc; reflexivity|]. split.
  - apply Forall_app. split.
    + apply (Forall_impl _ (P := fun i => (current_line < issue_line i <= next)%nat));
        [intros i Hi; lia|exact F].
    + apply (Forall_impl _ (P := fun i => (next < issue_line i <= length lines)%nat));
        [intros i Hi; lia|exact Fm].
  - rewrite map_app. apply (@sorted_app _ _ next S Sm).
    + apply Forall_forall. intros x Hx. apply in_map_iff in Hx.
      destruct Hx as (i & <- & Hi). rewrite Forall_forall in F.
      apply (F i Hi).
    + apply Forall_forall. intros x Hx. apply in_map_iff in Hx.
      destruct Hx as (i & <- & Hi). rewrite Forall_forall in Fm.
      pose proof (Fm i Hi). lia.
Qed.

Lemma loop_outcome_now (lines : list str) (current_line : nat)
    (issues new : list format_issue) :
  Forall (fun i => (current_line < issue_line i <= length lines)%nat) new ->
  StronglySorted le (map issue_line new) ->
  loop_outcome lines current_line issues (Ok (issues ++ new)).
Proof. intros F S. exists new. split; [reflexivity|]. split; assumption. Qed.

Ltac issue_lines :=
  cbn [app map issue_line];
  repeat first [apply Forall_nil | apply Forall_cons
               | apply SSorted_nil | apply SSorted_cons];
  cbn [issue_line]; try lia.

(** The loop returns when the fuel covers the lines that are left. *)
Lemma validate_loop_outcome (fuel : nat) (lines : list str) :
  forall (current_line : nat) (expected_index : Z) (issues : list format_issue),
    (length lines <= current_line + fuel)%nat ->
    exists r,
      validate_loop fuel lines current_line expected_index issues = Some r
      /\ loop_outcome lines current_line issues r.
Proof.
  induction fuel as [|fuel IH]; intros cur expected issues H.
  - exists (Ok issues). split; [apply validate_loop_done; lia|].
    rewrite <- (app_nil_r issues) at 2. apply loop_outcome_now; issue_lines.
  - cbn [validate_loop]. destruct (cur <? length lines)%nat eqn:E.
    2:{ exists (Ok issues). split; [reflexivity|].
        rewrite <- (app_nil_r issues) at 2. apply loop_outcome_now; issue_lines. }
    pose proof (skip_empty_lines_ge (skipn cur lines) cur) as G.
    set (c := skip_empty_lines (skipn cur lines) cur) in *.
    destruct (nth_error lines c) as [l|] eqn:N1.
    2:{ exists (Ok issues). split; [reflexivity|].
        rewrite <- (app_nil_r issues) at 2. apply loop_outcome_now; issue_lines. }
    assert (Lc : (c < length lines)%nat)
      by (apply nth_error_Some; rewrite N1; discriminate).
    destruct (Py.isdigit (Py.strip l)) eqn:D; cbn [negb].
    2:{ destruct (IH (S c) expected
                    (issues ++ [ExpectedIndexGot (c + 1) (Py.strip l)])
                    ltac:(lia)) as (r & R & O).
        exists r. split; [exact R|].
        apply (@loop_outcome_step lines cur (S c) issues
                 [ExpectedIndexGot (c + 1) (Py.strip l)] r ltac:(lia));
          [issue_lines|issue_lines|exact O]. }
    destruct (Py.int (Py.strip l)) as [i|] eqn:I.
    2:{ exists (Err ValueError). split; [reflexivity|]. split; [reflexivity|].
        exists l. split; [apply (nth_error_In _ _ N1)|]. split; assumption. }
    set (first := if (i =? expected)%Z then []
                  else [ExpectedIndexNumber (c + 1) expected i]).
    assert (F1 : (if (i =? expected)%Z then issues
                  else issues ++ [ExpectedIndexNumber (c + 1) expected i])
                 = issues ++ first).
    { unfold first. destruct (i =? expected)%Z; [rewrite app_nil_r|]; reflexivity. }
    rewrite F1.
    destruct (nth_error lines (S c)) as [tl|] eqn:N2.
    2:{ eexists. split; [reflexivity|]. rewrite <- app_assoc.
        apply nth_error_None in N2.
        apply loop_outcome_now; unfold first; destruct (i =? expected)%Z;
          issue_lines. }
    assert (Lt : (S c < length lines)%nat)
      by (apply nth_error_Some; rewrite N2; discriminate).
    set (second := if Re.matches time_pattern (Py.strip tl) then []
                   else [InvalidTimeFormatAt (S c + 1) (Py.strip tl)]).
    assert (F2 : (if Re.matches time_pattern (Py.strip tl) then issues ++ first
                  else (issues ++ first)
                       ++ [InvalidTimeFormatAt (S c + 1) (Py.strip tl)])
                 = issues ++ first ++ second).
    { unfold second. destruct (Re.matches time_pattern (Py.strip tl));
        [rewrite app_nil_r|rewrite app_assoc]; reflexivity. }
    rewrite F2.
    destruct (count_text_lines_bound (skipn (S (S c)) lines) (S (S c)) 0)
      as (n & C & Bn).
    rewrite C. rewrite length_skipn in Bn.
    set (third := if (0 + n =? 0)%nat then [NoSubtitleTextAt (S (S c) + n)]
                  else []).
    assert (F3 : (if (0 + n =? 0)%nat
                  then (issues ++ first ++ second)
                       ++ [NoSubtitleTextAt (S (S c) + n)]
                  else issues ++ first ++ second)
                 = issues ++ first ++ second ++ third).
    { unfold third. destruct (0 + n =? 0)%nat;
        [rewrite <- !app_assoc|rewrite app_nil_r]; reflexivity. }
    rewrite F3.
    destruct (IH (S (S c) + n)%nat (expected + 1)%Z
                (issues ++ first ++ second ++ third) ltac:(lia)) as (r & R & O).
    exists r. split; [exact R|].
    apply (@loop_outcome_step lines cur (S (S c) + n) issues
             (first ++ second ++ third) r ltac:(lia));
      [| |exact O];
      unfold first, second, third;
      destruct (i =? expected)%Z, (Re.matches time_pattern (Py.strip tl));
      destruct (Nat.eqb_spec (0 + n) 0); issue_lines.
Qed.

(** X23: the validator on any text.  [validate_srt_format] returns for
    every text.  When it returns issues, every issue names a line of the
    text, from 1 to the number of lines, and the issues come in the
    order of the lines.  Otherwise it raises [ValueError], and then some
    line of the text is, without the white space around it, a run of
    digits that [int] does not read. *)
Theorem validate_srt_format_returns (content : str) :
  exists r,
    validate_srt_format content = Some r
    /\ match r with
       | Ok issues =>
           Forall (fun i => (1 <= issue_line i <= length (input_lines content))%nat)
             issues
           /\ StronglySorted le (map issue_line issues)
       | Err e =>
           e = ValueError
           /\ exists l, In l (input_lines content)
                        /\ Py.isdigit (Py.strip l) = true
                        /\ Py.int (Py.strip l) = None
       end.
Proof.
  unfold validate_srt_format. fold (input_lines content).
  destruct (@validate_loop_outcome (length (input_lines content))
              (input_lines content) 0%nat 1%Z [] ltac:(lia)) as (r & R & O).
  exists r. split; [exact R|]. destruct r as [out|e]; [|exact O].
  destruct O as (more & -> & F & S). cbn [app]. split; [|exact S].
  apply (Forall_impl _ (P := fun i => (0 < issue_line i
                                       <= length (input_lines content))%nat));
    [intros i Hi; lia|exact F].
Qed.

(** A superscript two is a digit for [isdigit] and not for [int]. *)
Example superscript_index_raises :
  validate_srt_format [178] = Some (Err ValueError).
Proof. vm_compute. reflexivity. Qed.

(** ** Removing the SDH-only blocks in place *)

Lemma nth_error_assign_index (s : store) :
  forall (a a' : nat) (i : Z),
    nth_error (assign_index s a i) a'
    = if (a =? a')%nat
      then option_map (fun b => set_index b i) (nth_error s a')
      else nth_error s a'.
Proof.
  induction s as [|b s IH]; intros a a' i; cbn [assign_index].
  - destruct a'; destruct (a =? _)%nat; reflexivity.
  - destruct a as [|a]; destruct a' as [|a']; cbn [nth_error Nat.eqb option_map];
      try reflexivity.
    apply IH.
Qed.

Lemma length_assign_index (s : store) :
  forall (a : nat) (i : Z), length (assign_index s a i) = length s.
Proof.
  induction s as [|b s IH]; intros a i; cbn [assign_index]; [reflexivity|].
  destruct a; cbn [length]; [reflexivity|]. rewrite IH. reflexivity.
Qed.

Lemma renumber_other (addresses : list nat) :
  forall (s : store) (i : Z) (a : nat),
    ~ In a addresses -> nth_error (renumber s i addresses) a = nth_error s a.
Proof.
  induction addresses as [|x rest IH]; intros s i a H; cbn [renumber];
    [reflexivity|].
  rewrite IH by (intros K; apply H; right; exact K).
  rewrite nth_error_assign_index.
  destruct (Nat.eqb_spec x a) as [->|_]; [|reflexivity].
  exfalso. apply H. left. reflexivity.
Qed.

Lemma renumber_length (addresses : list nat) :
  forall (s : store) (i : Z), length (renumber s i addresses) = length s.
Proof.
  induction addresses as [|x rest IH]; intros s i; cbn [renumber]; [reflexivity|].
  rewrite IH. apply length_assign_index.
Qed.

Lemma blocks_at_ext (s1 s2 : store) (addresses : list nat) :
  (forall a, In a addresses -> nth_error s1 a = nth_error s2 a) ->
  blocks_at s1 addresses = blocks_at s2 addresses.
Proof.
  unfold blocks_at. induction addresses as [|a rest IH]; intros H; [reflexivity|].
  cbn [flat_map]. rewrite (H a (or_introl eq_refl)), IH; [reflexivity|].
  intros a' Ha'. apply H. right. exact Ha'.
Qed.

Lemma is_sdh_only_block_set_index (b : SubtitleBlock) (i : Z) :
  is_sdh_only_block (set_index b i) = is_sdh_only_block b.
Proof. reflexivity. Qed.

(** The two views of the store after the renumbering: through the
    addresses that were kept, and through all the addresses. *)
Lemma renumber_views (addresses : list nat) :
  forall (s : store) (i : Z) (keep : nat -> bool),
    NoDup addresses ->
    Forall (fun a => (a < length s)%nat) addresses ->
    (forall a b, In a addresses -> nth_error s a = Some b ->
                 keep a = negb (is_sdh_only_block b)) ->
    blocks_at (renumber s i (filter keep addresses)) (filter keep addresses)
    = reindex i (filter (fun b => negb (is_sdh_only_block b))
                   (blocks_at s addresses))
    /\ blocks_at (renumber s i (filter keep addresses)) addresses
       = numbered_in_place i (blocks_at s addresses).
Proof.
  induction addresses as [|a rest IH]; intros s i keep N V K.
  - split; reflexivity.
  - inversion N as [|? ? Ha N']; subst. inversion V as [|? ? Va V']; subst.
    destruct (nth_error s a) as [b|] eqn:E.
    2:{ apply nth_error_None in E. lia. }
    pose proof (K a b (or_introl eq_refl) E) as Ka.
    assert (B : blocks_at s (a :: rest) = b :: blocks_at s rest).
    { unfold blocks_at. cbn [flat_map]. rewrite E. reflexivity. }
    rewrite B. cbn [filter numbered_in_place].
    assert (Hf : ~ In a (filter keep rest)).
    { intros H. apply filter_In in H. apply Ha. apply H. }
    destruct (is_sdh_only_block b) eqn:Sb; rewrite Ka; cbn [negb].
    + destruct (IH s i keep N' V') as [R1 R2].
      { intros a' b' Ha' E'. apply (K a' b' (or_intror Ha') E'). }
      split; [exact R1|].
      unfold blocks_at at 1. cbn [flat_map].
      rewrite (@renumber_other (filter keep rest) s i a Hf), E. cbn [app].
      f_equal. exact R2.
    + cbn [renumber reindex].
      set (s1 := assign_index s a (i + 1)).
      assert (U : forall a', In a' rest -> nth_error s1 a' = nth_error s a').
      { intros a' Ha'. unfold s1. rewrite nth_error_assign_index.
        destruct (Nat.eqb_spec a a') as [->|_]; [contradiction|reflexivity]. }
      assert (E1 : nth_error s1 a = Some (set_index b (i + 1))).
      { unfold s1. rewrite nth_error_assign_index, Nat.eqb_refl, E. reflexivity. }
      destruct (IH s1 (i + 1)%Z keep N') as [R1 R2].
      { unfold s1. rewrite length_assign_index. exact V'. }
      { intros a' b' Ha' E'. rewrite (U a' Ha') in E'.
        apply (K a' b' (or_intror Ha') E'). }
      rewrite (@blocks_at_ext s1 s rest U) in R1, R2.
      split.
      * unfold blocks_at at 1. cbn [flat_map].
        rewrite (@renumber_other (filter keep rest) s1 (i + 1)%Z a Hf), E1. cbn [app].
        f_equal. exact R1.
      * unfold blocks_at at 1. cbn [flat_map].
        rewrite (@renumber_other (filter keep rest) s1 (i + 1)%Z a Hf), E1. cbn [app].
        f_equal. exact R2.
Qed.

(** X24: removing the SDH-only blocks renumbers the blocks where they
    are.  For a document object of distinct blocks,
    [remove_sdh_only_blocks] returns a document of the blocks that are
    not SDH-only blocks, in their order and numbered from 1, with the
    other fields as they were.  The blocks of the result are the block
    objects of the document that the method was called on: afterwards
    that document has all its blocks still, and every block of it that
    is not an SDH-only block carries its new number.  No other object of
    the store is changed. *)
Theorem remove_sdh_only_blocks_in_place (s : store) (d : SRTDocument_object) :
  distinct_blocks s d ->
  let kept :=
    filter (fun b => negb (is_sdh_only_block b)) (blocks (document_at s d)) in
  let s' := fst (remove_sdh_only_blocks s d) in
  let d' := snd (remove_sdh_only_blocks s d) in
  document_at s' d'
  = {| blocks := reindex 0 kept;
       source_file := source_file (document_at s d);
       detected_language := detected_language (document_at s d);
       encoding := encoding (document_at s d) |}
  /\ blocks (document_at s' d) = numbered_in_place 0 (blocks (document_at s d))
  /\ incl (block_addresses d') (block_addresses d)
  /\ distinct_blocks s' d'
  /\ forall a, ~ In a (block_addresses d') -> nth_error s' a = nth_error s a.
Proof.
  intros [N V]. cbv zeta. unfold remove_sdh_only_blocks. cbn [fst snd].
  set (keep := fun block => match nth_error s block with
                            | Some b => negb (is_sdh_only_block b)
                            | None => false
                            end).
  destruct (@renumber_views (block_addresses d) s 0%Z keep N V) as [R1 R2].
  { intros a b _ E. unfold keep. rewrite E. reflexivity. }
  unfold document_at. cbn [blocks source_file detected_language encoding
                           block_addresses object_source_file
                           object_detected_language object_encoding].
  split; [rewrite R1; reflexivity|]. split; [exact R2|]. split; [|split].
  - intros a Ha. apply filter_In in Ha. apply Ha.
  - split; [apply NoDup_filter; exact N|].
    apply Forall_forall. intros a Ha. apply filter_In in Ha.
    rewrite renumber_length. rewrite Forall_forall in V. apply V. apply Ha.
  - intros a Ha. apply renumber_other. exact Ha.
Qed.

Lemma remove_sdh_only_blocks_in_place_witness :
  document_at (fst (remove_sdh_only_blocks music_store music_document))
    (snd (remove_sdh_only_blocks music_store music_document))
  = {| blocks :=
         reindex 0
           (filter (fun b => negb (is_sdh_only_block b))
              (blocks (document_at music_store music_document)));
       source_file := source_file (document_at music_store music_document);
       detected_language :=
         detected_language (document_at music_store music_document);
       encoding := encoding (document_at music_store music_document) |}
  /\ blocks (document_at (fst (remove_sdh_only_blocks music_store music_document))
               music_document)
     = numbered_in_place 0 (blocks (document_at music_store music_document))
  /\ incl (block_addresses (snd (remove_sdh_only_blocks music_store music_document)))
          (block_addresses music_document)
  /\ distinct_blocks (fst (remove_sdh_only_blocks music_store music_document))
       (snd (remove_sdh_only_blocks music_store music_document))
  /\ forall a,
       ~ In a (block_addresses
                 (snd (remove_sdh_only_blocks music_store music_document))) ->
       nth_error (fst (remove_sdh_only_blocks music_store music_document)) a
       = nth_error music_store a.
Proof.
  apply (@remove_sdh_only_blocks_in_place music_store music_document).
  split.
  - repeat constructor; cbn [In]; lia.
  - repeat constructor.
Defined.

(** After the call the document it was made on has two blocks with the
    number 1: the music, which was left out of the result, and the first
    block of speech. *)
Example music_document_afterwards :
  map index
    (blocks (document_at (fst (remove_sdh_only_blocks music_store music_document))
               music_document))
  = [1; 1; 2]%Z
  /\ map index
       (blocks (document_at
                  (fst (remove_sdh_only_blocks music_store music_document))
                  (snd (remove_sdh_only_blocks music_store music_document))))
     = [1; 2]%Z.
Proof. vm_compute. split; reflexivity. Qed.

(** ** Joining short lines in the Chinese and the Korean processor *)

Lemma stripped_or_joined_more (short : Z) (joint : str) (limit : Z)
    (more lines : list str) (l : str) :
  incl lines more ->
  stripped_or_joined short joint limit lines l ->
  stripped_or_joined short joint limit more l.
Proof.
  intros I [Hne [(x & Hx & E)|(x & y & Hx & Hy & E)]]; split; try exact Hne.
  - left. exists x. split; [apply I; exact Hx|exact E].
  - right. exists x, y. split; [apply I; exact Hx|]. split; [apply I; exact Hy|exact E].
Qed.

Lemma short_lines_loop_facts (short : Z) (joint endings : str) (limit : Z)
    (lines : list str) :
  visible joint = [] ->
  Forall (stripped_or_joined short joint limit lines)
    (short_lines_loop short joint endings limit lines)
  /\ (length (short_lines_loop short joint endings limit lines) <= length lines)%nat
  /\ visible_text (short_lines_loop short joint endings limit lines)
     = visible_text lines.
Proof.
  intros J.
  induction lines as [lines IH] using (induction_ltof1 _ (@length str)).
  unfold ltof in IH.
  destruct lines as [|line rest]; [repeat split; constructor|].
  assert (Up : forall tail, incl tail (line :: rest) ->
                 Forall (stripped_or_joined short joint limit tail)
                   (short_lines_loop short joint endings limit tail) ->
                 Forall (stripped_or_joined short joint limit (line :: rest))
                   (short_lines_loop short joint endings limit tail)).
  { intros tail I F.
    apply (Forall_impl _ (P := stripped_or_joined short joint limit tail));
      [|exact F].
    intros l. apply stripped_or_joined_more. exact I. }
  destruct (IH rest ltac:(simpl; lia)) as (F & L & V).
  cbn [short_lines_loop].
  destruct (Py.strip line) as [|c t] eqn:S.
  - split; [apply Up; [apply incl_tl, incl_refl|exact F]|].
    split; [cbn [length]; unfold str, char in *; lia|].
    rewrite V, (visible_text_cons line rest), <- (visible_strip line), S.
    reflexivity.
  - assert (Keep : Forall (stripped_or_joined short joint limit (line :: rest))
                     ((c :: t) :: short_lines_loop short joint endings limit rest)
                   /\ (length ((c :: t)
                               :: short_lines_loop short joint endings limit rest)
                       <= length (line :: rest))%nat
                   /\ visible_text
                        ((c :: t) :: short_lines_loop short joint endings limit rest)
                      = visible_text (line :: rest)).
    { split; [|split; [cbn [length]; unfold str, char in *; lia|]].
      - constructor; [|apply Up; [apply incl_tl, incl_refl|exact F]].
        split; [discriminate|]. left. exists line.
        split; [left; reflexivity|symmetry; exact S].
      - rewrite !visible_text_cons, V, <- (visible_strip line), S. reflexivity. }
    destruct rest as [|next rest']; [exact Keep|].
    destruct ((Py.len (c :: t) <? short)%Z && negb (ends_in (c :: t) endings))
      eqn:C; [|exact Keep].
    destruct (Z.leb_spec (Py.len ((c :: t) ++ joint ++ Py.strip next)) limit)
      as [Fit|_]; [|exact Keep].
    apply andb_true_iff in C. destruct C as [C _]. apply Z.ltb_lt in C.
    destruct (IH rest' ltac:(simpl; lia)) as (F' & L' & V').
    split; [|split; [cbn [length]; unfold str, char in *; lia|]].
    + constructor.
      * split; [discriminate|]. right. exists line, next.
        rewrite S. split; [left; reflexivity|].
        split; [right; left; reflexivity|]. repeat split; assumption.
      * apply Up; [|exact F']. apply incl_tl, incl_tl, incl_refl.
    + rewrite !visible_text_cons, V', !visible_app, J, visible_strip,
        <- (visible_strip line), S.
      cbn [app]. rewrite <- app_assoc. reflexivity.
Qed.

Lemma short_pass_facts (short : Z) (joint endings : str) (limit : Z)
    (lines : list str) :
  visible joint = [] ->
  let result :=
    if (length lines <=? 1)%nat then lines
    else short_lines_loop short joint endings limit lines in
  ((length lines <= 1)%nat -> result = lines)
  /\ ((1 < length lines)%nat ->
      Forall (stripped_or_joined short joint limit lines) result)
  /\ (length result <= length lines)%nat
  /\ visible_text result = visible_text lines.
Proof.
  intros J. cbv zeta.
  destruct (@short_lines_loop_facts short joint endings limit lines J)
    as (F & L & V).
  destruct (Nat.leb_spec (length lines) 1) as [H|H].
  - split; [reflexivity|]. split; [lia|]. split; [apply Nat.le_refl|reflexivity].
  - split; [lia|]. split; [intros _; exact F|]. split; assumption.
Qed.

(** X25: the public passes that join short lines.  [merge_short_lines] of
    the Chinese and of the Korean processor gives back a list of at most
    one line as it is.  For a longer list, every line that it returns is
    not empty and is a line of the input, stripped, or a line of the
    input of fewer than six (Korean: five) characters when stripped,
    joined to another one without (Korean: with) a space, and then it
    is within the character limit of the configuration.  It never
    returns more lines than it was given, and the visible characters of
    the lines, read in order, are those of the input. *)
Theorem short_lines_joined (config : ProcessingConfig) (lines : list str) :
  Forall (fun '(merge, short, joint) =>
            ((length lines <= 1)%nat -> merge config lines = lines)
            /\ ((1 < length lines)%nat ->
                Forall (stripped_or_joined short joint (limit_of config) lines)
                  (merge config lines))
            /\ (length (merge config lines) <= length lines)%nat
            /\ visible_text (merge config lines) = visible_text lines)
    short_line_passes.
Proof.
  unfold short_line_passes. constructor; [|constructor; [|constructor]].
  - apply (@short_pass_facts 6%Z [] ChineseProcessor.sentence_endings
             (limit_of config) lines eq_refl).
  - apply (@short_pass_facts 5%Z [SPACE] KoreanProcessor.sentence_endings
             (limit_of config) lines eq_refl).
Qed.

(** The Korean pass joins a short line to a blank one and leaves the
    space of the joint at the end of the line. *)
Example korean_joint_left_over :
  KoreanProcessor.merge_short_lines default_config [[44032]; [SPACE]]
  = [[44032; SPACE]].
Proof. vm_compute. reflexivity. Qed.

(** ** The text of a processed document *)

Lemma stops_added_refl (s : str) : stops_added s s.
Proof. induction s; constructor; assumption. Qed.

Lemma stops_added_app (a a' b b' : str) :
  stops_added a a' -> stops_added b b' -> stops_added (a ++ b) (a' ++ b').
Proof.
  intros H K. induction H; cbn [app]; [exact K| |];
    constructor; assumption.
Qed.

Lemma text_kept_refl (config : ProcessingConfig) (ls : list str) :
  text_kept config ls ls.
Proof.
  unfold text_kept. destruct (no_punct_fix config);
    [reflexivity|apply stops_added_refl].
Qed.

Lemma text_kept_app (config : ProcessingConfig) (a a' b b' : list str) :
  text_kept config a a' -> text_kept config b b' ->
  text_kept config (a ++ b) (a' ++ b').
Proof.
  unfold text_kept. rewrite !visible_text_app.
  destruct (no_punct_fix config).
  - intros -> ->. reflexivity.
  - apply stops_added_app.
Qed.

Lemma text_kept_before (config : ProcessingConfig) (a a' b : list str) :
  visible_text a' = visible_text a ->
  text_kept config a b -> text_kept config a' b.
Proof. unfold text_kept. intros ->. exact (fun H => H). Qed.

Section Document.

Variable lower : str -> str.

Lemma chinese_text_kept (config : ProcessingConfig) (block : SubtitleBlock) :
  text_kept config (lines block)
    (lines (ChineseProcessor.process_block config block)).
Proof.
  unfold ChineseProcessor.process_block, text_kept.
  destruct (lines block) as [|l ls] eqn:E.
  { rewrite E. destruct (no_punct_fix config); [reflexivity|apply stops_added_refl]. }
  cbn [lines]. pose proof (chinese_lines_visible config (l :: ls)) as V.
  cbv zeta in V. destruct (no_punct_fix config); cbn [negb]; [exact V|].
  match goal with
  | |- stops_added _ (visible_text (ChineseProcessor._add_missing_punctuation ?x)) =>
      destruct (chinese_punctuation_visible x) as [P|P]; rewrite P, V
  end; [apply stops_added_refl|].
  rewrite <- (app_nil_r (visible_text (l :: ls))) at 1.
  apply stops_added_app; [apply stops_added_refl|].
  constructor; [left; reflexivity|constructor].
Qed.

Lemma korean_text_kept (config : ProcessingConfig) (block : SubtitleBlock) :
  text_kept config (lines block)
    (lines (KoreanProcessor.process_block config block)).
Proof.
  unfold KoreanProcessor.process_block, text_kept.
  destruct (lines block) as [|l ls] eqn:E.
  { rewrite E. destruct (no_punct_fix config); [reflexivity|apply stops_added_refl]. }
  cbn [lines]. pose proof (korean_lines_visible config (l :: ls)) as V.
  cbv zeta in V. destruct (no_punct_fix config); cbn [negb]; [exact V|].
  match goal with
  | |- stops_added _ (visible_text (KoreanProcessor._add_missing_punctuation ?x)) =>
      destruct (korean_punctuation_visible x) as [P|P]; rewrite P, V
  end; [apply stops_added_refl|].
  rewrite <- (app_nil_r (visible_text (l :: ls))) at 1.
  apply stops_added_app; [apply stops_added_refl|].
  constructor; [right; reflexivity|constructor].
Qed.

Lemma english_text_kept (config : ProcessingConfig) (block : SubtitleBlock) :
  text_kept config (lines block)
    (lines (EnglishProcessor.process_block lower config block)).
Proof.
  assert (V : visible_text (lines (EnglishProcessor.process_block lower config block))
              = visible_text (lines block)).
  { unfold EnglishProcessor.process_block.
    destruct (lines block) as [|l ls] eqn:E; [rewrite E; reflexivity|].
    cbn [lines]. rewrite merge_short_lines_visible.
    apply (english_lines_visible lower config (l :: ls)). }
  unfold text_kept. rewrite V.
  destruct (no_punct_fix config); [reflexivity|apply stops_added_refl].
Qed.

(** Every engine keeps the text of a block. *)
Lemma engine_text_kept (l : Language) (p : Processor) (config : ProcessingConfig)
    (block : SubtitleBlock) :
  SRTProcessor.processors lower l = Some p ->
  text_kept config (lines block) (lines (process_block p config block)).
Proof.
  destruct l; cbn [SRTProcessor.processors]; intros E; try discriminate;
    injection E as <-; cbn [process_block SRTProcessor.chinese
                            SRTProcessor.english SRTProcessor.korean].
  - apply chinese_text_kept.
  - apply english_text_kept.
  - apply korean_text_kept.
Qed.

(** The lines of a run and the lines after it hold the visible
    characters of the lines they were taken from. *)
Lemma take_run_visible (l : Language) (rest : list str) :
  forall more remaining,
    take_run l rest = (more, remaining) ->
    visible_text rest = visible_text more ++ visible_text remaining.
Proof.
  induction rest as [|x rest IH]; intros more remaining E; cbn [take_run] in E.
  - injection E as <- <-. reflexivity.
  - unfold run_test in E. destruct (is_blank x) eqn:B.
    + rewrite visible_text_cons, (visible_blank _ B). cbn [app].
      apply IH. exact E.
    + destruct (Language_eqb _ l).
      * destruct (take_run l rest) as [m r]. injection E as <- <-.
        rewrite !visible_text_cons, (IH m r eq_refl), app_assoc. reflexivity.
      * injection E as <- <-. reflexivity.
Qed.

Lemma process_run_kept (config : ProcessingConfig) (block : SubtitleBlock)
    (l : Language) (consecutive_lines : list str) :
  text_kept config consecutive_lines
    (SRTProcessor.process_run lower config block l consecutive_lines).
Proof.
  unfold SRTProcessor.process_run.
  destruct (SRTProcessor.processors lower l) as [p|] eqn:P;
    [|apply text_kept_refl].
  exact (@engine_text_kept l p (replace_language config l)
           {| index := index block; time_code := time_code block;
              lines := consecutive_lines; language := Some l;
              is_sdh := is_sdh block |} P).
Qed.

Lemma bilingual_loop_kept (config : ProcessingConfig) (block : SubtitleBlock)
    (rest : list str) :
  text_kept config rest (SRTProcessor.bilingual_loop lower config block rest).
Proof.
  induction rest as [rest IH] using (induction_ltof1 _ (@length str)).
  unfold ltof in IH.
  destruct rest as [|line rest']; [simp bilingual_loop; apply text_kept_refl|].
  simp bilingual_loop.
  generalize (inspect (is_blank line)). intros [b Hb].
  destruct b; simp bilingual_loop.
  - apply (@text_kept_app config [line] [line]);
      [apply text_kept_refl|apply IH; simpl; lia].
  - generalize (inspect (take_run (LanguageDetector.detect_line_language line) rest')).
    intros [[more remaining] T]. simp bilingual_loop.
    pose proof (take_run_length _ _ T) as L.
    pose proof (take_run_visible _ _ T) as V.
    apply (@text_kept_before config ((line :: more) ++ remaining)).
    + cbn [app]. rewrite !visible_text_cons, visible_text_app, V. reflexivity.
    + apply text_kept_app; [apply process_run_kept|].
      apply IH. simpl. lia.
Qed.

(** X26: processing a document keeps the text.  [_process_document]
    returns the blocks one for one, and in the lines of every block, of
    one language or of two, the visible characters, read in order, are
    those of the lines of the block it was made from: exactly those when
    the punctuation pass is off, and with nothing but full stops (the
    ideographic one of the Chinese engine, the one of the Korean engine)
    put in when it is on.  No visible character is lost, changed or
    moved. *)
Theorem process_document_keeps_text (config : ProcessingConfig)
    (d : SRTDocument) :
  Forall2 (fun before after => text_kept config (lines before) (lines after))
    (blocks d) (blocks (SRTProcessor._process_document lower config d)).
Proof.
  unfold SRTProcessor._process_document. cbn [blocks].
  induction (blocks d) as [|b bs IH]; cbn [map]; constructor; [|exact IH].
  destruct (SRTProcessor._is_bilingual_block b).
  - apply bilingual_loop_kept.
  - destruct (SRTProcessor.processors lower (SRTProcessor.block_language_of d b))
      as [p|] eqn:P; [|apply text_kept_refl].
    apply (@engine_text_kept _ p config b P).
Qed.

End Document.

(** A line of hiragana and a line of Latin letters make a bilingual
    block: the Latin line goes through the English engine and the
    hiragana, for which there is no engine, is left as it is. *)
Example bilingual_text_kept :
  SRTProcessor._is_bilingual_block
    (new_block 1%Z tc1 [hiragana_line; lit "Hello there"]) = true
  /\ lines (SRTProcessor._process_bilingual_block ascii_lower default_config
              (new_block 1%Z tc1 [hiragana_line; lit "Hello there"]))
     = [hiragana_line; lit "Hello there"].
Proof. vm_compute. split; reflexivity. Qed.

(** ** No violation without a warning *)

Lemma line_warnings_complete (config : ProcessingConfig) (block_index : Z)
    (ls : list str) :
  forall (line_idx : Z) (n : nat) (line : str),
    nth_error ls n = Some line ->
    is_blank line = false ->
    (get_character_limit config (LanguageDetector.detect_line_language line)
     < Py.len line)%Z ->
    In (ExceedsCharacterLimit block_index (line_idx + Z.of_nat n + 1)
          (Py.len line)
          (get_character_limit config
             (LanguageDetector.detect_line_language line))
          (LanguageDetector.detect_line_language line))
       (SRTProcessor.line_warnings config block_index line_idx ls).
Proof.
  induction ls as [|l rest IH]; intros idx n line N B O;
    [destruct n; discriminate|].
  cbn [SRTProcessor.line_warnings]. apply in_or_app.
  destruct n as [|n]; cbn [nth_error] in N.
  - injection N as ->. left. rewrite B.
    apply Z.ltb_lt in O. rewrite O. left. f_equal. lia.
  - right.
    replace (idx + Z.of_nat (S n) + 1)%Z with (idx + 1 + Z.of_nat n + 1)%Z by lia.
    apply IH; assumption.
Qed.

(** X27: the validator leaves no violation without a warning.  For a
    block of the document whose language has a processor, every line
    that is not blank and is longer than the character limit of its own
    detected language has its character warning among the warnings of
    [validate_document], with the index of the block, the number of the
    line, its length and the limit; and when the speed check is on and
    the engine rejects the reading speed of the block, the block has its
    speed warning. *)
Theorem violations_are_reported (lower : str -> str) (config : ProcessingConfig)
    (d : SRTDocument) (b : SubtitleBlock) (processor : Processor) :
  In b (blocks d) ->
  SRTProcessor.processors lower (SRTProcessor.block_language_of d b)
  = Some processor ->
  (forall n line,
      nth_error (lines b) n = Some line ->
      is_blank line = false ->
      (get_character_limit config (LanguageDetector.detect_line_language line)
       < Py.len line)%Z ->
      In (character_warning_of config b n line)
         (warnings (SRTProcessor.validate_document lower config d)))
  /\ (no_speed_check config = false ->
      validate_reading_speed processor config b = false ->
      In (speed_warning_of config d b)
         (warnings (SRTProcessor.validate_document lower config d))).
Proof.
  intros Hb P. unfold SRTProcessor.validate_document. cbn [warnings].
  assert (W : forall w, In w (SRTProcessor.block_warnings lower config d b) ->
                        In w (flat_map (SRTProcessor.block_warnings lower config d)
                                (blocks d))).
  { intros w Hw. apply in_flat_map. exists b. split; assumption. }
  split.
  - intros n line N B O. apply W. unfold SRTProcessor.block_warnings.
    cbv zeta. rewrite P. apply in_or_app. left.
    exact (@line_warnings_complete config (index b) (lines b) 0%Z n line N B O).
  - intros S V. apply W. unfold SRTProcessor.block_warnings.
    cbv zeta. rewrite P, S, V. apply in_or_app. right. left. reflexivity.
Qed.

Lemma violations_are_reported_witness :
  (forall n line,
      nth_error (lines crowded_block) n = Some line ->
      is_blank line = false ->
      (get_character_limit english_config
         (LanguageDetector.detect_line_language line) < Py.len line)%Z ->
      In (character_warning_of english_config crowded_block n line)
         (warnings (SRTProcessor.validate_document ascii_lower english_config
                      crowded_document)))
  /\ (no_speed_check english_config = false ->
      validate_reading_speed (SRTProcessor.english ascii_lower) english_config
        crowded_block = false ->
      In (speed_warning_of english_config crowded_document crowded_block)
         (warnings (SRTProcessor.validate_document ascii_lower english_config
                      crowded_document))).
Proof.
  apply (@violations_are_reported ascii_lower english_config crowded_document
           crowded_block (SRTProcessor.english ascii_lower)).
  - left. reflexivity.
  - reflexivity.
Defined.

(** The line of the crowded block is too long and the block is too
    fast to read: two warnings. *)
Example crowded_document_warnings :
  warnings (SRTProcessor.validate_document ascii_lower english_config
              crowded_document)
  = [character_warning_of english_config crowded_block 0 (repeat 97 60);
     speed_warning_of english_config crowded_document crowded_block].
Proof. vm_compute. reflexivity. Qed.
